(* ===== verification/_CoqProject ===== *)
-Q . S2P
Prelude.v
PyVal.v
Dict.v
Sha256.v
Identity.v
Strict.v
Fingerprint.v
CpuSet.v
Numbers.v
Pool.v
Economics.v
Arena.v
CreditCurve.v
EvidenceRef.v
Leases.v
Recovery.v
Stack.v
Store.v
StackState.v
Queue.v
LeaseRows.v
LeaseStore.v
RecoveryStore.v
LeaseInvariant.v
Admission.v
Copies.v
AdmissionInvariant.v
LeaseSafety.v
LeaseMachine.v
QueueContracts.v
AdmissionContracts.v
CopyContracts.v
LeaseContracts.v
RecoveryContracts.v
Publication.v
Effects.v
Floats.v
Chain.v
Journal.v
Reconcile.v
ReconcileTrace.v
ReconcileContracts.v
Offers.v
FollowerJournal.v
FollowerContracts.v
CommitContracts.v
PublicationExample.v
StackContracts.v
Selection.v
Qualification.v
RewardTargets.v
Projection.v
ProjectionContracts.v
ProjectionRun.v
QualificationIntake.v
Candidate.v
Settlement.v
SettlementContracts.v
LineageContracts.v
SettlementRecords.v
SettlementExample.v
SettlementRows.v
SettlementStore.v
Baseline.v
QualificationProgress.v
SettlementJournal.v
BaselineContracts.v
CohortRecords.v
CohortContracts.v
SettleContracts.v
SettlementCommit.v
SettlementMachine.v
SettlementLeasing.v
SettlementProgress.v
SettlementRun.v
BaselineRun.v
CohortRun.v
