(* ===== verification/Prelude.v ===== *)
(** * Cacheon: verification of the validator's control-plane logic

    Cacheon runs a subnet in which miners submit engine bundles, a validator
    measures them on leased workers, settles the winners into an evaluation
    stack, turns the standing winners into a weight vector, and publishes that
    vector on a chain. This development models the decision logic of the Python
    package [src/cacheon]: what is stored, under which checks it changes, what is
    signed, and what the numbers add up to. Definitions keep the names of the
    source; a name that the source uses twice is prefixed by its file here.

    ** The parts, and how they interact

    - Foundations. [Prelude] has the error monad ([result]: a value, or an
      exception by class and constant message), guards ([raise_if]), Python's
      total orders and sorting; [PyVal] Python values, texts and dictionaries;
      [Dict] dictionaries with text keys; [Effects] the state-and-error monad
      and its weakest preconditions; [Floats] binary64 arithmetic.
    - Identity ([Sha256], [Identity]; [stack_identity.py]): SHA-256, HMAC,
      canonical JSON bytes and the domain-separated digests every other part
      stores. [Strict] is [_strict.py]: digests, integers, identifiers, node
      members and their overlap.
    - Evaluation ([Leases], [Recovery], [Store], [StackState], [Queue], [LeaseRows],
      [LeaseStore], [RecoveryStore]; [chain/evaluation_leases.py],
      [evaluation_recovery.py], [evaluation_lease_store.py],
      [evaluation_lease_schema.py], [evaluation_recovery_store.py],
      [arena_state.py], and the queue of [intake.py]). [Store] is the database:
      tables as maps and lists, the constraints and triggers of the schema, and
      [transaction], which undoes a failed body. [StackState] reopens the stack a
      stored row or binding names; [Queue] selects what a claim
      may bind; [LeaseStore] claims, expires and completes leases, where the
      code that the caller runs inside [accept_evaluation_result] is any
      [body_program] (reads, fenced updates, dispositions, nested
      transactions, handled exceptions); an infinite one is not represented.
      [RecoveryStore] moves the recovery of a leased attempt. [LeaseInvariant],
      [LeaseSafety] and [LeaseMachine] are the invariant of the lease tables,
      its preservation by every operation, and the operations as one step
      relation; [QueueContracts], [LeaseContracts] and [RecoveryContracts] state
      what each operation does, refusals included.
    - Intake ([Fingerprint], [Admission], [Copies]; [copy_fingerprint.py] and
      [intake.py]). [Admission] is what a finalized block of arrivals does to the
      queue: verdicts, payments, credits, the cursor; [Copies] publishes fetched
      bundles and demotes copies of earlier ones by their [Fingerprint]s.
      [AdmissionInvariant] shows that they keep the invariant of the lease
      tables; [AdmissionContracts] and [CopyContracts] state what they do.
    - Qualification ([QualificationIntake], [Baseline], [QualificationProgress];
      [eval/qualification_intake.py], [chain/baseline_segments.py], [intake.py]).
      [QualificationIntake] has the sealed authority of a cohort, the verdicts on
      its members and the batch they are handed over in; [QualificationProgress]
      claims rows for a cohort and stores its batch; [Baseline] binds queued rows
      to the incumbent they are measured against, and is the gate of the
      commission. Both are programs on the settlement database below.
      [CohortRecords], [CohortContracts] and [BaselineContracts] are the theorems,
      [CohortRun] and [BaselineRun] apply them to a run. [Selection]
      ([eval/qualification.py]) commits to a pool of prompts and reveals the ones
      that quality is measured on.
    - Placement ([CpuSet]; [eval/oci_cpuset.py]): cpusets and the pin table of
      a lane.
    - Rewards ([Pool], [Economics], [Arena], [CreditCurve], [RewardTargets],
      [Projection]; [economics.py], [arena_allocation.py]): the exact integer
      split of a pool, the validated records of the reward policy and claims, the
      pricing of submissions into a weight vector, what a claim earns at a block
      (in Python's decimals of 50 digits, whose logarithm, root and power follow
      the standard library's Python definitions), the targets of a stack that may
      be rewarded together, and the projection of all of it into one weight
      vector. [ProjectionContracts] has the theorems about the projection,
      [ProjectionRun] applies them to two arenas and a bounty.
    - Settlement ([Numbers], [Stack], [Qualification], [Candidate],
      [Settlement]; [stack_manifest.py], [stack_plan.py], [settlement.py],
      [settlement_acceptance.py]): the manifest of an evaluation stack and one
      marginal transition of it, the projection of a passed run, candidates and
      the evidence bound to them, and the plan that selects a winner and emits a
      hash-chained event list. [StackContracts], [SettlementContracts],
      [LineageContracts] and [SettlementRecords] are the theorems;
      [SettlementExample] runs a settlement of three candidates and applies
      them. [Numbers] is the decimal arithmetic that speeds are compared in,
      [EvidenceRef] the evidence reference shared with publication.
      [SettlementRows] and [SettlementStore] are the database: the tables beside
      those of [Store], and the programs that lease, commit, recover and retain
      ([intake.py], [qualification_settlement.py], [evaluation_order.py]).
      [SettlementJournal], [SettleContracts], [SettlementCommit],
      [SettlementLeasing] and [SettlementProgress] state what they do;
      [SettlementMachine] has every operation on that database, qualification
      and the whole queue included, as one step relation, and its invariant;
      [SettlementRun] runs a settlement and applies the theorems to it.
    - Publication ([Publication], [Chain], [Journal], [Reconcile], [Offers],
      [FollowerJournal]; [chain/weight_publication_record.py],
      [weight_projection.py], [chain/__init__.py], [weights.py],
      [weight_commit.py], [weight_share.py], [weight_push_auth.py], and the
      follower's journal of [intake.py]). [Journal] has the two journal
      protocols as type classes and their laws; [Reconcile] is proved against
      the classes, over the chain client as a parameter; [FollowerJournal] is an
      instance, and [FollowerContracts] discharges the laws for it.
      [ReconcileTrace], [ReconcileContracts] and [CommitContracts] are the
      theorems about runs; [PublicationExample] runs a publisher and a follower
      on a small concrete chain, and is where those theorems are applied.

    ** How state and effects are modelled

    A database operation is a function from the store to the store it leaves and
    its result; a raise inside [transaction] leaves the store unchanged, a raise
    outside one keeps what was committed before. A publication program is a
    function on an environment of three parts: the chain client's own state,
    the journal, and the list of effects so far (what was observed on the chain,
    journaled, and handed to the signer, in order). Theorems about ordering are
    theorems about that list. Integers are Python's, unbounded; where SQLite
    bounds them the bound is a check. Floats are binary64.

    ** What the theorems show

    Evaluation: in every reachable store an active lease binds its members
    exclusively; a claim binds exactly the selected rows, a refused result
    changes nothing, an accepted one disposes of every member exactly once; the
    stored history of a recovery is one that the audit of the code accepts, while
    finalized blocks do not go back, with two exceptions that are proved as such. Intake: every admitted row is paid for
    when there is a fee, a block gives each new arrival one row, the bounds of the
    queue and of a hotkey hold, and copies of earlier submissions lose.
    Qualification: a batch decides each member of its cohort once and touches no
    other row, a completed run is never repeated by itself, an undecided cohort
    whose digests compute has a consistent batch whose retry plan lists each member
    once, what the gate of the
    commission binds, with the retry groups of its own arena that it does not repair, and that
    nothing is left to choose between a prompt commitment and its reveal.
    Identity: digests bind content up to SHA-256 collisions. Rewards: splits are
    exact, order-independent and monotone, rewarded targets do not overlap, every
    crown that is paid stands on a PASS, and the projection is order-independent and
    passes its own checks.
    Settlement: who wins, one verdict for each candidate, the event
    chain, what adoption leaves alone, the threshold of an ancestor up to
    decimal rounding; in the database, the stored journal is one chain that only
    grows, a settlement happens once, a commit moves the stack as planned, a lease is
    the earliest cohort that need not wait, and the oldest candidate of an
    uncontended queue is leased. Publication: nothing is signed
    over an open attempt, nothing is confirmed without a matching finalized readback, the journal
    stays one chain, loading it terminates, and a published offer never goes
    back.

    ** Bounds and fuel

    [json_native_loop] has one step for each value in the tree ([json_native_loop_spec]),
    [digits_loop] one for each binary digit ([digits_loop_spec]) and [strip_zeros]
    one for each character of the text; [compress_all] takes one step per message
    word, [closure] one step per row of the catalog and one more ([closure_ends]), [load_within] one step per row and one more ([load_terminates]), and
    [walk_lineage] one step per stored node and two more; historical chain reads are
    retried at most eight times, as in the source. In [CreditCurve], [drop_zeros] has
    one step per digit that may go, [reduce_log] allows 64 halvings of an argument
    that needs about a dozen, and [more_digits] a hundred extensions of a result
    whose rounding is undecided; each is needed for one argument in a thousand, and
    no proof bounds them. No other definition has fuel.

    ** Not modelled

    Exception texts beyond their constant part; logging, sleeping and printing;
    JSON texts in database columns (a column holds the value its text encodes,
    so malformed text is not represented); schema migrations, and the two
    repairs of older databases ([accept_retained_primary_passes] and
    [backfill_target_lineage_tips]); the Bittensor SDK,
    HTTP and object stores (parameters, or left out); the command line and the
    service loops; fetching, archives and publication of bundles; the half of copy
    detection that parses Python and CUDA sources; engine trees, the target catalog
    and the registry (walks over file trees; the digest of a composed tree is a
    parameter); everything that launches, measures or inspects engines,
    containers, GPUs and remote workers ([eval/] but for the qualification intake
    and cpusets, [integrations/], [patchers/]), so the reports of a cohort are
    inputs; prices and payments read from the chain; reward
    evidence, decay and rejection of settled discoveries.
    A request plan stored with a recovery is reopened by a parameter,
    [reopen_plan], of the plan's text, the lease, the plan's digest and the request;
    theorems that need more of it assume a [PlanCodec]: a plan that decodes for a
    lease decodes for its later deadlines. [get] returns the stored row; the
    checks of [_row] on a reopened row are [opened] of [Admission] where the
    code relies on them, and a row that they refuse is corruption from outside. *)

From Stdlib Require Import OrdersEx.
From Stdlib Require Export Sorted.
From stdpp Require Export base tactics numbers strings gmap list.

(** ** The error monad

    A Python call either returns a value or raises an exception, which we keep
    as the exception's class and the constant part of its message. *)

Record exn := Exn { exn_class : string; exn_message : string }.

#[export] Instance exn_eq_dec : EqDecision exn.
Proof. solve_decision. Defined.

Inductive result (A : Type) : Type :=
  | Ok (a : A)
  | Raise (e : exn).
Arguments Ok {A} a.
Arguments Raise {A} e.

#[export] Instance result_ret : MRet result := fun A a => Ok a.
#[export] Instance result_bind : MBind result := fun A B f m =>
  match m with Ok a => f a | Raise e => Raise e end.
#[export] Instance result_fmap : FMap result := fun A B f m =>
  match m with Ok a => Ok (f a) | Raise e => Raise e end.
#[export] Instance result_eq_dec `{EqDecision A} : EqDecision (result A).
Proof. solve_decision. Defined.

Definition is_ok {A} (m : result A) : bool :=
  match m with Ok _ => true | Raise _ => false end.

Declare Scope py_scope.
Delimit Scope py_scope with py.
Open Scope py_scope.

(** [if bad: raise e] followed by the rest of the body. *)
Notation "'raise_if' b 'with' e ; k" :=
  (if b then Raise e else k)
  (at level 10, b at level 99, e at level 10, k at level 200,
   format "'raise_if'  b  'with'  e ; '//' k") : py_scope.

Definition raise_when (b : bool) (e : exn) : result () :=
  if b then Raise e else Ok ().

(** [for x in xs: body] where the body may raise and threads an accumulator. *)
Fixpoint fold_result {A B} (f : B -> A -> result B) (l : list A) (b : B) : result B :=
  match l with
  | [] => Ok b
  | x :: l => b' ← f b x; fold_result f l b'
  end.

(** [tuple(f(x) for x in xs)] where [f] may raise: the first failure wins. *)
Fixpoint map_result {A B} (f : A -> result B) (l : list A) : result (list B) :=
  match l with
  | [] => Ok []
  | x :: l => y ← f x; ys ← map_result f l; Ok (y :: ys)
  end.

Lemma bind_Ok {A B} (m : result A) (f : A -> result B) b :
  m ≫= f = Ok b <-> exists a, m = Ok a /\ f a = Ok b.
Proof. destruct m; naive_solver. Qed.

Lemma bind_Raise {A B} (m : result A) (f : A -> result B) e :
  m ≫= f = Raise e <-> m = Raise e \/ exists a, m = Ok a /\ f a = Raise e.
Proof. destruct m; naive_solver. Qed.

Lemma fmap_Ok {A B} (f : A -> B) (m : result A) b :
  f <$> m = Ok b <-> exists a, m = Ok a /\ f a = b.
Proof. destruct m; naive_solver. Qed.

Lemma is_ok_fmap {A B} (f : A -> B) (m : result A) : is_ok (f <$> m) = is_ok m.
Proof. by destruct m. Qed.

Lemma is_ok_bind {A B} (m : result A) (f : A -> result B) :
  is_ok (m ≫= f) = match m with Ok a => is_ok (f a) | Raise _ => false end.
Proof. by destruct m. Qed.

Lemma is_ok_true {A} (m : result A) : is_ok m = true <-> exists a, m = Ok a.
Proof. destruct m; naive_solver. Qed.

Lemma raise_when_Ok b e : raise_when b e = Ok () <-> b = false.
Proof. destruct b; naive_solver. Qed.

Lemma map_result_Forall2 {A B} (f : A -> result B) l l' :
  map_result f l = Ok l' <-> Forall2 (fun x y => f x = Ok y) l l'.
Proof.
  revert l'. induction l as [|x l IH]; intros l'; simpl.
  - split; [intros [= <-]; constructor | by inversion 1].
  - rewrite bind_Ok. setoid_rewrite bind_Ok. split.
    + intros (y & Hy & ys & Hys & [= <-]). constructor; [done | by apply IH].
    + inversion 1 as [|? y ? ys Hy Hys]; subst. apply IH in Hys. eauto 6.
Qed.

Lemma map_result_length {A B} (f : A -> result B) l l' :
  map_result f l = Ok l' -> length l' = length l.
Proof. intros H%map_result_Forall2. by symmetry; eapply Forall2_length. Qed.

Lemma fold_result_invariant {A B} (P : B -> Prop) (f : B -> A -> result B) l b b' :
  (forall c x c', x ∈ l -> P c -> f c x = Ok c' -> P c') ->
  P b -> fold_result f l b = Ok b' -> P b'.
Proof.
  revert b. induction l as [|x l IH]; intros b Hf Hb; simpl.
  - by intros [= <-].
  - intros (c & Hc & Hl)%bind_Ok. eapply IH; [| |exact Hl].
    + intros; eapply Hf; [by right | done | done].
    + eapply Hf; [by left | exact Hb | exact Hc].
Qed.

(** A fold may skip the elements that leave the state unchanged. *)
Lemma fold_result_filter {A B} (f g : B -> A -> result B) (P : A -> Prop) `{forall x, Decision (P x)} l b c :
  (forall b x b', x ∈ l -> ~ P x -> f b x = Ok b' -> b' = b) ->
  (forall b x, x ∈ l -> P x -> g b x = f b x) ->
  fold_result f l b = Ok c -> fold_result g (filter P l) b = Ok c.
Proof.
  revert b. induction l as [|x l IH]; intros b Hskip Hsame; simpl; [done|].
  intros (b' & Hb & Hf)%bind_Ok. rewrite filter_cons. case_decide as HP.
  - simpl. rewrite Hsame by (done || by left). rewrite Hb. apply IH; [| |done].
    + intros ? y ? Hy. apply Hskip. by right.
    + intros ? y Hy. apply Hsame. by right.
  - apply Hskip in Hb as ->; [|by left|done]. apply IH; [| |done].
    + intros ? y ? Hy. apply Hskip. by right.
    + intros ? y Hy. apply Hsame. by right.
Qed.

(** Decompose a hypothesis about a successful monadic call. *)
Ltac inv_ok :=
  repeat match goal with
  | H : (_ ≫= _) = Ok _ |- _ =>
      let x := fresh "x" in let Hx := fresh "Hx" in
      apply bind_Ok in H as (x & Hx & H); cbv beta in H
  | H : raise_when _ _ = Ok _ |- _ =>
      let x := fresh "Hg" in
      assert (x := H); destruct (raise_when _ _) as [[]|] eqn:? in x; [clear x|discriminate x];
      apply raise_when_Ok in H
  | H : Ok _ = Ok _ |- _ => injection H as H; try subst
  | H : Raise _ = Ok _ |- _ => discriminate H
  | H : Ok _ = Raise _ |- _ => discriminate H
  | H : mret _ = Ok _ |- _ => injection H as H; try subst
  end.

(** [simpl] exposes the fixpoint behind [f <$> l]; fold it back. *)
Ltac refold_fmap :=
  repeat match goal with
  | |- context [list_fmap ?A ?B ?f ?l] => change (list_fmap A B f l) with (f <$> l)
  end.

(** Split boolean conjunctions and disjunctions in the hypotheses. *)
Ltac split_bool :=
  repeat match goal with
  | H : (_ && _)%bool = true |- _ => apply andb_true_iff in H as [? ?]
  | H : (_ || _)%bool = false |- _ => apply orb_false_iff in H as [? ?]
  | H : negb _ = true |- _ => apply negb_true_iff in H
  | H : negb _ = false |- _ => apply negb_false_iff in H
  | H : bool_decide _ = true |- _ => apply bool_decide_eq_true in H
  | H : bool_decide _ = false |- _ => apply bool_decide_eq_false in H
  end.

(** Case-split the leading [if] of a hypothesis [H : (if b then Raise _ else k) = Ok _]. *)
Ltac step_guard H :=
  match type of H with
  | (if ?b then _ else _) = _ =>
      let E := fresh "Eg" in destruct b eqn:E; [discriminate H|]
  end.

(** ** Python's total orders

    [sorted] and tuple comparison need a total order on each type of key. *)
Class Cmp (A : Type) := cmp : A -> A -> comparison.
#[export] Hint Mode Cmp ! : typeclass_instances.

Class CmpLaws (A : Type) `{Cmp A} : Prop := {
  cmp_eq : forall x y : A, cmp x y = Eq <-> x = y;
  cmp_flip : forall x y : A, cmp y x = CompOpp (cmp x y);
  cmp_trans : forall x y z : A, cmp x y = Lt -> cmp y z = Lt -> cmp x z = Lt;
}.

Definition cmp_ltb `{Cmp A} (x y : A) : bool :=
  match cmp x y with Lt => true | _ => false end.
Definition cmp_leb `{Cmp A} (x y : A) : bool :=
  match cmp x y with Gt => false | _ => true end.

#[export] Instance cmp_Z : Cmp Z := Z.compare.
#[export] Instance cmp_string : Cmp string := String.compare.
#[export] Instance cmp_prod `{Cmp A, Cmp B} : Cmp (A * B) := fun p q =>
  match cmp (fst p) (fst q) with Eq => cmp (snd p) (snd q) | c => c end.

#[export] Instance cmp_Z_laws : CmpLaws Z.
Proof.
  split; unfold cmp, cmp_Z; intros.
  - apply Z.compare_eq_iff.
  - apply Z.compare_antisym.
  - rewrite ?Z.compare_lt_iff in *. lia.
Qed.

#[export] Instance cmp_string_laws : CmpLaws string.
Proof.
  split; unfold cmp, cmp_string; intros x y.
  - split; [apply String.compare_eq_iff|intros ->].
    pose proof (String.compare_antisym y y). by destruct (String.compare y y).
  - apply String.compare_antisym.
  - intros z. apply (StrictOrder_Transitive (R := String_as_OT.lt)).
Qed.

#[export] Instance cmp_prod_laws `{CmpLaws A, CmpLaws B} : CmpLaws (A * B).
Proof.
  split; unfold cmp, cmp_prod.
  - intros [a b] [a' b']; simpl. destruct (cmp a a') eqn:E.
    + apply cmp_eq in E as ->. rewrite cmp_eq. naive_solver.
    + split; [done|]. intros [= -> ->].
      assert (cmp a' a' = Eq) by by apply cmp_eq. congruence.
    + split; [done|]. intros [= -> ->].
      assert (cmp a' a' = Eq) by by apply cmp_eq. congruence.
  - intros [a b] [a' b']; simpl. rewrite (cmp_flip a a').
    destruct (cmp a a'); simpl; [apply cmp_flip | done | done].
  - intros [a b] [a' b'] [a'' b'']; simpl.
    destruct (cmp a a') eqn:E1; [apply cmp_eq in E1 as ->| |done];
    destruct (cmp a' a'') eqn:E2; try done.
    + apply cmp_trans.
    + apply cmp_eq in E2 as ->. by rewrite E1.
    + by rewrite (cmp_trans _ _ _ E1 E2).
Qed.

Section CmpLemmas.
Context `{CmpLaws A}.
Implicit Types x y z : A.

Lemma cmp_refl x : cmp x x = Eq.
Proof. by apply cmp_eq. Qed.

Lemma cmp_leb_refl x : cmp_leb x x = true.
Proof. unfold cmp_leb. by rewrite cmp_refl. Qed.

Lemma cmp_leb_ltb x y : cmp_leb x y = negb (cmp_ltb y x).
Proof. unfold cmp_leb, cmp_ltb. rewrite (cmp_flip x y). by destruct (cmp x y). Qed.

Lemma cmp_ltb_leb x y : cmp_ltb x y = negb (cmp_leb y x).
Proof. rewrite cmp_leb_ltb. by rewrite negb_involutive. Qed.

Lemma cmp_leb_total x y : cmp_leb x y = true \/ cmp_leb y x = true.
Proof. unfold cmp_leb. rewrite (cmp_flip x y). destruct (cmp x y); auto. Qed.

Lemma cmp_leb_antisym x y : cmp_leb x y = true -> cmp_leb y x = true -> x = y.
Proof.
  unfold cmp_leb. rewrite (cmp_flip x y).
  destruct (cmp x y) eqn:E; try done. by apply cmp_eq in E.
Qed.

Lemma cmp_leb_trans x y z :
  cmp_leb x y = true -> cmp_leb y z = true -> cmp_leb x z = true.
Proof.
  unfold cmp_leb. destruct (cmp x y) eqn:E1; try done;
    destruct (cmp y z) eqn:E2; try done; intros _ _.
  - apply cmp_eq in E1 as ->. by rewrite E2.
  - apply cmp_eq in E1 as ->. by rewrite E2.
  - apply cmp_eq in E2 as ->. by rewrite E1.
  - by rewrite (cmp_trans _ _ _ E1 E2).
Qed.

Lemma cmp_ltb_irrefl x : cmp_ltb x x = false.
Proof. unfold cmp_ltb. by rewrite cmp_refl. Qed.

Lemma cmp_ltb_trans x y z :
  cmp_ltb x y = true -> cmp_ltb y z = true -> cmp_ltb x z = true.
Proof.
  unfold cmp_ltb. destruct (cmp x y) eqn:E1; try done.
  destruct (cmp y z) eqn:E2; try done. by rewrite (cmp_trans _ _ _ E1 E2).
Qed.

Lemma cmp_ltb_total x y : x <> y -> cmp_ltb x y = true \/ cmp_ltb y x = true.
Proof.
  intros Hne. unfold cmp_ltb. rewrite (cmp_flip x y).
  destruct (cmp x y) eqn:E; auto. by apply cmp_eq in E.
Qed.
End CmpLemmas.

(** ** [sorted(xs, key=f)], a stable sort *)
Section SortedBy.
Context {A K : Type} `{CmpLaws K} (key : A -> K).

Fixpoint insert_by (x : A) (l : list A) : list A :=
  match l with
  | [] => [x]
  | y :: l' => if cmp_leb (key x) (key y) then x :: l else y :: insert_by x l'
  end.

Definition sorted_by (l : list A) : list A := foldr insert_by [] l.

Definition key_le (x y : A) : Prop := cmp_leb (key x) (key y) = true.

#[export] Instance key_le_trans : Transitive key_le.
Proof. intros x y z. apply cmp_leb_trans. Qed.

Lemma insert_by_perm x l : insert_by x l ≡ₚ x :: l.
Proof.
  induction l as [|y l IH]; simpl; [done|].
  destruct (cmp_leb _ _); [done|]. rewrite IH. apply Permutation_swap.
Qed.

Lemma sorted_by_perm l : sorted_by l ≡ₚ l.
Proof. induction l as [|x l IH]; simpl; [done|]. by rewrite insert_by_perm, IH. Qed.

Lemma insert_by_sorted x l :
  StronglySorted key_le l -> StronglySorted key_le (insert_by x l).
Proof.
  induction 1 as [|y l Hl IH Hy]; simpl; [repeat constructor|].
  destruct (cmp_leb (key x) (key y)) eqn:E.
  - constructor; [by constructor|]. constructor; [done|].
    rewrite Forall_forall in Hy |- *. intros z Hz.
    eapply cmp_leb_trans; [exact E | by apply Hy].
  - constructor; [done|]. rewrite insert_by_perm. constructor; [|done].
    unfold key_le. destruct (cmp_leb_total (key x) (key y)); congruence.
Qed.

Lemma sorted_by_sorted l : StronglySorted key_le (sorted_by l).
Proof. induction l; simpl; [constructor|]. by apply insert_by_sorted. Qed.

Lemma sorted_by_elem x l : x ∈ sorted_by l <-> x ∈ l.
Proof. by rewrite sorted_by_perm. Qed.

Lemma sorted_by_length l : length (sorted_by l) = length l.
Proof. by rewrite sorted_by_perm. Qed.

(** Two lists sorted by distinct keys that hold the same elements are equal. *)
Lemma key_sorted_unique l1 l2 :
  NoDup (key <$> l1) -> StronglySorted key_le l1 -> StronglySorted key_le l2 ->
  l1 ≡ₚ l2 -> l1 = l2.
Proof.
  revert l2. induction l1 as [|x l1 IH]; intros l2 Hnd H1 H2 Hp.
  { symmetry in Hp. by apply Permutation_nil_r in Hp as ->. }
  inversion H1 as [|?? Hs1 Hx]; subst. destruct l2 as [|y l2].
  { by apply Permutation_nil_r in Hp. }
  inversion H2 as [|?? Hs2 Hy]; subst.
  assert (x = y) as <-.
  { assert (Hxin : x ∈ y :: l2) by (rewrite <- Hp; left).
    assert (Hyin : y ∈ x :: l1) by (rewrite Hp; left).
    apply elem_of_cons in Hxin as [->|Hxin]; [done|].
    apply elem_of_cons in Hyin as [->|Hyin]; [done|].
    rewrite Forall_forall in Hx, Hy. rewrite fmap_cons in Hnd.
    apply NoDup_cons in Hnd as [Hn _]. destruct Hn.
    rewrite (cmp_leb_antisym (key x) (key y)); [|by apply Hx|by apply Hy].
    by apply list_elem_of_fmap_2. }
  f_equal. apply IH; try done.
  - by apply NoDup_cons in Hnd as [_ ?].
  - by eapply Permutation_cons_inv.
Qed.

(** With distinct keys the result does not depend on the order of the input. *)
Lemma sorted_by_unique l1 l2 :
  NoDup (key <$> l1) -> l1 ≡ₚ l2 -> sorted_by l1 = sorted_by l2.
Proof.
  intros Hnd Hp. apply key_sorted_unique; try apply sorted_by_sorted.
  - by rewrite sorted_by_perm.
  - by rewrite !sorted_by_perm.
Qed.

Lemma sorted_by_id l :
  NoDup (key <$> l) -> StronglySorted key_le l -> sorted_by l = l.
Proof.
  intros Hnd Hs. apply key_sorted_unique; [|apply sorted_by_sorted|done|].
  - by rewrite sorted_by_perm.
  - apply sorted_by_perm.
Qed.

Lemma sorted_by_fix l : StronglySorted key_le l -> sorted_by l = l.
Proof.
  induction 1 as [|x l Hl IH Hx]; simpl; [done|]. rewrite IH. destruct l as [|y l]; [done|]. simpl.
  inversion Hx as [|?? Hxy]; subst. by rewrite Hxy.
Qed.

(** Appending an element that is above all others. *)
Lemma sorted_by_snoc l x : (forall y, y ∈ l -> key_le y x) -> sorted_by (l ++ [x]) = sorted_by l ++ [x].
Proof.
  assert (Hins : forall m y, key_le y x -> insert_by y (m ++ [x]) = insert_by y m ++ [x]).
  { intros m y Hy. induction m as [|z m IH]; simpl; [by rewrite Hy|]. rewrite IH. by destruct (cmp_leb _ _). }
  induction l as [|y l IH]; intros Hl; [done|]. simpl. rewrite IH by (intros z Hz; apply Hl; by right).
  apply Hins, Hl. by left.
Qed.

Lemma sorted_by_idemp l : sorted_by (sorted_by l) = sorted_by l.
Proof. apply sorted_by_fix, sorted_by_sorted. Qed.
End SortedBy.

Lemma cmp_leb_Z (x y : Z) : cmp_leb x y = (x <=? y)%Z.
Proof. reflexivity. Qed.

Lemma filter_all {A} (P : A -> Prop) `{forall x, Decision (P x)} (l : list A) : (forall x, x ∈ l -> P x) -> filter P l = l.
Proof.
  induction l as [|x l IH]; intros Hl; [done|]. rewrite filter_cons, decide_True by (apply Hl; by left).
  f_equal. apply IH. intros y Hy. apply Hl. by right.
Qed.

Lemma filter_none {A} (P : A -> Prop) `{forall x, Decision (P x)} (l : list A) : (forall x, x ∈ l -> ~ P x) -> filter P l = [].
Proof.
  induction l as [|x l IH]; intros Hl; [done|]. rewrite filter_cons, decide_False by (apply Hl; by left).
  apply IH. intros y Hy. apply Hl. by right.
Qed.

Definition sorted_id `{CmpLaws K} (l : list K) : list K := sorted_by id l.

(** ** Distinctness, [len(set(xs)) == len(xs)] *)
Definition distinct {A} `{EqDecision A} (l : list A) : bool := bool_decide (NoDup l).

Lemma distinct_spec {A} `{EqDecision A} (l : list A) : distinct l = true <-> NoDup l.
Proof. apply bool_decide_eq_true. Qed.

Lemma NoDup_fmap_filter {A B} (f : A -> B) (P : A -> Prop) `{forall x, Decision (P x)} l :
  NoDup (f <$> l) -> NoDup (f <$> filter P l).
Proof.
  induction l as [|x l IH]; [done|]. rewrite fmap_cons. intros [Hx Hl]%NoDup_cons.
  rewrite filter_cons. case_decide; [|auto]. rewrite fmap_cons. apply NoDup_cons. split; [|auto].
  intros (y & Hy & [_ Hyl]%list_elem_of_filter)%list_elem_of_fmap.
  apply Hx, list_elem_of_fmap. eauto.
Qed.

Lemma NoDup_fmap_inj {A B} (f : A -> B) l x y :
  NoDup (f <$> l) -> x ∈ l -> y ∈ l -> f x = f y -> x = y.
Proof.
  induction l as [|z l IH]; [by intros _ ?%elem_of_nil|]. rewrite fmap_cons.
  intros [Hz Hl]%NoDup_cons Hx Hy E. apply elem_of_cons in Hx, Hy.
  destruct Hx as [->|Hx], Hy as [->|Hy]; [done| | |auto].
  - destruct Hz. rewrite E. by apply list_elem_of_fmap_2.
  - destruct Hz. rewrite <- E. by apply list_elem_of_fmap_2.
Qed.

Lemma StronglySorted_app_le {A} (R : A -> A -> Prop) l k x y :
  StronglySorted R (l ++ k) -> x ∈ l -> y ∈ k -> R x y.
Proof.
  induction l as [|z l IH]; simpl; [by intros _ ?%elem_of_nil|].
  inversion 1 as [|?? Hs Hz]; subst. intros [->|Hx]%elem_of_cons Hy; [|auto].
  rewrite Forall_forall in Hz. apply Hz. set_solver.
Qed.

Lemma size_list_to_set_le `{Countable A} (l : list A) : size (list_to_set l : gset A) <= length l.
Proof.
  induction l as [|x l IH]; [done|]. change (list_to_set (x :: l)) with ({[x]} ∪ list_to_set l : gset A).
  destruct (decide (x ∈ l)) as [Hx|Hx].
  - assert ({[x]} ∪ list_to_set l =@{gset A} list_to_set l) as -> by set_solver. simpl. lia.
  - rewrite size_union by set_solver. rewrite size_singleton. simpl. lia.
Qed.

Lemma size_list_to_set_NoDup `{Countable A} (l : list A) :
  size (list_to_set l : gset A) = length l -> NoDup l.
Proof.
  induction l as [|x l IH]; simpl; [constructor|]. intros Hs.
  pose proof (size_list_to_set_le l). destruct (decide (x ∈ l)) as [Hx|Hx].
  - exfalso. assert ({[x]} ∪ list_to_set l =@{gset A} list_to_set l) as E by set_solver.
    rewrite E in Hs. lia.
  - constructor; [done|]. apply IH. rewrite size_union in Hs by set_solver.
    rewrite size_singleton in Hs. lia.
Qed.

Create HintDb py discriminated.
#[export] Hint Resolve cmp_leb_refl cmp_leb_trans cmp_ltb_trans : py.
#[export] Hint Resolve sorted_by_sorted sorted_by_perm : py.
Create Rewrite HintDb py_cmp.
#[export] Hint Rewrite @cmp_refl @cmp_leb_refl @cmp_ltb_irrefl : py_cmp.

(** Lists compare lexicographically, as Python tuples do. *)
Fixpoint list_cmp `{Cmp A} (l k : list A) : comparison :=
  match l, k with
  | [], [] => Eq
  | [], _ :: _ => Lt
  | _ :: _, [] => Gt
  | x :: l, y :: k => match cmp x y with Eq => list_cmp l k | c => c end
  end.
#[export] Instance cmp_list `{Cmp A} : Cmp (list A) := list_cmp.

#[export] Instance cmp_list_laws `{CmpLaws A} : CmpLaws (list A).
Proof.
  split; unfold cmp, cmp_list.
  - intros l. induction l as [|x l IH]; intros [|y k]; simpl; try done.
    destruct (cmp x y) eqn:E.
    + apply cmp_eq in E as ->. rewrite IH. naive_solver.
    + split; [done|]. intros [= -> ->]. by rewrite cmp_refl in E.
    + split; [done|]. intros [= -> ->]. by rewrite cmp_refl in E.
  - intros l. induction l as [|x l IH]; intros [|y k]; simpl; try done.
    rewrite (cmp_flip x y). destruct (cmp x y); simpl; auto.
  - intros l. induction l as [|x l IH]; intros [|y k] [|z m]; simpl; try done.
    destruct (cmp x y) eqn:E1; [apply cmp_eq in E1 as ->| |done];
    destruct (cmp y z) eqn:E2; try done.
    + apply IH.
    + apply cmp_eq in E2 as ->. by rewrite E1.
    + by rewrite (cmp_trans _ _ _ E1 E2).
Qed.
