(* ===== verification/PyVal.v ===== *)
(** * Python values and strings

    The dynamic values that the modules under [src/cacheon] validate
    ([object] parameters, JSON payloads), and the string operations they use.
    A Python [str] is represented by its UTF-8 encoding: comparison by code
    point is then comparison of bytes, [str.encode] is the identity, and the
    operations that count or classify code points say so below. *)

From Stdlib Require Import Ascii Decimal DecimalString DecimalN SpecFloat.
From S2P Require Import Prelude.

(** ** Characters and strings *)

Abbreviation chr := Ascii.ascii.
Definition ord (c : chr) : N := Ascii.N_of_ascii c.
Definition in_range (lo hi : N) (c : chr) : bool := ((lo <=? ord c) && (ord c <=? hi))%N.

Definition is_digit : chr -> bool := in_range 48 57.
Definition is_lower_hex (c : chr) : bool := is_digit c || in_range 97 102 c.

Fixpoint all_chars (p : chr -> bool) (s : string) : bool :=
  match s with
  | EmptyString => true
  | String c s => p c && all_chars p s
  end.

Definition any_char (p : chr -> bool) (s : string) : bool := negb (all_chars (fun c => negb (p c)) s).

Fixpoint string_app (s t : string) : string :=
  match s with EmptyString => t | String c s => String c (string_app s t) end.

Fixpoint concat_strings (l : list string) : string :=
  match l with [] => EmptyString | s :: l => string_app s (concat_strings l) end.

(** [sep.join(l)] *)
Fixpoint join (sep : string) (l : list string) : string :=
  match l with
  | [] => EmptyString
  | [s] => s
  | s :: l => string_app s (string_app sep (join sep l))
  end.

(** [s.split(sep)] for a one-character separator. *)
Fixpoint split_on (sep : chr) (s : string) : list string :=
  match s with
  | EmptyString => [EmptyString]
  | String c s =>
      if Ascii.eqb c sep then EmptyString :: split_on sep s
      else match split_on sep s with
           | [] => [String c EmptyString]
           | w :: l => String c w :: l
           end
  end.

(** ASCII lower case, as SQLite's [LIKE] compares. *)
Definition lower_chr (c : chr) : chr := if in_range 65 90 c then Ascii.ascii_of_N (ord c + 32) else c.
Fixpoint ascii_lower (s : string) : string :=
  match s with EmptyString => EmptyString | String c s => String (lower_chr c) (ascii_lower s) end.

(** [s.startswith(p)] and [s[len(p):]] *)
Fixpoint starts_with (p s : string) : bool :=
  match p, s with
  | EmptyString, _ => true
  | String c p, String d s => Ascii.eqb c d && starts_with p s
  | String _ _, EmptyString => false
  end.

Fixpoint drop_prefix (p s : string) : string :=
  match p, s with
  | String _ p, String _ s => drop_prefix p s
  | _, _ => s
  end.

Fixpoint string_bytes (s : string) : list N :=
  match s with EmptyString => [] | String c s => ord c :: string_bytes s end.

Definition string_of_bytes (l : list N) : string :=
  foldr (fun b s => String (Ascii.ascii_of_N b) s) EmptyString l.

(** [len(s)]: code points, that is bytes that do not continue a UTF-8 sequence. *)
Definition py_len (s : string) : Z :=
  Z.of_nat (length (filter (fun b => negb ((128 <=? b) && (b <=? 191)))%N (string_bytes s))).

(** [any(ord(char) < 32 or ord(char) == 127 for char in s)] *)
Definition has_control (s : string) : bool :=
  any_char (fun c => (ord c <? 32)%N || (ord c =? 127)%N) s.

(** The UTF-8 sequences of the code points that [str.strip] removes. *)
Definition whitespace_sequences : list (list N) :=
  ([[9]; [10]; [11]; [12]; [13]; [28]; [29]; [30]; [31]; [32];
    [194; 133]; [194; 160]; [225; 154; 128];
    [226; 128; 128]; [226; 128; 129]; [226; 128; 130]; [226; 128; 131];
    [226; 128; 132]; [226; 128; 133]; [226; 128; 134]; [226; 128; 135];
    [226; 128; 136]; [226; 128; 137]; [226; 128; 138];
    [226; 128; 168]; [226; 128; 169]; [226; 128; 175]; [226; 129; 159];
    [227; 128; 128]])%N.

Definition bytes_prefix (p l : list N) : bool := bool_decide (take (length p) l = p).

(** [s.strip() == s] *)
Definition is_stripped (s : string) : bool :=
  let b := string_bytes s in
  negb (existsb (fun w => bytes_prefix w b || bytes_prefix (rev w) (rev b)) whitespace_sequences).

(** [any(c.isspace() for c in s)] *)
Fixpoint has_space_from (l : list N) : bool :=
  match l with
  | [] => false
  | _ :: l' => existsb (fun w => bytes_prefix w l) whitespace_sequences || has_space_from l'
  end.
Definition has_space (s : string) : bool := has_space_from (string_bytes s).

(** [bool(s)] *)
Definition truthy (s : string) : bool := negb (String.eqb s "").

(** [re.compile(r"[0-9a-f]{64}\Z").fullmatch(s)] *)
Definition is_sha256_hex (s : string) : bool :=
  (String.length s =? 64)%nat && all_chars is_lower_hex s.

(** [str(z)] for an [int]. *)
Definition dec_of_N (n : N) : string := NilEmpty.string_of_uint (N.to_uint n).
Definition dec_of_Z (z : Z) : string :=
  match z with
  | Zneg p => String "-" (dec_of_N (Npos p))
  | _ => dec_of_N (Z.to_N z)
  end.

(** ** Dynamic values

    [VOther] stands for a value of a type that none of the validators accept. *)
#[warnings="-register-all"]
Inductive pyval : Type :=
  | VNone
  | VBool (b : bool)
  | VInt (z : Z)
  | VFloat (f : spec_float)
  | VStr (s : string)
  | VList (l : list pyval)
  | VTuple (l : list pyval)
  | VDict (l : list (pyval * pyval))
  | VOther (type_name : string).

#[export] Instance spec_float_eq_dec : EqDecision spec_float.
Proof. solve_decision. Defined.

#[export] Instance pyval_eq_dec : EqDecision pyval.
Proof.
  refine (fix go (v w : pyval) {struct v} : Decision (v = w) :=
    match v, w with
    | VNone, VNone => left eq_refl
    | VBool a, VBool b => cast_if (decide (a = b))
    | VInt a, VInt b => cast_if (decide (a = b))
    | VStr a, VStr b => cast_if (decide (a = b))
    | VFloat a, VFloat b => cast_if (decide (a = b))
    | VList l, VList k => cast_if (@list_eq_dec _ go l k)
    | VTuple l, VTuple k => cast_if (@list_eq_dec _ go l k)
    | VDict l, VDict k => cast_if (@list_eq_dec _ (@prod_eq_dec _ go _ go) l k)
    | VOther a, VOther b => cast_if (decide (a = b))
    | _, _ => right _
    end); congruence.
Defined.

Section PyvalInd.
Variable P : pyval -> Prop.
Hypothesis HNone : P VNone.
Hypothesis HBool : forall b, P (VBool b).
Hypothesis HInt : forall z, P (VInt z).
Hypothesis HFloat : forall f, P (VFloat f).
Hypothesis HStr : forall s, P (VStr s).
Hypothesis HList : forall l, Forall P l -> P (VList l).
Hypothesis HTuple : forall l, Forall P l -> P (VTuple l).
Hypothesis HDict : forall l, Forall (fun kv => P kv.1 /\ P kv.2) l -> P (VDict l).
Hypothesis HOther : forall t, P (VOther t).

Fixpoint pyval_ind' (v : pyval) : P v :=
  let go := fix go (l : list pyval) : Forall P l :=
    match l with
    | [] => Forall_nil_2 _
    | v :: l => Forall_cons_2 _ _ _ (pyval_ind' v) (go l)
    end in
  let go2 := fix go2 (l : list (pyval * pyval)) : Forall (fun kv => P kv.1 /\ P kv.2) l :=
    match l with
    | [] => Forall_nil_2 _
    | kv :: l => Forall_cons_2 _ _ _ (conj (pyval_ind' kv.1) (pyval_ind' kv.2)) (go2 l)
    end in
  match v with
  | VNone => HNone
  | VBool b => HBool b
  | VInt z => HInt z
  | VFloat f => HFloat f
  | VStr s => HStr s
  | VList l => HList l (go l)
  | VTuple l => HTuple l (go l)
  | VDict l => HDict l (go2 l)
  | VOther t => HOther t
  end.
End PyvalInd.

(** A dict whose keys are all strings, as JSON objects are. *)
Definition str_dict (l : list (string * pyval)) : pyval :=
  VDict ((fun kv => (VStr kv.1, kv.2)) <$> l).

(** [value[k]] on a dict with the string key [k]; [None] when absent. *)
Fixpoint items_get (k : string) (l : list (pyval * pyval)) : option pyval :=
  match l with
  | [] => None
  | (VStr k', v) :: l => if String.eqb k' k then Some v else items_get k l
  | _ :: l => items_get k l
  end.

(** [set(value) == {k1, ...}] *)
Definition keys_are (ks : list string) (l : list (pyval * pyval)) : bool :=
  forallb (fun kv => match kv.1 with VStr k => bool_decide (k ∈ ks) | _ => false end) l
  && forallb (fun k => match items_get k l with Some _ => true | None => false end) ks.

(** The items of a dict whose keys are all strings. *)
Fixpoint str_items (l : list (pyval * pyval)) : option (list (string * pyval)) :=
  match l with
  | [] => Some []
  | (VStr k, v) :: l => cons (k, v) <$> str_items l
  | _ :: _ => None
  end.

(** ** Lemmas *)

Lemma items_get_str_dict k (l : list (string * pyval)) :
  items_get k ((fun kv => (VStr kv.1, kv.2)) <$> l) = snd <$> find (fun kv => String.eqb kv.1 k) l.
Proof.
  induction l as [|[k' v] l IH]; [done|]. simpl. destruct (String.eqb k' k); [done|apply IH].
Qed.

Lemma str_items_str_dict (l : list (string * pyval)) :
  str_items ((fun kv => (VStr kv.1, kv.2)) <$> l) = Some l.
Proof. induction l as [|[k v] l IH]; [done|]. simpl. refold_fmap. by rewrite IH. Qed.

Lemma str_items_spec l l' :
  str_items l = Some l' -> l = (fun kv => (VStr kv.1, kv.2)) <$> l'.
Proof.
  revert l'. induction l as [|[k v] l IH]; intros l' H; simpl in H; [by injection H as <-|].
  destruct k; try done. apply fmap_Some in H as (l'' & H & ->). by rewrite (IH _ H).
Qed.

Lemma items_get_str_dict_key k (l : list (string * pyval)) :
  items_get k ((fun kv => (VStr kv.1, kv.2)) <$> l) <> None <-> k ∈ l.*1.
Proof.
  induction l as [|[k' v] l IH]; simpl; refold_fmap; [set_solver|]. rewrite elem_of_cons.
  destruct (String.eqb_spec k' k) as [->|Hne]; [naive_solver|]. rewrite IH. naive_solver.
Qed.

(** On a dict with string keys [keys_are] compares the sets of keys. *)
Lemma keys_are_str_dict ks (l : list (string * pyval)) :
  keys_are ks ((fun kv => (VStr kv.1, kv.2)) <$> l) = true <-> forall k, k ∈ l.*1 <-> k ∈ ks.
Proof.
  unfold keys_are. rewrite andb_true_iff, !forallb_forall. setoid_rewrite <- list_elem_of_In. split.
  - intros [H1 H2] k. split.
    + intros (kv & -> & Hkv)%list_elem_of_fmap. specialize (H1 (VStr kv.1, kv.2)).
      simpl in H1. refold_fmap. apply bool_decide_eq_true in H1; [done|].
      apply list_elem_of_fmap. eauto.
    + intros Hk%H2. apply items_get_str_dict_key. by destruct (items_get k _).
  - intros H. split.
    + intros kv (kv' & -> & Hkv)%list_elem_of_fmap. simpl. apply bool_decide_eq_true, H.
      apply list_elem_of_fmap. eauto.
    + intros k Hk%H. apply items_get_str_dict_key in Hk. by destruct (items_get k _).
Qed.

Lemma string_app_nil s : string_app s EmptyString = s.
Proof. induction s as [|c s IH]; simpl; congruence. Qed.

Lemma string_app_assoc r s t : string_app (string_app r s) t = string_app r (string_app s t).
Proof. induction r as [|c r IH]; simpl; congruence. Qed.

Lemma string_app_length s t :
  String.length (string_app s t) = (String.length s + String.length t)%nat.
Proof. induction s as [|c s IH]; simpl; congruence. Qed.

Lemma all_chars_app p s t : all_chars p (string_app s t) = all_chars p s && all_chars p t.
Proof. induction s as [|c s IH]; simpl; [done|]. by rewrite IH, andb_assoc. Qed.

Lemma string_bytes_of_bytes l :
  Forall (fun b => b < 256)%N l -> string_bytes (string_of_bytes l) = l.
Proof.
  induction 1 as [|b l Hb _ IH]; simpl; [done|]. rewrite IH. f_equal.
  by apply Ascii.N_ascii_embedding.
Qed.

Lemma string_of_bytes_bytes s : string_of_bytes (string_bytes s) = s.
Proof.
  induction s as [|c s IH]; simpl; [done|]. unfold ord. by rewrite Ascii.ascii_N_embedding, IH.
Qed.

Lemma starts_with_spec p s : starts_with p s = true <-> exists t, s = string_app p t.
Proof.
  revert s. induction p as [|c p IH]; intros s; simpl; [naive_solver|].
  destruct s as [|d s]; simpl; [split; [done|intros [t ?]; done]|].
  rewrite andb_true_iff, Ascii.eqb_eq, IH. naive_solver.
Qed.

Lemma drop_prefix_app p t : drop_prefix p (string_app p t) = t.
Proof. induction p as [|c p IH]; simpl; [by destruct t|done]. Qed.

Lemma split_on_nonempty sep s : split_on sep s <> [].
Proof. destruct s as [|c s]; simpl; [done|]. destruct (Ascii.eqb c sep); [done|]. by destruct (split_on sep s). Qed.

Lemma split_on_free sep s :
  all_chars (fun c => negb (Ascii.eqb c sep)) s = true -> split_on sep s = [s].
Proof.
  induction s as [|c s IH]; simpl; [done|]. intros [Hc Hs]%andb_true_iff.
  apply negb_true_iff in Hc. by rewrite Hc, IH.
Qed.

(** Joining undoes splitting. *)
Lemma join_split_on sep s : join (String sep EmptyString) (split_on sep s) = s.
Proof.
  induction s as [|c s IH]; [done|]. simpl split_on.
  pose proof (split_on_nonempty sep s) as Hne. destruct (Ascii.eqb_spec c sep) as [->|Hc].
  - destruct (split_on sep s) as [|w l]; [done|].
    change (join _ (EmptyString :: w :: l)) with (String sep (join (String sep EmptyString) (w :: l))).
    by rewrite IH.
  - destruct (split_on sep s) as [|w l]; [done|]. rewrite <- IH. by destruct l.
Qed.

(** Splitting undoes joining when no field holds the separator. *)
Lemma split_on_join sep l :
  l <> [] -> Forall (fun s => all_chars (fun c => negb (Ascii.eqb c sep)) s = true) l ->
  split_on sep (join (String sep EmptyString) l) = l.
Proof.
  intros Hne. induction 1 as [|s l Hs Hl IH]; [done|].
  destruct l as [|s' l]; [by apply split_on_free|].
  specialize (IH ltac:(done)). simpl join. simpl in IH.
  revert Hs. induction s as [|c s IHs]; simpl; intros Hs.
  - by rewrite Ascii.eqb_refl, IH.
  - apply andb_true_iff in Hs as [Hc Hs]. apply negb_true_iff in Hc.
    simpl in IHs. by rewrite Hc, IHs.
Qed.

Create Rewrite HintDb py_str.
#[export] Hint Rewrite string_app_nil string_app_assoc all_chars_app drop_prefix_app : py_str.

(** ** Decimal text *)

Lemma string_of_uint_digits d : all_chars is_digit (NilEmpty.string_of_uint d) = true.
Proof. induction d; simpl; done. Qed.

Lemma dec_of_N_digits n : all_chars is_digit (dec_of_N n) = true.
Proof. apply string_of_uint_digits. Qed.

Lemma dec_of_N_inj n m : dec_of_N n = dec_of_N m -> n = m.
Proof.
  intros H%(f_equal NilEmpty.uint_of_string). unfold dec_of_N in H.
  rewrite !NilEmpty.usu in H. injection H as H%(f_equal N.of_uint).
  by rewrite !DecimalN.Unsigned.of_to in H.
Qed.

Lemma dec_of_N_nonempty n : dec_of_N n <> EmptyString.
Proof.
  intros H. assert (Hu : N.to_uint n = Decimal.Nil).
  { unfold dec_of_N in H. by destruct (N.to_uint n). }
  pose proof (DecimalN.Unsigned.of_to n) as Hn. rewrite Hu in Hn. by subst n.
Qed.

Definition digit_free_head (s : string) : bool :=
  match s with EmptyString => true | String c _ => negb (is_digit c) end.

(** A run of digits ends where the next character is not a digit. *)
Lemma digits_prefix_inj s t r r' :
  all_chars is_digit s = true -> all_chars is_digit t = true ->
  digit_free_head r = true -> digit_free_head r' = true ->
  string_app s r = string_app t r' -> s = t /\ r = r'.
Proof.
  revert t. induction s as [|c s IH]; intros [|d t]; simpl; intros Hs Ht Hr Hr' E; [done| | |].
  - subst r. simpl in Hr. apply andb_true_iff in Ht as [Hd _]. by rewrite Hd in Hr.
  - subst r'. simpl in Hr'. apply andb_true_iff in Hs as [Hc _]. by rewrite Hc in Hr'.
  - injection E as -> E. apply andb_true_iff in Hs as [_ Hs], Ht as [_ Ht].
    by destruct (IH t) as [-> ->].
Qed.

Lemma dec_of_N_head n : exists c s, dec_of_N n = String c s /\ is_digit c = true.
Proof.
  pose proof (dec_of_N_nonempty n). pose proof (dec_of_N_digits n) as Hd.
  destruct (dec_of_N n) as [|c s]; [done|]. simpl in Hd. apply andb_true_iff in Hd as [? _]. eauto.
Qed.

Lemma dec_of_Z_prefix_inj z z' r r' :
  digit_free_head r = true -> digit_free_head r' = true ->
  string_app (dec_of_Z z) r = string_app (dec_of_Z z') r' -> z = z' /\ r = r'.
Proof.
  intros Hr Hr' E.
  assert (Hneg : forall n p s s', string_app (dec_of_N n) s <> string_app (String "-" (dec_of_N p)) s').
  { intros n p s s' H. destruct (dec_of_N_head n) as (c & t & Hn & Hc). rewrite Hn in H. by injection H as -> _. }
  assert (Hpos : forall a b, string_app (dec_of_N a) r = string_app (dec_of_N b) r' -> a = b /\ r = r').
  { intros a b [H ->]%digits_prefix_inj; auto using dec_of_N_digits. by apply dec_of_N_inj in H. }
  destruct z as [|p|p], z' as [|p'|p']; unfold dec_of_Z in E;
    try (by exfalso; eapply Hneg; first [exact E | symmetry; exact E]);
    try (apply Hpos in E as [E ->]; split; [simpl in E; congruence || lia|done]).
  injection E as E. apply Hpos in E as [[= ->] ->]. done.
Qed.

(** A digit string without a leading zero is the decimal text of its value. *)
Lemma uint_of_digits s : all_chars is_digit s = true -> exists d, NilEmpty.uint_of_string s = Some d.
Proof.
  induction s as [|c s IH]; simpl; [by exists Decimal.Nil|]. intros [Hc Hs]%andb_true_iff.
  destruct (IH Hs) as [d ->].
  destruct c as [[] [] [] [] [] [] [] []]; try discriminate Hc; simpl; eauto.
Qed.

Lemma unorm_canonical s d :
  NilEmpty.uint_of_string s = Some d -> s <> EmptyString ->
  (s = "0"%string \/ starts_with "0" s = false) -> Decimal.unorm d = d.
Proof.
  intros Hs Hne Hz. apply NilEmpty.sus in Hs. subst s.
  destruct Hz as [Hz|Hz].
  - destruct d as [|d|d|d|d|d|d|d|d|d|d]; try discriminate Hz; simpl in Hz;
      injection Hz as Hz; by destruct d.
  - by destruct d.
Qed.

Lemma dec_of_digits s :
  all_chars is_digit s = true -> s <> EmptyString -> (s = "0"%string \/ starts_with "0" s = false) ->
  exists d, NilEmpty.uint_of_string s = Some d /\ dec_of_N (N.of_uint d) = s.
Proof.
  intros Hd Hne Hz. destruct (uint_of_digits s Hd) as [d Hs]. exists d. split; [done|].
  unfold dec_of_N. rewrite DecimalN.Unsigned.to_of, (unorm_canonical s) by done.
  by apply NilEmpty.sus.
Qed.
