(* ===== verification/Dict.v ===== *)
(** * String-keyed dicts

    A Python [dict] with string keys as the list of its items in insertion
    order: lookup, assignment, and the sums that the reward modules take over
    its values. Keys are distinct in every dict that a program builds, which the
    lemmas that need it ask for as [NoDup d.*1]. *)

From S2P Require Import Prelude PyVal.

Open Scope Z_scope.

(** A Python dict with string keys, in insertion order. *)
Abbreviation dict V := (list (string * V)).

Definition dict_get {V} (k : string) (d : dict V) : option V :=
  snd <$> find (fun kv => String.eqb kv.1 k) d.

(** [d[k] = v] keeps the position of an existing key. *)
Fixpoint dict_set {V} (k : string) (v : V) (d : dict V) : dict V :=
  match d with
  | [] => [(k, v)]
  | (k', v') :: d => if String.eqb k' k then (k', v) :: d else (k', v') :: dict_set k v d
  end.

Definition sum_Z (l : list Z) : Z := foldr Z.add 0 l.

(** [d[k]] *)
Definition dict_item {V} (k : string) (d : dict V) : result V :=
  match dict_get k d with Some v => Ok v | None => Raise (Exn "KeyError" k) end.

(** [d[k] = d.get(k, 0) + v] *)
Definition dict_add (k : string) (v : Z) (d : dict Z) : dict Z := dict_set k (default 0 (dict_get k d) + v) d.

(** ** Sums *)

Lemma sum_Z_cons x l : sum_Z (x :: l) = x + sum_Z l.
Proof. done. Qed.

Lemma sum_Z_app l k : sum_Z (l ++ k) = sum_Z l + sum_Z k.
Proof. unfold sum_Z. induction l; simpl; lia. Qed.

#[export] Instance sum_Z_perm : Proper (Permutation ==> eq) sum_Z.
Proof. intros l k Hp. unfold sum_Z. induction Hp; simpl; lia. Qed.

(** ** Dicts *)

Section Dicts.
Context {V : Type}.
Implicit Types (d : dict V) (k : string).

Lemma dict_get_set k k' (v : V) d :
  dict_get k' (dict_set k v d) = if String.eqb k k' then Some v else dict_get k' d.
Proof.
  unfold dict_get. induction d as [|[k0 v0] d IH]; simpl.
  - by destruct (String.eqb k k').
  - destruct (String.eqb_spec k0 k) as [->|Hne]; simpl.
    + by destruct (String.eqb k k').
    + destruct (String.eqb_spec k0 k') as [->|Hne']; simpl; [|exact IH].
      by rewrite (proj2 (String.eqb_neq k k')).
Qed.

Lemma dict_get_filter k d (P : string -> Prop) `{forall x, Decision (P x)} :
  P k -> dict_get k (filter (fun kv => P kv.1) d) = dict_get k d.
Proof.
  intros HP. unfold dict_get. induction d as [|[k' v'] d IH]; [done|]. rewrite filter_cons. cbn [fst].
  destruct (decide (P k')) as [|Hn]; simpl; destruct (String.eqb_spec k' k) as [->|]; done.
Qed.

Lemma dict_get_elem k (v : V) d : dict_get k d = Some v -> (k, v) ∈ d.
Proof.
  unfold dict_get. intros ([k' v'] & H & ->)%fmap_Some. apply find_some in H as [H E].
  apply String.eqb_eq in E as <-. by apply list_elem_of_In.
Qed.

Lemma dict_get_None k d : dict_get k d = None <-> k ∉ d.*1.
Proof.
  unfold dict_get. induction d as [|[k' v'] d IH]; simpl; [set_solver|].
  rewrite not_elem_of_cons. destruct (String.eqb_spec k' k) as [->|Hne]; simpl; [naive_solver|].
  rewrite IH. naive_solver.
Qed.

Lemma dict_get_key k d : k ∈ d.*1 -> exists v, dict_get k d = Some v.
Proof. intros Hk. destruct (dict_get k d) eqn:E; [eauto|]. by apply dict_get_None in E. Qed.

Lemma elem_dict_get k (v : V) d : NoDup d.*1 -> (k, v) ∈ d -> dict_get k d = Some v.
Proof.
  intros Hnd Hin. destruct (dict_get_key k d) as [v' E].
  { apply list_elem_of_fmap. by exists (k, v). }
  rewrite E. apply dict_get_elem in E. f_equal.
  assert ((k, v') = (k, v)) as [= ->]; [|done]. by eapply (NoDup_fmap_inj fst).
Qed.

Lemma dict_set_keys k (v : V) d k' : k' ∈ (dict_set k v d).*1 <-> k' = k \/ k' ∈ d.*1.
Proof.
  destruct (dict_get k' (dict_set k v d)) eqn:E; rewrite dict_get_set in E.
  - split; intros _.
    + destruct (String.eqb_spec k k') as [->|Hne]; [by left|right].
      apply dict_get_elem in E. apply list_elem_of_fmap. by exists (k', v0).
    + destruct (decide (k' ∈ (dict_set k v d).*1)) as [|Hn]; [done|].
      apply dict_get_None in Hn. rewrite dict_get_set in Hn. congruence.
  - destruct (String.eqb_spec k k') as [->|Hne]; [done|].
    pose proof (proj1 (dict_get_None k' (dict_set k v d))) as H. rewrite dict_get_set in H.
    rewrite (proj2 (String.eqb_neq k k') Hne) in H. specialize (H E). apply dict_get_None in E.
    split; [by intros ?|]. intros [->|?]; [by destruct Hne|done].
Qed.

Lemma dict_set_NoDup k (v : V) d : NoDup d.*1 -> NoDup (dict_set k v d).*1.
Proof.
  induction d as [|[k' v'] d IH]; simpl; [intros; apply NoDup_singleton|].
  intros [Hn Hd]%NoDup_cons. destruct (String.eqb_spec k' k) as [->|Hne]; simpl; apply NoDup_cons.
  - done.
  - split; [|auto]. rewrite dict_set_keys. naive_solver.
Qed.

Lemma dict_item_Ok k d (v : V) : dict_item k d = Ok v <-> dict_get k d = Some v.
Proof. unfold dict_item. destruct (dict_get k d); naive_solver. Qed.
End Dicts.

Lemma sum_dict_add k v (d : dict Z) : sum_Z (dict_add k v d).*2 = sum_Z d.*2 + v.
Proof.
  unfold dict_add, dict_get, sum_Z. induction d as [|[k' v'] d IH]; simpl; [lia|].
  destruct (String.eqb k' k); simpl; [lia|]. refold_fmap. rewrite IH. simpl. lia.
Qed.


Lemma sum_Z_plus {A} (f g h : A -> Z) l :
  (forall x, x ∈ l -> f x = g x + h x) -> sum_Z (f <$> l) = sum_Z (g <$> l) + sum_Z (h <$> l).
Proof.
  unfold sum_Z. induction l as [|x l IH]; intros H; simpl; [done|]. refold_fmap.
  rewrite (H x) by (by left). rewrite IH by (intros; apply H; by right). lia.
Qed.

Lemma sum_Z_zero {A} (f : A -> Z) l : (forall x, x ∈ l -> f x = 0) -> sum_Z (f <$> l) = 0.
Proof.
  unfold sum_Z. induction l as [|x l IH]; intros H; simpl; [done|]. refold_fmap.
  rewrite (H x), IH; [done| |by left]. intros; apply H; by right.
Qed.

Lemma sum_Z_nonneg (l : list Z) : (forall x, x ∈ l -> 0 <= x) -> 0 <= sum_Z l.
Proof.
  unfold sum_Z. induction l as [|x l IH]; intros H; simpl; [lia|].
  assert (0 <= x) by (apply H; by left). assert (0 <= foldr Z.add 0 l) by (apply IH; intros; apply H; by right).
  lia.
Qed.

Lemma sum_Z_single (k : string) (v : Z) ks :
  NoDup ks -> k ∈ ks -> sum_Z ((fun x => if String.eqb k x then v else 0) <$> ks) = v.
Proof.
  induction ks as [|x ks IH]; [by intros _ ?%elem_of_nil|]. intros [Hx Hks]%NoDup_cons Hk.
  rewrite fmap_cons. unfold sum_Z in *. cbn [foldr]. destruct (String.eqb_spec k x) as [->|Hne].
  - fold (sum_Z ((fun x0 => if String.eqb x x0 then v else 0) <$> ks)). rewrite sum_Z_zero; [lia|].
    intros y Hy. destruct (String.eqb_spec x y) as [->|]; [done|done].
  - rewrite IH; [lia|done|set_solver].
Qed.

(** Looking up every key of a larger set adds up the dict. *)
Lemma sum_dict_get (ks : list string) (d : dict Z) :
  NoDup ks -> NoDup d.*1 -> (forall k, k ∈ d.*1 -> k ∈ ks) ->
  sum_Z ((fun k => default 0 (dict_get k d)) <$> ks) = sum_Z d.*2.
Proof.
  intros Hks. induction d as [|[k v] d IH]; intros Hd Hsub.
  { apply sum_Z_zero. done. }
  rewrite !fmap_cons in *. apply NoDup_cons in Hd as [Hk Hd]. cbn [fst snd] in *.
  rewrite (sum_Z_plus _ (fun x => if String.eqb k x then v else 0) (fun x => default 0 (dict_get x d))).
  - rewrite sum_Z_single by (done || apply Hsub; by left).
    rewrite IH; [done|done|]. intros; apply Hsub; by right.
  - intros x _. unfold dict_get at 1. simpl. destruct (String.eqb_spec k x) as [->|]; simpl; [|done].
    apply dict_get_None in Hk. rewrite Hk. simpl. lia.
Qed.
