(* ===== verification/Sha256.v ===== *)
(** * SHA-256

    [hashlib.sha256(data).hexdigest()], the digest behind every identity of
    [src/cacheon] (FIPS 180-4). Words are [N] reduced modulo 2^32. *)

From Stdlib Require Import Ascii.
From S2P Require Import Prelude PyVal.

Open Scope N_scope.

Definition word (x : N) : N := N.land x 4294967295.
Definition add32 (x y : N) : N := word (x + y).
Definition rotr (n x : N) : N := N.lor (N.shiftr x n) (word (N.shiftl x (32 - n))).
Definition not32 (x : N) : N := N.lxor x 4294967295.

Definition ch (x y z : N) : N := N.lxor (N.land x y) (N.land (not32 x) z).
Definition maj (x y z : N) : N := N.lxor (N.lxor (N.land x y) (N.land x z)) (N.land y z).
Definition big_sigma0 (x : N) : N := N.lxor (N.lxor (rotr 2 x) (rotr 13 x)) (rotr 22 x).
Definition big_sigma1 (x : N) : N := N.lxor (N.lxor (rotr 6 x) (rotr 11 x)) (rotr 25 x).
Definition small_sigma0 (x : N) : N := N.lxor (N.lxor (rotr 7 x) (rotr 18 x)) (N.shiftr x 3).
Definition small_sigma1 (x : N) : N := N.lxor (N.lxor (rotr 17 x) (rotr 19 x)) (N.shiftr x 10).

(** The constants are the first 32 fractional bits of square roots and cube
    roots of the first primes. *)
Definition first_primes : list N :=
  Eval vm_compute in
    filter (fun n => forallb (fun d => negb (n mod d =? 0)) (N.of_nat <$> seq 2 (N.to_nat n - 2)) = true)
           (N.of_nat <$> seq 2 310).

(** The largest [r] below [lo + 2^k] with [r * r * r <= x], by bisection. *)
Fixpoint cube_root (k : nat) (lo x : N) : N :=
  match k with
  | O => lo
  | S k' =>
      let mid := lo + 2 ^ N.of_nat k' in
      if mid * mid * mid <=? x then cube_root k' mid x else cube_root k' lo x
  end.

Definition round_constants : list N :=
  Eval vm_compute in (fun p => word (cube_root 40 0 (N.shiftl p 96))) <$> take 64 first_primes.

Definition sqrt_word (i : nat) : N := word (N.sqrt (N.shiftl (nth i first_primes 0) 64)).

Record hash_state := HashState { ha : N; hb : N; hc : N; hd : N; he : N; hf : N; hg : N; hh : N }.

Definition initial_hash : hash_state :=
  Eval vm_compute in
    HashState (sqrt_word 0) (sqrt_word 1) (sqrt_word 2) (sqrt_word 3)
              (sqrt_word 4) (sqrt_word 5) (sqrt_word 6) (sqrt_word 7).

(** One round with constant [k]; [w] is the sliding window of 16 schedule words. *)
Definition sha_round (s : hash_state * list N) (k : N) : hash_state * list N :=
  let '(h, w) := s in
  let w0 := nth 0 w 0 in
  let t1 := add32 (add32 (add32 (hh h) (big_sigma1 (he h))) (ch (he h) (hf h) (hg h))) (add32 k w0) in
  let t2 := add32 (big_sigma0 (ha h)) (maj (ha h) (hb h) (hc h)) in
  let next := add32 (add32 (small_sigma1 (nth 14 w 0)) (nth 9 w 0))
                    (add32 (small_sigma0 (nth 1 w 0)) w0) in
  (HashState (add32 t1 t2) (ha h) (hb h) (hc h) (add32 (hd h) t1) (he h) (hf h) (hg h),
   drop 1 w ++ [next]).

Definition compress (h : hash_state) (block : list N) : hash_state :=
  let r := (foldl sha_round (h, block) round_constants).1 in
  HashState (add32 (ha h) (ha r)) (add32 (hb h) (hb r)) (add32 (hc h) (hc r)) (add32 (hd h) (hd r))
            (add32 (he h) (he r)) (add32 (hf h) (hf r)) (add32 (hg h) (hg r)) (add32 (hh h) (hh r)).

(** The message, a 1 bit, zeros, and the bit length in 8 bytes. *)
Definition padded (m : list N) : list N :=
  let n := length m in
  let zeros := ((119 - n mod 64) mod 64)%nat in
  let bits := 8 * N.of_nat n in
  m ++ [128] ++ replicate zeros 0 ++
  ((fun i => N.land (N.shiftr bits (8 * i)) 255) <$> [7; 6; 5; 4; 3; 2; 1; 0]).

Fixpoint words_of_bytes (l : list N) : list N :=
  match l with
  | a :: b :: c :: d :: l =>
      N.lor (N.shiftl a 24) (N.lor (N.shiftl b 16) (N.lor (N.shiftl c 8) d)) :: words_of_bytes l
  | _ => []
  end.

Fixpoint compress_all (fuel : nat) (h : hash_state) (w : list N) : hash_state :=
  match fuel with
  | O => h
  | S fuel => match w with [] => h | _ => compress_all fuel (compress h (take 16 w)) (drop 16 w) end
  end.

Definition hex_digit (n : N) : chr :=
  let d := n mod 16 in ascii_of_N (if d <? 10 then 48 + d else 87 + d).

Definition word_hex (x : N) : string :=
  foldr (fun i s => String (hex_digit (N.shiftr x (4 * i))) s) EmptyString [7; 6; 5; 4; 3; 2; 1; 0].

Definition hash_words (h : hash_state) : list N :=
  [ha h; hb h; hc h; hd h; he h; hf h; hg h; hh h].

Definition sha256_words (m : list N) : list N :=
  let w := words_of_bytes (padded m) in hash_words (compress_all (length w) initial_hash w).

Definition hex_words (l : list N) : string := concat_strings (word_hex <$> l).

Definition sha256_hex (data : string) : string := hex_words (sha256_words (string_bytes data)).

(** ** HMAC-SHA256 ([hmac.new(key, msg, hashlib.sha256).hexdigest()], RFC 2104) *)

Definition word_bytes (x : N) : list N := (fun i => N.land (N.shiftr x (8 * i)) 255) <$> [3; 2; 1; 0].
Definition sha256_bytes (m : list N) : list N := sha256_words m ≫= word_bytes.

(** A key longer than a block is hashed; then it is padded with zeros to 64 bytes. *)
Definition hmac_key (key : list N) : list N :=
  let k := if (64 <? length key)%nat then sha256_bytes key else key in k ++ replicate (64 - length k) 0.

Definition hmac_sha256_hex (key msg : list N) : string :=
  let k := hmac_key key in
  hex_words (sha256_words ((N.lxor 92 <$> k) ++ sha256_bytes ((N.lxor 54 <$> k) ++ msg))).

Close Scope N_scope.

(** ** The digest is 64 lowercase hexadecimal characters *)

Lemma hex_digit_lower n : is_lower_hex (hex_digit n) = true.
Proof.
  unfold hex_digit. assert (Hd : (n mod 16 < 16)%N) by (by apply N.mod_lt).
  revert Hd. generalize (n mod 16)%N as d. intros d Hd.
  assert (Hr : (d = 0 \/ d = 1 \/ d = 2 \/ d = 3 \/ d = 4 \/ d = 5 \/ d = 6 \/ d = 7 \/ d = 8 \/
    d = 9 \/ d = 10 \/ d = 11 \/ d = 12 \/ d = 13 \/ d = 14 \/ d = 15)%N) by lia.
  repeat (destruct Hr as [->|Hr]; [reflexivity|]). by subst.
Qed.

Lemma word_hex_shape x :
  String.length (word_hex x) = 8%nat /\ all_chars is_lower_hex (word_hex x) = true.
Proof. split; [done|]. cbn -[hex_digit]. by rewrite !hex_digit_lower. Qed.

Lemma hex_words_is_digest m : is_sha256_hex (hex_words (sha256_words m)) = true.
Proof.
  unfold sha256_words, hex_words, is_sha256_hex.
  generalize (compress_all (length (words_of_bytes (padded m))) initial_hash (words_of_bytes (padded m))) as h.
  intros h. apply andb_true_iff; split.
  - unfold hash_words. cbn [concat_strings fmap list_fmap].
    rewrite !string_app_length, !(proj1 (word_hex_shape _)). done.
  - unfold hash_words. cbn [concat_strings fmap list_fmap].
    rewrite !all_chars_app, !(proj2 (word_hex_shape _)). done.
Qed.

Lemma sha256_hex_is_digest data : is_sha256_hex (sha256_hex data) = true.
Proof. apply hex_words_is_digest. Qed.

Lemma hmac_is_digest key msg : is_sha256_hex (hmac_sha256_hex key msg) = true.
Proof. apply hex_words_is_digest. Qed.

(** Known answers of FIPS 180-4. *)
Example sha256_abc :
  sha256_hex "abc" = "ba7816bf8f01cfea414140de5dae2223b00361a396177a9cb410ff61f20015ad"%string.
Proof. vm_compute. reflexivity. Qed.

Example sha256_two_blocks :
  sha256_hex "abcdbcdecdefdefgefghfghighijhijkijkljklmklmnlmnomnopnopq"
  = "248d6a61d20638b8e5c026930c3e6039a33ce45964ff2167f6ecedd419db06c1"%string.
Proof. vm_compute. reflexivity. Qed.

(** RFC 4231, test cases 2 and 6. *)
Example hmac_short_key :
  hmac_sha256_hex (string_bytes "Jefe") (string_bytes "what do ya want for nothing?")
  = "5bdcc146bf60754e6a042426089575c75a003f089d2739839dec58b964ec3843"%string.
Proof. vm_compute. reflexivity. Qed.

Example hmac_long_key :
  hmac_sha256_hex (repeat 170%N 131) (string_bytes "Test Using Larger Than Block-Size Key - Hash Key First")
  = "60e431591ee0b67f0d8a26aacbf5b77f8e0bc6213728c5140546040f0ee37f54"%string.
Proof. vm_compute. reflexivity. Qed.

#[export] Hint Resolve sha256_hex_is_digest hmac_is_digest : py.
