(* ===== verification/Identity.v ===== *)
(** * Canonical JSON and content identities

    [cacheon/stack_identity.py]: the canonical JSON encoding, the domain-separated
    digest over it, and the digest check every other module shares. *)

From Stdlib Require Import Ascii.
From S2P Require Import Prelude PyVal Sha256.

Definition StackIdentityError (m : string) : exn := Exn "StackIdentityError" m.

(** ** JSON text

    A JSON document as [json.dumps(sort_keys=True, ensure_ascii=False,
    separators=(",", ":"))] writes it: object members in the order given. *)
#[warnings="-register-all"]
Inductive json : Type :=
  | JNull
  | JBool (b : bool)
  | JInt (z : Z)
  | JStr (s : string)
  | JArr (l : list json)
  | JObj (l : list (string * json)).

Definition quote : chr := Ascii.ascii_of_N 34.
Definition backslash : chr := Ascii.ascii_of_N 92.

(** json.encoder.ESCAPE_DCT *)
Definition escape_char (c : chr) : list chr :=
  let n := ord c in
  if (n =? 34)%N || (n =? 92)%N then [backslash; c]
  else if (n =? 8)%N then [backslash; Ascii.ascii_of_N 98]
  else if (n =? 9)%N then [backslash; Ascii.ascii_of_N 116]
  else if (n =? 10)%N then [backslash; Ascii.ascii_of_N 110]
  else if (n =? 12)%N then [backslash; Ascii.ascii_of_N 102]
  else if (n =? 13)%N then [backslash; Ascii.ascii_of_N 114]
  else if (n <? 32)%N then
    [backslash; Ascii.ascii_of_N 117; Ascii.ascii_of_N 48; Ascii.ascii_of_N 48;
     hex_digit (n / 16)%N; hex_digit n]
  else [c].

Definition string_of_chars (l : list chr) : string := foldr String EmptyString l.

Fixpoint escape (s : string) : string :=
  match s with
  | EmptyString => EmptyString
  | String c s => string_app (string_of_chars (escape_char c)) (escape s)
  end.

Definition render_string (s : string) : string :=
  String quote (string_app (escape s) (String quote EmptyString)).

Fixpoint render (j : json) : string :=
  match j with
  | JNull => "null"
  | JBool true => "true"
  | JBool false => "false"
  | JInt z => dec_of_Z z
  | JStr s => render_string s
  | JArr l => String "[" (string_app (join "," (render <$> l)) "]")
  | JObj l =>
      String "{" (string_app
        (join "," ((fun kv => string_app (render_string kv.1) (String ":" (render kv.2))) <$> l)) "}")
  end.

(** The value the encoder sees: arrays for lists and tuples, and objects with
    string keys in sorted order. Floats and other keys do not reach it: both
    callers below exclude them first. *)
Fixpoint to_json (v : pyval) : result json :=
  match v with
  | VNone => Ok JNull
  | VBool b => Ok (JBool b)
  | VInt z => Ok (JInt z)
  | VStr s => Ok (JStr s)
  | VFloat _ => Raise (Exn "ValueError" "float")
  | VList l | VTuple l =>
      JArr <$> (fix go l := match l with
                | [] => Ok []
                | v :: l => j ← to_json v; js ← go l; Ok (j :: js)
                end) l
  | VDict l =>
      items ← (fix go l := match l with
               | [] => Ok []
               | (VStr k, v) :: l => j ← to_json v; js ← go l; Ok ((k, j) :: js)
               | _ :: _ => Raise (Exn "TypeError" "keys")
               end) l;
      Ok (JObj (sorted_by fst items))
  | VOther t => Raise (Exn "TypeError" (string_app t " is not JSON serializable"))
  end.

Definition dumps (v : pyval) : result string := render <$> to_json v.

(** ** [_canonical_value]: the checked walk *)
Fixpoint canonical_value (location : string) (v : pyval) : result pyval :=
  match v with
  | VNone | VStr _ | VBool _ | VInt _ => Ok v
  | VFloat _ => Raise (StackIdentityError (string_app location " contains a float"))
  | VDict items =>
      VDict <$> (fix go l := match l with
                 | [] => Ok []
                 | (VStr key, item) :: l =>
                     c ← canonical_value (string_app location (String "." key)) item;
                     cs ← go l; Ok ((VStr key, c) :: cs)
                 | _ :: _ =>
                     Raise (StackIdentityError (string_app location " contains a non-string object key"))
                 end) items
  | VList l | VTuple l =>
      VList <$> (fix go (index : N) l := match l with
                 | [] => Ok []
                 | item :: l =>
                     c ← canonical_value
                           (string_app location (String "[" (string_app (dec_of_N index) "]"))) item;
                     cs ← go (index + 1)%N l; Ok (c :: cs)
                 end) 0%N l
  | VOther t => Raise (StackIdentityError (string_app location (string_app " contains unsupported " t)))
  end.

(** ** [_json_native]: the fast test for data that needs no walk *)
Definition is_scalar (v : pyval) : bool :=
  match v with VNone | VBool _ | VInt _ | VStr _ => true | _ => false end.
Definition is_array (v : pyval) : bool :=
  match v with VList _ | VTuple _ => true | _ => false end.
Definition is_str (v : pyval) : bool := match v with VStr _ => true | _ => false end.

(** The children to visit, or [None] where the loop returns [False]. *)
Definition native_children (item : pyval) : option (list pyval) :=
  match item with
  | VDict l => if forallb is_str l.*1 then Some l.*2 else None
  | VList l | VTuple l => Some l
  | VNone | VBool _ | VInt _ | VStr _ => Some []
  | _ => None
  end.

Definition array_items (v : pyval) : list pyval :=
  match v with VList l | VTuple l => l | _ => [] end.

(** Children that are all scalars, or all arrays of scalars, need no visit. *)
Definition shallow (children : list pyval) : bool :=
  forallb is_scalar children ||
  (forallb is_array children && forallb is_scalar (flat_map array_items children)).

(** [pending] is the Python stack with its top first. The set [seen] of object
    identities only skips objects already checked, and values here are trees. *)
Fixpoint json_native_loop (fuel : nat) (pending : list pyval) : bool :=
  match pending, fuel with
  | [], _ => true
  | _ :: _, O => false
  | item :: pending, S fuel =>
      match native_children item with
      | None => false
      | Some children =>
          if shallow children then json_native_loop fuel pending
          else json_native_loop fuel
                 (rev (filter (fun c => is_scalar c = false) children) ++ pending)
      end
  end.

Fixpoint vsize (v : pyval) : nat :=
  match v with
  | VList l | VTuple l => S ((fix go l := match l with [] => 0 | v :: l => vsize v + go l end) l)
  | VDict l => S ((fix go l := match l with [] => 0 | (_, v) :: l => vsize v + go l end) l)
  | _ => 1
  end%nat.

Definition json_native (v : pyval) : bool := json_native_loop (vsize v) [v].

(** ** UTF-8 output: an unpaired surrogate cannot be encoded. *)
Fixpoint has_surrogate (l : list N) : bool :=
  match l with
  | a :: ((b :: _) as l') => ((a =? 237) && (160 <=? b))%N || has_surrogate l'
  | _ => false
  end.

Definition utf8_encode (s : string) : result string :=
  if has_surrogate (string_bytes s) then Raise (Exn "UnicodeEncodeError" "surrogates not allowed")
  else Ok s.

(** [except ValueError] also catches the subclass [UnicodeEncodeError]. *)
Definition is_value_error (e : exn) : bool :=
  bool_decide (exn_class e = "ValueError" \/ exn_class e = "UnicodeEncodeError"
               \/ exn_class e = "StackIdentityError").

Definition is_type_error (e : exn) : bool := bool_decide (exn_class e = "TypeError").

(** The checked walk that [canonical_json_bytes] ends with. *)
Definition checked_json_bytes (value : pyval) : result string :=
  canonical ← canonical_value "payload" value;
  encoded ← match dumps canonical with
            | Ok s => Ok s
            | Raise e => if is_type_error e || is_value_error e
                         then Raise (StackIdentityError "value is not canonical JSON data")
                         else Raise e
            end;
  utf8_encode encoded.

Definition canonical_json_bytes (value : pyval) : result string :=
  if json_native value then
    match dumps value ≫= utf8_encode with
    | Ok b => Ok b
    | Raise e => if is_value_error e then checked_json_bytes value else Raise e
    end
  else checked_json_bytes value.

(** [canonical_object_bytes]: members given by name with their encodings.
    The key must itself encode. *)
Definition canonical_object_bytes (members : list (string * string)) : result string :=
  parts ← map_result (fun kb => key ← utf8_encode (render_string kb.1);
                                Ok (string_app key (String ":" kb.2)))
                     (sorted_by fst members);
  Ok (String "{" (string_app (join "," parts) "}")).

(** ** [require_sha256_hex] and the digests *)
Definition require_sha256_hex (value : pyval) (field : string) : result string :=
  match value with
  | VStr s => if is_sha256_hex s then Ok s
              else Raise (StackIdentityError (string_app field " must be a lowercase 64-hex SHA-256 digest"))
  | _ => Raise (StackIdentityError (string_app field " must be a lowercase 64-hex SHA-256 digest"))
  end.

Definition domain_head (c : chr) : bool := is_digit c || in_range 97 122 c.
Definition domain_tail (c : chr) : bool :=
  domain_head c || (ord c =? 45)%N || (ord c =? 46)%N || (ord c =? 95)%N.
Definition is_domain (s : string) : bool :=
  match s with EmptyString => false | String c s => domain_head c && all_chars domain_tail s end.

Definition canonical_payload_digest (domain payload : string) (schema_version : Z) : result string :=
  raise_if negb (is_domain domain) with (StackIdentityError "digest domain must match [a-z0-9][a-z0-9._-]*");
  raise_if (schema_version <? 1)%Z with (StackIdentityError "schema_version must be a positive integer");
  d ← canonical_json_bytes (VStr domain);
  v ← canonical_json_bytes (VInt schema_version);
  envelope ← canonical_object_bytes [("domain", d); ("payload", payload); ("schema_version", v)];
  Ok (sha256_hex envelope).

Definition canonical_digest (domain : string) (payload : pyval) (schema_version : Z) : result string :=
  p ← canonical_json_bytes payload;
  canonical_payload_digest domain p schema_version.

(** ** The JSON text determines the JSON value *)

Section JsonInd.
Variable P : json -> Prop.
Hypothesis HNull : P JNull.
Hypothesis HBool : forall b, P (JBool b).
Hypothesis HInt : forall z, P (JInt z).
Hypothesis HStr : forall s, P (JStr s).
Hypothesis HArr : forall l, Forall P l -> P (JArr l).
Hypothesis HObj : forall l, Forall (fun kv => P kv.2) l -> P (JObj l).

Fixpoint json_ind' (j : json) : P j :=
  match j with
  | JNull => HNull
  | JBool b => HBool b
  | JInt z => HInt z
  | JStr s => HStr s
  | JArr l => HArr l ((fix go l : Forall P l := match l with
      | [] => Forall_nil_2 _
      | j :: l => Forall_cons_2 _ _ _ (json_ind' j) (go l) end) l)
  | JObj l => HObj l ((fix go l : Forall (fun kv => P kv.2) l := match l with
      | [] => Forall_nil_2 _
      | kv :: l => Forall_cons_2 _ _ _ (json_ind' kv.2) (go l) end) l)
  end.
End JsonInd.

(** Read one escaped character back. *)
Definition unhex (c : chr) : N := if is_digit c then (ord c - 48)%N else (ord c - 87)%N.

Definition unescape (s : string) : option (chr * string) :=
  match s with
  | EmptyString => None
  | String c s =>
      if Ascii.eqb c quote then None
      else if Ascii.eqb c backslash then
        match s with
        | String d s =>
            let n := ord d in
            if (n =? 98)%N then Some (Ascii.ascii_of_N 8, s)
            else if (n =? 116)%N then Some (Ascii.ascii_of_N 9, s)
            else if (n =? 110)%N then Some (Ascii.ascii_of_N 10, s)
            else if (n =? 102)%N then Some (Ascii.ascii_of_N 12, s)
            else if (n =? 114)%N then Some (Ascii.ascii_of_N 13, s)
            else if (n =? 117)%N then
              match s with
              | String _ (String _ (String h (String l s))) =>
                  Some (Ascii.ascii_of_N (16 * unhex h + unhex l)%N, s)
              | _ => None
              end
            else Some (d, s)
        | EmptyString => None
        end
      else Some (c, s)
  end.

Lemma unescape_escape_char c s :
  unescape (string_app (string_of_chars (escape_char c)) s) = Some (c, s).
Proof. destruct c as [[] [] [] [] [] [] [] []]; reflexivity. Qed.

Lemma escape_inj s t r r' :
  string_app (escape s) (String quote r) = string_app (escape t) (String quote r') ->
  s = t /\ r = r'.
Proof.
  revert t. induction s as [|c s IH]; intros [|d t] E; simpl in E.
  - by injection E.
  - apply (f_equal unescape) in E. rewrite string_app_assoc, unescape_escape_char in E.
    discriminate E.
  - apply (f_equal unescape) in E. rewrite string_app_assoc, unescape_escape_char in E.
    discriminate E.
  - apply (f_equal unescape) in E. rewrite !string_app_assoc, !unescape_escape_char in E.
    injection E as -> E. by apply IH in E as [-> ->].
Qed.

Lemma render_string_inj s t r r' :
  string_app (render_string s) r = string_app (render_string t) r' -> s = t /\ r = r'.
Proof.
  intros E. unfold render_string in E. injection E as E. rewrite !string_app_assoc in E.
  by apply escape_inj in E.
Qed.

(** ** Separated lists *)

Definition sep_tail (f : string) (acc : string) : string := String "," (string_app f acc).

Lemma join_cons s l : join "," (s :: l) = string_app s (foldr sep_tail EmptyString l).
Proof.
  revert s. induction l as [|t l IH]; intros s; [by simpl; rewrite string_app_nil|].
  change (join "," (s :: t :: l)) with (string_app s (String "," (join "," (t :: l)))).
  by rewrite IH.
Qed.

Definition head_is (p : chr -> bool) (s : string) : bool :=
  match s with EmptyString => false | String c _ => p c end.

Section SeparatedList.
Context {A : Type} (f : A -> string) (close : chr).
Hypothesis close_comma : Ascii.eqb close "," = false.
Hypothesis close_digit : is_digit close = false.

Definition reads_one (x : A) : Prop :=
  forall y r r', digit_free_head r = true -> digit_free_head r' = true ->
    string_app (f x) r = string_app (f y) r' -> x = y /\ r = r'.

Lemma sep_tail_inj l l' r r' :
  Forall reads_one l ->
  string_app (foldr sep_tail EmptyString (f <$> l)) (String close r) =
  string_app (foldr sep_tail EmptyString (f <$> l')) (String close r') ->
  l = l' /\ r = r'.
Proof using close_comma close_digit.
  intros Hl. revert l'. induction Hl as [|x l Hx Hl IH]; intros [|y l'] E; simpl in E.
  - by injection E.
  - injection E as E _. by rewrite E in close_comma.
  - injection E as E _. by rewrite <- E in close_comma.
  - injection E as E. rewrite !string_app_assoc in E.
    assert (Hd : forall m t, digit_free_head
      (string_app (foldr sep_tail EmptyString m) (String close t)) = true).
    { intros [|? m] t; simpl; [by rewrite close_digit|done]. }
    apply Hx in E as [-> E]; [|apply Hd..]. by apply IH in E as [-> ->].
Qed.

Hypothesis not_close : forall x, head_is (fun c => negb (Ascii.eqb c close)) (f x) = true.

Lemma sep_list_inj l l' r r' :
  Forall reads_one l ->
  string_app (join "," (f <$> l)) (String close r) =
  string_app (join "," (f <$> l')) (String close r') ->
  l = l' /\ r = r'.
Proof using close_comma close_digit not_close.
  intros Hl E. destruct l as [|x l], l' as [|y l'].
  - by injection E.
  - pose proof (not_close y) as Hy. rewrite fmap_cons, join_cons in E.
    destruct (f y) as [|c s]; [done|]. simpl in *. injection E as <- _.
    by rewrite Ascii.eqb_refl in Hy.
  - pose proof (not_close x) as Hy. rewrite fmap_cons, join_cons in E.
    destruct (f x) as [|c s]; [done|]. simpl in *. injection E as -> _.
    by rewrite Ascii.eqb_refl in Hy.
  - inversion Hl as [|?? Hx Hl']; subst.
    rewrite !fmap_cons, !join_cons, !string_app_assoc in E.
    assert (Hd : forall m t, digit_free_head
      (string_app (foldr sep_tail EmptyString m) (String close t)) = true).
    { intros [|? m] t; simpl; [by rewrite close_digit|done]. }
    apply Hx in E as [-> E]; [|apply Hd..]. by apply sep_tail_inj in E as [-> ->].
Qed.
End SeparatedList.

(** ** Rendering *)

Definition json_head (c : chr) : bool :=
  is_digit c || existsb (Ascii.eqb c) ["-"; "n"; "t"; "f"; "["; "{"; quote]%char.

Lemma render_head j : head_is json_head (render j) = true.
Proof.
  destruct j as [|[]|z|s|l|l]; try reflexivity.
  assert (Hn : forall n, head_is json_head (dec_of_N n) = true).
  { intros n. destruct (dec_of_N_head n) as (c & s & -> & Hc). simpl. unfold json_head. by rewrite Hc. }
  destruct z; simpl; auto.
Qed.

Lemma json_head_not_bracket c : json_head c = true ->
  negb (Ascii.eqb c "]") = true.
Proof. destruct (Ascii.eqb_spec c "]"); [by subst|done]. Qed.

Lemma render_not_bracket j : head_is (fun c => negb (Ascii.eqb c "]")) (render j) = true.
Proof.
  pose proof (render_head j) as H. destruct (render j); [done|]. by apply json_head_not_bracket.
Qed.

Definition render_member (kv : string * json) : string :=
  string_app (render_string kv.1) (String ":" (render kv.2)).

(** A rendered value starts like no value of another kind. *)
Definition json_kind (j : json) : N :=
  match j with
  | JNull => 0 | JBool true => 1 | JBool false => 2 | JInt _ => 3 | JStr _ => 4 | JArr _ => 5 | JObj _ => 6
  end.

Definition kind_of_char (c : chr) : N :=
  if Ascii.eqb c "n" then 0 else if Ascii.eqb c "t" then 1 else if Ascii.eqb c "f" then 2
  else if Ascii.eqb c quote then 4 else if Ascii.eqb c "[" then 5 else if Ascii.eqb c "{" then 6 else 3.

Lemma digit_kind c : is_digit c = true -> kind_of_char c = 3%N.
Proof. destruct c as [[] [] [] [] [] [] [] []]; done. Qed.

Lemma render_kind j : exists c s, render j = String c s /\ kind_of_char c = json_kind j.
Proof.
  destruct j as [|[]|z|s|l|l]; simpl; eauto.
  destruct z as [|p|p]; simpl; eauto.
  destruct (dec_of_N_head (Npos p)) as (c & s & -> & Hc). eauto using digit_kind.
Qed.

Lemma render_same_kind j j' r r' :
  string_app (render j) r = string_app (render j') r' -> json_kind j = json_kind j'.
Proof.
  destruct (render_kind j) as (c & s & -> & <-), (render_kind j') as (c' & s' & -> & <-).
  by intros [= -> _].
Qed.

Lemma render_prefix_inj j : reads_one render j.
Proof.
  induction j as [|b|z|s|l IH|l IH] using json_ind'; intros j' r r' Hr Hr' E;
    pose proof (render_same_kind _ _ _ _ E) as K.
  - destruct j' as [|[]| | | |]; try discriminate K. by injection E.
  - destruct b, j' as [|[]| | | |]; try discriminate K; by injection E.
  - destruct j' as [|[]| | | |]; try discriminate K.
    apply dec_of_Z_prefix_inj in E as [-> ->]; done.
  - destruct j' as [|[]| | | |]; try discriminate K.
    by apply render_string_inj in E as [-> ->].
  - destruct j' as [|[]| | |l'|]; try discriminate K. simpl in E. injection E as E.
    rewrite !string_app_assoc in E.
    apply sep_list_inj in E as [-> ->]; auto using render_not_bracket.
  - destruct j' as [|[]| | | |l']; try discriminate K. simpl in E. injection E as E.
    rewrite !string_app_assoc in E.
    change (fun kv : string * json => _) with render_member in E.
    apply sep_list_inj in E as [-> ->]; auto.
    eapply Forall_impl; [exact IH|]. intros [k v] Hv [k' v'] t t' Ht Ht' E'.
    unfold render_member in E'. cbn [fst snd] in E', Hv. rewrite !string_app_assoc in E'.
    apply render_string_inj in E' as [-> E']. injection E' as E'.
    by apply Hv in E' as [-> ->].
Qed.

Lemma render_inj j j' : render j = render j' -> j = j'.
Proof.
  intros E. refine (proj1 (render_prefix_inj j j' EmptyString EmptyString _ _ _)); [done..|].
  by rewrite E.
Qed.

(** ** The fast test and the checked walk *)

(** The recursive reading of [_json_native]. *)
Fixpoint native (v : pyval) : bool :=
  match v with
  | VNone | VBool _ | VInt _ | VStr _ => true
  | VList l | VTuple l => forallb native l
  | VDict l => forallb (fun kv => is_str kv.1 && native kv.2) l
  | VFloat _ | VOther _ => false
  end.

Lemma scalar_native v : is_scalar v = true -> native v = true.
Proof. by destruct v. Qed.

Lemma native_unfold v :
  native v = match native_children v with Some cs => forallb native cs | None => false end.
Proof.
  destruct v as [| | | | |l|l|l|]; simpl; try done.
  induction l as [|[k v] l IH]; simpl; [done|]. rewrite IH.
  destruct (is_str k); simpl; [|done]. refold_fmap.
  destruct (forallb is_str l.*1); simpl; [done|].
  by rewrite andb_false_r.
Qed.

Lemma shallow_native cs : shallow cs = true -> forallb native cs = true.
Proof.
  unfold shallow. intros [H|H]%orb_true_iff.
  - apply forallb_forall. intros v Hv. rewrite forallb_forall in H. by apply scalar_native, H.
  - apply andb_true_iff in H as [Ha Hs]. rewrite forallb_forall in Ha, Hs.
    apply forallb_forall. intros v Hv. specialize (Ha v Hv).
    assert (Hi : forall w, In w (array_items v) -> native w = true).
    { intros w Hw. apply scalar_native, Hs, in_flat_map. eauto. }
    destruct v; try done; simpl in *; by apply forallb_forall.
Qed.

Lemma forallb_filter_scalar cs :
  forallb native (filter (fun c => is_scalar c = false) cs) = forallb native cs.
Proof.
  induction cs as [|c cs IH]; simpl; [done|]. rewrite filter_cons. case_decide as Hc; simpl.
  - by rewrite IH.
  - rewrite IH. rewrite scalar_native; [done|]. by destruct (is_scalar c).
Qed.

Lemma forallb_rev {A} (p : A -> bool) l : forallb p (rev l) = forallb p l.
Proof.
  induction l as [|x l IH]; simpl; [done|]. rewrite forallb_app, IH. simpl.
  by rewrite andb_true_r, andb_comm.
Qed.

Definition sizes (l : list pyval) : nat := sum_list (vsize <$> l).

Lemma vsize_pos v : (1 <= vsize v)%nat.
Proof. destruct v; simpl; lia. Qed.

Lemma vsize_children v cs : native_children v = Some cs -> (vsize v = S (sizes cs) \/ cs = [])%nat.
Proof.
  unfold sizes.
  destruct v as [| | | | |l|l|l|]; simpl; intros E; try (by injection E as <-; right); try done;
    left; f_equal; [injection E as <-| injection E as <-|].
  - induction l; simpl; [done|]. by rewrite IHl.
  - induction l; simpl; [done|]. by rewrite IHl.
  - destruct (forallb is_str l.*1); [|done]. injection E as <-.
    induction l as [|[k v] l IH]; simpl; [done|]. by rewrite IH.
Qed.

Lemma sizes_app l l' : sizes (l ++ l') = (sizes l + sizes l')%nat.
Proof. unfold sizes. rewrite fmap_app. induction (vsize <$> l) as [|n m IH]; simpl; lia. Qed.

Lemma sizes_cons v l : sizes (v :: l) = (vsize v + sizes l)%nat.
Proof. done. Qed.

Lemma sizes_filter_rev (cs : list pyval) :
  (sizes (rev (filter (fun c => is_scalar c = false) cs)) <= sizes cs)%nat.
Proof.
  induction cs as [|c cs IH]; [done|]. rewrite filter_cons, sizes_cons.
  case_decide; [|lia]. simpl rev. rewrite sizes_app, sizes_cons. unfold sizes at 2. simpl. lia.
Qed.

Lemma json_native_loop_spec fuel pending :
  (sizes pending <= fuel)%nat -> json_native_loop fuel pending = forallb native pending.
Proof.
  revert pending. induction fuel as [|fuel IH]; intros [|v pending] Hf; try done.
  { rewrite sizes_cons in Hf. pose proof (vsize_pos v). lia. }
  simpl. rewrite (native_unfold v). rewrite sizes_cons in Hf.
  destruct (native_children v) as [cs|] eqn:E; [|done].
  pose proof (vsize_pos v).
  destruct (shallow cs) eqn:Hs.
  - rewrite IH by lia. by rewrite (shallow_native cs Hs).
  - rewrite IH.
    + rewrite forallb_app, forallb_rev. by rewrite forallb_filter_scalar.
    + rewrite sizes_app. pose proof (sizes_filter_rev cs).
      destruct (vsize_children _ _ E) as [Hv| ->]; [lia|done].
Qed.

Lemma json_native_spec v : json_native v = native v.
Proof.
  unfold json_native. rewrite json_native_loop_spec.
  - simpl. by rewrite andb_true_r.
  - unfold sizes. simpl. lia.
Qed.

Ltac destruct_ok :=
  match goal with H : is_ok ?m = true |- context [?m] => destruct m; [|discriminate H] end.

(** The walk rebuilds a value with the same JSON. *)
Lemma canonical_value_json v loc v' : canonical_value loc v = Ok v' -> to_json v' = to_json v.
Proof.
  revert loc v'. induction v as [|b|z|f|s|l IH|l IH|l IH|t] using pyval_ind'; intros loc v' H;
    simpl in H; try discriminate H; try by injection H as <-.
  - apply fmap_Ok in H as (cs & H & <-). simpl. f_equal.
    revert cs H. generalize 0%N. induction IH as [|v l Hv _ IHl]; intros n cs H; [by injection H as <-|].
    inv_ok. simpl. rewrite (Hv _ _ Hx). by rewrite (IHl _ _ Hx0).
  - apply fmap_Ok in H as (cs & H & <-). simpl. f_equal.
    revert cs H. generalize 0%N. induction IH as [|v l Hv _ IHl]; intros n cs H; [by injection H as <-|].
    inv_ok. simpl. rewrite (Hv _ _ Hx). by rewrite (IHl _ _ Hx0).
  - apply fmap_Ok in H as (cs & H & <-). simpl. f_equal.
    revert cs H. induction IH as [|[k v] l [_ Hv] _ IHl]; intros cs H; [by injection H as <-|].
    destruct k; try discriminate H. inv_ok. simpl in Hv. rewrite (Hv _ _ Hx). by rewrite (IHl _ Hx0).
Qed.

Lemma canonical_value_ok v loc : is_ok (canonical_value loc v) = native v.
Proof.
  assert (Hlist : forall l loc n, Forall (fun v => forall loc, is_ok (canonical_value loc v) = native v) l ->
    is_ok ((fix go (index : N) l := match l with
                 | [] => Ok []
                 | item :: l =>
                     c ← canonical_value
                           (string_app loc (String "[" (string_app (dec_of_N index) "]"))) item;
                     cs ← go (index + 1)%N l; Ok (c :: cs)
                 end) n l) = forallb native l).
  { clear v loc. intros l loc n Hl. revert n. induction Hl as [|v l Hv _ IH]; intros n; [done|].
    simpl. rewrite is_ok_bind, <- (Hv (string_app loc (String "[" (string_app (dec_of_N n) "]")))).
    destruct (canonical_value _ v); [|done]. rewrite is_ok_bind. specialize (IH (n + 1)%N).
    rewrite <- IH. simpl. match goal with |- match ?m with _ => _ end = _ => by destruct m end. }
  revert loc. induction v as [|b|z|f|s|l IH|l IH|l IH|t] using pyval_ind'; intros loc; simpl; try done.
  - rewrite is_ok_fmap. by apply Hlist.
  - rewrite is_ok_fmap. by apply Hlist.
  - rewrite is_ok_fmap. induction IH as [|[k v] l [_ Hv] _ IHl]; [done|]. simpl in *.
    destruct k; try done. simpl.
    rewrite is_ok_bind, <- (Hv (string_app loc (String "." s))).
    destruct (canonical_value _ v); [|done]. rewrite is_ok_bind, <- IHl. simpl.
    match goal with |- match ?m with _ => _ end = _ => by destruct m end.
Qed.

Lemma native_to_json v : native v = true -> is_ok (to_json v) = true.
Proof.
  induction v as [|b|z|f|s|l IH|l IH|l IH|t] using pyval_ind'; intros H; simpl in H; try done; simpl.
  - rewrite is_ok_fmap. induction IH as [|v l Hv _ IHl]; [done|]. simpl in H.
    apply andb_true_iff in H as [H1 H2]. rewrite is_ok_bind. specialize (Hv H1). destruct_ok.
    rewrite is_ok_bind. specialize (IHl H2). by destruct_ok.
  - rewrite is_ok_fmap. induction IH as [|v l Hv _ IHl]; [done|]. simpl in H.
    apply andb_true_iff in H as [H1 H2]. rewrite is_ok_bind. specialize (Hv H1). destruct_ok.
    rewrite is_ok_bind. specialize (IHl H2). by destruct_ok.
  - rewrite is_ok_bind.
    match goal with |- match ?m with _ => _ end = _ => enough (is_ok m = true) by (by destruct_ok) end.
    induction IH as [|[k v] l [_ Hv] _ IHl]; [done|]. simpl in H, Hv.
    apply andb_true_iff in H as [[Hk H1]%andb_true_iff H2]. destruct k; try discriminate Hk.
    rewrite is_ok_bind. specialize (Hv H1). destruct_ok.
    rewrite is_ok_bind. specialize (IHl H2). by destruct_ok.
Qed.

(** What the canonical encoding is: the rendered JSON of a native value. *)
Lemma checked_json_bytes_native v :
  native v = true -> checked_json_bytes v = (dumps v ≫= utf8_encode).
Proof.
  intros Hn. pose proof (canonical_value_ok v "payload") as Hc. rewrite Hn in Hc.
  apply is_ok_true in Hc as [v' Hv']. apply native_to_json, is_ok_true in Hn as [j Hj].
  unfold checked_json_bytes. rewrite Hv'. simpl. unfold dumps.
  rewrite (canonical_value_json _ _ _ Hv'), Hj. done.
Qed.

Lemma utf8_encode_spec s :
  utf8_encode s = Ok s /\ has_surrogate (string_bytes s) = false \/
  utf8_encode s = Raise (Exn "UnicodeEncodeError" "surrogates not allowed").
Proof. unfold utf8_encode. destruct (has_surrogate _); auto. Qed.

Lemma canonical_json_bytes_native v :
  native v = true -> canonical_json_bytes v = (dumps v ≫= utf8_encode).
Proof.
  intros Hn. unfold canonical_json_bytes. rewrite json_native_spec, Hn, checked_json_bytes_native by done.
  apply native_to_json, is_ok_true in Hn as [j Hj]. unfold dumps. rewrite Hj. simpl.
  by destruct (utf8_encode_spec (render j)) as [[-> _]| ->].
Qed.

Lemma canonical_json_bytes_not_native v :
  native v = false -> is_ok (canonical_json_bytes v) = false.
Proof.
  intros Hn. unfold canonical_json_bytes. rewrite json_native_spec, Hn. unfold checked_json_bytes.
  rewrite is_ok_bind. pose proof (canonical_value_ok v "payload") as Hc. rewrite Hn in Hc.
  by destruct (canonical_value _ _).
Qed.

Lemma canonical_json_bytes_Ok v b :
  canonical_json_bytes v = Ok b <->
  native v = true /\ exists j, to_json v = Ok j /\ b = render j /\ has_surrogate (string_bytes b) = false.
Proof.
  destruct (native v) eqn:Hn.
  - rewrite canonical_json_bytes_native by done.
    pose proof (native_to_json _ Hn) as [j Hj]%is_ok_true. unfold dumps. rewrite Hj. simpl.
    destruct (utf8_encode_spec (render j)) as [[-> Hs]|Hs].
    + naive_solver.
    + rewrite Hs. split; [done|]. intros (_ & j' & [= <-] & -> & Hb). unfold utf8_encode in Hs.
      by rewrite Hb in Hs.
  - pose proof (canonical_json_bytes_not_native _ Hn). destruct (canonical_json_bytes v); naive_solver.
Qed.

(** ** Objects *)

Definition member_json (kv : string * pyval) : result (string * json) :=
  j ← to_json kv.2; Ok (kv.1, j).

Lemma to_json_str_dict l :
  to_json (str_dict l) = (items ← map_result member_json l; Ok (JObj (sorted_by fst items))).
Proof.
  unfold str_dict. simpl.
  match goal with |- mbind ?k _ = _ => apply (f_equal (mbind k)) end.
  induction l as [|[k v] l IH]; simpl; [done|]. refold_fmap. rewrite IH.
  change (member_json (k, v)) with (j ← to_json v; Ok (k, j)). by destruct (to_json v).
Qed.

Lemma native_str_dict l : native (str_dict l) = forallb (fun kv => native kv.2) l.
Proof. unfold str_dict. simpl. induction l as [|[k v] l IH]; simpl; [done|]. refold_fmap. by rewrite IH. Qed.

Lemma map_result_perm {A B} (f : A -> result B) l l' r :
  l ≡ₚ l' -> map_result f l = Ok r -> exists r', map_result f l' = Ok r' /\ r ≡ₚ r'.
Proof.
  intros Hp Hr%map_result_Forall2.
  destruct (Permutation_Forall2 Hp Hr) as (r' & Hp' & Hr'). exists r'. by rewrite map_result_Forall2.
Qed.

Lemma member_json_keys l items : map_result member_json l = Ok items -> items.*1 = l.*1.
Proof.
  intros H%map_result_Forall2. induction H as [|[k v] [k' j] l items Hkv _ IH]; simpl; [done|].
  unfold member_json in Hkv. inv_ok. simpl. refold_fmap. by rewrite IH.
Qed.

Lemma has_surrogate_ascii c l : (c < 160)%N -> has_surrogate (c :: l) = has_surrogate l.
Proof.
  intros Hc. destruct l as [|b l]; [done|]. simpl. destruct (N.eqb_spec c 237); [lia|done].
Qed.

Lemma has_surrogate_cons2 a b l :
  has_surrogate (a :: b :: l) = ((a =? 237) && (160 <=? b))%N || has_surrogate (b :: l).
Proof. done. Qed.

(** A byte below 160 does not complete a surrogate, so the test splits there. *)
Lemma has_surrogate_split x c y : (c < 160)%N ->
  has_surrogate (x ++ c :: y) = has_surrogate x || has_surrogate y.
Proof.
  intros Hc. induction x as [|a x IH]; simpl app; [by rewrite has_surrogate_ascii|].
  destruct x as [|b x].
  - simpl app. rewrite has_surrogate_cons2, has_surrogate_ascii by done.
    destruct (N.leb_spec 160 c); [lia|]. by rewrite andb_false_r.
  - simpl app in IH |- *. rewrite !has_surrogate_cons2, IH. by rewrite orb_assoc.
Qed.

Lemma string_bytes_app s t : string_bytes (string_app s t) = string_bytes s ++ string_bytes t.
Proof. induction s as [|c s IH]; simpl; [done|]. by rewrite IH. Qed.

Definition surrogate_free (s : string) : bool := negb (has_surrogate (string_bytes s)).

Lemma surrogate_free_intro s : has_surrogate (string_bytes s) = false -> surrogate_free s = true.
Proof. unfold surrogate_free. by intros ->. Qed.

Lemma surrogate_free_split s c t :
  (ord c < 160)%N -> surrogate_free (string_app s (String c t)) = surrogate_free s && surrogate_free t.
Proof.
  intros Hc. unfold surrogate_free. rewrite string_bytes_app. simpl.
  rewrite has_surrogate_split by done. by rewrite negb_orb.
Qed.

Lemma surrogate_free_cons c t :
  (ord c < 160)%N -> surrogate_free (String c t) = surrogate_free t.
Proof. intros Hc. unfold surrogate_free. simpl string_bytes. by rewrite has_surrogate_ascii. Qed.

Lemma surrogate_free_list l rest c :
  (ord c < 160)%N -> surrogate_free (string_app (join "," l) (String c rest))
  = forallb surrogate_free l && surrogate_free rest.
Proof.
  intros Hc. destruct l as [|s l]; [by apply surrogate_free_cons|]. rewrite join_cons, string_app_assoc.
  revert s. induction l as [|t l IH]; intros s; simpl.
  - rewrite surrogate_free_split by done. by rewrite andb_true_r.
  - unfold sep_tail at 1. simpl. rewrite surrogate_free_split by done.
    rewrite string_app_assoc, IH. by rewrite andb_assoc.
Qed.

Lemma utf8_encode_free s : surrogate_free s = true -> utf8_encode s = Ok s.
Proof. unfold surrogate_free, utf8_encode. by destruct (has_surrogate _). Qed.

Lemma utf8_encode_not_free s : surrogate_free s = false ->
  utf8_encode s = Raise (Exn "UnicodeEncodeError" "surrogates not allowed").
Proof. unfold surrogate_free, utf8_encode. by destruct (has_surrogate _). Qed.

Lemma render_member_free kv : surrogate_free (render kv.2) = true ->
  surrogate_free (render_member kv) = surrogate_free (render_string kv.1).
Proof.
  intros H. unfold render_member. rewrite surrogate_free_split by done. by rewrite H, andb_true_r.
Qed.

Lemma object_parts l :
  Forall (fun kv => surrogate_free (render kv.2) = true) l ->
  map_result (fun kb => key ← utf8_encode (render_string kb.1); Ok (string_app key (String ":" kb.2)))
             ((fun kv => (kv.1, render kv.2)) <$> l)
  = if forallb surrogate_free (render_member <$> l) then Ok (render_member <$> l)
    else Raise (Exn "UnicodeEncodeError" "surrogates not allowed").
Proof.
  induction 1 as [|kv l Hkv _ IH]; [done|]. simpl. rewrite render_member_free by done.
  destruct (surrogate_free (render_string kv.1)) eqn:E.
  - rewrite utf8_encode_free by done. simpl. refold_fmap. rewrite IH. simpl.
    by destruct (forallb surrogate_free _).
  - by rewrite utf8_encode_not_free.
Qed.

(** Sorting by name commutes with a map that keeps the names. *)
Lemma sorted_by_fmap_fst {B C} (f : string * B -> string * C) l :
  (forall x, (f x).1 = x.1) -> sorted_by fst (f <$> l) = f <$> sorted_by fst l.
Proof.
  intros Hf. induction l as [|x l IH]; [done|]. simpl. refold_fmap. rewrite IH. generalize (sorted_by fst l) as m. clear - Hf. induction m as [|y m IH]; simpl; [done|].
  rewrite !Hf. destruct (cmp_leb _ _); [done|]. simpl. refold_fmap. by rewrite IH.
Qed.

(** [canonical_object_bytes] of a JSON object's members, each already rendered. *)
Lemma canonical_object_bytes_render items :
  Forall (fun kv => surrogate_free (render kv.2) = true) items ->
  canonical_object_bytes ((fun kv => (kv.1, render kv.2)) <$> items)
  = utf8_encode (render (JObj (sorted_by fst items))).
Proof.
  intros Hi. unfold canonical_object_bytes.
  rewrite sorted_by_fmap_fst by done.
  rewrite object_parts by (by rewrite sorted_by_perm).
  change (render (JObj (sorted_by fst items)))
    with (String "{" (string_app (join "," (render_member <$> sorted_by fst items)) "}")).
  assert (Hf : surrogate_free (String "{" (string_app (join "," (render_member <$> sorted_by fst items)) "}"))
    = forallb surrogate_free (render_member <$> sorted_by fst items)).
  { rewrite surrogate_free_cons, surrogate_free_list by done. by rewrite andb_true_r. }
  destruct (forallb surrogate_free _).
  - by rewrite (utf8_encode_free _ Hf).
  - by rewrite (utf8_encode_not_free _ Hf).
Qed.

(** ** Properties *)

(** The fast path of [canonical_json_bytes] (the [_json_native] test followed by one
    [json.dumps]) is unobservable: on every value the function returns exactly the bytes, or
    raises exactly the error, of the checked walk it is meant to avoid. *)
Theorem canonical_fast_path (value : pyval) :
  canonical_json_bytes value = checked_json_bytes value.
Proof.
  destruct (native value) eqn:Hn.
  - by rewrite canonical_json_bytes_native, checked_json_bytes_native.
  - unfold canonical_json_bytes. by rewrite json_native_spec, Hn.
Qed.

(** Canonical bytes identify the value: two values have the same canonical encoding exactly
    when they are the same JSON value, that is equal once tuples are read as lists and object
    members are ordered by name. *)
Theorem canonical_json_injective (v w : pyval) (b : string) :
  canonical_json_bytes v = Ok b ->
  canonical_json_bytes w = Ok b <-> native w = true /\ to_json w = to_json v.
Proof.
  intros (Hv & j & Hj & -> & Hs)%canonical_json_bytes_Ok. rewrite canonical_json_bytes_Ok.
  split; [|intros [Hw E]; rewrite E; eauto].
  intros (Hw & j' & Hj' & E & _). apply render_inj in E as ->.
  by rewrite Hj', Hj.
Qed.

Lemma canonical_json_injective_witness :
  let v := str_dict [("b", VInt 2); ("a", VTuple [VStr "x"])] in
  let w := str_dict [("a", VList [VStr "x"]); ("b", VInt 2)] in
  exists b, canonical_json_bytes v = Ok b /\
    (canonical_json_bytes w = Ok b <-> native w = true /\ to_json w = to_json v).
Proof.
  intros v w. eexists. split; [vm_compute; reflexivity|].
  apply canonical_json_injective. vm_compute. reflexivity.
Defined.

Definition encoded_member (kv : string * pyval) (kb : string * string) : Prop :=
  kb.1 = kv.1 /\ canonical_json_bytes kv.2 = Ok kb.2.

(** Joining members' canonical encodings with [canonical_object_bytes] gives the canonical
    encoding of their object, error included, so a large member's bytes can be reused. *)
Theorem canonical_object_bytes_agrees (members : list (string * pyval)) (encoded : list (string * string)) :
  Forall2 encoded_member members encoded ->
  canonical_object_bytes encoded = canonical_json_bytes (str_dict members).
Proof.
  intros H.
  assert (exists items, map_result member_json members = Ok items /\
    encoded = (fun kv => (kv.1, render kv.2)) <$> items /\
    Forall (fun kv => surrogate_free (render kv.2) = true) items /\
    forallb (fun kv => native kv.2) members = true) as (items & Hi & -> & Hf & Hn).
  { induction H as [|[k v] [k' b] l l' [Hk Hb] _ (items & Hi & -> & Hf & Hn)]; [by exists []|].
    simpl in Hk, Hb. subst k'. apply canonical_json_bytes_Ok in Hb as (Hv & j & Hj & -> & Hs).
    exists ((k, j) :: items). simpl. rewrite Hi. unfold member_json. simpl. rewrite Hj, Hv, Hn.
    split_and!; [done|done| |done]. constructor; [|done]. simpl. unfold surrogate_free. by rewrite Hs. }
  rewrite canonical_object_bytes_render by done.
  rewrite canonical_json_bytes_native by (by rewrite native_str_dict).
  unfold dumps. rewrite to_json_str_dict, Hi. done.
Qed.

Lemma canonical_object_bytes_agrees_witness :
  canonical_object_bytes [("b", "2"); ("a", "[]")]
  = canonical_json_bytes (str_dict [("b", VInt 2); ("a", VList [])]).
Proof.
  apply canonical_object_bytes_agrees.
  repeat constructor; vm_compute; reflexivity.
Defined.

Lemma canonical_digest_envelope d p n h :
  canonical_digest d p n = Ok h ->
  exists j, native p = true /\ to_json p = Ok j /\
    h = sha256_hex (render (JObj [("domain", JStr d); ("payload", j); ("schema_version", JInt n)])).
Proof.
  unfold canonical_digest, canonical_payload_digest. intros H. inv_ok.
  apply canonical_json_bytes_Ok in Hx as (Hp & j & Hj & -> & Hs). exists j. split_and!; [done..|].
  step_guard H. step_guard H. inv_ok.
  apply canonical_json_bytes_Ok in Hx as (_ & j1 & [= <-] & -> & Hs1).
  apply canonical_json_bytes_Ok in Hx0 as (_ & j2 & [= <-] & -> & Hs2).
  change [("domain", render (JStr d)); ("payload", render j); ("schema_version", render (JInt n))]
    with ((fun kv => (kv.1, render kv.2)) <$> [("domain", JStr d); ("payload", j); ("schema_version", JInt n)]) in Hx1.
  rewrite canonical_object_bytes_render in Hx1
    by (repeat first [apply Forall_nil_2 | apply Forall_cons_2]; by apply surrogate_free_intro).
  unfold utf8_encode in Hx1. step_guard Hx1. by injection Hx1 as <-.
Qed.

(** The text that is hashed for a payload. *)
Definition envelope (d : string) (p : pyval) (n : Z) : string :=
  match to_json p with
  | Ok j => render (JObj [("domain", JStr d); ("payload", j); ("schema_version", JInt n)])
  | Raise _ => ""
  end.

(** The two envelopes are different texts with the same SHA-256. *)
Definition clash (d : string) (p : pyval) (n : Z) (d' : string) (p' : pyval) (n' : Z) : Prop :=
  envelope d p n <> envelope d' p' n' /\ sha256_hex (envelope d p n) = sha256_hex (envelope d' p' n').

Lemma digest_binds d d' p p' n n' h :
  canonical_digest d p n = Ok h -> canonical_digest d' p' n' = Ok h ->
  (d = d' /\ n = n' /\ to_json p = to_json p') \/ clash d p n d' p' n'.
Proof.
  intros (j & _ & Hj & ->)%canonical_digest_envelope (j' & _ & Hj' & E)%canonical_digest_envelope.
  destruct (decide (envelope d p n = envelope d' p' n')) as [Hxy|Hxy]; [left|right; split; [done|]];
    unfold envelope in *; rewrite Hj, Hj' in *; [|done].
  apply render_inj in Hxy. by injection Hxy as <- <- <-.
Qed.

(** C33: a canonical digest is the SHA-256 of its envelope and binds its domain, schema version and payload:
    two calls that return the same digest were given the same domain, version and JSON payload, unless their
    own two envelopes are different texts with the same SHA-256. *)
Theorem canonical_digest_binds (d d' : string) (p p' : pyval) (n n' : Z) (h : string) :
  canonical_digest d p n = Ok h -> canonical_digest d' p' n' = Ok h ->
  h = sha256_hex (envelope d p n) /\
  ((d = d' /\ n = n' /\ to_json p = to_json p') \/ clash d p n d' p' n').
Proof.
  intros H H'. split; [|by eapply digest_binds]. apply canonical_digest_envelope in H as (j & _ & Hj & ->).
  unfold envelope. by rewrite Hj.
Qed.

Lemma canonical_digest_binds_witness :
  exists h, canonical_digest "cacheon.test" (str_dict [("a", VInt 1)]) 1 = Ok h /\
  h = sha256_hex (envelope "cacheon.test" (str_dict [("a", VInt 1)]) 1) /\
  (("cacheon.test" = "cacheon.test" /\ 1%Z = 1%Z /\
    to_json (str_dict [("a", VInt 1)]) = to_json (str_dict [("a", VInt 1)])) \/
   clash "cacheon.test" (str_dict [("a", VInt 1)]) 1 "cacheon.test" (str_dict [("a", VInt 1)]) 1).
Proof.
  eexists. split; [vm_compute; reflexivity|].
  apply (canonical_digest_binds _ _ (str_dict [("a", VInt 1)]) (str_dict [("a", VInt 1)]));
    vm_compute; reflexivity.
Defined.

Lemma canonical_digest_shape d p n h : canonical_digest d p n = Ok h -> is_sha256_hex h = true.
Proof. intros (j & _ & _ & ->)%canonical_digest_envelope. apply sha256_hex_is_digest. Qed.
#[export] Hint Resolve canonical_digest_shape : py.

(** ** Text that always encodes *)

Definition is_ascii (c : chr) : bool := (ord c <? 128)%N.

Fixpoint json_ascii (j : json) : bool :=
  match j with
  | JStr s => all_chars is_ascii s
  | JArr l => forallb json_ascii l
  | JObj l => forallb (fun kv => all_chars is_ascii kv.1 && json_ascii kv.2) l
  | _ => true
  end.

Lemma ascii_join l : forallb (all_chars is_ascii) l = true -> all_chars is_ascii (join "," l) = true.
Proof.
  destruct l as [|s l]; [done|]. rewrite join_cons, all_chars_app. simpl. intros [-> H]%andb_true_iff. simpl. 
  induction l as [|t l IH]; [done|]. simpl in *. apply andb_true_iff in H as [Ht Hl].
  by rewrite all_chars_app, Ht, IH.
Qed.

Lemma ascii_weaken (p : chr -> bool) s :
  (forall c, p c = true -> is_ascii c = true) -> all_chars p s = true -> all_chars is_ascii s = true.
Proof. intros Hp. induction s as [|c s IH]; simpl; [done|]. intros [Hc Hs]%andb_true_iff. by rewrite (Hp _ Hc), IH. Qed.

Lemma ascii_digits s : all_chars is_digit s = true -> all_chars is_ascii s = true.
Proof. apply ascii_weaken. intros c. unfold is_digit, is_ascii, in_range. rewrite andb_true_iff, !N.leb_le, N.ltb_lt. lia. Qed.

Lemma escape_char_ascii c : is_ascii c = true -> all_chars is_ascii (string_of_chars (escape_char c)) = true.
Proof. by destruct c as [[] [] [] [] [] [] [] []]; vm_compute. Qed.

Lemma escape_ascii s : all_chars is_ascii s = true -> all_chars is_ascii (escape s) = true.
Proof.
  induction s as [|c s IH]; simpl; [done|]. intros [Hc Hs]%andb_true_iff.
  by rewrite all_chars_app, escape_char_ascii, IH.
Qed.

Lemma render_string_ascii s : all_chars is_ascii s = true -> all_chars is_ascii (render_string s) = true.
Proof. intros H. unfold render_string. simpl. by rewrite all_chars_app, escape_ascii. Qed.

Lemma render_member_ascii k j :
  all_chars is_ascii k = true -> all_chars is_ascii (render j) = true -> all_chars is_ascii (render_member (k, j)) = true.
Proof. intros Hk Hj. unfold render_member. cbn [fst snd]. rewrite all_chars_app, render_string_ascii by done. simpl. by rewrite Hj. Qed.

Lemma render_ascii j : json_ascii j = true -> all_chars is_ascii (render j) = true.
Proof.
  induction j as [|[]|z|s|l IH|l IH] using json_ind'; intros H; try done.
  - unfold render, dec_of_Z. destruct z; simpl; [done|..]; by rewrite (ascii_digits _ (dec_of_N_digits _)).
  - by apply render_string_ascii.
  - simpl. rewrite all_chars_app, ascii_join; [done|]. induction IH as [|j l Hj _ IH]; simpl in *; [done|].
    apply andb_true_iff in H as [Hj' Hl]. refold_fmap. by rewrite Hj, IH.
  - change (render (JObj l)) with (String "{" (string_app (join "," (render_member <$> l)) "}")). simpl.
    rewrite all_chars_app, ascii_join; [done|]. induction IH as [|[k j] l Hj _ IH]; [done|].
    cbn [json_ascii forallb fst snd] in H, Hj. apply andb_true_iff in H as [[Hk Hj']%andb_true_iff Hl].
    rewrite fmap_cons. cbn [forallb]. by rewrite render_member_ascii, IH by auto.
Qed.

Lemma ascii_surrogate_free s : all_chars is_ascii s = true -> has_surrogate (string_bytes s) = false.
Proof.
  induction s as [|c s IH]; [done|]. simpl all_chars. intros [Hc Hs]%andb_true_iff. simpl string_bytes.
  rewrite has_surrogate_ascii; [by apply IH|]. unfold is_ascii in Hc. apply N.ltb_lt in Hc. lia.
Qed.

Lemma domain_ascii d : is_domain d = true -> all_chars is_ascii d = true.
Proof.
  destruct d as [|c d]; simpl; [done|]. intros [Hc Hd]%andb_true_iff.
  assert (Hh : forall c, domain_head c = true -> is_ascii c = true).
  { clear. intros c. unfold domain_head, is_digit, is_ascii, in_range. rewrite orb_true_iff, !andb_true_iff, !N.leb_le, N.ltb_lt. lia. }
  rewrite (Hh _ Hc). simpl. eapply ascii_weaken, Hd. clear -Hh. intros c. unfold domain_tail.
  rewrite !orb_true_iff, !N.eqb_eq. unfold is_ascii. rewrite N.ltb_lt. intros [[[H|H]|H]|H]; [|lia..].
  apply Hh in H. unfold is_ascii in H. by apply N.ltb_lt.
Qed.

Lemma sha256_ascii s : is_sha256_hex s = true -> all_chars is_ascii s = true.
Proof.
  unfold is_sha256_hex. intros [_ H]%andb_true_iff. revert H. apply ascii_weaken. intros c.
  unfold is_lower_hex, is_digit, is_ascii, in_range. rewrite orb_true_iff, !andb_true_iff, !N.leb_le, N.ltb_lt. lia.
Qed.

(** A payload of ASCII text and integers always has a digest. *)
Lemma canonical_digest_total d p n j :
  is_domain d = true -> (1 <= n)%Z -> native p = true -> to_json p = Ok j -> json_ascii j = true ->
  exists h, canonical_digest d p n = Ok h.
Proof.
  intros Hd Hn Hp Hj Ha.
  assert (Hb : forall v k, native v = true -> to_json v = Ok k -> json_ascii k = true -> canonical_json_bytes v = Ok (render k)).
  { intros v k Hv Hk Hka. apply canonical_json_bytes_Ok. split; [done|]. exists k. split_and!; [done..|].
    by apply ascii_surrogate_free, render_ascii. }
  pose proof (domain_ascii d Hd) as Hda.
  set (items := [("domain", JStr d); ("payload", j); ("schema_version", JInt n)]).
  assert (Ho : canonical_object_bytes ((fun kv => (kv.1, render kv.2)) <$> items) = Ok (render (JObj (sorted_by fst items)))).
  { rewrite canonical_object_bytes_render.
    - apply utf8_encode_free, surrogate_free_intro, ascii_surrogate_free, render_ascii. simpl. by rewrite Hda, Ha.
    - repeat constructor; by apply surrogate_free_intro, ascii_surrogate_free, render_ascii. }
  eexists. unfold canonical_digest, canonical_payload_digest. rewrite (Hb p j) by done. cbn [mbind result_bind].
  rewrite Hd, (proj2 (Z.ltb_ge n 1)) by lia. rewrite (Hb (VStr d) (JStr d)), (Hb (VInt n) (JInt n)) by done.
  cbn [mbind result_bind negb]. cbn [items fmap list_fmap fst snd] in Ho. rewrite Ho. reflexivity.
Qed.
