(* ===== verification/Strict.v ===== *)
(** * The strict-validation kernel

    [cacheon/_strict.py]: member overlap on node addresses, and the shared
    checks on digests, integers, identifiers and JSON objects. Each check takes
    the caller's error class, here a function from the message to an [exn]; the
    values a message quotes with [!r] are left out of it. *)

From S2P Require Import Prelude PyVal Dict Identity.

Open Scope Z_scope.

(** ** Node addresses *)

Definition dot : chr := Ascii.ascii_of_N 46.
Definition segments (address : string) : list string := split_on dot address.

(** [a == b or "*" in (a, b)] *)
Definition segment_overlap (ab : string * string) : bool :=
  String.eqb ab.1 ab.2 || String.eqb "*" ab.1 || String.eqb "*" ab.2.

Definition address_overlap (x y : string) : bool :=
  forallb segment_overlap (zip (segments x) (segments y)).

Definition members_overlap (left right : list string) : bool :=
  existsb (fun x => existsb (address_overlap x) right) left.

(** [(?=.{1,128}\Z)(?:\*|[0-9A-Za-z_\-]+)(?:\.(?:\*|[0-9A-Za-z_\-]+))*\Z] *)
Definition node_char (c : chr) : bool :=
  is_digit c || in_range 65 90 c || in_range 97 122 c || (ord c =? 95)%N || (ord c =? 45)%N.

Definition node_segment (s : string) : bool :=
  String.eqb s "*" || (negb (String.eqb s "") && all_chars node_char s).

Definition NODE_ADDRESS (s : string) : bool :=
  (1 <=? String.length s)%nat && (String.length s <=? 128)%nat && forallb node_segment (segments s).

(** [member == root or member.startswith(root + ".")] *)
Definition under_root (member root : string) : bool :=
  String.eqb member root || starts_with (string_app root ".") member.

(** [itertools.combinations(l, 2)] *)
Fixpoint combinations {A} (l : list A) : list (A * A) :=
  match l with [] => [] | x :: l => (pair x <$> l) ++ combinations l end.

(** [tuple(sorted(set(l)))] *)
Definition sorted_set (l : list string) : list string := sorted_id (remove_dups l).

Definition require_node_members (declared roots : list string) (error : string -> exn) :
    result (list string) :=
  let members := sorted_set declared in
  raise_if negb (forallb (fun m => NODE_ADDRESS m && existsb (under_root m) roots) members)
    with (error "node addresses must sit under the roots");
  raise_if existsb (fun p => members_overlap [p.1] [p.2]) (combinations members)
    with (error "node addresses overlap; claim the wider node alone");
  Ok members.

(** ** Scalars *)

Definition _ZERO_DIGEST : string := string_of_bytes (repeat 48%N 64).

Definition require_digest (value : pyval) (field : string) (error : string -> exn)
    (allow_zero optional : bool) : result string :=
  match value with
  | VStr s =>
      if optional && String.eqb s "" then Ok ""
      else
        match require_sha256_hex value field with
        | Raise e => Raise (error (exn_message e))
        | Ok digest =>
            raise_if negb allow_zero && String.eqb digest _ZERO_DIGEST
              with (error (string_app field " must not be the all-zero digest"));
            Ok digest
        end
  | _ =>
      match require_sha256_hex value field with
      | Raise e => Raise (error (exn_message e))
      | Ok digest => Ok digest
      end
  end.

Definition int_bounds_message (field : string) (minimum maximum : option Z) : string :=
  string_app field
    (match minimum, maximum with
     | Some lo, Some hi =>
         string_app " must be an integer in [" (string_app (dec_of_Z lo)
           (string_app ", " (string_app (dec_of_Z hi) "]")))
     | Some lo, None => string_app " must be an integer >= " (dec_of_Z lo)
     | None, Some hi => string_app " must be an integer <= " (dec_of_Z hi)
     | None, None => " must be an integer"
     end).

(** [type(value) is int]: a [bool] is another constructor of [pyval]. *)
Definition require_int (value : pyval) (field : string) (error : string -> exn)
    (minimum maximum : option Z) : result Z :=
  match value with
  | VInt z =>
      if match minimum with Some lo => lo <=? z | None => true end
         && match maximum with Some hi => z <=? hi | None => true end
      then Ok z else Raise (error (int_bounds_message field minimum maximum))
  | _ => Raise (error (int_bounds_message field minimum maximum))
  end.

(** The pattern is the caller's grammar, as its [fullmatch] test. *)
Definition require_identifier (value : pyval) (field : string) (error : string -> exn)
    (pattern : string -> bool) : result string :=
  match value with
  | VStr s => if pattern s then Ok s else Raise (error (string_app field " is not a canonical identifier"))
  | _ => Raise (error (string_app field " is not a canonical identifier"))
  end.

(** ** Objects *)

(** A mapping that is not a [dict] has no value of its own here, so that
    [exact_dict] only changes the message. *)
Definition require_exact_fields (value : pyval) (fields : list string) (label : string)
    (error : string -> exn) (exact_dict : bool) : result (list (string * pyval)) :=
  match value with
  | VDict items =>
      match str_items items with
      | None => Raise (error (string_app label " keys must be strings"))
      | Some row =>
          raise_if negb (keys_are fields items) with (error (string_app label " fields mismatch"));
          Ok row
      end
  | _ => Raise (error (string_app label (if exact_dict then " must be a JSON object" else " must be an object")))
  end.

(** [if type(value) is not dict or set(value) != fields: raise e] *)
Definition exact_dict (value : pyval) (fields : list string) (e : exn) : result (list (string * pyval)) :=
  match value with
  | VDict items =>
      raise_if negb (keys_are fields items) with e;
      match str_items items with Some row => Ok row | None => Raise e end
  | _ => Raise e
  end.

(** [cls( **row)]: the argument a field of the object becomes. *)
Definition argument (row : list (string * pyval)) (name : string) : pyval := default VNone (dict_get name row).

(** [result[key] = value] for a key known to be absent. *)
Definition add_pair (label : string) (error : string -> exn) (acc : list (string * pyval))
    (kv : string * pyval) : result (list (string * pyval)) :=
  raise_if bool_decide (kv.1 ∈ acc.*1) with (error (string_app label " contains duplicate key"));
  Ok (acc ++ [kv]).

Definition duplicate_key_pairs (pairs : list (string * pyval)) (label : string)
    (error : string -> exn) : result (list (string * pyval)) :=
  fold_result (add_pair label error) pairs [].

(** ** Node addresses: what an overlap means

    An address claims every unit of the model tree at or under it: the paths
    whose first segments match it, [*] matching any segment. *)
Definition segment_claims (pat seg : string) : Prop := pat = seg \/ pat = "*".

Definition claims (address : string) (path : list string) : Prop :=
  exists pre post, path = pre ++ post /\ Forall2 segment_claims (segments address) pre.

Lemma segment_overlap_spec a b :
  segment_overlap (a, b) = true <-> exists s, segment_claims a s /\ segment_claims b s.
Proof.
  unfold segment_overlap, segment_claims. cbn [fst snd]. rewrite !orb_true_iff, !String.eqb_eq.
  split.
  - intros [[-> | <-] | <-]; eauto.
  - intros (s & [->| ->] & [->| ->]); auto.
Qed.

Lemma segments_claim_self l : Forall2 segment_claims l l.
Proof. induction l; constructor; [by left|done]. Qed.

Lemma zip_overlap_spec l k :
  forallb segment_overlap (zip l k) = true <->
  exists path pre post pre' post', path = pre ++ post /\ path = pre' ++ post' /\
    Forall2 segment_claims l pre /\ Forall2 segment_claims k pre'.
Proof.
  revert k. induction l as [|a l IH]; intros k; simpl.
  { split; [intros _|done]. exists k, [], k, k, []. rewrite app_nil_r. split_and!; [done..|constructor|apply segments_claim_self]. }
  destruct k as [|b k]; simpl.
  { split; [intros _|done]. exists (a :: l), (a :: l), [], [], (a :: l). rewrite app_nil_r.
    split_and!; [done..|apply segments_claim_self|constructor]. }
  rewrite andb_true_iff, segment_overlap_spec, IH. split.
  - intros [(s & Ha & Hb) (path & p & q & p' & q' & -> & E & H1 & H2)].
    exists (s :: p ++ q), (s :: p), q, (s :: p'), q'. split_and!; [done|simpl; by rewrite E|by constructor..].
  - intros (path & p & q & p' & q' & -> & E & H1 & H2).
    inversion H1 as [|? s ? p1 Hs H1']; subst. inversion H2 as [|? s' ? p1' Hs' H2']; subst.
    simpl in E. injection E as <- E. eauto 15.
Qed.

Lemma address_overlap_spec x y :
  address_overlap x y = true <-> exists path, claims x path /\ claims y path.
Proof.
  unfold address_overlap, claims. rewrite zip_overlap_spec. split.
  - intros (path & p & q & p' & q' & ? & ? & ? & ?). exists path. eauto 10.
  - intros (path & (p & q & ? & ?) & (p' & q' & ? & ?)). exists path, p, q, p', q'. auto.
Qed.

(** Two member sets overlap exactly when some unit of the model, a path in the module tree, is
    claimed by a member of each. *)
Theorem members_overlap_spec (left right : list string) :
  members_overlap left right = true <->
  exists x y path, x ∈ left /\ y ∈ right /\ claims x path /\ claims y path.
Proof.
  unfold members_overlap. rewrite existsb_exists. setoid_rewrite existsb_exists.
  setoid_rewrite address_overlap_spec. setoid_rewrite list_elem_of_In. naive_solver.
Qed.

Lemma combinations_spec {A} (l : list A) i j x y :
  l !! i = Some x -> l !! j = Some y -> (i < j)%nat -> (x, y) ∈ combinations l.
Proof.
  revert i j. induction l as [|z l IH]; intros i j Hi Hj Hij; [done|]. simpl.
  apply elem_of_app. destruct j as [|j]; [lia|]. simpl in Hj. destruct i as [|i]; simpl in Hi.
  - injection Hi as ->. left. apply list_elem_of_fmap. exists y. split; [done|].
    by eapply list_elem_of_lookup_2.
  - right. eapply (IH i j); [done..|lia].
Qed.

Lemma sorted_set_elem x l : x ∈ sorted_set l <-> x ∈ l.
Proof. unfold sorted_set, sorted_id. by rewrite sorted_by_perm, elem_of_remove_dups. Qed.

Lemma sorted_set_NoDup l : NoDup (sorted_set l).
Proof. unfold sorted_set, sorted_id. rewrite sorted_by_perm. apply NoDup_remove_dups. Qed.

Lemma address_overlap_sym x y : address_overlap x y = address_overlap y x.
Proof. apply eq_true_iff_eq. rewrite !address_overlap_spec. naive_solver. Qed.

(** Accepted node members are the declared addresses, sorted and without repetition; each is
    under one of the roots, and no unit of the model is claimed by two of them. *)
Theorem require_node_members_disjoint (declared roots : list string) (error : string -> exn)
    (members : list string) :
  require_node_members declared roots error = Ok members ->
  StronglySorted (key_le id) members /\ NoDup members /\
  (forall m, m ∈ members <-> m ∈ declared) /\
  (forall m, m ∈ members -> NODE_ADDRESS m = true /\ exists r, r ∈ roots /\ under_root m r = true) /\
  (forall m m' path, m ∈ members -> m' ∈ members -> claims m path -> claims m' path -> m = m').
Proof.
  unfold require_node_members. intros H. step_guard H. step_guard H. injection H as <-.
  apply negb_false_iff in Eg. rewrite forallb_forall in Eg.
  split_and!; [apply sorted_by_sorted|apply sorted_set_NoDup|intros; apply sorted_set_elem|..].
  - intros m Hm. apply list_elem_of_In, Eg, andb_true_iff in Hm as [Hn Hr]. split; [done|].
    apply existsb_exists in Hr as (r & Hr & ?). exists r. by rewrite list_elem_of_In.
  - intros m m' path Hm Hm' Hc Hc'.
    apply list_elem_of_lookup in Hm as [i Hi], Hm' as [j Hj].
    assert (Hno : forall i j x y, sorted_set declared !! i = Some x -> sorted_set declared !! j = Some y ->
                    (i < j)%nat -> address_overlap x y = false).
    { intros i' j' x y Hx Hy Hij. pose proof (combinations_spec _ _ _ _ _ Hx Hy Hij) as Hin.
      destruct (address_overlap x y) eqn:E; [|done]. exfalso.
      apply not_true_iff_false in Eg0. apply Eg0, existsb_exists. exists (x, y).
      split; [by apply list_elem_of_In|]. unfold members_overlap. simpl. by rewrite E. }
    assert (Ho : address_overlap m m' = true) by (apply address_overlap_spec; eauto).
    destruct (Nat.lt_trichotomy i j) as [Hij|[->|Hij]].
    + by rewrite (Hno i j m m') in Ho.
    + congruence.
    + rewrite address_overlap_sym, (Hno j i m' m) in Ho by done. done.
Qed.

Lemma require_node_members_disjoint_witness :
  let members := ["model.layers.*.mlp"; "model.norm"] in
  require_node_members ["model.norm"; "model.layers.*.mlp"; "model.norm"] ["model"] (Exn "E") = Ok members /\
  forall m m' path, m ∈ members -> m' ∈ members -> claims m path -> claims m' path -> m = m'.
Proof.
  intros members. split; [vm_compute; reflexivity|].
  refine (proj2 (proj2 (proj2 (proj2 (require_node_members_disjoint
    ["model.norm"; "model.layers.*.mlp"; "model.norm"] ["model"] (Exn "E") members _))))).
  vm_compute. reflexivity.
Defined.

(** ** Lemmas on the checks, for the modules that call them *)

Lemma require_int_Ok value field error lo hi z :
  require_int value field error (Some lo) hi = Ok z ->
  value = VInt z /\ lo <= z /\ (forall h, hi = Some h -> z <= h).
Proof.
  destruct value; try done. simpl. destruct (_ && _) eqn:E; [|done]. intros [= ->].
  split_bool. split; [done|]. split; [lia|]. intros h ->. lia.
Qed.

Lemma require_digest_zero_false value field error s :
  require_digest value field error false false = Ok s -> value = VStr s /\ is_sha256_hex s = true.
Proof.
  unfold require_digest. destruct value; try done. simpl. destruct (is_sha256_hex s0) eqn:E; [|done].
  intros H. step_guard H. by injection H as <-.
Qed.

Lemma require_digest_ok s field error :
  is_sha256_hex s = true -> s <> _ZERO_DIGEST -> require_digest (VStr s) field error false false = Ok s.
Proof.
  intros Hs Hz. unfold require_digest. simpl. rewrite Hs.
  by destruct (String.eqb_spec s _ZERO_DIGEST).
Qed.

Lemma add_pair_dup label error acc kv :
  kv.1 ∈ acc.*1 -> add_pair label error acc kv = Raise (error (string_app label " contains duplicate key")).
Proof. intros H. unfold add_pair. by rewrite bool_decide_eq_true_2. Qed.

Lemma add_pair_new label error acc kv :
  kv.1 ∉ acc.*1 -> add_pair label error acc kv = Ok (acc ++ [kv]).
Proof. intros H. unfold add_pair. by rewrite bool_decide_eq_false_2. Qed.

(** The hook accepts exactly the pair lists without a duplicate key, and then returns the
    pairs in their order. *)
Lemma duplicate_key_pairs_spec (pairs : list (string * pyval)) (label : string) (error : string -> exn) :
  duplicate_key_pairs pairs label error =
  if distinct pairs.*1 then Ok pairs else Raise (error (string_app label " contains duplicate key")).
Proof.
  unfold duplicate_key_pairs.
  enough (G : forall acc, NoDup acc.*1 -> fold_result (add_pair label error) pairs acc =
      if distinct (acc ++ pairs).*1 then Ok (acc ++ pairs)
      else Raise (error (string_app label " contains duplicate key"))) by (apply (G []); constructor).
  induction pairs as [|kv pairs IH]; intros acc Hacc; simpl.
  { rewrite app_nil_r. unfold distinct. by rewrite bool_decide_eq_true_2. }
  destruct (decide (kv.1 ∈ acc.*1)) as [Hin|Hin];
    [rewrite add_pair_dup by done|rewrite add_pair_new by done]; simpl.
  - unfold distinct. rewrite bool_decide_eq_false_2; [done|]. rewrite fmap_app, fmap_cons.
    intros [_ [Hd _]]%NoDup_app. apply (Hd kv.1 Hin). by left.
  - rewrite IH; [by rewrite <- app_assoc|]. rewrite fmap_app. apply NoDup_app.
    split_and!; [done| |repeat constructor; set_solver]. simpl. set_solver.
Qed.
