(* ===== verification/Fingerprint.v ===== *)
(** * Submitted-delta fingerprints

    [cacheon/copy_fingerprint.py]: the copy and provenance identity of a
    submission, its storage, and the comparison that decides whether a later
    submission is a copy of an earlier one. Parsing kernels into fingerprints is
    done by Python's [ast] and is not modelled. *)

From Stdlib Require Import Ascii.
From S2P Require Import Prelude PyVal Dict Sha256 Identity Strict.

Definition ValueError (m : string) : exn := Exn "ValueError" m.
Definition TypeError (m : string) : exn := Exn "TypeError" m.

(** [product_kind] is always ["component"]. *)
Record SubmittedDeltaFingerprint := mkFingerprint {
  f_kind : string; f_target : string; f_spec : string; f_members : list string; f_exact : string;
  f_selected : string; f_normalized : string; containment : list string; advisory : list string;
}.

#[export] Instance fingerprint_eq_dec : EqDecision SubmittedDeltaFingerprint.
Proof. solve_decision. Defined.

(** [members != tuple(sorted(set(members)))], negated *)
Definition is_sorted_set (l : list string) : bool := bool_decide (l = sorted_set l).

Definition make_fingerprint (f : SubmittedDeltaFingerprint) : result SubmittedDeltaFingerprint :=
  raise_if negb (String.eqb (f_kind f) "component") with (ValueError "submitted delta product kind is unsupported");
  raise_if negb (truthy (f_target f)) with (ValueError "submitted delta target is malformed");
  raise_if bool_decide (f_members f = []) || negb (is_sorted_set (f_members f)) || negb (forallb truthy (f_members f))
           || negb (is_sorted_set (containment f)) || negb (is_sorted_set (advisory f))
    with (ValueError "submitted delta fingerprint sets are not canonical");
  raise_if negb (forallb is_sha256_hex [f_exact f; f_selected f; f_normalized f; f_spec f])
    with (ValueError "submitted delta digest is malformed");
  raise_if negb (forallb is_sha256_hex (containment f ++ advisory f))
    with (ValueError "submitted delta member fingerprint is malformed");
  Ok f.

Definition fingerprint_rows (f : SubmittedDeltaFingerprint) : list (string * pyval) :=
  [("advisory_fingerprints", VList (VStr <$> advisory f)); ("containment_fingerprints", VList (VStr <$> containment f));
   ("exact_payload_digest", VStr (f_exact f)); ("members", VList (VStr <$> f_members f));
   ("normalized_delta_digest", VStr (f_normalized f)); ("product_kind", VStr (f_kind f));
   ("selected_delta_digest", VStr (f_selected f)); ("target_id", VStr (f_target f)); ("target_spec_digest", VStr (f_spec f))].

Definition fingerprint_to_dict (f : SubmittedDeltaFingerprint) : pyval := str_dict (fingerprint_rows f).

Definition fingerprint_digest (f : SubmittedDeltaFingerprint) : result string :=
  canonical_digest "cacheon.copy.submitted-delta" (fingerprint_to_dict f) 1.

(** [tuple(value)] of JSON data whose elements must then be strings. Python raises TypeError or ValueError for
    other elements, by their types; the only caller catches both. A string is the tuple of its characters. *)
Fixpoint all_strings (l : list pyval) : option (list string) :=
  match l with
  | [] => Some []
  | VStr s :: l => ts ← all_strings l; Some (s :: ts)
  | _ => None
  end.

(** The code points of a text, each as a text. *)
Fixpoint split_points (s : string) : string * list string :=
  match s with
  | EmptyString => (EmptyString, [])
  | String c s =>
      let (tail, points) := split_points s in
      if (128 <=? ord c)%N && (ord c <=? 191)%N then (String c tail, points) else (EmptyString, String c tail :: points)
  end.
Definition code_points (s : string) : list string := (split_points s).2.

Definition read_strings (v : pyval) : result (list string) :=
  match v with
  | VList l | VTuple l => match all_strings l with Some ts => Ok ts | None => Raise (TypeError "sequence of strings") end
  | VDict l => match all_strings l.*1 with Some ts => Ok ts | None => Raise (TypeError "sequence of strings") end
  | VStr s => Ok (code_points s)
  | _ => Raise (TypeError "object is not iterable")
  end.

Definition read_text (v : pyval) (message : string) : result string :=
  match v with VStr s => Ok s | _ => Raise (ValueError message) end.

Definition fingerprint_from_dict (value : pyval) : result SubmittedDeltaFingerprint :=
  row ← exact_dict value
    ["advisory_fingerprints"; "containment_fingerprints"; "exact_payload_digest"; "members"; "normalized_delta_digest";
     "product_kind"; "selected_delta_digest"; "target_id"; "target_spec_digest"]
    (ValueError "submitted delta fingerprint fields differ");
  members ← read_strings (argument row "members");
  contained ← read_strings (argument row "containment_fingerprints");
  advised ← read_strings (argument row "advisory_fingerprints");
  kind ← read_text (argument row "product_kind") "submitted delta product kind is unsupported";
  target ← read_text (argument row "target_id") "submitted delta target is malformed";
  exact ← read_text (argument row "exact_payload_digest") "submitted delta digest is malformed";
  selected ← read_text (argument row "selected_delta_digest") "submitted delta digest is malformed";
  normalized ← read_text (argument row "normalized_delta_digest") "submitted delta digest is malformed";
  spec ← read_text (argument row "target_spec_digest") "submitted delta digest is malformed";
  make_fingerprint (mkFingerprint kind target spec members exact selected normalized contained advised).

(** ** Comparison *)

Record DeltaCopyDecision := mkDecision {
  authoritative : bool; copy_reason : string; shared_fragments : list string; shared_advisory : list string;
}.

Definition included (l r : list string) : bool := forallb (fun x => bool_decide (x ∈ r)) l.
Definition shared (l r : list string) : list string := sorted_set (filter (fun x => x ∈ r) l).

Definition compare_submitted_deltas (earlier later : SubmittedDeltaFingerprint) : DeltaCopyDecision :=
  if negb (String.eqb (f_kind earlier) (f_kind later)) then mkDecision false "different_product_kind" [] []
  else if negb (String.eqb (f_target earlier) (f_target later)) && bool_decide (shared (f_members earlier) (f_members later) = [])
  then mkDecision false "different_reward_namespace" [] []
  else if String.eqb (f_exact earlier) (f_exact later) then mkDecision true "exact_delta_identity" [] []
  else if truthy (f_normalized earlier) && String.eqb (f_normalized earlier) (f_normalized later)
  then mkDecision true "normalized_delta_identity" [] []
  else
    let left := containment earlier in
    let right := containment later in
    if negb (bool_decide (left = [])) && negb (bool_decide (right = [])) && (included left right || included right left)
    then mkDecision true "symmetric_delta_containment" [] []
    else mkDecision false "advisory_only" (shared left right) (shared (advisory earlier) (advisory later)).

(** ** Folding fingerprints *)

Definition nul : chr := ascii_of_N 0.
Definition record_separator : chr := ascii_of_N 30.

(** [_digest_rows] *)
Definition _digest_rows (domain : string) (rows : list string) : string :=
  match sorted_id rows with
  | [] => ""
  | values => sha256_hex (string_app domain (String nul (join (String record_separator "") values)))
  end.

(** [_aggregate_variant_fingerprints] *)
Definition _aggregate_variant_fingerprints (parts : list string) (domain : string) : string :=
  match parts with
  | [] => ""
  | [part] => part
  | _ => sha256_hex (string_app domain (String nul (join (String record_separator "") (sorted_id parts))))
  end.

(** ** Storage *)

Lemma all_strings_texts l : all_strings (VStr <$> l) = Some l.
Proof. induction l as [|x l IH]; [done|]. rewrite fmap_cons. cbn [all_strings]. by rewrite IH. Qed.

Lemma make_fingerprint_Ok f f' : make_fingerprint f = Ok f' -> f' = f.
Proof. unfold make_fingerprint. intros H. repeat step_guard H. by injection H. Qed.

Lemma fingerprint_reads f : fingerprint_from_dict (fingerprint_to_dict f) = make_fingerprint f.
Proof.
  unfold fingerprint_from_dict, fingerprint_to_dict.
  change (exact_dict _ _ _) with (@Ok (list (string * pyval)) (fingerprint_rows f)). cbn -[make_fingerprint].
  rewrite !all_strings_texts. cbn -[make_fingerprint]. by destruct f.
Qed.

(** A fingerprint that the code can construct. *)
Definition accepted_fingerprint (f : SubmittedDeltaFingerprint) : Prop := make_fingerprint f = Ok f.

(** A fingerprint is accepted exactly when what is stored for it reads back as it. *)
Theorem fingerprint_reload (f : SubmittedDeltaFingerprint) :
  accepted_fingerprint f <-> fingerprint_from_dict (fingerprint_to_dict f) = Ok f.
Proof. by rewrite fingerprint_reads. Qed.

(** ** Copies *)

(** Two deltas that reward the same work. *)
Definition same_namespace (f g : SubmittedDeltaFingerprint) : Prop :=
  f_target f = f_target g \/ exists m, m ∈ f_members f /\ m ∈ f_members g.

Definition same_delta (f g : SubmittedDeltaFingerprint) : Prop :=
  f_exact f = f_exact g \/ (f_normalized f <> "" /\ f_normalized f = f_normalized g) \/
  (containment f <> [] /\ containment g <> [] /\ (containment f ⊆ containment g \/ containment g ⊆ containment f)).

Lemma included_spec l r : included l r = true <-> l ⊆ r.
Proof.
  unfold included. rewrite forallb_forall. split.
  - intros H x Hx. specialize (H x ltac:(by apply list_elem_of_In)). by apply bool_decide_eq_true in H.
  - intros H x Hx%list_elem_of_In. apply bool_decide_eq_true. by apply H.
Qed.

Lemma shared_elem x l r : x ∈ shared l r <-> x ∈ l /\ x ∈ r.
Proof. unfold shared. rewrite sorted_set_elem, list_elem_of_filter. tauto. Qed.

Lemma shared_empty l r : shared l r = [] <-> ~ exists x, x ∈ l /\ x ∈ r.
Proof.
  split.
  - intros E (x & Hx). apply shared_elem in Hx. rewrite E in Hx. by apply elem_of_nil in Hx.
  - intros H. destruct (shared l r) as [|x s] eqn:E; [done|]. exfalso. apply H. exists x. apply shared_elem. rewrite E. by left.
Qed.

Lemma copy_spec f g : authoritative (compare_submitted_deltas f g) = true <-> f_kind f = f_kind g /\ same_namespace f g /\ same_delta f g.
Proof.
  unfold compare_submitted_deltas, same_namespace, same_delta.
  destruct (String.eqb_spec (f_kind f) (f_kind g)) as [Ek|Ek]; cbn [negb]; [|split; [done|by intros [? _]]].
  destruct (negb (String.eqb (f_target f) (f_target g)) && _) eqn:En.
  { apply andb_true_iff in En as [Et%negb_true_iff%String.eqb_neq Es%bool_decide_eq_true%shared_empty]. naive_solver. }
  assert (Hn : f_target f = f_target g \/ exists m, m ∈ f_members f /\ m ∈ f_members g).
  { apply andb_false_iff in En as [Et%negb_false_iff%String.eqb_eq|Es%bool_decide_eq_false]; [by left|right].
    destruct (shared (f_members f) (f_members g)) as [|m l] eqn:E; [done|]. exists m. apply shared_elem. rewrite E. by left. }
  destruct (String.eqb_spec (f_exact f) (f_exact g)) as [Ee|Ee]; [by tauto|].
  destruct (truthy (f_normalized f) && _) eqn:Eno.
  { apply andb_true_iff in Eno as [Ht E%String.eqb_eq]. split; [intros _|done]. split_and!; [done..|]. right; left. split; [|done].
    by intros E0; rewrite E0 in Ht. }
  match goal with |- context [if ?b then _ else _] => destruct b eqn:Ec end; cbn [authoritative].
  - split; [intros _|done]. split_and!; [done..|]. right; right.
    apply andb_true_iff in Ec as [[Hl%negb_true_iff%bool_decide_eq_false Hr%negb_true_iff%bool_decide_eq_false]%andb_true_iff Hi].
    apply orb_true_iff in Hi. rewrite !included_spec in Hi. by split_and!.
  - split; [done|]. intros (_ & _ & [?|[[Hne E]|(Hl & Hr & Hi)]]); [done|..].
    + rewrite E, String.eqb_refl, andb_true_r in Eno. rewrite <- E in Eno. by destruct (f_normalized f).
    + rewrite (bool_decide_eq_false_2 _ Hl), (bool_decide_eq_false_2 _ Hr) in Ec. cbn [negb andb] in Ec.
      apply orb_false_iff in Ec as [Ha Hb]. rewrite <- !included_spec in Hi. destruct Hi as [Hi|Hi]; congruence.
Qed.

(** C38: what counts as a copy: two fingerprints are authoritative copies exactly when they are of one kind, reward the
    same work (one target, or a member in common), and are the same delta: the same bytes, the same normalized
    source, or one contains every fragment of the other. Which of them is called the earlier one does not
    matter, and neither do shared fragments or structural similarity. *)
Theorem copies_decided (f g : SubmittedDeltaFingerprint) :
  (authoritative (compare_submitted_deltas f g) = true <-> f_kind f = f_kind g /\ same_namespace f g /\ same_delta f g) /\
  authoritative (compare_submitted_deltas f g) = authoritative (compare_submitted_deltas g f).
Proof.
  split; [apply copy_spec|]. apply eq_true_iff_eq. rewrite !copy_spec. unfold same_namespace, same_delta.
  split; intros (Hk & Hn & Hd); (split_and!; [done|naive_solver|]); destruct Hd as [?|[[? ?]|(? & ? & ?)]]; naive_solver congruence.
Qed.

Lemma fingerprint_reload_witness :
  let d := sha256_hex "delta" in
  let f := mkFingerprint "component" "mlp" d ["model.layers.0.mlp"] d d d [d] [] in
  fingerprint_from_dict (fingerprint_to_dict f) = Ok f.
Proof. intros d f. apply fingerprint_reload. vm_compute. reflexivity. Defined.
