(* ===== verification/CpuSet.v ===== *)
(** * CPU and memory-node placement policy

    [cacheon/eval/oci_cpuset.py]: the one accepted spelling of a cpuset, the
    paired CPU/memory policy, and the per-GPU pin table of a lane. Timing the
    host's vCPUs ([verify_cpu_plan]) is outside the model. *)

From Stdlib Require Import Ascii DecimalString DecimalN.
From S2P Require Import Prelude PyVal Identity.

Open Scope Z_scope.

Definition ValueError (m : string) : exn := Exn "ValueError" m.

Definition _MAX_CPU_INDEX : Z := 1048575.
Definition _MAX_MEMORY_NODE_INDEX : Z := 65535.

(** ** Text *)

Definition comma : chr := ","%char.
Definition dash : chr := "-"%char.

(** [s.partition(sep)]: what precedes the first separator, whether there is
    one, and what follows it. *)
Fixpoint partition (sep : chr) (s : string) : string * bool * string :=
  match s with
  | EmptyString => (EmptyString, false, EmptyString)
  | String c s =>
      if Ascii.eqb c sep then (EmptyString, true, s)
      else let '(a, found, b) := partition sep s in (String c a, found, b)
  end.

Definition is_empty (s : string) : bool :=
  match s with EmptyString => true | _ => false end.

(** [[0-9]+] *)
Definition digits_re (s : string) : bool := negb (is_empty s) && all_chars is_digit s.

(** [[0-9]+(?:-[0-9]+)?] *)
Definition token_re (t : string) : bool :=
  let '(a, found, b) := partition dash t in digits_re a && (negb found || digits_re b).

(** [_CPUSET]: comma-separated tokens. *)
Definition _CPUSET (s : string) : bool := forallb token_re (split_on comma s).

(** [int(s)] of a digit string; CPython refuses more than 4300 digits. *)
Definition digits_value (s : string) : Z :=
  match NilEmpty.uint_of_string s with Some d => Z.of_N (N.of_uint d) | None => 0 end.

Definition py_int (s : string) : result Z :=
  raise_if (4300 <? String.length s)%nat with (ValueError "Exceeds the limit (4300 digits) for integer string conversion");
  Ok (digits_value s).

(** [s != "0" and s.startswith("0")] *)
Definition leading_zero (s : string) : bool := negb (String.eqb s "0") && starts_with "0" s.

(** ** [_canonical_index_set] *)

Section IndexSet.
Context (field : string) (maximum : Z).

Definition index_error (m : string) : exn := ValueError (string_app field m).

(** One token: its range, or the error. *)
Definition token_range (previous_end : Z) (token : string) : result (Z * Z) :=
  let '(raw_start, separator, raw_end) := partition dash token in
  raise_if leading_zero raw_start || (negb (is_empty raw_end) && leading_zero raw_end)
    with (index_error " must not contain leading zeroes");
  start ← py_int raw_start;
  stop ← (if separator then py_int raw_end else Ok start);
  raise_if stop <? start with (index_error " ranges must be increasing");
  raise_if separator && (stop =? start) with (index_error " singleton ranges must use one index");
  raise_if maximum <? stop with (index_error " index exceeds its hard bound");
  raise_if start <=? previous_end with (index_error " ranges must be sorted and non-overlapping");
  raise_if start =? previous_end + 1 with (index_error " adjacent ranges must be merged");
  Ok (start, stop).

(** The loop's state is [(previous_end, cardinality)]. *)
Definition index_step (st : Z * Z) (token : string) : result (Z * Z) :=
  '(start, stop) ← token_range (fst st) token;
  Ok (stop, snd st + (stop - start + 1)).

Definition _canonical_index_set (value : pyval) : result (option string * Z) :=
  match value with
  | VNone => Ok (None, 0)
  | VStr s =>
      raise_if negb (_CPUSET s) with (index_error " must be a canonical cpuset or None");
      st ← fold_result index_step (split_on comma s) (-2, 0);
      Ok (Some s, snd st)
  | _ => Raise (index_error " must be a canonical cpuset or None")
  end.
End IndexSet.

Definition validate_cpuset_pair (cpuset_cpus cpuset_mems : pyval) (cpu_millis : Z)
    : result (option string * option string) :=
  '(cpus, cpu_count) ← _canonical_index_set "cpuset_cpus" _MAX_CPU_INDEX cpuset_cpus;
  '(mems, _) ← _canonical_index_set "cpuset_mems" _MAX_MEMORY_NODE_INDEX cpuset_mems;
  raise_if xorb (bool_decide (cpus = None)) (bool_decide (mems = None))
    with (ValueError "cpuset_cpus and cpuset_mems must be specified together");
  raise_if negb (bool_decide (cpus = None)) && (cpu_count * 1000 <? cpu_millis)
    with (ValueError "cpu_millis exceeds the selected cpuset_cpus capacity");
  Ok (cpus, mems).

(** ** Pin tables

    Rows are [(str(gpu), tuple(cpus))]; GPU names are ASCII and vCPUs are
    integers. [None] means no pins. *)
Definition vcpu_ok (c : Z) : bool := (0 <=? c) && (c <=? _MAX_CPU_INDEX).

Definition canonical_cpu_pins (value : option (list (string * list Z)))
    : result (option (list (string * list Z))) :=
  match value with
  | None => Ok None
  | Some rows =>
      let pins := sorted_by id rows in
      raise_if bool_decide (pins = [])
          || negb (distinct pins.*1)
          || negb (Z.of_nat (size (list_to_set (omap head pins.*2) : gset Z)) =? Z.of_nat (length pins))
          || existsb (fun '(gpu, cpus) =>
               negb (digits_re gpu) || (length cpus <? 2)%nat || negb (distinct cpus)
               || existsb (fun c => negb (vcpu_ok c)) cpus) pins
        with (ValueError "cpu_pins is malformed");
      Ok (Some pins)
  end.

Definition canonical_cpu_roles (value : option (list (string * list Z)))
    : result (option (list (string * list Z))) :=
  match value with
  | None => Ok None
  | Some rows =>
      let roles := sorted_by id rows in
      let flat := concat roles.*2 in
      raise_if bool_decide (roles = [])
          || negb (distinct roles.*1)
          || negb (distinct flat)
          || existsb (fun '(gpu, cpus) =>
               negb (digits_re gpu) || negb (length cpus =? 2)%nat
               || existsb (fun c => negb (vcpu_ok c)) cpus) roles
        with (ValueError "cpu_roles is malformed");
      Ok (Some roles)
  end.

(** [dict(rows)]: a later row replaces an earlier one. *)
Definition pin_table (rows : list (string * list Z)) : gmap string (list Z) :=
  foldl (fun m kv => <[kv.1 := kv.2]> m) ∅ rows.

(** [table[gpu][0] for gpu in gpu_ids if gpu in table]; an empty row raises. *)
Definition scheduler_of (table : gmap string (list Z)) (gpu : string) : option (result Z) :=
  match table !! gpu with
  | None => None
  | Some (c :: _) => Some (Ok c)
  | Some [] => Some (Raise (Exn "IndexError" "tuple index out of range"))
  end.

Definition plan_schedulers (pins : list (string * list Z)) (gpu_ids : list string) : result (list Z) :=
  map_result id (omap (scheduler_of (pin_table pins)) gpu_ids).

Definition plan_pool (pins : list (string * list Z)) (gpu_ids : list string) : list Z :=
  sorted_id (remove_dups (flat_map (fun gpu => tail (default [] (pin_table pins !! gpu))) gpu_ids)).

Definition json_ints (l : list Z) : json := JArr (JInt <$> l).

Definition lane_cpu_pin_plan (pins : list (string * list Z)) (gpu_ids : list string)
    (roles : option (list (string * list Z))) : result string :=
  schedulers ← plan_schedulers pins gpu_ids;
  let plan := [("schedulers", json_ints schedulers); ("pool", json_ints (plan_pool pins gpu_ids))] in
  let engines := match roles with
                 | None => []
                 | Some r => [("engines", JArr (json_ints <$> omap (fun gpu => pin_table r !! gpu) gpu_ids))]
                 end in
  Ok (render (JObj (plan ++ engines))).

(** ** What a cpuset names *)

(** The range of a token, and the token's canonical text. *)
Definition range_of (t : string) : Z * Z :=
  let '(a, found, b) := partition dash t in
  (digits_value a, if found then digits_value b else digits_value a).

Definition token_text (r : Z * Z) : string :=
  if fst r =? snd r then dec_of_Z (fst r)
  else string_app (dec_of_Z (fst r)) (String dash (dec_of_Z (snd r))).

Definition in_ranges (l : list (Z * Z)) (i : Z) : Prop :=
  exists r, r ∈ l /\ fst r <= i <= snd r.

(** Linux's reading of a cpuset: the union of its tokens' ranges. *)
Definition cpuset_member (s : string) (i : Z) : Prop := in_ranges (range_of <$> split_on comma s) i.

(** Increasing ranges, each more than one past the end of the previous one. *)
Inductive gapped : Z -> list (Z * Z) -> Prop :=
  | gapped_nil p : gapped p []
  | gapped_cons p lo hi l : p + 1 < lo -> lo <= hi -> gapped hi l -> gapped p ((lo, hi) :: l).

Definition ranges_size (l : list (Z * Z)) : Z := foldr (fun r n => snd r - fst r + 1 + n) 0 l.

Definition indices (l : list (Z * Z)) : list Z := r ← l; seqZ (fst r) (snd r - fst r + 1).

Lemma gapped_above p l i : gapped p l -> in_ranges l i -> p + 1 < i.
Proof.
  induction 1 as [p|p lo hi l Hlo Hhi Hl IH]; intros (r & Hr & Hi).
  - by apply elem_of_nil in Hr.
  - apply elem_of_cons in Hr as [->|Hr]; simpl in *; [lia|].
    assert (hi + 1 < i) by (apply IH; by exists r). lia.
Qed.

Lemma in_ranges_cons r l i : in_ranges (r :: l) i <-> fst r <= i <= snd r \/ in_ranges l i.
Proof. unfold in_ranges. setoid_rewrite elem_of_cons. naive_solver. Qed.

(** Gapped range lists are determined by the indices they cover. *)
Lemma gapped_unique p q l l' :
  gapped p l -> gapped q l' -> (forall i, in_ranges l i <-> in_ranges l' i) -> l = l'.
Proof.
  intros Hl. revert q l'. induction Hl as [p|p a b l Ha Hab Hl IH]; intros q l' Hl' Heq.
  - destruct Hl' as [|q c d l' Hc Hcd Hl']; [done|]. exfalso.
    destruct (proj2 (Heq c)) as (r & Hr & _); [apply in_ranges_cons; simpl; lia|].
    by apply elem_of_nil in Hr.
  - destruct Hl' as [q|q c d l' Hc Hcd Hl'].
    { exfalso. destruct (proj1 (Heq a)) as (r & Hr & _); [apply in_ranges_cons; simpl; lia|].
      by apply elem_of_nil in Hr. }
    setoid_rewrite in_ranges_cons in Heq. simpl in Heq.
    assert (Hi : forall i, in_ranges l i -> b + 1 < i) by eauto using gapped_above.
    assert (Hi' : forall i, in_ranges l' i -> d + 1 < i) by eauto using gapped_above.
    assert (a = c) as <-.
    { destruct (proj1 (Heq a)) as [?|?%Hi']; [lia| |]; destruct (proj2 (Heq c)) as [?|?%Hi]; lia. }
    assert (b = d) as <-.
    { destruct (Z.lt_trichotomy b d) as [Hbd|[?|Hbd]]; [|done|].
      - destruct (proj2 (Heq (b + 1))) as [?|?%Hi]; lia.
      - destruct (proj1 (Heq (d + 1))) as [?|?%Hi']; lia. }
    f_equal. eapply IH; [exact Hl'|]. intros i. specialize (Heq i). specialize (Hi i).
    specialize (Hi' i). split; intros H; [assert (b + 1 < i) by auto|assert (b + 1 < i) by auto];
      destruct Heq as [H1 H2]; [destruct H1|destruct H2]; auto; lia.
Qed.

Lemma gapped_NoDup p l : gapped p l -> NoDup (indices l).
Proof.
  induction 1 as [p|p lo hi l Hlo Hhi Hl IH]; [constructor|].
  unfold indices. rewrite bind_cons. apply NoDup_app. split_and!; [apply NoDup_seqZ| |done].
  intros i Hi Hin. simpl in Hi. apply elem_of_seqZ in Hi.
  apply list_elem_of_bind in Hin as (r & Hr & Hrl). apply elem_of_seqZ in Hr.
  pose proof (gapped_above hi l i Hl). assert (hi + 1 < i); [|lia].
  apply H. exists r. split; [done|lia].
Qed.

Lemma indices_spec l i : i ∈ indices l <-> in_ranges l i.
Proof.
  unfold indices, in_ranges. rewrite list_elem_of_bind. setoid_rewrite elem_of_seqZ.
  split; intros (r & H); exists r; intuition lia.
Qed.

Lemma indices_length p l : gapped p l -> Z.of_nat (length (indices l)) = ranges_size l.
Proof.
  induction 1 as [p|p lo hi l Hlo Hhi Hl IH]; [done|].
  unfold indices in *. rewrite bind_cons, length_app, length_seqZ. simpl. lia.
Qed.

Lemma ranges_size_pos p l : gapped p l -> l <> [] -> 0 < ranges_size l.
Proof.
  intros Hg Hne. destruct Hg as [|p lo hi l Hlo Hhi Hg]; [done|]. simpl.
  rewrite <- (indices_length _ _ Hg). lia.
Qed.

(** ** The accepted spelling *)

Lemma partition_join sep s a f b :
  partition sep s = (a, f, b) -> s = if f then string_app a (String sep b) else a.
Proof.
  revert a f b. induction s as [|c s IH]; intros a f b; simpl; [by intros [= <- <- <-]|].
  destruct (Ascii.eqb_spec c sep) as [->|Hc]; [by intros [= <- <- <-]|].
  destruct (partition sep s) as [[a' f'] b'] eqn:E. intros [= <- <- <-].
  rewrite (IH _ _ _ eq_refl). by destruct f'.
Qed.

Lemma partition_not_found sep s a b : partition sep s = (a, false, b) -> b = EmptyString.
Proof.
  revert a b. induction s as [|c s IH]; intros a b; simpl; [by intros [= <- <-]|].
  destruct (Ascii.eqb c sep); [done|].
  destruct (partition sep s) as [[a' f'] b'] eqn:E. intros [= <- -> <-]. by eapply IH.
Qed.

Lemma leading_zero_false s :
  leading_zero s = false -> s = "0"%string \/ starts_with "0" s = false.
Proof.
  unfold leading_zero. destruct (String.eqb_spec s "0"); [by left|]. simpl. by right.
Qed.

(** A digit string the code accepts is the text of the value it reads. *)
Lemma py_int_text s z :
  digits_re s = true -> leading_zero s = false -> py_int s = Ok z ->
  z = digits_value s /\ 0 <= z /\ dec_of_Z z = s.
Proof.
  unfold digits_re, py_int. intros [Hne Hd]%andb_true_iff Hz H. step_guard H. injection H as <-.
  assert (Hs : s <> EmptyString) by (by destruct s).
  destruct (dec_of_digits s Hd Hs (leading_zero_false _ Hz)) as (d & Hu & Ht).
  unfold digits_value. rewrite Hu. split_and!; [done|lia|].
  rewrite <- Ht. by destruct (N.of_uint d).
Qed.

Lemma token_range_spec field maximum p t lo hi :
  token_re t = true -> token_range field maximum p t = Ok (lo, hi) ->
  range_of t = (lo, hi) /\ token_text (lo, hi) = t /\ 0 <= lo <= hi /\ hi <= maximum /\ p + 1 < lo.
Proof.
  unfold token_re, token_range, range_of. destruct (partition dash t) as [[a f] b] eqn:E.
  intros [Ha Hb]%andb_true_iff H. step_guard H. apply orb_false_iff in Eg as [Hza Hzb].
  inv_ok. destruct (py_int_text a _ Ha Hza Hx) as (-> & H0 & Hta).
  do 5 step_guard H. injection H as <- <-.
  apply partition_join in E as Ht. unfold token_text. simpl.
  destruct f; simpl in *.
  - assert (Hzb' : leading_zero b = false) by (unfold digits_re in Hb; by destruct (is_empty b)).
    destruct (py_int_text b _ Hb Hzb' Hx0) as (-> & H0' & Htb).
    rewrite Z.eqb_sym, Eg0. rewrite Hta, Htb. split_and!; try done; lia.
  - injection Hx0 as <-. rewrite Z.eqb_refl, Hta. split_and!; try done; lia.
Qed.

(** The loop over accepted tokens reads a gapped list of ranges. *)
Lemma index_loop_spec field maximum tokens p c p' c' :
  forallb token_re tokens = true ->
  fold_result (index_step field maximum) tokens (p, c) = Ok (p', c') ->
  let rs := range_of <$> tokens in
  gapped p rs /\ tokens = token_text <$> rs /\ c' = c + ranges_size rs /\
  Forall (fun r => 0 <= fst r /\ snd r <= maximum) rs.
Proof.
  revert p c. induction tokens as [|t tokens IH]; intros p c Hre H; simpl in *.
  { injection H as <- <-. split_and!; [constructor|done|lia|constructor]. }
  apply andb_true_iff in Hre as [Ht Hre]. apply bind_Ok in H as (st & Hst & H).
  unfold index_step in Hst. simpl in Hst. apply bind_Ok in Hst as ([lo hi] & Hr & [= <-]).
  destruct (token_range_spec _ _ _ _ _ _ Ht Hr) as (Hro & Htx & Hb & Hm & Hp).
  destruct (IH _ _ Hre H) as (Hg & Htok & -> & Hf). rewrite Hro. refold_fmap. split_and!.
  - constructor; [done|lia|done].
  - by rewrite Htx, <- Htok.
  - simpl. lia.
  - constructor; [simpl; lia|done].
Qed.

Lemma canonical_index_set_spec field maximum s n :
  _canonical_index_set field maximum (VStr s) = Ok (Some s, n) ->
  let rs := range_of <$> split_on comma s in
  gapped (-2) rs /\ s = join "," (token_text <$> rs) /\ n = ranges_size rs /\
  Forall (fun r => 0 <= fst r /\ snd r <= maximum) rs.
Proof.
  unfold _canonical_index_set. intros H. step_guard H. apply negb_false_iff in Eg.
  apply bind_Ok in H as ([p' c'] & H & Hn). injection Hn as <-.
  destruct (index_loop_spec _ _ _ _ _ _ _ Eg H) as (Hg & Ht & Hc & Hf).
  simpl in *. split_and!; [done| |lia|done].
  rewrite <- Ht. symmetry. apply join_split_on.
Qed.

(** ** Properties *)

(** Each set of CPU indices has exactly one accepted spelling: two cpuset strings that pass
    validation (under any field name and hard bound) and name the same indices are the same
    string, so a policy digest over the string identifies the kernel cpuset. *)
Theorem cpuset_spelling_unique (f f' : string) (m m' : Z) (s t : string) (n k : Z) :
  _canonical_index_set f m (VStr s) = Ok (Some s, n) ->
  _canonical_index_set f' m' (VStr t) = Ok (Some t, k) ->
  (forall i, cpuset_member s i <-> cpuset_member t i) -> s = t.
Proof.
  intros (Hg & Hs & _)%canonical_index_set_spec (Hg' & Ht & _)%canonical_index_set_spec Heq.
  rewrite Hs, Ht. by rewrite (gapped_unique _ _ _ _ Hg Hg' Heq).
Qed.

Lemma cpuset_spelling_unique_witness :
  _canonical_index_set "a" 9 (VStr "0-2,5") = Ok (Some "0-2,5", 4) /\ "0-2,5" = "0-2,5".
Proof.
  split; [reflexivity|].
  apply (cpuset_spelling_unique "a" "b" 9 20 "0-2,5" "0-2,5" 4 4); [reflexivity..|done].
Defined.

(** The returned cardinality is the number of distinct indices the accepted cpuset names,
    all of them between zero and the hard bound. *)
Lemma cpuset_cardinality (field : string) (maximum : Z) (s : string) (n : Z) :
  _canonical_index_set field maximum (VStr s) = Ok (Some s, n) ->
  exists l : list Z, NoDup l /\ n = Z.of_nat (length l) /\ 0 < n /\
    (forall i, i ∈ l <-> cpuset_member s i) /\ (forall i, cpuset_member s i -> 0 <= i <= maximum).
Proof.
  intros (Hg & _ & -> & Hf)%canonical_index_set_spec.
  exists (indices (range_of <$> split_on comma s)). split_and!.
  - by eapply gapped_NoDup.
  - by erewrite indices_length.
  - eapply ranges_size_pos; [exact Hg|]. pose proof (split_on_nonempty comma s).
    by destruct (split_on comma s).
  - intros i. apply indices_spec.
  - intros i (r & Hr & Hi). rewrite Forall_forall in Hf. specialize (Hf r Hr). simpl in Hf. lia.
Qed.

Lemma cpuset_cardinality_witness :
  exists l : list Z, NoDup l /\ 5 = Z.of_nat (length l) /\ 0 < 5 /\
    (forall i, i ∈ l <-> cpuset_member "0-3,7" i) /\ (forall i, cpuset_member "0-3,7" i -> 0 <= i <= 63).
Proof. apply (cpuset_cardinality "cpuset_cpus"). reflexivity. Defined.

Lemma py_int_raises t e : py_int t = Raise e -> exn_class e = "ValueError".
Proof. unfold py_int. destruct (_ <? _)%nat; [by intros [= <-]|done]. Qed.

Lemma token_range_raises field maximum p t e :
  token_range field maximum p t = Raise e -> exn_class e = "ValueError".
Proof.
  unfold token_range. destruct (partition dash t) as [[a f] b].
  destruct (_ || _); [by intros [= <-]|].
  intros [H|(lo & _ & H)]%bind_Raise; [by eapply py_int_raises|]. revert H.
  intros [H|(hi & _ & H)]%bind_Raise; [destruct f; [by eapply py_int_raises|done]|]. revert H.
  repeat (match goal with |- (if ?b then _ else _) = _ -> _ => destruct b; [by intros [= <-]|] end).
  done.
Qed.

Lemma index_loop_raises field maximum tokens st e :
  fold_result (index_step field maximum) tokens st = Raise e -> exn_class e = "ValueError".
Proof.
  revert st. induction tokens as [|t tokens IH]; intros st; simpl; [done|].
  intros [H|(? & _ & H)]%bind_Raise; [|by eapply IH].
  unfold index_step in H. apply bind_Raise in H as [H|([lo hi] & _ & H)]; [|done].
  by eapply token_range_raises.
Qed.

(** [validate_cpuset_pair] accepts exactly the pairs that are both absent, or both present and
    separately canonical with a CPU quota within the capacity of the selected CPUs; it returns
    its arguments unchanged, and every rejection is a [ValueError]. *)
Theorem cpuset_pair_spec (cpus mems : pyval) (cpu_millis : Z) :
  match validate_cpuset_pair cpus mems cpu_millis with
  | Ok (c, m) =>
      (cpus = VNone /\ mems = VNone /\ c = None /\ m = None) \/
      (exists s t n k, cpus = VStr s /\ mems = VStr t /\ c = Some s /\ m = Some t /\
         _canonical_index_set "cpuset_cpus" _MAX_CPU_INDEX cpus = Ok (Some s, n) /\
         _canonical_index_set "cpuset_mems" _MAX_MEMORY_NODE_INDEX mems = Ok (Some t, k) /\
         cpu_millis <= 1000 * n)
  | Raise e => exn_class e = "ValueError"
  end.
Proof.
  assert (Hidx : forall field maximum v,
    match _canonical_index_set field maximum v with
    | Ok (None, _) => v = VNone
    | Ok (Some s, _) => v = VStr s
    | Raise e => exn_class e = "ValueError"
    end).
  { intros field maximum v. unfold _canonical_index_set. destruct v; try done.
    destruct (negb (_CPUSET s)); [done|].
    destruct (fold_result _ _ _) as [st|e] eqn:E; [done|]. by eapply index_loop_raises. }
  unfold validate_cpuset_pair.
  pose proof (Hidx "cpuset_cpus" _MAX_CPU_INDEX cpus) as Hc.
  pose proof (Hidx "cpuset_mems" _MAX_MEMORY_NODE_INDEX mems) as Hm.
  destruct (_canonical_index_set "cpuset_cpus" _ cpus) as [[[s|] n]|e] eqn:Ec; simpl; [|..|done];
  destruct (_canonical_index_set "cpuset_mems" _ mems) as [[[t|] k]|e'] eqn:Em; simpl; try done.
  - destruct (n * 1000 <? cpu_millis) eqn:Eq; simpl; [done|].
    apply Z.ltb_ge in Eq. right. exists s, t, n, k. split_and!; try done. lia.
  - left. done.
Qed.

(** ** Lane plans *)

(** The heads that the pin check counts are the scheduler vCPUs, so they differ. *)
Lemma omap_head_distinct (ll : list (list Z)) :
  Forall (fun l => l <> []) ll ->
  size (list_to_set (omap head ll) : gset Z) = length ll -> NoDup (omap head ll).
Proof.
  intros Hne Hs. apply size_list_to_set_NoDup. rewrite Hs. clear Hs.
  induction Hne as [|[|x l] ll Hl Hll IH]; simpl; [done|done|f_equal; exact IH].
Qed.

Lemma omap_cons {A B} (f : A -> option B) x l :
  omap f (x :: l) = match f x with Some y => y :: omap f l | None => omap f l end.
Proof. done. Qed.

Lemma pin_table_lookup (rows : list (string * list Z)) gpu cpus :
  NoDup rows.*1 -> pin_table rows !! gpu = Some cpus <-> (gpu, cpus) ∈ rows.
Proof.
  unfold pin_table. intros Hnd.
  assert (Hgen : forall m : gmap string (list Z), (forall k, k ∈ rows.*1 -> m !! k = None) ->
    foldl (fun m kv => <[kv.1 := kv.2]> m) m rows !! gpu = Some cpus
    <-> (gpu, cpus) ∈ rows \/ m !! gpu = Some cpus).
  { induction rows as [|[k v] rows IH]; intros m Hm; simpl; [set_solver|].
    rewrite fmap_cons in Hnd, Hm. apply NoDup_cons in Hnd as [Hk Hnd]. rewrite IH; [|done|].
    - rewrite elem_of_cons, lookup_insert. case_decide as Ek.
      + subst k. split; [naive_solver|]. intros [[[= ->]|Hin]|Hm']; [by right|by left|].
        rewrite Hm in Hm' by (by left). done.
      + naive_solver.
    - intros k' Hk'. rewrite lookup_insert_ne by (intros ->; done). apply Hm. by right. }
  rewrite Hgen by done. rewrite lookup_empty. naive_solver.
Qed.

Lemma heads_injective (pins : list (string * list Z)) g g' c r r' :
  NoDup (omap head pins.*2) -> (g, c :: r) ∈ pins -> (g', c :: r') ∈ pins -> g = g'.
Proof.
  assert (Hin : forall g r l, (g, c :: r) ∈ l -> c ∈ omap head (l : list (string * list Z)).*2).
  { intros g0 r0 l Hl. apply list_elem_of_omap. exists (c :: r0). split; [|done].
    apply list_elem_of_fmap. by exists (g0, c :: r0). }
  induction pins as [|[k v] pins IH]; intros Hnd H1 H2; [by apply elem_of_nil in H1|].
  apply elem_of_cons in H1, H2. rewrite fmap_cons in Hnd.
  cbn [snd] in Hnd. destruct H1 as [H1|H1], H2 as [H2|H2]; simplify_eq; [done| | |].
  - simpl in Hnd. apply NoDup_cons in Hnd as [Hnd _]. destruct Hnd. by eapply Hin.
  - simpl in Hnd. apply NoDup_cons in Hnd as [Hnd _]. destruct Hnd. by eapply Hin.
  - apply IH; [|done..]. destruct v; simpl in Hnd; [done|]. by apply NoDup_cons in Hnd as [_ ?].
Qed.

Lemma accepted_pins rows pins :
  canonical_cpu_pins (Some rows) = Ok (Some pins) ->
  NoDup pins.*1 /\ NoDup (omap head pins.*2) /\ Forall (fun kv => kv.2 <> []) pins.
Proof.
  unfold canonical_cpu_pins. intros H. step_guard H. injection H as <-.
  apply orb_false_iff in Eg as [[[_ H1]%orb_false_iff H2]%orb_false_iff H3].
  apply negb_false_iff, distinct_spec in H1. apply negb_false_iff, Z.eqb_eq in H2.
  assert (Hne : Forall (fun kv => kv.2 <> []) (sorted_by id rows)).
  { apply Forall_forall. intros [g v] Hgv Hv. simpl in Hv. subst v.
    apply not_true_iff_false in H3. apply H3, existsb_exists. exists (g, []).
    split; [by apply list_elem_of_In|]. simpl. by rewrite !orb_true_r. }
  split_and!; [done| |done]. apply omap_head_distinct; [by apply Forall_fmap|].
  rewrite length_fmap. lia.
Qed.

(** On an accepted pin table, the lane plan never fails: it lists one scheduler vCPU per pinned
    GPU of the lane, all different, so the list is as long as the lane exactly when every GPU of
    the lane is pinned (a shorter list is what the worker rejects at launch). *)
Theorem lane_schedulers_distinct (rows pins : list (string * list Z)) (gpu_ids : list string) :
  canonical_cpu_pins (Some rows) = Ok (Some pins) -> NoDup gpu_ids ->
  exists schedulers, plan_schedulers pins gpu_ids = Ok schedulers /\ NoDup schedulers /\
    (length schedulers = length gpu_ids <-> Forall (fun gpu => gpu ∈ pins.*1) gpu_ids).
Proof.
  intros (Hnd & Hh & Hne)%accepted_pins Hids. unfold plan_schedulers.
  assert (Hgen : exists ss, map_result id (omap (scheduler_of (pin_table pins)) gpu_ids) = Ok ss /\
    NoDup ss /\ (forall c, c ∈ ss -> exists g r, g ∈ gpu_ids /\ (g, c :: r) ∈ pins) /\
    (length ss <= length gpu_ids)%nat /\
    (length ss = length gpu_ids <-> Forall (fun gpu => gpu ∈ pins.*1) gpu_ids)); [|naive_solver].
  induction Hids as [|g gpu_ids Hg Hids IH].
  { exists []. split_and!; [done|constructor|by intros c ?%elem_of_nil|done|done]. }
  destruct IH as (ss & Hss & Hnds & Hin & Hle & Hiff). rewrite omap_cons. unfold scheduler_of at 1.
  destruct (pin_table pins !! g) as [cpus|] eqn:E.
  - apply (pin_table_lookup _ _ _ Hnd) in E. rewrite Forall_forall in Hne.
    destruct cpus as [|c r]; [by destruct (Hne _ E)|]. exists (c :: ss). simpl map_result. rewrite Hss.
    split_and!; [done| | |simpl; lia|].
    + constructor; [|done]. intros (g' & r' & Hg' & Hp)%Hin.
      by rewrite (heads_injective _ _ _ _ _ _ Hh E Hp) in Hg.
    + intros c' [->|Hc']%elem_of_cons; [set_solver|]. destruct (Hin _ Hc') as (g' & r' & ? & ?).
      exists g', r'. set_solver.
    + rewrite Forall_cons, <- Hiff. split; [|intros [_ ?]; simpl; lia]. intros [= Hl]. split; [|done].
      apply list_elem_of_fmap. by exists (g, c :: r).
  - exists ss. split_and!; [done|done| |simpl; lia|].
    + intros c' (g' & r' & ? & ?)%Hin. exists g', r'. set_solver.
    + split; [simpl; intros; lia|]. intros [Hgp _]%Forall_cons.
      apply list_elem_of_fmap in Hgp as ([g' cpus] & -> & Hp).
      apply (pin_table_lookup _ _ _ Hnd) in Hp. simpl in E. congruence.
Qed.

Lemma lane_schedulers_distinct_witness :
  exists schedulers, plan_schedulers [("0", [3; 4]); ("1", [7; 4])] ["1"; "0"] = Ok schedulers /\
    NoDup schedulers /\
    (length schedulers = 2%nat <-> Forall (fun gpu => gpu ∈ ["0"; "1"]) ["1"; "0"]).
Proof.
  apply (lane_schedulers_distinct [("1", [7; 4]); ("0", [3; 4])]); [vm_compute; reflexivity|].
  by apply distinct_spec.
Defined.
