(* ===== verification/Numbers.v ===== *)
(** * Fractions and decimals

    The order of fractions, and the part of Python's [decimal] that
    [cacheon/settlement.py] uses: reading a plain decimal, multiplying in the
    default context (28 significant digits, half to even), and comparing.
    Exponents stay far from the context's bounds, which are never reached. *)

From Stdlib Require Import QArith Qpower Qcanon.
From S2P Require Import Prelude PyVal.

Open Scope Z_scope.

(** Order of fractions, on their reduced forms. *)
#[export] Instance cmp_Qc : Cmp Qc := Qccompare.
#[export] Instance cmp_Qc_laws : CmpLaws Qc.
Proof.
  split; unfold cmp, cmp_Qc.
  - intros x y. symmetry. apply Qceq_alt.
  - intros x y. unfold Qccompare. symmetry. apply Qcompare_antisym.
  - intros x y z Hxy Hyz. apply Qclt_alt in Hxy, Hyz. apply Qclt_alt. by eapply Qclt_trans.
Qed.

(** ** Decimals *)

(** [coef * 10 ^ dexp] *)
Record decimal := mkDecimal { coef : Z; dexp : Z }.

Definition dec_value (d : decimal) : Qc :=
  if 0 <=? dexp d then Q2Qc (inject_Z (coef d * 10 ^ dexp d)) else Q2Qc (coef d # Z.to_pos (10 ^ (- dexp d))).

Definition prec : Z := 28.

(** The number of decimal digits of a positive integer, by division. *)
Fixpoint digits_loop (fuel : nat) (z : Z) : Z :=
  match fuel with
  | O => 1
  | S fuel => if z <? 10 then 1 else 1 + digits_loop fuel (z / 10)
  end.

Definition num_digits (z : Z) : Z := digits_loop (Z.to_nat (Z.log2 z)) z.

(** [z / 10^n] rounded half to even *)
Definition half_even (z n : Z) : Z :=
  let unit := 10 ^ n in
  let q := z / unit in
  let r := z mod unit in
  if (2 * r <? unit) || ((2 * r =? unit) && Z.even q) then q else q + 1.

(** Rounding to the context: a carry into a 29th digit moves the exponent once more. *)
Definition dec_round (d : decimal) : decimal :=
  let extra := num_digits (coef d) - prec in
  if extra <=? 0 then d
  else
    let c := half_even (coef d) extra in
    if num_digits c =? prec then mkDecimal c (dexp d + extra) else mkDecimal (c / 10) (dexp d + extra + 1).

Definition dec_mul (a b : decimal) : decimal := dec_round (mkDecimal (coef a * coef b) (dexp a + dexp b)).

(** [int(d.to_integral_value(rounding=ROUND_FLOOR))] *)
Definition dec_floor (d : decimal) : Z :=
  if 0 <=? dexp d then coef d * 10 ^ dexp d else coef d / 10 ^ (- dexp d).

(** ** Plain decimal text *)

Definition digit_value (c : chr) : Z := Z.of_N (ord c) - 48.
Fixpoint digits_value (acc : Z) (s : string) : Z :=
  match s with EmptyString => acc | String c s => digits_value (10 * acc + digit_value c) s end.

Definition is_digits (s : string) : bool := truthy s && all_chars is_digit s.

Definition first_is (p : chr -> bool) (s : string) : bool := match s with String c _ => p c | _ => false end.
Fixpoint last_is (p : chr -> bool) (s : string) : bool :=
  match s with EmptyString => false | String c EmptyString => p c | String _ s => last_is p s end.
Definition is_zero (c : chr) : bool := (ord c =? 48)%N.

Definition point : chr := Ascii.ascii_of_N 46.

(** [digits] or [digits.digits] *)
Definition parse_decimal (s : string) : option decimal :=
  match split_on point s with
  | [a] => if is_digits a then Some (mkDecimal (digits_value 0 a) 0) else None
  | [a; b] =>
      if is_digits a && is_digits b
      then Some (mkDecimal (digits_value 0 (string_app a b)) (- Z.of_nat (String.length b))) else None
  | _ => None
  end.

(** The spelling that [format(Decimal(s).normalize(), "f")] gives back, zeros at the end of the fraction
    removed: no leading zero before a digit, no trailing zero after the point. *)
Definition plain_spelling (s : string) : bool :=
  match split_on point s with
  | [a] => negb (first_is is_zero a) || String.eqb a "0"
  | [a; b] => (negb (first_is is_zero a) || String.eqb a "0") && negb (last_is is_zero b)
  | _ => false
  end.

(** [z] without the powers of ten that divide it *)
Fixpoint strip_zeros (fuel : nat) (z : Z) : Z :=
  match fuel with
  | O => z
  | S fuel => if (z mod 10 =? 0) && negb (z =? 0) then strip_zeros fuel (z / 10) else z
  end.

(** [normalize()] rounds to the context first: the spelling survives when 28 digits hold the value. *)
Definition canonical_decimal (s : string) : option decimal :=
  match parse_decimal s with
  | Some d => if plain_spelling s && (num_digits (strip_zeros (String.length s) (coef d)) <=? prec) then Some d else None
  | None => None
  end.

Example mul_rounds :
  dec_mul (mkDecimal 1234567890123456789012345678 (-27)) (mkDecimal 11 (-1)) = mkDecimal 1358024679135802467913580246 (-27).
Proof. vm_compute. reflexivity. Qed.

Example canonical_samples :
  canonical_decimal "1.25" = Some (mkDecimal 125 (-2)) /\ canonical_decimal "1.250" = None /\
  canonical_decimal "01.5" = None /\ canonical_decimal "120" = Some (mkDecimal 120 0) /\ canonical_decimal "1." = None.
Proof. by vm_compute. Qed.

(** The order of decimals is the order of their values. *)
Definition dec_ltb (a b : decimal) : bool := cmp_ltb (dec_value a) (dec_value b).

(** ** How far rounding moves a value *)

Lemma digits_loop_spec fuel z : 0 < z < 10 ^ Z.of_nat (S fuel) ->
  0 < digits_loop fuel z /\ 10 ^ (digits_loop fuel z - 1) <= z < 10 ^ digits_loop fuel z.
Proof.
  revert z. induction fuel as [|fuel IH]; intros z Hz; [by simpl in *; lia|].
  cbn [digits_loop]. destruct (Z.ltb_spec z 10); [simpl; lia|].
  destruct (IH (z / 10)) as (H0 & H1 & H2).
  { split; [by apply Z.div_str_pos; lia|]. apply Z.div_lt_upper_bound; [lia|].
    replace (Z.of_nat (S (S fuel))) with (1 + Z.of_nat (S fuel)) in Hz by lia. rewrite Z.pow_add_r in Hz; lia. }
  pose proof (Z.div_mod z 10 ltac:(lia)). pose proof (Z.mod_pos_bound z 10 ltac:(lia)).
  set (k := digits_loop fuel (z / 10)) in *. split; [lia|].
  replace (1 + k - 1) with (1 + (k - 1)) by lia. rewrite !Z.pow_add_r by lia. lia.
Qed.

Lemma num_digits_spec z : 0 < z -> 0 < num_digits z /\ 10 ^ (num_digits z - 1) <= z < 10 ^ num_digits z.
Proof.
  intros Hz. apply digits_loop_spec. split; [done|]. pose proof (Z.log2_spec z Hz) as [_ H].
  pose proof (Z.log2_nonneg z). rewrite Nat2Z.inj_succ, Z2Nat.id by done.
  eapply Z.lt_le_trans; [exact H|]. apply Z.pow_le_mono_l. lia.
Qed.

Lemma num_digits_unique z k : 0 < k -> 10 ^ (k - 1) <= z < 10 ^ k -> num_digits z = k.
Proof.
  intros Hk Hz. assert (0 < z) as Hp by (pose proof (Z.pow_pos_nonneg 10 (k - 1)); lia).
  destruct (num_digits_spec z Hp) as (H0 & H1 & H2). set (n := num_digits z) in *.
  assert (k - 1 < n) by (apply (Z.pow_lt_mono_r_iff 10); lia).
  assert (n - 1 < k) by (apply (Z.pow_lt_mono_r_iff 10); lia). lia.
Qed.

(** The nearer multiple of [10^n], at half a unit at most. *)
Lemma half_even_near z n : 0 <= n ->
  let r := half_even z n in z / 10 ^ n <= r <= z / 10 ^ n + 1 /\ Z.abs (2 * (r * 10 ^ n - z)) <= 10 ^ n.
Proof.
  intros Hn r. unfold half_even in r. pose proof (Z.pow_pos_nonneg 10 n ltac:(lia) Hn) as Hp.
  pose proof (Z.div_mod z (10 ^ n) ltac:(lia)). pose proof (Z.mod_pos_bound z (10 ^ n) Hp).
  set (u := 10 ^ n) in *. set (q := z / u) in *. set (m := z mod u) in *. unfold r.
  destruct (Z.ltb_spec (2 * m) u); cbn [orb]; [lia|].
  destruct (Z.eqb_spec (2 * m) u); cbn [andb]; [destruct (Z.even q); lia|lia].
Qed.

(** What rounding to the context does to a positive coefficient: the result is a coefficient and an exponent
    whose value, at the old exponent, is within half a unit of the 28th digit. *)
Lemma dec_round_near d : 0 < coef d ->
  exists r n, 0 <= n /\ 0 < r /\ Z.abs (2 * 10 ^ 27 * (r * 10 ^ n - coef d)) <= coef d /\
    dec_round d = mkDecimal r (dexp d + n).
Proof.
  intros Hc. destruct (num_digits_spec _ Hc) as (H0 & H1 & H2). unfold dec_round, prec.
  destruct (Z.leb_spec (num_digits (coef d) - 28) 0) as [Hle|Hgt].
  { exists (coef d), 0. rewrite Z.pow_0_r, Z.mul_1_r, Z.sub_diag, Z.add_0_r. split_and!; [lia..|]. by destruct d. }
  set (n := num_digits (coef d) - 28) in *. replace (num_digits (coef d)) with (28 + n) in * by lia.
  replace (28 + n - 1) with (27 + n) in H1 by lia. rewrite Z.pow_add_r in H1, H2 by lia.
  destruct (half_even_near (coef d) n ltac:(lia)) as [Hq Hr]. set (r := half_even (coef d) n) in *.
  assert (Hp : 0 < 10 ^ n) by (apply Z.pow_pos_nonneg; lia).
  assert (10 ^ 27 <= coef d / 10 ^ n) by (apply Z.div_le_lower_bound; lia).
  assert (coef d / 10 ^ n < 10 ^ 28) by (apply Z.div_lt_upper_bound; lia).
  assert (Hnear : Z.abs (2 * 10 ^ 27 * (r * 10 ^ n - coef d)) <= coef d).
  { replace (2 * 10 ^ 27 * (r * 10 ^ n - coef d)) with (10 ^ 27 * (2 * (r * 10 ^ n - coef d))) by ring.
    rewrite Z.abs_mul. rewrite (Z.abs_eq (10 ^ 27)) by lia. nia. }
  destruct (Z.eqb_spec (num_digits r) 28) as [|Hne].
  - exists r, n. split_and!; [lia..|done|done].
  - assert (r = 10 ^ 28) as Er.
    { destruct (Z.lt_ge_cases r (10 ^ 28)); [|lia]. exfalso. apply Hne, num_digits_unique; lia. }
    exists (r / 10), (n + 1). rewrite Er. change (10 ^ 28 / 10) with (10 ^ 27). rewrite Z.pow_add_r by lia.
    split_and!; [lia|lia| |by f_equal; lia]. rewrite Er in Hnear.
    replace (10 ^ 27 * (10 ^ n * 10 ^ 1)) with (10 ^ 28 * 10 ^ n) by lia. done.
Qed.

(** ** The same in values *)

Definition dec_Q (d : decimal) : Q := (inject_Z (coef d) * (10 # 1) ^ dexp d)%Q.

Lemma dec_value_Q d : dec_value d = Q2Qc (dec_Q d).
Proof.
  unfold dec_value, dec_Q. apply Qc_is_canon. destruct (Z.leb_spec 0 (dexp d)) as [He|He]; unfold Q2Qc; cbn [this]; rewrite !Qred_correct.
  - change (10 # 1)%Q with (inject_Z 10). rewrite inject_Z_mult, Zpower_Qpower by done. reflexivity.
  - pose proof (Z.pow_pos_nonneg 10 (- dexp d) ltac:(lia) ltac:(lia)) as Hp.
    replace (dexp d) with (- (- dexp d)) at 2 by lia. rewrite Qpower_opp.
    change (10 # 1)%Q with (inject_Z 10). rewrite <- Zpower_Qpower by lia.
    rewrite <- (Z2Pos.id (10 ^ (- dexp d))) at 2 by done. rewrite Qmake_Qdiv. reflexivity.
Qed.

Lemma Q2Qc_le x y : (Q2Qc x <= Q2Qc y)%Qc <-> (x <= y)%Q.
Proof. unfold Qcle, Q2Qc. cbn [this]. by rewrite !Qred_correct. Qed.

Lemma Q2Qc_lt x y : (Q2Qc x < Q2Qc y)%Qc <-> (x < y)%Q.
Proof. unfold Qclt, Q2Qc. cbn [this]. by rewrite !Qred_correct. Qed.

(** One part in [2 * 10^27], half a unit of the 28th digit. *)
Definition rounding : Q := 1 # 2000000000000000000000000000.

Lemma dec_round_value d : 0 < coef d ->
  ((1 - rounding) * dec_Q d <= dec_Q (dec_round d))%Q /\ (dec_Q (dec_round d) <= (1 + rounding) * dec_Q d)%Q /\
  0 < coef (dec_round d).
Proof.
  intros Hc. destruct (dec_round_near d Hc) as (r & n & Hn & Hr & Hnear & ->). unfold dec_Q. cbn [coef dexp].
  assert (Hp : (0 < (10 # 1) ^ dexp d)%Q) by (by apply Qpower_0_lt).
  assert (E : (inject_Z r * (10 # 1) ^ (dexp d + n) == inject_Z (r * 10 ^ n) * (10 # 1) ^ dexp d)%Q).
  { rewrite Qpower_plus, inject_Z_mult, Zpower_Qpower by done. change (inject_Z 10) with (10 # 1)%Q. ring. }
  rewrite E. set (P := ((10 # 1) ^ dexp d)%Q) in *. set (R := r * 10 ^ n) in *.
  rewrite !Qmult_assoc. unfold rounding.
  split_and!; [..|done]; apply Qmult_le_compat_r; try (by apply Qlt_le_weak); unfold Qle, inject_Z; simpl; lia.
Qed.

Lemma dec_mul_Q a b : (dec_Q (mkDecimal (coef a * coef b) (dexp a + dexp b)) == dec_Q a * dec_Q b)%Q.
Proof. unfold dec_Q. cbn [coef dexp]. rewrite inject_Z_mult, Qpower_plus by done. ring. Qed.

(** A product in the context is the product to one part in [2 * 10^27]. *)
Lemma dec_mul_value a b : 0 < coef a -> 0 < coef b ->
  ((1 - rounding) * (dec_Q a * dec_Q b) <= dec_Q (dec_mul a b))%Q /\
  (dec_Q (dec_mul a b) <= (1 + rounding) * (dec_Q a * dec_Q b))%Q /\ 0 < coef (dec_mul a b).
Proof.
  intros Ha Hb. unfold dec_mul. set (d := mkDecimal _ _).
  destruct (dec_round_value d) as (H1 & H2 & H3); [simpl; lia|]. unfold d in H1, H2 at 2. rewrite dec_mul_Q in H1, H2. done.
Qed.
