(* ===== verification/Pool.v ===== *)
(** * Splitting a reward pool

    [_allocate_pool] of [cacheon/economics.py]: the largest-remainder split of
    an integer pool in proportion to credits, which both the weight projection
    and the arena allocation use. Credits are [int]s or [Fraction]s, here [Q]. *)

From Stdlib Require Import QArith Qround Qcanon Lqa.
From S2P Require Import Prelude PyVal Dict Numbers.

Open Scope Z_scope.

Definition EconomicsError (m : string) : exn := Exn "EconomicsError" m.

(** [sum(values)] of fractions, which Python keeps in lowest terms. *)
Definition sum_raw (l : list Q) : Q := foldr Qplus 0%Q l.
Definition sum_Q (l : list Q) : Q := Qred (sum_raw l).

Definition qltb (x y : Q) : bool := negb (Qle_bool y x).

(** [divmod(a, b)] on fractions. *)
Definition divmod_Q (a b : Q) : Z * Q :=
  let q := Qfloor (a / b) in (q, (a - inject_Z q * b)%Q).

(** [l[:n]] *)
Definition slice_to {A} (n : Z) (l : list A) : list A :=
  if n <? 0 then take (Z.to_nat (Z.of_nat (length l) + n)) l else take (Z.to_nat n) l.

(** The rows of the first loop: hotkey, quotient and remainder in name order. *)
Definition pool_row (pool : Z) (total : Q) (kc : string * Q) : string * (Z * Q) :=
  (kc.1, divmod_Q (kc.2 * inject_Z pool) total).

Definition positive_credits (credits : dict Q) : dict Q :=
  filter (fun kc => qltb 0 kc.2 = true) credits.

(** [key=lambda row: (-row[0], row[1])] *)
Definition bonus_key (row : string * (Z * Q)) : Qc * string := (Q2Qc (- row.2.2), row.1).

Definition pool_total (credits : dict Q) : Q := sum_Q (positive_credits credits).*2.

Definition pool_rows (credits : dict Q) (pool : Z) : list (string * (Z * Q)) :=
  pool_row pool (pool_total credits) <$> sorted_by fst (positive_credits credits).

Definition pool_missing (rows : list (string * (Z * Q))) (pool : Z) : Z :=
  pool - sum_Z ((fun row => row.2.1) <$> rows).

Definition pool_bonus (rows : list (string * (Z * Q))) (pool : Z) : list string :=
  (slice_to (pool_missing rows pool) (sorted_by bonus_key rows)).*1.

Definition _allocate_pool (credits : dict Q) (pool : Z) : result (dict Z) :=
  raise_if Qle_bool (pool_total credits) 0
    with (EconomicsError "a non-empty reward pool has no positive credit");
  let rows := pool_rows credits pool in
  let bonus := pool_bonus rows pool in
  Ok ((fun row => (row.1, row.2.1 + (if decide (row.1 ∈ bonus) then 1 else 0))) <$> rows).

(** ** Sums *)

Lemma sum_raw_cons x l : sum_raw (x :: l) = (x + sum_raw l)%Q.
Proof. done. Qed.

#[export] Instance sum_raw_perm : Proper (Permutation ==> Qeq) sum_raw.
Proof.
  intros l k Hp. unfold sum_raw. induction Hp; simpl; [reflexivity| | |].
  - by rewrite IHHp.
  - ring.
  - by etransitivity.
Qed.

Lemma sum_raw_linear {A} (f g : A -> Q) (c : Q) (l : list A) :
  (forall x, x ∈ l -> f x == c * g x)%Q ->
  (sum_raw (f <$> l) == c * sum_raw (g <$> l))%Q.
Proof.
  induction l as [|x l IH]; intros H; unfold sum_raw in *; simpl; [ring|]. refold_fmap.
  rewrite H by (by left). rewrite IH by (intros; apply H; by right). ring.
Qed.

Lemma sum_raw_plus {A} (f g h : A -> Q) (l : list A) :
  (forall x, x ∈ l -> f x == g x + h x)%Q ->
  (sum_raw (f <$> l) == sum_raw (g <$> l) + sum_raw (h <$> l))%Q.
Proof.
  induction l as [|x l IH]; intros H; unfold sum_raw in *; simpl; [ring|]. refold_fmap.
  rewrite H by (by left). rewrite IH by (intros; apply H; by right). ring.
Qed.

Lemma sum_raw_inject {A} (f : A -> Z) (l : list A) :
  (sum_raw ((fun x => inject_Z (f x)) <$> l) == inject_Z (sum_Z (f <$> l)))%Q.
Proof.
  induction l as [|x l IH]; unfold sum_raw, sum_Z in *; simpl; [reflexivity|]. refold_fmap.
  rewrite IH, <- inject_Z_plus. reflexivity.
Qed.

(** Terms in [[0, b)] sum to less than [n * b], and to at least zero. *)
Lemma sum_raw_bounds {A} (f : A -> Q) (b : Q) (l : list A) :
  (forall x, x ∈ l -> 0 <= f x /\ f x < b)%Q ->
  (0 <= sum_raw (f <$> l) /\
   (l <> [] -> sum_raw (f <$> l) < inject_Z (Z.of_nat (length l)) * b))%Q.
Proof.
  induction l as [|x l IH]; intros H; [split; [unfold sum_raw; simpl; lra|done]|].
  destruct (H x) as [H1 H2]; [by left|].
  destruct IH as [IH1 IH2]; [intros; apply H; by right|].
  assert (E : (sum_raw (f <$> x :: l) = f x + sum_raw (f <$> l))%Q) by done. rewrite E.
  split; [lra|]. intros _.
  assert (El : inject_Z (Z.of_nat (length (x :: l))) = inject_Z (Z.of_nat (length l) + 1)).
  { f_equal. change (length (x :: l)) with (S (length l)). lia. }
  rewrite El, inject_Z_plus, Qmult_plus_distr_l. change (inject_Z 1) with 1%Q.
  destruct l as [|y l].
  { assert ((inject_Z (Z.of_nat (length (@nil A))) * b == 0)%Q) by (simpl; ring).
    assert (sum_raw (f <$> []) == 0)%Q by reflexivity. lra. }
  specialize (IH2 ltac:(done)). lra.
Qed.

Lemma sum_Q_raw l : (sum_Q l == sum_raw l)%Q.
Proof. apply Qred_correct. Qed.

Lemma sum_Q_perm l k : l ≡ₚ k -> sum_Q l = sum_Q k.
Proof. intros Hp. apply Qred_complete. by rewrite Hp. Qed.

Lemma sum_raw_pos l : (0 < sum_raw l)%Q -> exists x, x ∈ l /\ (0 < x)%Q.
Proof.
  induction l as [|x l IH]; [intros H; by apply Qlt_irrefl in H|]. rewrite sum_raw_cons. intros H.
  destruct (Qlt_le_dec 0 x) as [Hx|Hx]; [exists x; split; [by left|done]|].
  destruct IH as (y & ? & ?); [lra|]. exists y. split; [by right|done].
Qed.

(** ** [divmod] *)

Lemma divmod_Q_spec a b : (0 < b)%Q ->
  let '(q, r) := divmod_Q a b in (a == inject_Z q * b + r /\ 0 <= r /\ r < b)%Q.
Proof.
  intros Hb. unfold divmod_Q. split; [ring|].
  pose proof (Qfloor_le (a / b)) as H1. pose proof (Qlt_floor (a / b)) as H2.
  assert (Hab : (a == a / b * b)%Q) by (field; lra).
  rewrite inject_Z_plus in H2. change (inject_Z 1) with 1%Q in H2.
  set (q := inject_Z (Qfloor (a / b))) in *.
  assert (q * b <= a / b * b)%Q by (apply Qmult_le_compat_r; lra).
  assert (a / b * b < (q + 1) * b)%Q by (apply Qmult_lt_compat_r; lra).
  split; [lra|]. assert ((q + 1) * b == q * b + b)%Q by ring. lra.
Qed.

(** ** The split *)

Lemma qltb_lt x y : qltb x y = true <-> (x < y)%Q.
Proof.
  unfold qltb. rewrite negb_true_iff. rewrite <- not_true_iff_false, Qle_bool_iff.
  split; intros; lra.
Qed.

Section Split.
Context (credits : dict Q) (pool : Z).
Hypothesis keys_distinct : NoDup credits.*1.

Lemma positive_keys : NoDup (positive_credits credits).*1.
Proof.
  by apply NoDup_fmap_filter.
Qed.

Lemma pool_rows_keys : (pool_rows credits pool).*1 = (sorted_by fst (positive_credits credits)).*1.
Proof. unfold pool_rows. rewrite <- list_fmap_compose. done. Qed.

Lemma pool_rows_NoDup : NoDup (pool_rows credits pool).*1.
Proof. rewrite pool_rows_keys, sorted_by_perm. apply positive_keys. Qed.

Hypothesis total_pos : (0 < pool_total credits)%Q.

Lemma pool_row_spec row : row ∈ pool_rows credits pool ->
  exists c, (row.1, c) ∈ credits /\ (0 < c)%Q /\
    (c * inject_Z pool == inject_Z row.2.1 * pool_total credits + row.2.2)%Q /\
    (0 <= row.2.2 /\ row.2.2 < pool_total credits)%Q.
Proof.
  unfold pool_rows. intros ([k c] & -> & Hkc)%list_elem_of_fmap. exists c.
  rewrite sorted_by_perm in Hkc. apply list_elem_of_filter in Hkc as [Hc Hkc].
  apply qltb_lt in Hc. pose proof (divmod_Q_spec (c * inject_Z pool) _ total_pos) as H.
  unfold pool_row. cbn [fst snd] in *.
  destruct (divmod_Q (c * inject_Z pool) (pool_total credits)) as [q r]. cbn [fst snd]. naive_solver.
Qed.

(** The remainders add up to the missing units, which are fewer than the rows. *)
Lemma pool_missing_bounds :
  0 <= pool_missing (pool_rows credits pool) pool < Z.of_nat (length (pool_rows credits pool)).
Proof.
  assert (Hne : pool_rows credits pool <> []).
  { unfold pool_rows. intros E%fmap_nil_inv.
    pose proof (sorted_by_perm fst (positive_credits credits)) as Hp. rewrite E in Hp.
    apply Permutation_nil_l in Hp. revert total_pos. unfold pool_total. rewrite <- Hp.
    apply Qlt_irrefl. }
  set (rows := pool_rows credits pool).
  set (T := pool_total credits) in *.
  pose proof (sum_raw_bounds (fun row => row.2.2) T rows) as [H0 H1].
  { intros row Hrow. by destruct (pool_row_spec row Hrow) as (c & _ & _ & _ & ?). }
  specialize (H1 Hne).
  assert (Hsum : (sum_raw ((fun row => row.2.2) <$> rows) == inject_Z (pool_missing rows pool) * T)%Q).
  { assert (Hx : (inject_Z pool * T ==
        sum_raw ((fun row => inject_Z row.2.1 * T) <$> rows) + sum_raw ((fun row => row.2.2) <$> rows))%Q).
    { rewrite <- (sum_raw_plus (fun row => inject_Z row.2.1 * T + row.2.2)%Q) by (intros; ring).
      unfold rows, pool_rows. rewrite <- list_fmap_compose.
      rewrite (sum_raw_linear _ snd (inject_Z pool)).
      - unfold T, pool_total. rewrite sum_Q_raw. by rewrite sorted_by_perm.
      - intros [k c] Hkc. unfold compose, pool_row. cbn [fst snd].
        pose proof (divmod_Q_spec (c * inject_Z pool) T total_pos) as Hd. fold T.
        destruct (divmod_Q (c * inject_Z pool) T) as [q r]. cbn [fst snd]. destruct Hd as [Hd _]. rewrite <- Hd. ring. }
    rewrite (sum_raw_linear _ (fun row => inject_Z row.2.1) T) in Hx by (intros; ring).
    rewrite sum_raw_inject in Hx. unfold pool_missing, Zminus.
    rewrite inject_Z_plus, inject_Z_opp.
    set (s := inject_Z (sum_Z _)) in *. set (r := sum_raw _) in *. 
    assert ((inject_Z pool + - s) * T == inject_Z pool * T - T * s)%Q by ring. lra. }
  rewrite Hsum in H0, H1. split.
  - apply Znot_gt_le. intros Hm%Z.gt_lt. rewrite Zlt_Qlt in Hm.
    assert ((inject_Z (pool_missing rows pool) * T < inject_Z 0 * T)%Q) by (by apply Qmult_lt_compat_r).
    change (inject_Z 0) with 0%Q in *. lra.
  - apply Qmult_lt_r in H1; [|done]. by rewrite <- Zlt_Qlt in H1.
Qed.

Let rows := pool_rows credits pool.
Let bonus := pool_bonus rows pool.

Lemma pool_bonus_take : bonus = take (Z.to_nat (pool_missing rows pool)) (sorted_by bonus_key rows).*1.
Proof.
  pose proof pool_missing_bounds. unfold bonus, pool_bonus, slice_to.
  destruct (Z.ltb_spec (pool_missing rows pool) 0); [unfold rows in *; lia|]. by rewrite fmap_take.
Qed.

Lemma sorted_rows_keys : (sorted_by bonus_key rows).*1 ≡ₚ rows.*1.
Proof. by rewrite sorted_by_perm. Qed.

Lemma pool_bonus_NoDup : NoDup bonus.
Proof.
  rewrite pool_bonus_take. eapply sublist_NoDup; [|apply sublist_take].
  rewrite sorted_rows_keys. apply pool_rows_NoDup.
Qed.

Lemma pool_bonus_length : Z.of_nat (length bonus) = pool_missing rows pool.
Proof.
  pose proof pool_missing_bounds as H. fold rows in H. rewrite pool_bonus_take, length_take, length_fmap.
  rewrite sorted_by_perm. lia.
Qed.

Lemma pool_bonus_keys k : k ∈ bonus -> k ∈ rows.*1.
Proof.
  rewrite pool_bonus_take. intros H%elem_of_take. destruct H as (i & Hi & _).
  apply list_elem_of_lookup_2 in Hi. by rewrite sorted_rows_keys in Hi.
Qed.

Definition allotted (row : string * (Z * Q)) : Z := row.2.1 + (if decide (row.1 ∈ bonus) then 1 else 0).

Lemma sum_indicator {A} (f : A -> string) (g : A -> Z) (l : list A) (b : list string) :
  NoDup (f <$> l) -> NoDup b -> (forall k, k ∈ b -> k ∈ f <$> l) ->
  sum_Z ((fun x => g x + (if decide (f x ∈ b) then 1 else 0)) <$> l)
  = sum_Z (g <$> l) + Z.of_nat (length b).
Proof.
  intros Hl Hb Hsub.
  assert (Hp : filter (fun k => k ∈ b) (f <$> l) ≡ₚ b).
  { apply NoDup_Permutation; [by apply NoDup_filter|done|]. intros k.
    rewrite list_elem_of_filter. naive_solver. }
  rewrite <- Hp. clear Hl Hb Hsub Hp. induction l as [|x l IH]; [done|].
  rewrite !fmap_cons, filter_cons. unfold sum_Z in *. simpl. rewrite IH.
  case_decide; simpl; lia.
Qed.

Lemma allotted_sum : sum_Z (allotted <$> rows) = pool.
Proof.
  unfold allotted. rewrite (sum_indicator fst (fun row => row.2.1)).
  - rewrite pool_bonus_length. unfold pool_missing. lia.
  - apply pool_rows_NoDup.
  - apply pool_bonus_NoDup.
  - apply pool_bonus_keys.
Qed.

(** The extra units go to the rows with the smallest bonus keys. *)
Lemma pool_bonus_closed row row' :
  row ∈ rows -> row' ∈ rows -> row'.1 ∈ bonus ->
  cmp_ltb (bonus_key row) (bonus_key row') = true -> row.1 ∈ bonus.
Proof.
  intros Hr Hr' Hb Hlt. rewrite pool_bonus_take in *. rewrite <- fmap_take in *.
  set (n := Z.to_nat _) in *. set (l := sorted_by bonus_key rows) in *.
  apply list_elem_of_fmap in Hb as (x & Hx1 & Hx).
  assert (x = row') as ->.
  { assert (x ∈ rows) as Hxr.
    { rewrite <- (sorted_by_perm bonus_key rows). fold l. rewrite <- (take_drop n l). set_solver. }
    eapply (NoDup_fmap_inj fst); [apply pool_rows_NoDup|..]; eauto. }
  rewrite <- (sorted_by_perm bonus_key rows) in Hr. fold l in Hr. rewrite <- (take_drop n l) in Hr.
  apply elem_of_app in Hr as [Hr|Hr]; [apply list_elem_of_fmap; eauto|].
  pose proof (sorted_by_sorted bonus_key rows) as Hs. fold l in Hs. rewrite <- (take_drop n l) in Hs.
  pose proof (StronglySorted_app_le _ _ _ _ _ Hs Hx Hr) as Hle. unfold key_le in Hle.
  rewrite cmp_leb_ltb, Hlt in Hle. done.
Qed.
End Split.

(** ** Properties *)

Lemma allocate_pool_Ok credits pool shares :
  _allocate_pool credits pool = Ok shares ->
  (0 < pool_total credits)%Q /\
  shares = (fun row => (row.1, allotted credits pool row)) <$> pool_rows credits pool.
Proof.
  unfold _allocate_pool. intros H. step_guard H. injection H as <-.
  split; [|done]. apply qltb_lt. unfold qltb. by rewrite Eg.
Qed.

Lemma allocate_pool_sum credits pool shares :
  NoDup credits.*1 -> _allocate_pool credits pool = Ok shares -> sum_Z shares.*2 = pool.
Proof. intros Hnd [Ht ->]%allocate_pool_Ok. rewrite <- list_fmap_compose. by apply allotted_sum. Qed.

Lemma allocate_pool_keys credits pool shares :
  _allocate_pool credits pool = Ok shares -> shares.*1 = (sorted_by fst (positive_credits credits)).*1.
Proof.
  intros [Ht ->]%allocate_pool_Ok. rewrite <- list_fmap_compose, <- (pool_rows_keys credits pool). done.
Qed.

Lemma allocate_pool_nonneg credits pool shares k s :
  0 <= pool -> _allocate_pool credits pool = Ok shares -> (k, s) ∈ shares -> 0 <= s.
Proof.
  intros Hpool [Ht ->]%allocate_pool_Ok (row & [= -> ->] & Hrow)%list_elem_of_fmap.
  unfold allotted. destruct (pool_row_spec _ _ Ht _ Hrow) as (c & _ & Hc & E & H0 & HT).
  enough (0 <= row.2.1) by (case_decide; lia).
  apply Znot_gt_le. intros Hq%Z.gt_lt.
  assert (Hq' : (inject_Z row.2.1 + 1 <= 0)%Q).
  { change 1%Q with (inject_Z 1). change 0%Q with (inject_Z 0). rewrite <- inject_Z_plus, <- Zle_Qle. lia. }
  assert (Hp' : (0 <= c * inject_Z pool)%Q).
  { apply Qmult_le_0_compat; [lra|]. change 0%Q with (inject_Z 0). by rewrite <- Zle_Qle. }
  assert (Hm : ((inject_Z row.2.1 + 1) * pool_total credits <= 0 * pool_total credits)%Q)
    by (apply Qmult_le_compat_r; lra).
  assert (E' : ((inject_Z row.2.1 + 1) * pool_total credits
            == inject_Z row.2.1 * pool_total credits + pool_total credits)%Q) by ring.
  rewrite Qmult_0_l in Hm. lra.
Qed.

Lemma sum_raw_ge l c : (forall x, x ∈ l -> 0 <= x)%Q -> c ∈ l -> (c <= sum_raw l)%Q.
Proof.
  induction l as [|x l IH]; intros Hl Hc; [by apply elem_of_nil in Hc|]. rewrite sum_raw_cons.
  assert (H0 : (0 <= sum_raw l)%Q).
  { clear IH Hc. induction l as [|y l IH]; [apply Qle_refl|]. rewrite sum_raw_cons.
    assert (0 <= y)%Q by (apply Hl; set_solver). assert (0 <= sum_raw l)%Q by (apply IH; set_solver). lra. }
  apply elem_of_cons in Hc as [->|Hc]; [lra|].
  assert (0 <= x)%Q by (apply Hl; left). assert (c <= sum_raw l)%Q by (apply IH; set_solver). lra.
Qed.

(** A successful split pays out exactly the pool: the shares, one per hotkey with positive
    credit in name order, sum to the pool, and each is its exact proportional part rounded down
    or that plus one unit. *)
Theorem allocate_pool_exact (credits : dict Q) (pool : Z) (shares : dict Z) :
  NoDup credits.*1 -> _allocate_pool credits pool = Ok shares ->
  sum_Z shares.*2 = pool /\
  shares.*1 = (sorted_by fst (positive_credits credits)).*1 /\
  (forall k s, (k, s) ∈ shares -> exists c, (k, c) ∈ credits /\ (0 < c)%Q /\
     let part := Qfloor (c * inject_Z pool / pool_total credits) in part <= s <= part + 1).
Proof.
  intros Hnd [Ht ->]%allocate_pool_Ok. split_and!.
  - rewrite <- list_fmap_compose. by apply allotted_sum.
  - rewrite <- list_fmap_compose, <- (pool_rows_keys credits pool). done.
  - intros k s (row & [= -> ->] & Hrow)%list_elem_of_fmap. unfold allotted.
    unfold pool_rows in Hrow. apply list_elem_of_fmap in Hrow as ([k c] & -> & Hkc).
    rewrite sorted_by_perm in Hkc. apply list_elem_of_filter in Hkc as [Hc Hkc].
    apply qltb_lt in Hc. exists c. split; [done|]. split; [done|]. cbv zeta.
    unfold pool_row, divmod_Q. cbn [fst snd]. case_decide; lia.
Qed.

Lemma allocate_pool_exact_witness :
  let credits := [("b", 1%Q); ("a", 1%Q); ("c", 1%Q); ("d", 0%Q)] in
  _allocate_pool credits 100 = Ok [("a", 34); ("b", 33); ("c", 33)] /\
  (sum_Z ([("a", 34); ("b", 33); ("c", 33)] : dict Z).*2 = 100 /\
   ([("a", 34); ("b", 33); ("c", 33)] : dict Z).*1 = (sorted_by fst (positive_credits credits)).*1 /\
   (forall k s, (k, s) ∈ ([("a", 34); ("b", 33); ("c", 33)] : dict Z) ->
     exists c, (k, c) ∈ credits /\ (0 < c)%Q /\
     let part := Qfloor (c * inject_Z 100 / pool_total credits) in part <= s <= part + 1)).
Proof.
  intros credits. split; [vm_compute; reflexivity|].
  apply (allocate_pool_exact credits); [|vm_compute; reflexivity].
  by apply distinct_spec.
Defined.

Lemma pool_total_ge credits k c :
  (k, c) ∈ credits -> (0 < c)%Q -> (c <= pool_total credits)%Q.
Proof.
  intros Hkc Hc. unfold pool_total. rewrite sum_Q_raw.
  assert (Hin : (k, c) ∈ positive_credits credits) by (apply list_elem_of_filter; split; [by apply qltb_lt|done]).
  apply sum_raw_ge; [|apply list_elem_of_fmap; by exists (k, c)].
  intros x ([k' x'] & -> & [Hx _]%list_elem_of_filter)%list_elem_of_fmap.
  apply qltb_lt in Hx. simpl in *. lra.
Qed.

Lemma allocate_pool_total credits pool k c :
  (k, c) ∈ credits -> (0 < c)%Q -> exists shares, _allocate_pool credits pool = Ok shares.
Proof.
  intros Hkc Hc. pose proof (pool_total_ge _ _ _ Hkc Hc). unfold _allocate_pool.
  destruct (Qle_bool (pool_total credits) 0) eqn:E; [|eauto]. apply Qle_bool_iff in E. lra.
Qed.

(** The split raises exactly when no credit is positive. *)
Lemma allocate_pool_error (credits : dict Q) (pool : Z) :
  is_ok (_allocate_pool credits pool) = false <-> (forall k c, (k, c) ∈ credits -> (c <= 0)%Q).
Proof.
  unfold _allocate_pool. destruct (Qle_bool (pool_total credits) 0) eqn:E; simpl.
  - split; [intros _|done]. intros k c Hkc. apply Qle_bool_iff in E.
    apply Qnot_lt_le. intros Hc. pose proof (pool_total_ge _ _ _ Hkc Hc). lra.
  - split; [done|]. intros H. exfalso.
    assert (Hnil : positive_credits credits = []).
    { destruct (positive_credits credits) as [|[k c] l] eqn:Ep; [done|]. exfalso.
      assert (Hin : (k, c) ∈ positive_credits credits) by (rewrite Ep; left).
      apply list_elem_of_filter in Hin as [Hc Hin]. apply qltb_lt in Hc.
      specialize (H k c Hin). simpl in Hc. lra. }
    unfold pool_total in E. rewrite Hnil in E. discriminate E.
Qed.

(** The split depends on the credits and not on the order of the mapping that holds them. *)
Lemma allocate_pool_order (credits credits' : dict Q) (pool : Z) :
  NoDup credits.*1 -> credits ≡ₚ credits' -> _allocate_pool credits pool = _allocate_pool credits' pool.
Proof.
  intros Hnd Hp.
  assert (Hf : positive_credits credits ≡ₚ positive_credits credits') by (unfold positive_credits; by rewrite Hp).
  assert (Ht : pool_total credits = pool_total credits').
  { unfold pool_total. apply sum_Q_perm. by rewrite Hf. }
  assert (Hr : pool_rows credits pool = pool_rows credits' pool).
  { unfold pool_rows. rewrite Ht. f_equal. apply sorted_by_unique; [|done]. by apply NoDup_fmap_filter. }
  unfold _allocate_pool. by rewrite Ht, Hr.
Qed.

Lemma allocate_pool_order_witness :
  _allocate_pool [("b", 2%Q); ("a", 1%Q)] 10 = _allocate_pool [("a", 1%Q); ("b", 2%Q)] 10.
Proof. apply allocate_pool_order; [by apply distinct_spec|apply Permutation_swap]. Defined.

(** A larger credit never receives a smaller share of a positive pool. *)
Theorem allocate_pool_monotone (credits : dict Q) (pool : Z) (shares : dict Z) (k k' : string)
    (c c' : Q) (s s' : Z) :
  NoDup credits.*1 -> 0 < pool -> _allocate_pool credits pool = Ok shares ->
  (k, c) ∈ credits -> (k', c') ∈ credits -> (c' < c)%Q ->
  (k, s) ∈ shares -> (k', s') ∈ shares -> s' <= s.
Proof.
  intros Hnd Hpool [Ht ->]%allocate_pool_Ok Hk Hk' Hlt Hs Hs'.
  apply list_elem_of_fmap in Hs as (row & [= -> ->] & Hrow), Hs' as (row' & [= -> ->] & Hrow').
  destruct (pool_row_spec _ _ Ht row Hrow) as (d & Hd & _ & Eq & H0 & HT).
  destruct (pool_row_spec _ _ Ht row' Hrow') as (d' & Hd' & _ & Eq' & H0' & HT').
  assert ((row.1, d) = (row.1, c)) as [= ->] by (by eapply (NoDup_fmap_inj fst)).
  assert ((row'.1, d') = (row'.1, c')) as [= ->] by (by eapply (NoDup_fmap_inj fst)).
  assert (Hmul : (c' * inject_Z pool < c * inject_Z pool)%Q).
  { apply Qmult_lt_r; [|done]. change 0%Q with (inject_Z 0). by rewrite <- Zlt_Qlt. }
  unfold allotted. set (T := pool_total credits) in *.
  destruct (Z.lt_trichotomy row.2.1 row'.2.1) as [Hq|[Hq|Hq]].
  - exfalso. assert (Hq' : (inject_Z row.2.1 + 1 <= inject_Z row'.2.1)%Q).
    { change 1%Q with (inject_Z 1). rewrite <- inject_Z_plus, <- Zle_Qle. lia. }
    assert ((inject_Z row.2.1 + 1) * T <= inject_Z row'.2.1 * T)%Q by (apply Qmult_le_compat_r; lra).
    assert ((inject_Z row.2.1 + 1) * T == inject_Z row.2.1 * T + T)%Q by ring. lra.
  - rewrite Hq in *. destruct (decide (row'.1 ∈ _)) as [Hb|Hb]; [|case_decide; lia].
    rewrite decide_True; [lia|]. eapply pool_bonus_closed; eauto.
    unfold bonus_key, cmp_ltb, cmp, cmp_prod. cbn [fst snd].
    assert (Hc : Qccompare (Q2Qc (- row.2.2)) (Q2Qc (- row'.2.2)) = Lt).
    { apply (proj1 (Qclt_alt _ _)). unfold Qclt, Q2Qc. cbn [this].
      pose proof (Qred_correct (- row.2.2)). pose proof (Qred_correct (- row'.2.2)). lra. }
    change (cmp (Q2Qc (- row.2.2)) (Q2Qc (- row'.2.2))) with (Qccompare (Q2Qc (- row.2.2)) (Q2Qc (- row'.2.2))).
    by rewrite Hc.
  - repeat case_decide; lia.
Qed.

Lemma allocate_pool_monotone_witness :
  _allocate_pool [("b", 2%Q); ("a", 1%Q)] 10 = Ok [("a", 3); ("b", 7)] /\ 3 <= 7.
Proof.
  split; [vm_compute; reflexivity|].
  apply (allocate_pool_monotone [("b", 2%Q); ("a", 1%Q)] 10 [("a", 3); ("b", 7)] "b" "a" 2 1);
    try (vm_compute; reflexivity); [by apply distinct_spec|set_solver..].
Defined.
