(* ===== verification/Economics.v ===== *)
(** * Reward economics: policy, projection context and claims

    The validated records of [cacheon/economics.py]. A record here is a value
    after its [__post_init__]; the constructor function [make_*] is that check
    on the fields a caller passes. *)

From S2P Require Import Prelude PyVal Identity Strict Dict Pool.

Open Scope Z_scope.

Definition POLICY_SCHEMA_VERSION : Z := 1.
Definition POLICY_VERSION : string := "cacheon.emissions.v1.7".
Definition WEIGHT_PPM : Z := 1000000.

Definition _digest (value : pyval) (field : string) : result string :=
  require_digest value field EconomicsError false false.

Definition _integer (value : pyval) (field : string) (minimum : Z) : result Z :=
  require_int value field EconomicsError (Some minimum) None.

(** [re.compile(r"[^\s]{1,256}\Z").fullmatch(value)] *)
Definition is_hotkey (s : string) : bool :=
  negb (has_space s) && (1 <=? py_len s) && (py_len s <=? 256).

Definition _hotkey (value : pyval) (field : string) : result string :=
  match value with
  | VStr s => if is_hotkey s then Ok s else Raise (EconomicsError (string_app field " is malformed"))
  | _ => Raise (EconomicsError (string_app field " is malformed"))
  end.

Definition _strict (value : pyval) (fields : list string) (name : string) :
    result (list (string * pyval)) :=
  require_exact_fields value fields name EconomicsError true.

(** [cls( **row)]: the argument a field of the object becomes. *)
Definition field_of (row : list (string * pyval)) (name : string) : pyval := default VNone (dict_get name row).

(** [value == constant] for an [int] constant: [True] equals 1 and [1.0] equals 1. *)
Definition equals_one (v : pyval) : bool :=
  match v with
  | VInt z => z =? 1
  | VBool b => b
  | VFloat f => match SpecFloat.SFcompare f (SpecFloat.binary_normalize 53 1024 1 0 false) with Some Eq => true | _ => false end
  | _ => false
  end.
Definition equals_str (s : string) (v : pyval) : bool :=
  match v with VStr t => String.eqb t s | _ => false end.

(** ** Emissions policy *)

Record EmissionsPolicyManifest := mkPolicy {
  half_life_blocks : Z;
  discovery_lifetime_blocks : Z;
  discovery_pool_ppm : Z;
  schema_version : pyval;
  policy_version : string;
}.

Definition make_policy (half_life discovery_lifetime discovery_pool schema version : pyval) :
    result EmissionsPolicyManifest :=
  half_life ← _integer half_life "half_life_blocks" 1;
  discovery_lifetime ← _integer discovery_lifetime "discovery_lifetime_blocks" 1;
  discovery_pool ← _integer discovery_pool "discovery_pool_ppm" 0;
  raise_if WEIGHT_PPM <=? discovery_pool
    with (EconomicsError "discovery_pool_ppm must leave standing reward capacity");
  raise_if negb (equals_one schema) with (EconomicsError "emissions policy schema_version is unsupported");
  raise_if negb (equals_str POLICY_VERSION version)
    with (EconomicsError "emissions policy_version is unsupported");
  Ok (mkPolicy half_life discovery_lifetime discovery_pool schema POLICY_VERSION).

Definition policy_to_dict (p : EmissionsPolicyManifest) : pyval :=
  str_dict [("discovery_lifetime_blocks", VInt (discovery_lifetime_blocks p));
            ("discovery_pool_ppm", VInt (discovery_pool_ppm p));
            ("half_life_blocks", VInt (half_life_blocks p));
            ("policy_version", VStr (policy_version p));
            ("schema_version", schema_version p)].

Definition policy_from_dict (value : pyval) : result EmissionsPolicyManifest :=
  row ← _strict value ["discovery_lifetime_blocks"; "discovery_pool_ppm"; "half_life_blocks";
                       "policy_version"; "schema_version"] "emissions policy";
  make_policy (field_of row "half_life_blocks") (field_of row "discovery_lifetime_blocks")
    (field_of row "discovery_pool_ppm") (field_of row "schema_version") (field_of row "policy_version").

Definition policy_digest (p : EmissionsPolicyManifest) : result string :=
  canonical_digest "cacheon.economics.policy" (policy_to_dict p) 1.

(** ** Projection context *)

Record MetagraphMember := mkMember { uid : Z; member_hotkey : string }.

Definition make_member (uid hotkey : pyval) : result MetagraphMember :=
  uid ← _integer uid "metagraph uid" 0;
  hotkey ← _hotkey hotkey "metagraph hotkey";
  Ok (mkMember uid hotkey).

Definition member_to_dict (m : MetagraphMember) : pyval :=
  str_dict [("hotkey", VStr (member_hotkey m)); ("uid", VInt (uid m))].

Record GlobalRewardProjectionContext := mkContext {
  chain_scope_digest : string;
  validator_hotkey : string;
  current_block : Z;
  current_block_hash : string;
  metagraph_members : list MetagraphMember;
}.

(** [re.compile(r"0x[0-9a-f]{64}\Z").fullmatch(value)] *)
Definition is_block_hash (s : string) : bool :=
  starts_with "0x" s && is_sha256_hex (drop_prefix "0x" s).

Definition member_key (m : MetagraphMember) : Z * string := (uid m, member_hotkey m).

Definition make_context (scope validator block block_hash : pyval) (members : list MetagraphMember) :
    result GlobalRewardProjectionContext :=
  scope ← _digest scope "chain_scope_digest";
  validator ← _hotkey validator "hotkey";
  block ← _integer block "current_block" 0;
  block_hash ← match block_hash with
               | VStr s => if is_block_hash s then Ok s else Raise (EconomicsError "current_block_hash is malformed")
               | _ => Raise (EconomicsError "current_block_hash is malformed")
               end;
  let members := sorted_by member_key members in
  raise_if match members with [] => true | _ => false end
           || negb (distinct (uid <$> members)) || negb (distinct (member_hotkey <$> members))
    with (EconomicsError "metagraph membership is empty or duplicated");
  raise_if negb (bool_decide (validator ∈ member_hotkey <$> members))
    with (EconomicsError "validator is absent from the current metagraph");
  Ok (mkContext scope validator block block_hash members).

Definition eligible_hotkeys (c : GlobalRewardProjectionContext) : gset string :=
  list_to_set (member_hotkey <$> metagraph_members c).

Definition metagraph_payload (c : GlobalRewardProjectionContext) : pyval :=
  str_dict [("block", VInt (current_block c)); ("block_hash", VStr (current_block_hash c));
            ("chain_scope_digest", VStr (chain_scope_digest c));
            ("members", VList (member_to_dict <$> metagraph_members c))].

Definition metagraph_digest (c : GlobalRewardProjectionContext) : result string :=
  canonical_digest "cacheon.economics.metagraph-membership" (metagraph_payload c) 1.

Definition context_to_dict (c : GlobalRewardProjectionContext) : result pyval :=
  metagraph ← metagraph_digest c;
  Ok (str_dict [("chain_scope_digest", VStr (chain_scope_digest c)); ("current_block", VInt (current_block c));
                ("current_block_hash", VStr (current_block_hash c)); ("metagraph_digest", VStr metagraph);
                ("metagraph_members", VList (member_to_dict <$> metagraph_members c));
                ("validator_hotkey", VStr (validator_hotkey c))]).

Definition context_digest (c : GlobalRewardProjectionContext) : result string :=
  payload ← context_to_dict c; canonical_digest "cacheon.economics.global-context" payload 1.

(** ** Claims *)

Record StandingRewardClaim := mkStanding {
  arena_digest : string;
  target_id : string;
  target_spec_digest : string;
  contribution_digest : string;
  claim_hotkey : string;
  speedup_ppm : Z;
  crowned_block : Z;
  retained_evidence_digest : string;
}.

Definition standing_fields : list string :=
  ["arena_digest"; "target_id"; "target_spec_digest"; "contribution_digest"; "hotkey"; "speedup_ppm";
   "crowned_block"; "retained_evidence_digest"].

Definition make_standing (arena target spec contribution hotkey speedup crowned evidence : pyval) :
    result StandingRewardClaim :=
  target ← match target with
           | VStr s => if String.eqb s "" then Raise (EconomicsError "standing target_id is malformed") else Ok s
           | _ => Raise (EconomicsError "standing target_id is malformed")
           end;
  arena ← _digest arena "arena_digest";
  spec ← _digest spec "target_spec_digest";
  contribution ← _digest contribution "contribution_digest";
  evidence ← _digest evidence "retained_evidence_digest";
  hotkey ← _hotkey hotkey "hotkey";
  speedup ← _integer speedup "speedup_ppm" (WEIGHT_PPM + 1);
  crowned ← _integer crowned "crowned_block" 0;
  Ok (mkStanding arena target spec contribution hotkey speedup crowned evidence).

Definition standing_to_dict (c : StandingRewardClaim) : pyval :=
  str_dict [("arena_digest", VStr (arena_digest c)); ("contribution_digest", VStr (contribution_digest c));
            ("crowned_block", VInt (crowned_block c)); ("hotkey", VStr (claim_hotkey c));
            ("retained_evidence_digest", VStr (retained_evidence_digest c));
            ("speedup_ppm", VInt (speedup_ppm c)); ("target_id", VStr (target_id c));
            ("target_spec_digest", VStr (target_spec_digest c))].

Definition standing_from_dict (value : pyval) : result StandingRewardClaim :=
  row ← _strict value standing_fields "standing reward claim";
  make_standing (field_of row "arena_digest") (field_of row "target_id") (field_of row "target_spec_digest")
    (field_of row "contribution_digest") (field_of row "hotkey") (field_of row "speedup_ppm")
    (field_of row "crowned_block") (field_of row "retained_evidence_digest").

Definition standing_digest (c : StandingRewardClaim) : result string :=
  canonical_digest "cacheon.economics.standing-claim" (standing_to_dict c) 1.

Definition family_id (c : StandingRewardClaim) : result string :=
  canonical_digest "cacheon.economics.standing-family"
    (str_dict [("arena_digest", VStr (arena_digest c)); ("target_id", VStr (target_id c));
               ("target_spec_digest", VStr (target_spec_digest c))]) 1.

Record DiscoveryBountyClaim := mkBounty {
  proposal_digest : string;
  bounty_evidence_digest : string;
  bounty_hotkey : string;
  bounty_units : Z;
  awarded_block : Z;
}.

Definition make_bounty (proposal evidence hotkey units awarded : pyval) : result DiscoveryBountyClaim :=
  proposal ← _digest proposal "proposal_digest";
  evidence ← _digest evidence "retained_evidence_digest";
  hotkey ← _hotkey hotkey "hotkey";
  units ← _integer units "bounty_units" 1;
  awarded ← _integer awarded "awarded_block" 0;
  Ok (mkBounty proposal evidence hotkey units awarded).

Definition live_at (c : DiscoveryBountyClaim) (block : pyval) (policy : EmissionsPolicyManifest) : result bool :=
  block ← _integer block "bounty block" 0;
  raise_if block <? awarded_block c
    with (EconomicsError "discovery claim is newer than projection authority");
  Ok (block - awarded_block c <? discovery_lifetime_blocks policy).

Definition bounty_to_dict (c : DiscoveryBountyClaim) : pyval :=
  str_dict [("awarded_block", VInt (awarded_block c)); ("bounty_units", VInt (bounty_units c));
            ("hotkey", VStr (bounty_hotkey c)); ("proposal_digest", VStr (proposal_digest c));
            ("retained_evidence_digest", VStr (bounty_evidence_digest c))].

Definition bounty_from_dict (value : pyval) : result DiscoveryBountyClaim :=
  row ← _strict value ["proposal_digest"; "retained_evidence_digest"; "hotkey"; "bounty_units"; "awarded_block"]
          "discovery bounty claim";
  make_bounty (field_of row "proposal_digest") (field_of row "retained_evidence_digest") (field_of row "hotkey")
    (field_of row "bounty_units") (field_of row "awarded_block").

Definition bounty_digest (c : DiscoveryBountyClaim) : result string :=
  canonical_digest "cacheon.economics.discovery-claim" (bounty_to_dict c) 1.

(** The credit of one earning claim in the projection. *)
Record StandingFamilyCredit := mkCredit {
  credit_arena : string;
  credit_family : string;
  credit_target : string;
  claim_digest : string;
  hotkey : string;
  credit : Z;
}.

(** ** Reloading a stored claim

    A check returns its argument, so a constructor that accepted some values
    accepts the record it made of them. *)

Lemma digest_value value field s : _digest value field = Ok s -> value = VStr s.
Proof. by intros [? _]%require_digest_zero_false. Qed.

Lemma integer_value value field lo z : _integer value field lo = Ok z -> value = VInt z.
Proof. by intros [? _]%require_int_Ok. Qed.

Lemma hotkey_value value field s : _hotkey value field = Ok s -> value = VStr s.
Proof. destruct value; try done. unfold _hotkey. destruct (is_hotkey s0); congruence. Qed.

Ltac read_values :=
  repeat match goal with
  | H : _digest ?v _ = Ok _ |- _ => is_var v; pose proof (digest_value _ _ _ H); subst v
  | H : _integer ?v _ _ = Ok _ |- _ => is_var v; pose proof (integer_value _ _ _ _ H); subst v
  | H : _hotkey ?v _ = Ok _ |- _ => is_var v; pose proof (hotkey_value _ _ _ H); subst v
  end.

Lemma make_standing_again a t s c h u k e claim :
  make_standing a t s c h u k e = Ok claim ->
  make_standing (VStr (arena_digest claim)) (VStr (target_id claim)) (VStr (target_spec_digest claim))
    (VStr (contribution_digest claim)) (VStr (claim_hotkey claim)) (VInt (speedup_ppm claim))
    (VInt (crowned_block claim)) (VStr (retained_evidence_digest claim)) = Ok claim.
Proof.
  intros H. rewrite <- H. unfold make_standing in H. inv_ok. read_values. cbn.
  assert (t = VStr x) as ->; [|done].
  destruct t; try discriminate. destruct (String.eqb s "") eqn:E; [discriminate|]. congruence.
Qed.

Lemma make_bounty_again p e h u a claim :
  make_bounty p e h u a = Ok claim ->
  make_bounty (VStr (proposal_digest claim)) (VStr (bounty_evidence_digest claim)) (VStr (bounty_hotkey claim))
    (VInt (bounty_units claim)) (VInt (awarded_block claim)) = Ok claim.
Proof. intros H. rewrite <- H. unfold make_bounty in H. inv_ok. by read_values. Qed.

Lemma make_policy_again h l p s v policy :
  make_policy h l p s v = Ok policy ->
  make_policy (VInt (half_life_blocks policy)) (VInt (discovery_lifetime_blocks policy))
    (VInt (discovery_pool_ppm policy)) (schema_version policy) (VStr (policy_version policy)) = Ok policy.
Proof.
  intros H. rewrite <- H. unfold make_policy in H. inv_ok. read_values.
  step_guard H. step_guard H. step_guard H. injection H as <-. cbn.
  apply negb_false_iff in Eg1. destruct v; try discriminate. by apply String.eqb_eq in Eg1 as ->.
Qed.

(** Stored reward records reopen unchanged: an accepted emissions policy, standing claim or
    discovery claim is read back from its own [to_dict] as the same record. *)
Theorem economics_reload (policy : EmissionsPolicyManifest) (standing : StandingRewardClaim)
    (bounty : DiscoveryBountyClaim) (v v' v'' : pyval) :
  policy_from_dict v = Ok policy -> standing_from_dict v' = Ok standing -> bounty_from_dict v'' = Ok bounty ->
  policy_from_dict (policy_to_dict policy) = Ok policy /\
  standing_from_dict (standing_to_dict standing) = Ok standing /\
  bounty_from_dict (bounty_to_dict bounty) = Ok bounty.
Proof.
  unfold policy_from_dict, standing_from_dict, bounty_from_dict, _strict, require_exact_fields. intros H H' H''.
  inv_ok. apply make_policy_again in H. apply make_standing_again in H'. apply make_bounty_again in H''.
  split_and!; [rewrite <- H|rewrite <- H'|rewrite <- H'']; reflexivity.
Qed.

Lemma economics_reload_witness :
  let d := string_of_bytes (repeat 97%N 64) in
  let policy := mkPolicy 10 5 250000 (VInt 1) POLICY_VERSION in
  let standing := mkStanding d "t" d d "5F" 1000001 3 d in
  let bounty := mkBounty d d "5F" 2 7 in
  policy_from_dict (policy_to_dict policy) = Ok policy /\
  standing_from_dict (standing_to_dict standing) = Ok standing /\
  bounty_from_dict (bounty_to_dict bounty) = Ok bounty.
Proof.
  intros d policy standing bounty.
  apply (economics_reload policy standing bounty (policy_to_dict policy) (standing_to_dict standing)
           (bounty_to_dict bounty)); vm_compute; reflexivity.
Defined.

(** The projection context depends on the set of metagraph members and not on the order in which
    the chain lists them, errors included. *)
Lemma make_context_order (scope validator block block_hash : pyval) (members members' : list MetagraphMember) :
  members ≡ₚ members' ->
  make_context scope validator block block_hash members = make_context scope validator block block_hash members'.
Proof.
  intros Hp. unfold make_context.
  destruct (_digest scope _) as [s|]; [simpl|done]. destruct (_hotkey validator _) as [v|]; [simpl|done].
  destruct (_integer block _ _) as [b|]; [simpl|done].
  set (hash := match block_hash with VStr _ => _ | _ => _ end). destruct hash as [h|]; [simpl|done].
  assert (Hd : forall {B} `{EqDecision B} (f : MetagraphMember -> B),
      distinct (f <$> sorted_by member_key members) = distinct (f <$> sorted_by member_key members')).
  { intros B ? f. apply bool_decide_ext. by rewrite !sorted_by_perm, Hp. }
  destruct (distinct (uid <$> sorted_by member_key members)) eqn:Hu.
  - assert (sorted_by member_key members = sorted_by member_key members') as E; [|rewrite <- E; by rewrite Hu].
    apply sorted_by_unique; [|done]. apply distinct_spec in Hu. rewrite sorted_by_perm in Hu.
    apply (NoDup_fmap_1 fst). by rewrite <- list_fmap_compose.
  - rewrite Hd in Hu. rewrite Hu. simpl. by rewrite !orb_true_r.
Qed.

Lemma make_context_order_witness :
  let d := VStr (string_of_bytes (repeat 97%N 64)) in
  let h := VStr (string_of_bytes (48 :: 120 :: repeat 97 64)%N) in
  make_context d (VStr "v") (VInt 3) h [mkMember 1 "v"; mkMember 0 "w"]
  = make_context d (VStr "v") (VInt 3) h [mkMember 0 "w"; mkMember 1 "v"].
Proof. intros d h. apply make_context_order, Permutation_swap. Defined.
