(* ===== verification/Arena.v ===== *)
(** * Arena allocation

    [cacheon/arena_allocation.py]: normalised arena settings, the append-only
    schedule with its submission-time terms, and the split of the weight vector
    over the priced submissions. *)

From Stdlib Require Import QArith Qround Lqa.
From S2P Require Import Prelude PyVal Identity Dict Pool Economics.

Open Scope Z_scope.

Definition PPM : Z := 1000000.
Definition ArenaError (m : string) : exn := Exn "ValueError" m.

(** ** Settings *)

Definition int_of (v : pyval) : option Z := match v with VInt z => Some z | _ => None end.

(** [any(type(v) is not int or v < 0 ...)] negated, with the values read. *)
Fixpoint read_weights (weights : dict pyval) : option (dict Z) :=
  match weights with
  | [] => Some []
  | (k, v) :: l => z ← int_of v; rest ← read_weights l; if z <? 0 then None else Some ((k, z) :: rest)
  end.

Definition to_fractions (d : dict Z) : dict Q := (fun kv => (kv.1, inject_Z kv.2)) <$> d.

(** [{key: scaled.get(key, 0) for key in weights}], or the settings themselves
    when they are not overcommitted. *)
Definition normalized (w : dict Z) : result (dict Z) :=
  if sum_Z w.*2 <=? PPM then Ok w
  else
    scaled ← _allocate_pool (to_fractions w) PPM;
    Ok ((fun kv => (kv.1, default 0 (dict_get kv.1 scaled))) <$> w).

Definition normalize_weights (weights : dict pyval) : result (dict Z) :=
  match read_weights weights with
  | Some ((_ :: _) as w) => normalized w
  | _ => Raise (ArenaError "arena weights must be nonnegative integer ppm")
  end.

(** ** The schedule *)

Record version := Version { v_block : Z; v_weights : dict Z; v_bonus : Z }.

Record ArenaAllocation := mkAllocation {
  activation_block : Z;
  burn_hotkey : string;
  sources : dict string;
  history : list version;
}.

(** [re.fullmatch(r"[a-z][a-z0-9_-]{0,63}", key)] *)
Definition source_tail (c : chr) : bool :=
  in_range 97 122 c || is_digit c || (ord c =? 95)%N || (ord c =? 45)%N.
Definition is_source_name (s : string) : bool :=
  match s with
  | EmptyString => false
  | String c t => in_range 97 122 c && all_chars source_tail t && (String.length t <=? 63)%nat
  end.

(** [Path(path).is_absolute()] *)
Definition is_absolute (p : string) : bool := starts_with "/" p.

Fixpoint read_sources (items : list (pyval * pyval)) : result (dict string) :=
  match items with
  | [] => Ok []
  | (VStr key, VStr path) :: items =>
      raise_if negb (is_source_name key) || negb (is_absolute path)
        with (ArenaError "allocation source name or config path is malformed");
      rest ← read_sources items; Ok ((key, path) :: rest)
  | _ :: _ => Raise (ArenaError "allocation source name or config path is malformed")
  end.

Definition read_version (activation : Z) (names : list string) (row : pyval) : result version :=
  match row with
  | VDict items =>
      raise_if negb (keys_are ["from_block"; "weights_ppm"] items
                     || keys_are ["from_block"; "weights_ppm"; "stall_bonus_ppm"] items)
        with (ArenaError "allocation history fields do not match");
      match items_get "from_block" items, items_get "weights_ppm" items with
      | Some (VInt block), Some (VDict weights) =>
          raise_if (block <? 0) || negb (keys_are names weights)
            with (ArenaError "allocation version must name every source");
          match str_items weights with
          | None => Raise (ArenaError "allocation version must name every source")
          | Some weights =>
              _ ← normalize_weights weights;
              match default (VInt PPM) (items_get "stall_bonus_ppm" items) with
              | VInt bonus =>
                  raise_if negb ((0 <=? bonus) && (bonus <=? PPM))
                           || ((block <? activation) && negb (bonus =? PPM))
                    with (ArenaError "stall bonus must be integer ppm, with full strength before activation");
                  Ok (Version block (sorted_by fst (default [] (read_weights weights))) bonus)
              | _ => Raise (ArenaError "stall bonus must be integer ppm, with full strength before activation")
              end
          end
      | _, _ => Raise (ArenaError "allocation version must name every source")
      end
  | _ => Raise (ArenaError "allocation history fields do not match")
  end.

(** [blocks == sorted(set(blocks)) and blocks[0] == 0 and activation in blocks] *)
Fixpoint strictly_increasing (l : list Z) : bool :=
  match l with
  | x :: ((y :: _) as l') => (x <? y) && strictly_increasing l'
  | _ => true
  end.

Definition blocks_ok (activation : Z) (blocks : list Z) : bool :=
  strictly_increasing blocks && (default 1 (head blocks) =? 0) && bool_decide (activation ∈ blocks).

Definition from_dict (value : pyval) : result ArenaAllocation :=
  match value with
  | VDict items =>
      raise_if negb (keys_are ["activation_block"; "burn_hotkey"; "sources"; "history"] items)
        with (ArenaError "arena allocation fields do not match");
      match items_get "activation_block" items with
      | Some (VInt activation) =>
        raise_if activation <=? 0 with (ArenaError "allocation activation block must be positive");
        match items_get "burn_hotkey" items with
        | Some (VStr burn) =>
          raise_if String.eqb burn "" || has_space burn with (ArenaError "allocation burn hotkey is malformed");
          match items_get "sources" items with
          | Some (VDict ((_ :: _) as source_items)) =>
            srcs ← read_sources source_items;
            match items_get "history" items with
            | Some (VList ((_ :: _) as versions)) =>
              rows ← map_result (read_version activation srcs.*1) versions;
              raise_if negb (blocks_ok activation (v_block <$> rows))
                with (ArenaError "allocation history needs baseline zero and ordered activation");
              Ok (mkAllocation activation burn (sorted_by fst srcs) rows)
            | _ => Raise (ArenaError "allocation history is empty")
            end
          | _ => Raise (ArenaError "allocation requires explicit sources")
          end
        | _ => Raise (ArenaError "allocation burn hotkey is malformed")
        end
      | _ => Raise (ArenaError "allocation activation block must be positive")
      end
  | _ => Raise (ArenaError "arena allocation fields do not match")
  end.

Definition ints (d : dict Z) : pyval := str_dict ((fun kv => (kv.1, VInt kv.2)) <$> d).
Definition strs (d : dict string) : pyval := str_dict ((fun kv => (kv.1, VStr kv.2)) <$> d).

Definition version_dict (v : version) : pyval :=
  str_dict ([("from_block", VInt (v_block v)); ("weights_ppm", ints (v_weights v))]
            ++ (if v_bonus v =? PPM then [] else [("stall_bonus_ppm", VInt (v_bonus v))])).

Definition to_dict (a : ArenaAllocation) : pyval :=
  str_dict [("activation_block", VInt (activation_block a)); ("burn_hotkey", VStr (burn_hotkey a));
            ("sources", strs (sources a)); ("history", VList (version_dict <$> history a))].

Definition allocation_digest (a : ArenaAllocation) : result string :=
  canonical_digest "cacheon.arena-allocation.v1" (to_dict a) 1.

(** [next(row for row in reversed(self.history) if row[0] <= submission_block)] *)
Definition _version_at (a : ArenaAllocation) (submission_block : Z) : result version :=
  raise_if submission_block <? 0 with (ArenaError "submission block is malformed");
  match find (fun row => v_block row <=? submission_block) (rev (history a)) with
  | Some row => Ok row
  | None => Raise (Exn "StopIteration" "")
  end.

Definition terms_at (a : ArenaAllocation) (submission_block : Z) : result (dict Z) :=
  row ← _version_at a submission_block; normalize_weights ((fun kv => (kv.1, VInt kv.2)) <$> v_weights row).

Definition stall_bonus_at (a : ArenaAllocation) (submission_block : Z) : result Z :=
  v_bonus <$> _version_at a submission_block.

(** ** Weights of the priced submissions *)

(** Where submissions are recorded: per-source sums of the first loop. *)
Record rates := mkRates { totals : dict Z; priced : dict Z; internal : dict Z }.

Definition read_terms (terms : dict (pyval * pyval)) (base_credits : dict pyval)
    (row : StandingFamilyCredit) : result (string * Z * Z) :=
  term ← dict_item (claim_digest row) terms;
  base ← dict_item (claim_digest row) base_credits;
  match term.1, term.2, base with
  | VStr source, VInt ppm, VInt base =>
      raise_if String.eqb source "" || negb ((0 <=? ppm) && (ppm <=? PPM)) || (base <? 0)
        with (EconomicsError "submission allocation terms are malformed");
      Ok (source, ppm, base)
  | _, _, _ => Raise (EconomicsError "submission allocation terms are malformed")
  end.

Definition price_step (terms : dict (pyval * pyval)) (base_credits : dict pyval)
    (r : rates) (row : StandingFamilyCredit) : result rates :=
  t ← read_terms terms base_credits row;
  let '(source, ppm, base) := t in
  Ok (if ppm =? 0 then r else
    mkRates (dict_add source base (totals r)) (dict_add source (ppm * base) (priced r))
            (dict_add source (ppm * credit row) (internal r))).

(** The second loop: each paid submission's request, recipient and source. *)
Record requests := mkRequests { requested : dict Q; recipients : dict string; owners : dict string }.

Definition fraction (a b : Z) : result Q :=
  raise_if b =? 0 with (Exn "ZeroDivisionError" ""); Ok (inject_Z a / inject_Z b)%Q.

Definition recipient (context : GlobalRewardProjectionContext) (row : StandingFamilyCredit) : string :=
  if decide (hotkey row ∈ eligible_hotkeys context) then hotkey row else validator_hotkey context.

Definition request_step (terms : dict (pyval * pyval)) (base_credits : dict pyval)
    (context : GlobalRewardProjectionContext) (r : rates) (q : requests) (row : StandingFamilyCredit) :
    result requests :=
  t ← read_terms terms base_credits row;
  let '(source, ppm, _) := t in
  if (ppm =? 0) || (credit row =? 0) then Ok q else
  total ← dict_item source (totals r);
  if total =? 0 then Ok q else
  priced ← dict_item source (priced r);
  pool ← fraction priced total;
  internal ← dict_item source (internal r);
  part ← fraction (ppm * credit row) internal;
  Ok (mkRequests (dict_set (claim_digest row) (pool * part)%Q (requested q))
        (dict_set (claim_digest row) (recipient context row) (recipients q))
        (dict_set (claim_digest row) source (owners q))).

(** [requested[""] = max(Fraction(0), PPM - sum(requested.values()))] *)
Definition burn_request (burn_hotkey : string) (q : requests) : requests :=
  let rest := (inject_Z PPM - sum_Q (requested q).*2)%Q in
  mkRequests (dict_set "" (if Qle_bool rest 0 then 0%Q else rest) (requested q))
    (dict_set "" burn_hotkey (recipients q)) (owners q).

Definition hotkey_step (q : requests) (by_hotkey : dict Q) (kv : string * Q) : result (dict Q) :=
  hotkey ← dict_item kv.1 (recipients q);
  Ok (dict_set hotkey (default 0%Q (dict_get hotkey by_hotkey) + kv.2)%Q by_hotkey).

(** The last loop: what each share of the vector pays. *)
Record outcome := mkOutcome {
  arena_shares : dict Z; rewarded : list string; burned : Z; submission_weights : option (dict Z) }.

Definition pay_step (q : requests) (o : outcome) (kv : string * Z) : result outcome :=
  let '(key, ppm) := kv in
  if String.eqb key "" then
    Ok (mkOutcome (arena_shares o) (rewarded o) (burned o + ppm) (submission_weights o))
  else
    source ← dict_item key (owners q);
    Ok (mkOutcome (dict_add source ppm (arena_shares o))
          (if ppm =? 0 then rewarded o else rewarded o ++ [key]) (burned o)
          (dict_set key ppm <$> submission_weights o)).

Definition parts_of (q : requests) (hotkey : string) : dict Q :=
  filter (fun kv => dict_get kv.1 (recipients q) = Some hotkey) (requested q).

Definition pay_hotkey (q : requests) (o : outcome) (hw : string * Z) : result outcome :=
  shares ← _allocate_pool (parts_of q hw.1) hw.2;
  fold_result (pay_step q) shares o.

Definition from_keys {V} (terms : dict V) : dict Z -> dict Z :=
  fun d => foldl (fun d kv => dict_set kv.1 0 d) d terms.

Definition settle (context : GlobalRewardProjectionContext) (burn_hotkey : string) (q : requests)
    (attribution : option (dict Z)) : result (dict Z * outcome) :=
  let q := burn_request burn_hotkey q in
  by_hotkey ← fold_result (hotkey_step q) (requested q) [];
  weights ← _allocate_pool by_hotkey PPM;
  o ← fold_result (pay_hotkey q) weights (mkOutcome [] [] 0 attribution);
  Ok (weights, mkOutcome (arena_shares o) (sorted_id (rewarded o)) (burned o) (submission_weights o)).

Definition allocate_submission_weights (credits : list StandingFamilyCredit)
    (terms : dict (pyval * pyval)) (context : GlobalRewardProjectionContext) (burn_hotkey : string)
    (base_credits : dict pyval) (attribution : option (dict Z)) : result (dict Z * outcome) :=
  raise_if negb (bool_decide (list_to_set terms.*1 =@{gset string} list_to_set (claim_digest <$> credits)))
           || negb (bool_decide (list_to_set base_credits.*1 =@{gset string} list_to_set terms.*1))
           || negb (bool_decide (burn_hotkey ∈ eligible_hotkeys context))
    with (EconomicsError "allocation terms or burn registration are incomplete");
  r ← fold_result (price_step terms base_credits) credits (mkRates [] [] []);
  q ← fold_result (request_step terms base_credits context r) credits (mkRequests [] [] []);
  settle context burn_hotkey q (from_keys terms <$> attribution).

(** ** Normalised settings *)

Lemma read_weights_spec weights w :
  read_weights weights = Some w ->
  weights = (fun kv => (kv.1, VInt kv.2)) <$> w /\ (forall k z, (k, z) ∈ w -> 0 <= z).
Proof.
  revert w. induction weights as [|[k v] weights IH]; intros w H; simpl in H.
  { injection H as <-. split; [done|]. intros ?? ?%elem_of_nil. done. }
  destruct v; try done. simpl in H. destruct (read_weights weights) as [w'|]; [|done]. simpl in H.
  destruct (z <? 0) eqn:Ez; [done|]. injection H as <-. destruct (IH w' eq_refl) as [-> Hn].
  split; [done|]. intros k' z' [[= -> ->]|Hin]%elem_of_cons; [lia|eauto].
Qed.

Lemma read_weights_ints w :
  (forall k z, (k, z) ∈ w -> 0 <= z) -> read_weights ((fun kv => (kv.1, VInt kv.2)) <$> w) = Some w.
Proof.
  induction w as [|[k z] w IH]; intros H; simpl; [done|]. refold_fmap.
  rewrite IH by (intros; eapply H; by right). simpl.
  assert (0 <= z) by (eapply H; by left). destruct (Z.ltb_spec z 0); [lia|done].
Qed.

Lemma sum_Z_pos (w : dict Z) : 0 < sum_Z w.*2 -> exists k z, (k, z) ∈ w /\ 0 < z.
Proof.
  unfold sum_Z. induction w as [|[k z] w IH]; simpl; [lia|]. refold_fmap. intros H.
  destruct (decide (0 < z)); [exists k, z; split; [by left|done]|].
  destruct IH as (k' & z' & ? & ?); [lia|]. exists k', z'. split; [by right|done].
Qed.

Lemma to_fractions_keys w : (to_fractions w).*1 = w.*1.
Proof. unfold to_fractions. by rewrite <- list_fmap_compose. Qed.

Lemma normalized_total w : exists n, normalized w = Ok n.
Proof.
  unfold normalized. destruct (Z.leb_spec (sum_Z w.*2) PPM) as [|Hs]; [eauto|].
  destruct (sum_Z_pos w) as (k & z & Hin & Hz); [unfold PPM in *; lia|].
  destruct (allocate_pool_total (to_fractions w) PPM k (inject_Z z)) as [n ->]; [| |by eauto].
  - unfold to_fractions. apply list_elem_of_fmap. by exists (k, z).
  - change 0%Q with (inject_Z 0). by rewrite <- Zlt_Qlt.
Qed.

Lemma normalized_spec w n :
  NoDup w.*1 -> (forall k z, (k, z) ∈ w -> 0 <= z) -> normalized w = Ok n ->
  n.*1 = w.*1 /\ sum_Z n.*2 = Z.min (sum_Z w.*2) PPM /\ (forall k z, (k, z) ∈ n -> 0 <= z).
Proof.
  intros Hnd Hn. unfold normalized. destruct (Z.leb_spec (sum_Z w.*2) PPM) as [|Hs].
  { intros [= <-]. split_and!; [done|lia|done]. }
  intros (scaled & Hsc & [= <-])%bind_Ok. rewrite <- !list_fmap_compose. split_and!.
  - done.
  - rewrite Z.min_r by lia.
    transitivity (sum_Z ((fun k => default 0 (dict_get k scaled)) <$> w.*1));
      [by rewrite <- list_fmap_compose|]. rewrite sum_dict_get; [|done|..].
    + eapply allocate_pool_sum; [|exact Hsc]. by rewrite to_fractions_keys.
    + rewrite (allocate_pool_keys _ _ _ Hsc), sorted_by_perm. apply positive_keys. by rewrite to_fractions_keys.
    + intros k. rewrite (allocate_pool_keys _ _ _ Hsc), sorted_by_perm.
      intros ([k' c] & -> & [_ H]%list_elem_of_filter)%list_elem_of_fmap.
      rewrite <- to_fractions_keys. apply list_elem_of_fmap. eauto.
  - intros k z (kv & [= -> ->] & Hkv)%list_elem_of_fmap.
    destruct (dict_get kv.1 scaled) as [s|] eqn:E; [|done]. simpl.
    apply dict_get_elem in E. eapply allocate_pool_nonneg; [|exact Hsc|exact E]. done.
Qed.

(** Normalisation accepts exactly the non-empty maps of non-negative integers; it keeps the
    sources, changes nothing that fits in a million, and scales an overcommitted setting to a million
    exactly. *)
Theorem normalize_weights_spec (weights : dict pyval) :
  NoDup weights.*1 ->
  match normalize_weights weights with
  | Ok n => exists w, weights = (fun kv => (kv.1, VInt kv.2)) <$> w /\ n.*1 = w.*1 /\
      (forall k z, (k, z) ∈ n -> 0 <= z) /\ sum_Z n.*2 = Z.min (sum_Z w.*2) PPM /\
      (sum_Z w.*2 <= PPM -> n = w)
  | Raise _ => weights = [] \/ exists k v, (k, v) ∈ weights /\ forall z, 0 <= z -> v <> VInt z
  end.
Proof.
  intros Hnd. unfold normalize_weights. destruct (read_weights weights) as [[|kz w]|] eqn:E.
  - left. by apply read_weights_spec in E as [-> _].
  - apply read_weights_spec in E as [-> Hn]. set (w' := kz :: w) in *.
    destruct (normalized_total w') as [n En]. rewrite En. exists w'.
    destruct (normalized_spec w' n) as (? & ? & ?); [by rewrite <- list_fmap_compose in Hnd|done|done|].
    split_and!; try done. intros Hs. unfold normalized in En.
    destruct (Z.leb_spec (sum_Z w'.*2) PPM); [congruence|lia].
  - right. clear Hnd. induction weights as [|[k v] weights IH]; [done|]. simpl in E.
    destruct (int_of v) as [z|] eqn:Ez; simpl in E.
    + destruct (read_weights weights); simpl in E.
      * exists k, v. split; [by left|]. intros z' Hz' ->. injection Ez as ->.
        destruct (Z.ltb_spec z 0); [lia|done].
      * destruct IH as (k' & v' & ? & ?); [done|]. exists k', v'. split; [by right|done].
    + exists k, v. split; [by left|]. intros z' _ ->. done.
Qed.

Lemma normalize_weights_spec_witness :
  let weights := [("b", VInt 800000); ("a", VInt 700000)] in
  normalize_weights weights = Ok [("b", 533333); ("a", 466667)] /\
  exists w, weights = (fun kv => (kv.1, VInt kv.2)) <$> w /\
    ([("b", 533333); ("a", 466667)] : dict Z).*1 = w.*1 /\
    (forall k z, (k, z) ∈ ([("b", 533333); ("a", 466667)] : dict Z) -> 0 <= z) /\
    sum_Z ([("b", 533333); ("a", 466667)] : dict Z).*2 = Z.min (sum_Z w.*2) PPM /\
    (sum_Z w.*2 <= PPM -> [("b", 533333); ("a", 466667)] = w).
Proof.
  intros weights. split; [vm_compute; reflexivity|].
  assert (Hn : NoDup weights.*1) by (by apply distinct_spec).
  exact (normalize_weights_spec weights Hn).
Defined.

(** ** Reading and reloading a schedule *)

Lemma normalize_weights_is_ok weights w :
  read_weights weights = Some w -> w <> [] -> exists n, normalize_weights weights = Ok n.
Proof.
  intros E Hw. unfold normalize_weights. rewrite E. destruct w; [done|]. apply normalized_total.
Qed.

Definition ints_items (d : dict Z) : list (string * pyval) := (fun kv => (kv.1, VInt kv.2)) <$> d.

Lemma ints_items_keys d : (ints_items d).*1 = d.*1.
Proof. unfold ints_items. by rewrite <- list_fmap_compose. Qed.

(** What [read_version] checked of the row it returns. *)
Definition version_ok (activation : Z) (names : list string) (v : version) : Prop :=
  0 <= v_block v /\ (forall k, k ∈ (v_weights v).*1 <-> k ∈ names) /\
  (forall k z, (k, z) ∈ v_weights v -> 0 <= z) /\ v_weights v <> [] /\
  sorted_by fst (v_weights v) = v_weights v /\
  (0 <= v_bonus v <= PPM) /\ (v_block v < activation -> v_bonus v = PPM).

Lemma read_version_ok activation names row v :
  read_version activation names row = Ok v -> version_ok activation names v.
Proof.
  unfold read_version. destruct row as [| | | | | | |items|]; try done. intros H. step_guard H.
  destruct (items_get "from_block" items) as [[| |block| | | | | |]|]; try done.
  destruct (items_get "weights_ppm" items) as [[| | | | | | |weights|]|]; try done. step_guard H.
  destruct (str_items weights) as [ws|] eqn:Ews; [|done]. inv_ok. apply str_items_spec in Ews as ->.
  apply orb_false_iff in Eg0 as [Hb Hk]. apply negb_false_iff in Hk.
  pose proof (proj1 (keys_are_str_dict names ws) Hk) as Hks. clear Hk.
  destruct (default _ _) as [| |bonus| | | | | |]; try done. step_guard H. injection H as <-. split_bool.
  unfold normalize_weights in Hx. destruct (read_weights ws) as [[|kz w]|] eqn:Er; try done.
  apply read_weights_spec in Er as [-> Hn]. cbn [default v_block v_weights v_bonus].
  unfold version_ok. cbn [default v_block v_weights v_bonus].
  fold (ints_items (kz :: w)) in Hks. rewrite ints_items_keys in Hks.
  split_and!; try lia.
  - intros k. rewrite sorted_by_perm. apply Hks.
  - intros k z. rewrite sorted_by_perm. apply Hn.
  - intros E. apply (f_equal length) in E. by rewrite sorted_by_length in E.
  - apply sorted_by_idemp.
Qed.

Lemma read_version_again activation names v :
  version_ok activation names v -> read_version activation names (version_dict v) = Ok v.
Proof.
  intros (Hb & Hk & Hn & Hne & Hs & Hbo & Hact). destruct v as [block weights bonus]. cbn [v_block v_weights v_bonus] in *.
  unfold read_version, version_dict, str_dict. cbn [v_block v_weights v_bonus].
  set (items := (fun kv : string * pyval => (VStr kv.1, kv.2)) <$> _).
  assert (Hkeys : keys_are ["from_block"; "weights_ppm"] items
     || keys_are ["from_block"; "weights_ppm"; "stall_bonus_ppm"] items = true).
  { unfold items. apply orb_true_iff. rewrite !keys_are_str_dict. destruct (bonus =? PPM); [left|right]; simpl; set_solver. }
  rewrite Hkeys. cbn [negb]. change (items_get "from_block" items) with (Some (VInt block)).
  change (items_get "weights_ppm" items)
    with (Some (VDict ((fun kv => (VStr kv.1, kv.2)) <$> ints_items weights))). cbv iota beta.
  assert (Hkn : keys_are names ((fun kv => (VStr kv.1, kv.2)) <$> ints_items weights) = true)
    by (apply keys_are_str_dict; by rewrite ints_items_keys).
  rewrite Hkn. replace (block <? 0) with false by lia. cbn [orb negb].
  rewrite str_items_str_dict. pose proof (read_weights_ints weights Hn) as Hr.
  destruct (normalize_weights_is_ok (ints_items weights) weights Hr Hne) as [n ->].
  fold (ints_items weights) in Hr. rewrite Hr. change (default [] (Some weights)) with weights. rewrite Hs.
  assert (Hd : default (VInt PPM) (items_get "stall_bonus_ppm" items) = VInt bonus).
  { unfold items. rewrite items_get_str_dict. destruct (Z.eqb_spec bonus PPM) as [->|]; done. }
  cbn [mbind result_bind]. rewrite Hd. replace ((0 <=? bonus) && (bonus <=? PPM)) with true by lia. cbn [negb orb].
  destruct (Z.ltb_spec block activation) as [Hlt|]; [|done]. rewrite (Hact Hlt). done.
Qed.

Definition source_ok (kp : string * string) : bool := is_source_name kp.1 && is_absolute kp.2.

Definition strs_items (d : dict string) : list (string * pyval) := (fun kv => (kv.1, VStr kv.2)) <$> d.

Lemma read_sources_ok items srcs :
  read_sources items = Ok srcs ->
  items = (fun kv => (VStr kv.1, kv.2)) <$> strs_items srcs /\ forallb source_ok srcs = true.
Proof.
  revert srcs. induction items as [|[k p] items IH]; intros srcs H; simpl in H; [by injection H as <-|].
  destruct k as [| | | |key| | | |]; try done. destruct p as [| | | |path| | | |]; try done.
  step_guard H. inv_ok. destruct (IH _ Hx) as [-> Hf]. split; [done|]. simpl. rewrite Hf.
  unfold source_ok. cbn [fst snd]. apply orb_false_iff in Eg as [H1%negb_false_iff H2%negb_false_iff].
  by rewrite H1, H2.
Qed.

Lemma read_sources_again srcs :
  forallb source_ok srcs = true ->
  read_sources ((fun kv => (VStr kv.1, kv.2)) <$> strs_items srcs) = Ok srcs.
Proof.
  induction srcs as [|[k p] srcs IH]; simpl; [done|]. intros [Hs Hf]%andb_true_iff. refold_fmap.
  unfold source_ok in Hs. cbn [fst snd] in Hs. apply andb_true_iff in Hs as [-> ->]. simpl. refold_fmap.
  fold (strs_items srcs). by rewrite (IH Hf).
Qed.

Lemma forallb_perm {A} (f : A -> bool) l k : l ≡ₚ k -> forallb f l = forallb f k.
Proof. intros Hp. apply eq_true_iff_eq. rewrite !forallb_forall. setoid_rewrite <- list_elem_of_In. by setoid_rewrite Hp. Qed.

(** What [from_dict] checked of the schedule it returns. *)
Record allocation_ok (a : ArenaAllocation) : Prop := {
  ok_activation : 0 < activation_block a;
  ok_burn : String.eqb (burn_hotkey a) "" || has_space (burn_hotkey a) = false;
  ok_sources : forallb source_ok (sources a) = true /\ sources a <> [] /\ sorted_by fst (sources a) = sources a;
  ok_history : history a <> [] /\ Forall (version_ok (activation_block a) (sources a).*1) (history a);
  ok_blocks : blocks_ok (activation_block a) (v_block <$> history a) = true;
}.

Lemma version_ok_names activation names names' v :
  (forall k, k ∈ names <-> k ∈ names') -> version_ok activation names v -> version_ok activation names' v.
Proof. intros Hn (? & Hk & ?). split; [done|]. split; [|done]. intros k. by rewrite Hk. Qed.

Lemma from_dict_ok v a : from_dict v = Ok a -> allocation_ok a.
Proof.
  unfold from_dict. destruct v as [| | | | | | |items|]; try done. intros H. step_guard H.
  destruct (items_get "activation_block" items) as [[| |act| | | | | |]|]; try done. step_guard H.
  destruct (items_get "burn_hotkey" items) as [[| | | |burn| | | |]|]; try done. step_guard H.
  destruct (items_get "sources" items) as [[| | | | | | |[|si sis]|]|]; try done. inv_ok.
  destruct (items_get "history" items) as [[| | | | |[|v vs]| | |]|]; try done. inv_ok. step_guard H.
  injection H as <-. apply read_sources_ok in Hx as [Hs Hf]. apply map_result_Forall2 in Hx0.
  assert (Hne : x <> []) by (by intros ->).
  split; cbn [activation_block burn_hotkey sources history]; [lia|done| | |].
  - split_and!; [by rewrite (forallb_perm _ _ x) by apply sorted_by_perm| |apply sorted_by_idemp].
    intros E. apply (f_equal length) in E. rewrite sorted_by_length in E. by destruct x.
  - split; [by inversion Hx0|]. clear -Hx0. induction Hx0 as [|row w rows ws Hrow _ IH]; constructor; [|done].
    eapply version_ok_names; [|by eapply read_version_ok]. intros k. by rewrite sorted_by_perm.
  - by apply negb_false_iff in Eg2.
Qed.

Lemma from_dict_again a : allocation_ok a -> from_dict (to_dict a) = Ok a.
Proof.
  intros [Ha Hb (Hs & Hne & Hso) (Hh & Hv) Hbl]. destruct a as [act burn srcs hist].
  cbn [activation_block burn_hotkey sources history] in *. unfold from_dict, to_dict, str_dict.
  cbn [activation_block burn_hotkey sources history].
  set (items := (fun kv : string * pyval => (VStr kv.1, kv.2)) <$> _).
  change (keys_are _ items) with true. cbn [negb].
  change (items_get "activation_block" items) with (Some (VInt act)).
  change (items_get "burn_hotkey" items) with (Some (VStr burn)).
  change (items_get "sources" items) with (Some (VDict ((fun kv => (VStr kv.1, kv.2)) <$> strs_items srcs))).
  change (items_get "history" items) with (Some (VList (version_dict <$> hist))). cbv iota beta.
  replace (act <=? 0) with false by lia. rewrite Hb. pose proof (read_sources_again srcs Hs) as Hr.
  destruct ((fun kv => (VStr kv.1, kv.2)) <$> strs_items srcs) as [|si sis] eqn:Esi; [by destruct srcs|].
  rewrite Hr. cbn [mbind result_bind].
  assert (Hm : map_result (read_version act srcs.*1) (version_dict <$> hist) = Ok hist).
  { apply map_result_Forall2. clear -Hv. induction Hv; constructor; [by apply read_version_again|done]. }
  destruct (version_dict <$> hist) as [|w ws] eqn:Ew; [by destruct hist|].
  rewrite Hm. cbn [mbind result_bind]. rewrite Hbl, Hso. done.
Qed.

(** An accepted schedule is read back from its own [to_dict] as the same schedule. *)
Theorem allocation_roundtrip (v : pyval) (a : ArenaAllocation) :
  from_dict v = Ok a -> from_dict (to_dict a) = Ok a.
Proof. intros H. by eapply from_dict_again, from_dict_ok. Qed.

Definition example_allocation : ArenaAllocation :=
  mkAllocation 100 "5Burn" [("alpha", "/etc/a"); ("beta", "/etc/b")]
    [Version 0 [("alpha", 700000); ("beta", 700000)] PPM; Version 100 [("alpha", 200000); ("beta", 0)] 500000].

Lemma allocation_roundtrip_witness :
  from_dict (to_dict example_allocation) = Ok example_allocation.
Proof. apply (allocation_roundtrip (to_dict example_allocation)). vm_compute. reflexivity. Defined.

(** ** Terms at a submission block *)

Lemma strictly_increasing_sorted l : strictly_increasing l = true -> StronglySorted Z.lt l.
Proof.
  induction l as [|x [|y l] IH]; intros H; [constructor|repeat constructor|].
  simpl in H. apply andb_true_iff in H as [Hxy H]. specialize (IH H). constructor; [done|].
  inversion IH as [|?? Hs Hy]; subst. constructor; [lia|]. eapply Forall_impl; [exact Hy|]. simpl. lia.
Qed.

Lemma find_app {A} (f : A -> bool) l k :
  find f (l ++ k) = match find f l with Some x => Some x | None => find f k end.
Proof. induction l as [|x l IH]; simpl; [done|]. by destruct (f x). Qed.

(** The version in force is the last one whose block is not later. *)
Lemma version_at_spec a b v :
  blocks_ok (activation_block a) (v_block <$> history a) = true -> _version_at a b = Ok v ->
  v ∈ history a /\ v_block v <= b /\ forall w, w ∈ history a -> v_block w <= b -> v_block w <= v_block v.
Proof.
  unfold blocks_ok. intros Hok. apply andb_true_iff in Hok as [Hok _]. apply andb_true_iff in Hok as [Hs _].
  apply strictly_increasing_sorted in Hs. unfold _version_at. intros H. step_guard H. clear Eg.
  induction (history a) as [|w ws IH]; [done|]. simpl in H. rewrite find_app in H.
  rewrite fmap_cons in Hs. inversion Hs as [|?? Hws Hw]; subst. rewrite Forall_fmap, Forall_forall in Hw.
  destruct (find _ (rev ws)) as [u|] eqn:Ef.
  - destruct IH as (Hin & Hle & Hmax); [done..|]. split_and!; [by right|done|].
    intros w' [->|Hw']%elem_of_cons ?; [|by apply Hmax]. specialize (Hw _ Hin). simpl in Hw. lia.
  - simpl in H. destruct (Z.leb_spec (v_block w) b); [|done]. injection H as <-.
    split_and!; [by left|done|]. intros w' [->|Hw']%elem_of_cons Hb; [lia|]. exfalso.
    eapply find_none in Ef; [|rewrite <- in_rev; by apply list_elem_of_In]. simpl in Ef. lia.
Qed.

(** An accepted schedule has a version in force at every block. *)
Lemma version_at_total a b :
  allocation_ok a -> 0 <= b -> exists v, _version_at a b = Ok v /\ v ∈ history a.
Proof.
  intros [_ _ _ [Hne Hv] Hb] Hpos. unfold _version_at. replace (b <? 0) with false by lia.
  unfold blocks_ok in Hb. apply andb_true_iff in Hb as [Hb _]. apply andb_true_iff in Hb as [_ Hz].
  destruct (history a) as [|v0 vs]; [done|]. simpl in Hz.
  destruct (find _ (rev (v0 :: vs))) as [v|] eqn:Ef.
  - exists v. split; [done|]. apply find_some in Ef as [Hin _]. apply list_elem_of_In. by apply in_rev.
  - exfalso. eapply find_none in Ef; [|rewrite <- in_rev; by left]. simpl in Ef. lia.
Qed.

(** The terms of a submission are frozen at its finalized block: an accepted schedule has terms at
    every block, which name exactly the sources and never exceed a million in total, and appending
    versions that start later changes neither them nor the stall bonus. (The keys of the weights of a
    version are those of a dict, so distinct.) *)
Theorem terms_frozen (v v' : pyval) (a a' : ArenaAllocation) (new : list version) (b : Z) :
  from_dict v = Ok a -> from_dict v' = Ok a' -> history a' = history a ++ new ->
  0 <= b -> (forall w, w ∈ new -> b < v_block w) -> (forall w, w ∈ history a -> NoDup (v_weights w).*1) ->
  exists terms bonus, terms_at a b = Ok terms /\ terms_at a' b = Ok terms /\
    stall_bonus_at a b = Ok bonus /\ stall_bonus_at a' b = Ok bonus /\
    (forall k, k ∈ terms.*1 <-> k ∈ (sources a).*1) /\
    sum_Z terms.*2 <= PPM /\ (forall k z, (k, z) ∈ terms -> 0 <= z) /\ 0 <= bonus <= PPM.
Proof.
  intros H%from_dict_ok H'%from_dict_ok Eh Hb Hnew Hnd.
  assert (Esame : _version_at a' b = _version_at a b).
  { unfold _version_at. rewrite Eh, rev_app_distr, find_app.
    destruct (find _ (rev new)) as [w|] eqn:Ef; [|done]. exfalso.
    apply find_some in Ef as [Hin Hw]. apply in_rev, list_elem_of_In, Hnew in Hin. lia. }
  destruct (version_at_total a b H Hb) as (row & Er & Hrow). unfold terms_at, stall_bonus_at.
  rewrite Esame, Er. cbn [mbind result_bind fmap result_fmap].
  destruct H as [_ _ _ [_ Hv] _]. rewrite Forall_forall in Hv.
  destruct (Hv row Hrow) as (_ & Hk & Hn & Hne & _ & Hbo & _).
  unfold normalize_weights. rewrite (read_weights_ints _ Hn).
  destruct (normalized_total (v_weights row)) as [terms Et].
  destruct (normalized_spec _ _ (Hnd row Hrow) Hn Et) as (Ek & Es & Hpos).
  exists terms, (v_bonus row). destruct (v_weights row) as [|kz w]; [done|].
  split_and!; try done; try lia. intros k. rewrite Ek. apply Hk.
Qed.

Lemma terms_frozen_witness :
  let a := example_allocation in
  let a' := mkAllocation (activation_block a) (burn_hotkey a) (sources a)
              (history a ++ [Version 200 [("alpha", 0); ("beta", 0)] PPM]) in
  exists terms bonus, terms_at a 150 = Ok terms /\ terms_at a' 150 = Ok terms /\
    stall_bonus_at a 150 = Ok bonus /\ stall_bonus_at a' 150 = Ok bonus /\
    (forall k, k ∈ terms.*1 <-> k ∈ (sources a).*1) /\
    sum_Z terms.*2 <= PPM /\ (forall k z, (k, z) ∈ terms -> 0 <= z) /\ 0 <= bonus <= PPM.
Proof.
  intros a a'.
  apply (terms_frozen (to_dict a) (to_dict a') a a' [Version 200 [("alpha", 0); ("beta", 0)] PPM] 150);
    [vm_compute; reflexivity|vm_compute; reflexivity|reflexivity|lia|..].
  - intros w ->%list_elem_of_singleton. simpl. lia.
  - intros w Hw. simpl in Hw. apply distinct_spec. repeat (apply elem_of_cons in Hw as [->|Hw]; [reflexivity|]).
    by apply elem_of_nil in Hw.
Defined.

(** ** The weight vector *)

Section Weights.
Context (terms : dict (pyval * pyval)) (base_credits : dict pyval) (context : GlobalRewardProjectionContext).

Definition nonneg_dict (d : dict Z) : Prop := forall k, 0 <= default 0 (dict_get k d).

Lemma nonneg_dict_add k v d : 0 <= v -> nonneg_dict d -> nonneg_dict (dict_add k v d).
Proof.
  intros Hv Hd k'. unfold dict_add. rewrite dict_get_set.
  destruct (String.eqb_spec k k') as [->|]; [|apply Hd]. simpl. specialize (Hd k'). lia.
Qed.

Lemma dict_add_covers s v d k x :
  0 <= v -> (exists y, dict_get k d = Some y /\ x <= y) -> exists y, dict_get k (dict_add s v d) = Some y /\ x <= y.
Proof.
  intros Hv (y & Hy & Hxy). unfold dict_add. rewrite dict_get_set.
  destruct (String.eqb_spec s k) as [->|]; [|eauto]. rewrite Hy. simpl. exists (y + v). split; [done|lia].
Qed.

Lemma dict_add_self s v d : nonneg_dict d -> exists y, dict_get s (dict_add s v d) = Some y /\ v <= y.
Proof.
  intros Hd. unfold dict_add. rewrite dict_get_set, String.eqb_refl. eexists; split; [done|]. specialize (Hd s). lia.
Qed.

(** The sums of the first loop are at least each priced row's part. *)
Definition nonneg_rates (r : rates) : Prop :=
  nonneg_dict (totals r) /\ nonneg_dict (priced r) /\ nonneg_dict (internal r).

Definition covered (r : rates) (row : StandingFamilyCredit) : Prop :=
  forall s ppm base, read_terms terms base_credits row = Ok (s, ppm, base) -> ppm <> 0 ->
    (exists t, dict_get s (totals r) = Some t /\ 0 <= t) /\
    (exists p, dict_get s (priced r) = Some p /\ 0 <= p) /\
    (exists i, dict_get s (internal r) = Some i /\ ppm * credit row <= i).

Definition row_ok (row : StandingFamilyCredit) : Prop :=
  0 <= credit row /\ is_ok (read_terms terms base_credits row) = true.

Lemma read_terms_bounds row s ppm base :
  read_terms terms base_credits row = Ok (s, ppm, base) -> 0 <= ppm <= PPM /\ 0 <= base.
Proof.
  unfold read_terms. intros H. inv_ok. destruct (x.1); try done. destruct (x.2); try done.
  destruct x0; try done. step_guard H. injection H as <- <- <-. split_bool. lia.
Qed.

Lemma price_step_ok r row :
  row_ok row -> nonneg_rates r ->
  exists r', price_step terms base_credits r row = Ok r' /\ nonneg_rates r' /\ covered r' row /\
    forall row', 0 <= credit row' -> covered r row' -> covered r' row'.
Proof.
  intros [Hc Hr] (Ht & Hp & Hi). unfold price_step, covered.
  destruct (read_terms terms base_credits row) as [[[s ppm] base]|] eqn:E; [|done].
  cbn [mbind result_bind]. apply read_terms_bounds in E as B.
  destruct (Z.eqb_spec ppm 0) as [->|Hne]; eexists; (split; [done|]).
  { split; [done|]. split; [|by auto]. intros ??? [= <- <- <-]. done. }
  assert (0 <= ppm * base) by nia. assert (0 <= ppm * credit row) by nia.
  unfold nonneg_rates. cbn [totals priced internal]. split; [split_and!; apply nonneg_dict_add; by try lia|].
  split.
  - intros ??? [= <- <- <-] _. split_and!.
    + destruct (dict_add_self s base (totals r)) as (t & ? & ?); [done|]. exists t. split; [done|lia].
    + destruct (dict_add_self s (ppm * base) (priced r)) as (p & ? & ?); [done|]. exists p. split; [done|lia].
    + by apply dict_add_self.
  - intros row' Hc' Hcov s' ppm' base' E' Hne'. destruct (Hcov _ _ _ E' Hne') as (? & ? & ?).
    split_and!; by apply dict_add_covers; try lia.
Qed.

Lemma price_fold_ok rows r :
  Forall row_ok rows -> nonneg_rates r ->
  exists r', fold_result (price_step terms base_credits) rows r = Ok r' /\
    (forall row', 0 <= credit row' -> covered r row' -> covered r' row') /\ Forall (covered r') rows.
Proof.
  intros Hrows. revert r. induction Hrows as [|row rows Hrow Hrows IH]; intros r Hr; simpl; [eauto|].
  destruct (price_step_ok r row Hrow Hr) as (r1 & E1 & Hr1 & Hcov1 & Hmono1). rewrite E1. cbn [mbind result_bind].
  destruct (IH r1 Hr1) as (r' & E' & Hmono & Hall). exists r'. split; [done|]. split; [by auto|].
  constructor; [|done]. apply Hmono; [apply Hrow|done].
Qed.

(** Weight goes to registered hotkeys, or to the validator in place of one that left. *)
Definition payee (h : string) : Prop := h ∈ eligible_hotkeys context \/ h = validator_hotkey context.

Lemma recipient_payee row : payee (recipient context row).
Proof. unfold payee, recipient. case_decide; auto. Qed.

(** The requests name a recipient and a source for every key. *)
Definition requests_ok (q : requests) : Prop :=
  NoDup (requested q).*1 /\ forall k, k ∈ (requested q).*1 ->
    (exists h, dict_get k (recipients q) = Some h /\ payee h) /\
    (k <> "" -> exists s, dict_get k (owners q) = Some s).

Lemma requests_ok_set q k x h o :
  requests_ok q -> payee h -> (k <> "" -> exists s, dict_get k o = Some s) ->
  (forall k', k' <> k -> dict_get k' o = dict_get k' (owners q)) ->
  requests_ok (mkRequests (dict_set k x (requested q)) (dict_set k h (recipients q)) o).
Proof.
  intros [Hnd Hq] Hh Ho Ho'. split; cbn [requested recipients owners]; [by apply dict_set_NoDup|].
  intros k' Hk'. apply dict_set_keys in Hk'. rewrite dict_get_set.
  destruct (String.eqb_spec k k') as [->|Hne]; [by eauto|].
  destruct Hk' as [->|Hk']; [done|]. destruct (Hq _ Hk') as [? ?]. rewrite Ho' by done. auto.
Qed.

Lemma request_step_ok r q row :
  row_ok row -> covered r row -> requests_ok q ->
  exists q', request_step terms base_credits context r q row = Ok q' /\ requests_ok q'.
Proof.
  intros [Hc Hr] Hcov [Hnd Hq]. unfold request_step.
  destruct (read_terms terms base_credits row) as [[[s ppm] base]|] eqn:E; [|done].
  cbn [mbind result_bind]. apply read_terms_bounds in E as B.
  destruct (Z.eqb_spec ppm 0) as [->|Hne]; [by exists q|]. destruct (Z.eqb_spec (credit row) 0) as [|Hcne]; [by exists q|].
  cbn [orb]. destruct (Hcov _ _ _ E Hne) as ((t & Et & Ht) & (p & Ep & Hp) & (i & Ei & Hi)).
  unfold dict_item. rewrite Et, Ep, Ei. cbn [mbind result_bind].
  destruct (Z.eqb_spec t 0) as [|Htne]; [by exists q|]. unfold fraction.
  assert (0 < ppm * credit row) by nia.
  replace (t =? 0) with false by lia. replace (i =? 0) with false by lia. cbn [mbind result_bind].
  eexists. split; [done|]. apply requests_ok_set; [done|apply recipient_payee|..].
  - intros _. rewrite dict_get_set, String.eqb_refl. eauto.
  - intros k Hk. rewrite dict_get_set. by destruct (String.eqb_spec (claim_digest row) k).
Qed.

Lemma request_fold_ok r rows q :
  Forall row_ok rows -> Forall (covered r) rows -> requests_ok q ->
  exists q', fold_result (request_step terms base_credits context r) rows q = Ok q' /\ requests_ok q'.
Proof.
  intros Hrows. revert q. induction Hrows as [|row rows Hrow Hrows IH]; intros q Hcov Hq; simpl; [eauto|].
  inversion Hcov; subst. destruct (request_step_ok r q row) as (q1 & -> & Hq1); [done..|]. by apply IH.
Qed.
(** No request is made under the empty key. *)
Lemma request_fold_keys r rows q q' :
  fold_result (request_step terms base_credits context r) rows q = Ok q' ->
  (forall k, k ∈ (requested q).*1 -> k <> "") -> (forall row, row ∈ rows -> claim_digest row <> "") ->
  forall k, k ∈ (requested q').*1 -> k <> "".
Proof.
  intros Hf Hq Hrows. refine (fold_result_invariant (fun q => forall k, k ∈ (requested q).*1 -> k <> "") _ _ _ _ _ Hq Hf).
  clear q q' Hq Hf. intros q row q' Hrow Hq Hs k Hk. unfold request_step in Hs. inv_ok. destruct x as [[s ppm] base].
  destruct (_ || _); [injection Hs as <-; by apply Hq|]. inv_ok. destruct (_ =? 0); [injection Hs as <-; by apply Hq|].
  inv_ok. cbn [requested] in Hk. apply dict_set_keys in Hk as [->|Hk]; [by apply Hrows|by apply Hq].
Qed.

Lemma sum_raw_dict_set k (v : Q) d :
  (sum_raw (dict_set k v d).*2 == sum_raw d.*2 - default 0 (dict_get k d) + v)%Q.
Proof.
  unfold dict_get. induction d as [|[k' v'] d IH]; simpl.
  - unfold sum_raw. simpl. ring.
  - destruct (String.eqb k' k); simpl; refold_fmap; rewrite ?sum_raw_cons; [simpl; ring|]. rewrite IH. ring.
Qed.

(** With the burn the requests add up to at least the whole vector. *)
Lemma burn_request_ok burn q :
  requests_ok q -> payee burn -> (forall k, k ∈ (requested q).*1 -> k <> "") ->
  requests_ok (burn_request burn q) /\ (inject_Z PPM <= sum_raw (requested (burn_request burn q)).*2)%Q.
Proof.
  intros Hq Hb Hk. unfold burn_request. split; [by apply requests_ok_set|]. cbn [requested].
  rewrite sum_raw_dict_set. pose proof (sum_Q_raw (requested q).*2) as Hs.
  assert (dict_get "" (requested q) = None) as -> by (apply dict_get_None; by intros ?%Hk). simpl.
  destruct (Qle_bool _ _) eqn:E; [apply Qle_bool_iff in E|]; rewrite Hs in *; lra.
Qed.

(** ** Adding up by hotkey *)

Definition part_sum (q : requests) (l : dict Q) (h : string) : Q :=
  sum_raw (filter (fun kv => dict_get kv.1 (recipients q) = Some h) l).*2.

Lemma hotkey_fold_ok q l acc :
  (forall k, k ∈ l.*1 -> exists h, dict_get k (recipients q) = Some h /\ payee h) -> NoDup acc.*1 ->
  exists d, fold_result (hotkey_step q) l acc = Ok d /\ NoDup d.*1 /\
    (sum_raw d.*2 == sum_raw acc.*2 + sum_raw l.*2)%Q /\
    (forall h, default 0 (dict_get h d) == default 0 (dict_get h acc) + part_sum q l h)%Q /\
    (forall h, h ∈ d.*1 -> h ∈ acc.*1 \/ payee h).
Proof.
  revert acc. induction l as [|[k x] l IH]; intros acc Hl Hacc.
  { exists acc. split_and!; [done|done|unfold sum_raw; simpl; ring|intros h; unfold part_sum, sum_raw; simpl; ring|auto]. }
  destruct (Hl k) as (h0 & Hh0 & Hp0); [by left|]. cbn [fold_result].
  assert (hotkey_step q acc (k, x) = Ok (dict_set h0 (default 0 (dict_get h0 acc) + x)%Q acc)) as ->.
  { unfold hotkey_step, dict_item. cbn [fst snd]. by rewrite Hh0. }
  cbn [mbind result_bind].
  destruct (IH (dict_set h0 (default 0 (dict_get h0 acc) + x)%Q acc)) as (d & Hf & Hnd & Hsum & Hget & Hkeys).
  { intros k' Hk'. apply Hl. by right. } { by apply dict_set_NoDup. }
  exists d. split_and!; [done|done|..].
  - rewrite Hsum, sum_raw_dict_set, fmap_cons, sum_raw_cons. cbn [snd]. ring.
  - intros h. rewrite Hget, dict_get_set. unfold part_sum. rewrite filter_cons. cbn [fst].
    destruct (String.eqb_spec h0 h) as [->|Hne].
    + rewrite decide_True by done. rewrite fmap_cons, sum_raw_cons. simpl. ring.
    + rewrite decide_False by congruence. reflexivity.
  - intros h [Hh|?]%Hkeys; [|by right]. apply dict_set_keys in Hh as [->|]; auto.
Qed.

(** ** Paying the shares *)

Definition paid (o : outcome) : Z := sum_Z (arena_shares o).*2 + burned o.

Lemma pay_fold_ok q (l : dict Z) o :
  (forall k, k ∈ l.*1 -> k <> "" -> exists s, dict_get k (owners q) = Some s) ->
  exists o', fold_result (pay_step q) l o = Ok o' /\ paid o' = paid o + sum_Z l.*2.
Proof.
  revert o. induction l as [|[k ppm] l IH]; intros o Hl; simpl; [exists o; unfold sum_Z; simpl; split; [done|lia]|].
  refold_fmap. destruct (String.eqb_spec k "") as [->|Hne]; cbn [mbind result_bind].
  - destruct (IH (mkOutcome (arena_shares o) (rewarded o) (burned o + ppm) (submission_weights o))) as (o' & -> & Hp).
    { intros k Hk. apply Hl. by right. }
    exists o'. split; [done|]. rewrite Hp. unfold paid, sum_Z. simpl. lia.
  - destruct (Hl k) as [s Hs]; [by left|done|]. unfold dict_item. rewrite Hs. cbn [mbind result_bind].
    edestruct IH as (o' & -> & Hp); [intros k' Hk'; apply Hl; by right|]. exists o'. split; [done|]. rewrite Hp.
    unfold paid. cbn [arena_shares burned]. rewrite sum_dict_add. unfold sum_Z. simpl. lia.
Qed.

Lemma pay_hotkey_ok q o h w :
  requests_ok q -> (0 < part_sum q (requested q) h)%Q ->
  exists o', pay_hotkey q o (h, w) = Ok o' /\ paid o' = paid o + w.
Proof.
  intros [Hnd Hq] (x & Hx & Hpos)%sum_raw_pos. unfold pay_hotkey. cbn [fst snd].
  apply list_elem_of_fmap in Hx as ([k y] & -> & Hk). 
  destruct (allocate_pool_total (parts_of q h) w k y) as [shares Es]; [done|done|].
  rewrite Es. cbn [mbind result_bind]. destruct (pay_fold_ok q shares o) as (o' & -> & Hp).
  - intros k' Hk' Hne. rewrite (allocate_pool_keys _ _ _ Es), sorted_by_perm in Hk'.
    apply list_elem_of_fmap in Hk' as (kv & -> & [_ Hkv]%list_elem_of_filter).
    unfold parts_of in Hkv. apply list_elem_of_filter in Hkv as [_ Hkv].
    destruct (Hq kv.1) as [_ Ho]; [by apply list_elem_of_fmap_2|by apply Ho].
  - exists o'. split; [done|]. rewrite Hp. f_equal. eapply allocate_pool_sum; [|exact Es].
    by apply NoDup_fmap_filter.
Qed.

Lemma pay_hotkeys_ok q (weights : dict Z) o :
  requests_ok q -> (forall h, h ∈ weights.*1 -> 0 < part_sum q (requested q) h)%Q ->
  exists o', fold_result (pay_hotkey q) weights o = Ok o' /\ paid o' = paid o + sum_Z weights.*2.
Proof.
  intros Hq. revert o. induction weights as [|[h w] weights IH]; intros o Hw; simpl.
  { exists o. unfold sum_Z. simpl. split; [done|lia]. }
  destruct (pay_hotkey_ok q o h w) as (o1 & -> & Hp1); [done|apply Hw; by left|]. cbn [mbind result_bind].
  destruct (IH o1) as (o' & -> & Hp); [intros; apply Hw; by right|]. exists o'. split; [done|].
  rewrite Hp, Hp1. refold_fmap. lia.
Qed.

Lemma settle_ok burn q attribution :
  requests_ok q -> payee burn -> (forall k, k ∈ (requested q).*1 -> k <> "") ->
  exists weights o, settle context burn q attribution = Ok (weights, o) /\
    sum_Z weights.*2 = PPM /\ paid o = PPM /\ (forall h w, (h, w) ∈ weights -> payee h /\ 0 <= w).
Proof.
  intros Hq Hb Hk. unfold settle. destruct (burn_request_ok burn q Hq Hb Hk) as [Hq' Hs].
  set (q' := burn_request burn q) in *.
  destruct (hotkey_fold_ok q' (requested q') []) as (d & -> & Hnd & Hsum & Hget & Hkeys).
  { intros k Hin. by apply Hq'. } { constructor. }
  cbn [mbind result_bind].
  assert (Hpos : exists h x, (h, x) ∈ d /\ (0 < x)%Q).
  { destruct (sum_raw_pos d.*2) as (x & Hx & Hpx).
    - rewrite Hsum. assert (sum_raw ([] : dict Q).*2 == 0)%Q by reflexivity.
      assert (0 < inject_Z PPM)%Q by reflexivity. lra.
    - apply list_elem_of_fmap in Hx as ([h y] & -> & Hh). eauto. }
  destruct Hpos as (h0 & x0 & Hh0 & Hx0). destruct (allocate_pool_total d PPM h0 x0) as [weights Ew]; [done|done|].
  rewrite Ew. cbn [mbind result_bind].
  assert (Hin : forall h, h ∈ weights.*1 -> exists x, (h, x) ∈ d /\ (0 < x)%Q).
  { intros h Hh. rewrite (allocate_pool_keys _ _ _ Ew), sorted_by_perm in Hh.
    apply list_elem_of_fmap in Hh as ([h' x] & -> & [Hx Hh]%list_elem_of_filter). apply qltb_lt in Hx. eauto. }
  destruct (pay_hotkeys_ok q' weights (mkOutcome [] [] 0 attribution)) as (o & -> & Hp); [done|..].
  - intros h (x & Hx & Hpx)%Hin. apply elem_dict_get in Hx; [|done]. specialize (Hget h). rewrite Hx in Hget.
    change (x == 0 + part_sum q' (requested q') h)%Q in Hget. lra.
  - cbn [mbind result_bind]. eexists _, _. split; [done|]. apply allocate_pool_sum in Ew as Es; [|done].
    split; [done|]. split; [change (paid o = PPM); by rewrite Hp, Es|]. intros h w Hhw. split.
    + destruct (Hin h) as (x & Hx & _); [by apply (list_elem_of_fmap_2 fst) in Hhw|].
      destruct (Hkeys h) as [?%elem_of_nil|]; [by apply (list_elem_of_fmap_2 fst) in Hx|done|done].
    + eapply allocate_pool_nonneg; [|exact Ew|exact Hhw]. done.
Qed.
End Weights.

(** C34: pricing submissions never fails once the inputs are complete and well typed, and loses nothing:
    the weight vector sums to a million, the arena shares and the burn split the same million, and every
    weight goes to a registered hotkey or to the validator. *)
Theorem allocate_submission_weights_exact (credits : list StandingFamilyCredit)
    (terms : dict (pyval * pyval)) (context : GlobalRewardProjectionContext) (burn_hotkey : string)
    (base_credits : dict pyval) (attribution : option (dict Z)) :
  (list_to_set terms.*1 : gset string) = list_to_set (claim_digest <$> credits) ->
  (list_to_set base_credits.*1 : gset string) = list_to_set terms.*1 ->
  burn_hotkey ∈ eligible_hotkeys context ->
  (forall row, row ∈ credits -> claim_digest row <> "" /\ row_ok terms base_credits row) ->
  exists weights o,
    allocate_submission_weights credits terms context burn_hotkey base_credits attribution = Ok (weights, o) /\
    sum_Z weights.*2 = PPM /\ sum_Z (arena_shares o).*2 + burned o = PPM /\
    (forall h w, (h, w) ∈ weights -> (h ∈ eligible_hotkeys context \/ h = validator_hotkey context) /\ 0 <= w).
Proof.
  intros Ht Hbc Hb Hrows. unfold allocate_submission_weights.
  rewrite !bool_decide_eq_true_2 by done. cbn [negb orb].
  assert (Hok : Forall (row_ok terms base_credits) credits) by (apply Forall_forall; intros; by apply Hrows).
  destruct (price_fold_ok terms base_credits credits (mkRates [] [] [])) as (r & -> & _ & Hcov); [done|done|].
  cbn [mbind result_bind].
  destruct (request_fold_ok terms base_credits context r credits (mkRequests [] [] [])) as (q & Eq & Hq); [done..|split|].
  { constructor. } { intros k Hk. by apply elem_of_nil in Hk. }
  rewrite Eq. cbn [mbind result_bind]. eapply settle_ok; [done|by left|].
  eapply request_fold_keys; [exact Eq| |by intros; apply Hrows]. intros k Hk. by apply elem_of_nil in Hk.
Qed.

Definition example_credits : list StandingFamilyCredit :=
  [mkCredit "a" "f" "t" "c1" "h1" 30; mkCredit "a" "f" "t" "c2" "gone" 10; mkCredit "a" "f" "t" "c3" "h1" 7].
Definition example_terms : dict (pyval * pyval) :=
  [("c1", (VStr "alpha", VInt 300000)); ("c2", (VStr "alpha", VInt 300000)); ("c3", (VStr "beta", VInt 0))].
Definition example_base : dict pyval := [("c1", VInt 20); ("c2", VInt 10); ("c3", VInt 5)].
Definition example_context : GlobalRewardProjectionContext :=
  mkContext "" "v" 5 "" [mkMember 0 "v"; mkMember 1 "h1"; mkMember 2 "burn"].

Lemma allocate_submission_weights_exact_witness :
  allocate_submission_weights example_credits example_terms example_context "burn" example_base None
  = Ok ([("burn", 700000); ("h1", 225000); ("v", 75000)],
        mkOutcome [("alpha", 300000)] ["c1"; "c2"] 700000 None) /\
  exists weights o,
    allocate_submission_weights example_credits example_terms example_context "burn" example_base None
      = Ok (weights, o) /\
    sum_Z weights.*2 = PPM /\ sum_Z (arena_shares o).*2 + burned o = PPM /\
    (forall h w, (h, w) ∈ weights ->
      (h ∈ eligible_hotkeys example_context \/ h = validator_hotkey example_context) /\ 0 <= w).
Proof.
  split; [vm_compute; reflexivity|].
  apply (allocate_submission_weights_exact example_credits example_terms example_context "burn" example_base None).
  - vm_compute. reflexivity.
  - vm_compute. reflexivity.
  - vm_compute. reflexivity.
  - intros row Hrow. unfold example_credits in Hrow.
    repeat (apply elem_of_cons in Hrow as [->|Hrow]; [split; [discriminate|split; [simpl; lia|reflexivity]]|]).
    by apply elem_of_nil in Hrow.
Defined.

(** ** Zero offers *)

(** A submission whose terms offer nothing. *)
Definition offers (terms : dict (pyval * pyval)) (k : string) : bool :=
  match dict_get k terms with Some (_, VInt 0) => false | _ => true end.

Section ZeroOffers.
Context (terms : dict (pyval * pyval)) (base : dict pyval) (context : GlobalRewardProjectionContext).

Definition live (k : string) : Prop := offers terms k = true.
Instance live_dec k : Decision (live k) := decide (offers terms k = true).

Definition live_items {V} (d : dict V) : dict V := filter (fun kv => live kv.1) d.
Definition live_rows (rows : list StandingFamilyCredit) : list StandingFamilyCredit :=
  filter (fun row => live (claim_digest row)) rows.

Lemma read_terms_live row :
  live (claim_digest row) -> read_terms (live_items terms) (live_items base) row = read_terms terms base row.
Proof. intros H. unfold read_terms, dict_item, live_items. by rewrite !dict_get_filter. Qed.

Lemma read_terms_dead row s ppm b :
  ~ live (claim_digest row) -> read_terms terms base row = Ok (s, ppm, b) -> ppm = 0.
Proof.
  unfold live, offers, read_terms, dict_item. destruct (dict_get (claim_digest row) terms) as [[src off]|]; [|done].
  intros Hn%not_true_iff_false H. destruct (dict_get (claim_digest row) base) as [bv|]; [|done]. cbn in H.
  destruct off as [| |[]| | | | | |]; try done. destruct src; try done. destruct bv; try done.
  by step_guard H; injection H as <- <- <-.
Qed.

Lemma live_keys {V} (d : dict V) (rows : list StandingFamilyCredit) :
  (list_to_set d.*1 : gset string) = list_to_set (claim_digest <$> rows) ->
  (list_to_set (live_items d).*1 : gset string) = list_to_set (claim_digest <$> live_rows rows).
Proof.
  intros E. apply set_eq. intros k. rewrite !elem_of_list_to_set.
  assert (Hk : k ∈ d.*1 <-> k ∈ claim_digest <$> rows) by (rewrite <- !(elem_of_list_to_set (C := gset string)), E; done).
  unfold live_items, live_rows. rewrite !list_elem_of_fmap. setoid_rewrite list_elem_of_filter.
  rewrite !list_elem_of_fmap in Hk. split.
  - intros (kv & -> & Hl & Hin). destruct (proj1 Hk) as (row & Er & Hrow); [eauto|]. exists row.
    split; [done|]. by rewrite <- Er.
  - intros (row & -> & Hl & Hin). destruct (proj2 Hk) as (kv & Ek & Hkv); [eauto|]. exists kv.
    split; [done|]. by rewrite <- Ek.
Qed.

Lemma price_fold_live rows r r' :
  fold_result (price_step terms base) rows r = Ok r' ->
  fold_result (price_step (live_items terms) (live_items base)) (live_rows rows) r = Ok r'.
Proof.
  apply fold_result_filter.
  - intros q row q' _ Hn H. unfold price_step in H. inv_ok. destruct x as [[s ppm] b].
    apply read_terms_dead in Hx as ->; [|done]. by injection H as <-.
  - intros q row _ Hl. unfold price_step. by rewrite read_terms_live.
Qed.

Lemma request_fold_live r rows q q' :
  fold_result (request_step terms base context r) rows q = Ok q' ->
  fold_result (request_step (live_items terms) (live_items base) context r) (live_rows rows) q = Ok q'.
Proof.
  apply fold_result_filter.
  - intros p row p' _ Hn H. unfold request_step in H. inv_ok. destruct x as [[s ppm] b].
    apply read_terms_dead in Hx as ->; [|done]. by injection H as <-.
  - intros p row _ Hl. unfold request_step. by rewrite read_terms_live.
Qed.
End ZeroOffers.

(** Submissions offered nothing neither earn nor dilute: leaving them out of the claims, the terms
    and the base credits gives the same weights, arena shares, rewarded claims and burn. *)
Theorem zero_offers_inert (credits : list StandingFamilyCredit) (terms : dict (pyval * pyval))
    (context : GlobalRewardProjectionContext) (burn_hotkey : string) (base_credits : dict pyval)
    (out : dict Z * outcome) :
  allocate_submission_weights credits terms context burn_hotkey base_credits None = Ok out ->
  allocate_submission_weights (live_rows terms credits) (live_items terms terms) context burn_hotkey
    (live_items terms base_credits) None = Ok out.
Proof.
  unfold allocate_submission_weights. intros H. step_guard H. split_bool.
  rewrite (bool_decide_eq_true_2 (_ = list_to_set (claim_digest <$> _))) by by apply live_keys.
  rewrite (bool_decide_eq_true_2 (list_to_set (live_items terms base_credits).*1 = _)).
  2:{ rewrite (live_keys terms base_credits credits) by congruence. symmetry. by apply live_keys. }
  rewrite bool_decide_eq_true_2 by done. cbn [negb orb]. inv_ok.
  rewrite (price_fold_live _ _ _ _ _ Hx). cbn [mbind result_bind].
  rewrite (request_fold_live _ _ _ _ _ _ _ Hx0). done.
Qed.

Lemma zero_offers_inert_witness :
  allocate_submission_weights (take 2 example_credits) (take 2 example_terms) example_context "burn"
    (take 2 example_base) None
  = Ok ([("burn", 700000); ("h1", 225000); ("v", 75000)],
        mkOutcome [("alpha", 300000)] ["c1"; "c2"] 700000 None).
Proof.
  apply (zero_offers_inert example_credits example_terms example_context "burn" example_base). vm_compute. reflexivity.
Defined.
