(* ===== verification/CreditCurve.v ===== *)
(** * The credit curve

    What a standing claim earns at a block ([StandingRewardClaim.credit_at] of
    [cacheon/economics.py] and [arena_base_credits] of
    [cacheon/arena_allocation.py]): the logarithm of the speedup, raised by the
    time since the arena's previous crown, halved over each half life. The
    arithmetic is Python's [decimal] in a context of 50 digits that rounds down;
    its logarithm, root and power follow the definitions of the standard
    library's [_pydecimal], digit for digit. The C implementation documents a
    correctly rounded logarithm, which is the same value, and a power that is
    correctly rounded in almost every case; no theorem depends on the last digit
    of either. *)

From S2P Require Import Prelude PyVal Dict Numbers Pool Economics.

Open Scope Z_scope.

(** ** The context *)

Definition math_prec : Z := 50.
Definition Emax : Z := 999999.
Definition Etiny : Z := - Emax - math_prec + 1.
Definition Etop : Z := Emax - math_prec + 1.

Definition Overflow : exn := Exn "Overflow" "above Emax".
Definition InvalidOperation : exn := Exn "InvalidOperation" "".

Inductive rounding_mode := ROUND_FLOOR | ROUND_HALF_EVEN.

(** [z / 10^n] *)
Definition round_units (m : rounding_mode) (z n : Z) : Z :=
  match m with ROUND_FLOOR => z / 10 ^ n | ROUND_HALF_EVEN => half_even z n end.

Definition len_digits (z : Z) : Z := num_digits (Z.abs z).

(** [_fix] *)
Definition fix_in (m : rounding_mode) (d : decimal) : result decimal :=
  if coef d =? 0 then Ok (mkDecimal 0 (Z.min (Z.max (dexp d) Etiny) Emax))
  else
    let exp_min := len_digits (coef d) + dexp d - math_prec in
    raise_if Etop <? exp_min with Overflow;
    let exp_min := Z.max exp_min Etiny in
    if dexp d <? exp_min then
      let c := round_units m (coef d) (exp_min - dexp d) in
      let r := if math_prec <? len_digits c then mkDecimal (c / 10) (exp_min + 1) else mkDecimal c exp_min in
      raise_if Etop <? dexp r with Overflow; Ok r
    else Ok d.

Definition Dec (z : Z) : decimal := mkDecimal z 0.

Definition ctx_neg (a : decimal) : result decimal := fix_in ROUND_FLOOR (mkDecimal (- coef a) (dexp a)).

Definition ctx_mul (a b : decimal) : result decimal :=
  fix_in ROUND_FLOOR (mkDecimal (coef a * coef b) (dexp a + dexp b)).

Definition ctx_add (a b : decimal) : result decimal :=
  let e := Z.min (dexp a) (dexp b) in
  fix_in ROUND_FLOOR (mkDecimal (coef a * 10 ^ (dexp a - e) + coef b * 10 ^ (dexp b - e)) e).

(** The trailing zeros of an exact quotient, at most [n] of them *)
Fixpoint drop_zeros (n : nat) (d : decimal) : decimal :=
  match n with
  | O => d
  | S n => if coef d mod 10 =? 0 then drop_zeros n (mkDecimal (coef d / 10) (dexp d + 1)) else d
  end.

Definition ctx_div (a b : decimal) : result decimal :=
  raise_if coef b =? 0 with (if coef a =? 0 then InvalidOperation else Exn "DivisionByZero" "");
  if coef a =? 0 then fix_in ROUND_FLOOR (mkDecimal 0 (dexp a - dexp b))
  else
    let shift := len_digits (coef b) - len_digits (coef a) + math_prec + 1 in
    let num := Z.abs (coef a) * 10 ^ Z.max 0 shift in
    let den := Z.abs (coef b) * 10 ^ Z.max 0 (- shift) in
    let q := num / den in
    let sign := Z.sgn (coef a) * Z.sgn (coef b) in
    let e := dexp a - dexp b - shift in
    let r := if num mod den =? 0 then drop_zeros (Z.to_nat shift) (mkDecimal q e)
             else mkDecimal (if q mod 5 =? 0 then q + 1 else q) e in
    fix_in ROUND_FLOOR (mkDecimal (sign * coef r) (dexp r)).

Definition ctx_sqrt (a : decimal) : result decimal :=
  if coef a =? 0 then fix_in ROUND_FLOOR (mkDecimal 0 (dexp a / 2))
  else
    raise_if coef a <? 0 with InvalidOperation;
    let places := math_prec + 1 in
    let len := len_digits (coef a) in
    let odd := negb (dexp a mod 2 =? 0) in
    let c := if odd then coef a * 10 else coef a in
    let l := if odd then len / 2 + 1 else (len + 1) / 2 in
    let shift := places - l in
    let whole := if 0 <=? shift then c * 100 ^ shift else c / 100 ^ (- shift) in
    let n := Z.sqrt whole in
    let exact := (n * n =? whole) && ((0 <=? shift) || (c mod 100 ^ (- shift) =? 0)) in
    fix_in ROUND_HALF_EVEN
      (if exact then mkDecimal (if 0 <=? shift then n / 10 ^ shift else n * 10 ^ (- shift)) (dexp a / 2)
       else mkDecimal (if n mod 5 =? 0 then n + 1 else n) (dexp a / 2 - shift)).

(** ** Logarithm and power in fixed-point integers *)

Definition bit (b : bool) : Z := if b then 1 else 0.
Definition parity (z : Z) : Z := z mod 2.

(** The integer nearest to [a / b], ties to even *)
Definition _div_nearest (a b : Z) : Z := a / b + bit (b <? 2 * (a mod b) + parity (a / b)).

Definition _rshift_nearest (x shift : Z) : Z :=
  let b := 2 ^ shift in x / b + bit (b <? 2 * (x mod b) + parity (x / b)).

(** The integer nearest to the root, which the source reaches by Newton's method *)
Definition _sqrt_nearest (n : Z) : Z := let s := Z.sqrt n in if n <=? s * s + s then s else s + 1.

(** [-int(-10 * len(str(M)) // (3 * L))] with [L = 8] *)
Definition taylor_terms (M : Z) : Z := - ((- 10 * len_digits M) / 24).

(** [T-1, ..., 1] *)
Definition countdown (T : Z) : list Z := rev (Z.of_nat <$> seq 1 (Z.to_nat (T - 1))).

(** The reduction of the argument: at most [L] rounds bring an argument of at most 10 close to 1, and a few
    more bring it below [2^-L]. *)
Fixpoint reduce_log (fuel : nat) (M y R : Z) : Z * Z :=
  match fuel with
  | O => (y, R)
  | S fuel =>
      if if R <=? 8 then M <=? Z.abs y * 2 ^ (8 - R) else M <=? Z.abs y / 2 ^ (R - 8)
      then reduce_log fuel M (_div_nearest (M * y * 2) (M + _sqrt_nearest (M * (M + _rshift_nearest y R)))) (R + 1)
      else (y, R)
  end.

Definition _ilog (x M : Z) : Z :=
  let '(y, R) := reduce_log 64 M (x - M) 0 in
  let T := taylor_terms M in
  let yshift := _rshift_nearest y R in
  let w := foldl (fun w k => _div_nearest M k - _div_nearest (yshift * w) M) (_div_nearest M T) (countdown T) in
  _div_nearest (w * y) M.

(** More digits until the extra ones decide: [try] is [None] while they do not. No proof bounds the number of
    rounds; each fails for one argument in a thousand, and a hundred are allowed. *)
Fixpoint more_digits {A} (fuel : nat) (try : Z -> option A) (extra : Z) : result A :=
  match fuel with
  | O => Raise (Exn "RecursionError" "")
  | S fuel => match try extra with Some a => Ok a | None => more_digits fuel try (extra + 3) end
  end.

(** [floor(10^p * log(10))] *)
Definition _log10_digits (p : Z) : result Z :=
  if p <? 47 then Ok (23025850929940456840179914546843642076011014886 / 10 ^ (46 - p))
  else more_digits 100 (fun extra =>
    let M := 10 ^ (p + extra + 2) in
    let digits := _div_nearest (_ilog (10 * M) M) 100 in
    if digits mod 10 ^ extra =? 0 then None else Some (digits / 10 ^ extra)) 3.

(** [10^p * log(c * 10^e)], to one unit *)
Definition _dlog (c e p : Z) : result Z :=
  let p := p + 2 in
  let l := len_digits c in
  let f := e + l - bit (1 <=? e + l) in
  let log_d :=
    if 0 <? p then
      let k := e + p - f in
      _ilog (if 0 <=? k then c * 10 ^ k else _div_nearest c (10 ^ (- k))) (10 ^ p)
    else 0 in
  f_log_ten ← (if f =? 0 then Ok 0
               else
                 let extra := len_digits f - 1 in
                 if 0 <=? p + extra
                 then ten ← _log10_digits (p + extra); Ok (_div_nearest (f * ten) (10 ^ extra))
                 else Ok 0);
  Ok (_div_nearest (f_log_ten + log_d) 100).

(** Whether the digits past the context's decide the rounding *)
Definition decided (c : Z) : bool := negb (c mod (5 * 10 ^ (len_digits c - math_prec - 1)) =? 0).

Definition bit_length (z : Z) : Z := if z =? 0 then 0 else Z.log2 (Z.abs z) + 1.

Definition _iexp (x M : Z) : Z :=
  let R := bit_length (x * 2 ^ 8 / M) in
  let T := taylor_terms M in
  let y := foldl (fun y i => _div_nearest (x * (M * 2 ^ R + y)) (M * 2 ^ R * i)) (_div_nearest x T) (countdown T) in
  M + foldl (fun y k => let shift := M * 2 ^ (k + 2) in _div_nearest (y * (y + shift)) shift) y
        (rev (Z.of_nat <$> seq 0 (Z.to_nat R))).

(** [exp(c * 10^e)] with [p] digits: coefficient and exponent. The sign of [c] is one of its characters. *)
Definition _dexp (c e p : Z) : result (Z * Z) :=
  let p := p + 2 in
  let extra := Z.max 0 (e + (bit (c <? 0) + len_digits c) - 1) in
  let q := p + extra in
  let shift := e + q in
  let cshift := if 0 <=? shift then c * 10 ^ shift else c / 10 ^ (- shift) in
  ten ← _log10_digits q;
  let rem := _div_nearest (cshift mod ten) (10 ^ extra) in
  Ok (_div_nearest (_iexp rem (10 ^ p)) 1000, cshift / ten - p + 3).

Definition _dpower (xc xe yc ye p : Z) : result (Z * Z) :=
  let b := len_digits yc + ye in
  lxc ← _dlog xc xe (p + b + 1);
  let shift := ye - b in
  let pc := if 0 <=? shift then lxc * yc * 10 ^ shift else _div_nearest (lxc * yc) (10 ^ (- shift)) in
  if pc =? 0 then
    Ok (if Bool.eqb (1 <=? len_digits xc + xe) (0 <? yc) then (10 ^ (p - 1) + 1, 1 - p) else (10 ^ p - 1, - p))
  else r ← _dexp pc (- (p + 1)) (p + 1); Ok (_div_nearest r.1 10, r.2 + 1).

(** [_ln_exp_bound] of a number from 1: for one below 10 the digit strings are compared *)
Definition _ln_exp_bound (d : decimal) : Z :=
  let adj := dexp d + len_digits (coef d) - 1 in
  if 1 <=? adj then len_digits (adj * 23 / 10) - 1
  else
    let num := dec_of_Z (coef d - 10 ^ (- dexp d)) in
    let den := dec_of_Z (coef d) in
    Z.of_nat (String.length num) - Z.of_nat (String.length den) - bit (cmp_ltb num den).

(** [ln] of a number that is not below 1 *)
Definition ctx_ln (d : decimal) : result decimal :=
  raise_if (coef d <=? 0) || (dexp d + len_digits (coef d) - 1 <? 0) with InvalidOperation;
  if (dexp d <=? 0) && (coef d =? 10 ^ (- dexp d)) then Ok (Dec 0)
  else
    let places := math_prec - _ln_exp_bound d + 2 in
    r ← more_digits 100 (fun p =>
          match _dlog (coef d) (dexp d) p with
          | Ok c => if decided c then Some (Ok (mkDecimal c (- p))) else None
          | Raise e => Some (Raise e)
          end) places;
    r ← r; fix_in ROUND_HALF_EVEN r.

(** [2^y] in 51 digits, when it has so few: [y] is a whole number, and not far below zero. *)
Definition _power_exact (y : decimal) : option decimal :=
  let yc := strip_zeros (Z.to_nat (len_digits (coef y))) (Z.abs (coef y)) in
  let ye := dexp y + (len_digits (coef y) - len_digits yc) in
  let emax := (math_prec + 1) * 93 / 65 in
  if (len_digits emax <=? ye) || (ye <? 0) then None
  else
    let e := yc * 10 ^ ye in
    if (emax <? e) || (10 ^ (math_prec + 1) <=? 5 ^ e) then None else Some (mkDecimal (5 ^ e) (- e)).

(** [Decimal(2) ** y] for a [y] that is not positive *)
Definition ctx_pow2 (y : decimal) : result decimal :=
  raise_if 0 <? coef y with InvalidOperation;
  if coef y =? 0 then Ok (Dec 1)
  else if len_digits Etiny <=? dexp y + len_digits (coef y) - 2 then fix_in ROUND_FLOOR (mkDecimal 1 (Etiny - 1))
  else
    match _power_exact y with
    | Some r => fix_in ROUND_FLOOR r
    | None =>
        r ← more_digits 100 (fun extra =>
              match _dpower 2 0 (coef y) (dexp y) (math_prec + extra) with
              | Ok r => if decided r.1 then Some (Ok (mkDecimal r.1 r.2)) else None
              | Raise e => Some (Raise e)
              end) 3;
        r ← r; fix_in ROUND_FLOOR r
    end.

(** ** Credits *)

Definition CREDIT_SCALE : Z := 1000000000000.
Definition STALL_SCALE_BLOCKS : Z := 1800.

(** The expression in [_MATH_CONTEXT]: a speedup, a bonus, the blocks since the previous crown, the blocks of
    decay, and the half life. *)
Definition credit_curve (speedup bonus stall decay half_life : Z) : result Z :=
  speed ← ctx_div (Dec speedup) (Dec WEIGHT_PPM);
  log ← ctx_ln speed;
  strength ← ctx_div (Dec bonus) (Dec WEIGHT_PPM);
  scaled ← ctx_div (Dec stall) (Dec STALL_SCALE_BLOCKS);
  root ← ctx_sqrt scaled;
  extra ← ctx_mul strength root;
  factor ← ctx_add (Dec 1) extra;
  credit ← ctx_mul log factor;
  back ← ctx_neg (Dec decay);
  halvings ← ctx_div back (Dec half_life);
  power ← ctx_pow2 halvings;
  credit ← ctx_mul credit power;
  credit ← ctx_mul credit (Dec CREDIT_SCALE);
  Ok (dec_floor credit).

Definition credit_at (c : StandingRewardClaim) (block : Z) (policy : EmissionsPolicyManifest)
    (predecessor_block decay_start_block : option Z) (stall_bonus_ppm : Z) : result Z :=
  let predecessor := default (crowned_block c) predecessor_block in
  _ ← _integer (VInt block) "credit block" (crowned_block c);
  _ ← _integer (VInt predecessor) "predecessor_block" 0;
  raise_if crowned_block c <? predecessor with (EconomicsError "reward predates its arena stall clock");
  let start := default (crowned_block c) decay_start_block in
  _ ← _integer (VInt start) "decay_start_block" (crowned_block c);
  raise_if block <? start with (EconomicsError "reward decay start is in the future");
  _ ← _integer (VInt stall_bonus_ppm) "stall bonus" 0;
  raise_if WEIGHT_PPM <? stall_bonus_ppm with (EconomicsError "stall bonus exceeds full strength");
  credit_curve (speedup_ppm c) stall_bonus_ppm (crowned_block c - predecessor) (block - start) (half_life_blocks policy).

(** [replace(claim, speedup_ppm=speedup)] *)
Definition with_speedup (c : StandingRewardClaim) (speedup : Z) : result StandingRewardClaim :=
  make_standing (VStr (arena_digest c)) (VStr (target_id c)) (VStr (target_spec_digest c)) (VStr (contribution_digest c))
    (VStr (claim_hotkey c)) (VInt speedup) (VInt (crowned_block c)) (VStr (retained_evidence_digest c)).

Definition scored (c : StandingRewardClaim) (digest : string) (score_speedups : option (dict Z)) : result StandingRewardClaim :=
  match score_speedups with
  | None => Ok c
  | Some scores => speedup ← dict_item digest scores; with_speedup c speedup
  end.

(** A start that is stored as [None] is the current block: no decay. *)
Definition decay_start (starts : dict (option Z)) (current : Z) (digest : string) : option Z :=
  match dict_get digest starts with Some None => Some current | Some (Some b) => Some b | None => None end.

Definition base_credit (policy : EmissionsPolicyManifest) (context : GlobalRewardProjectionContext) (starts : dict (option Z))
    (score_speedups : option (dict Z)) (c : StandingRewardClaim) : result (string * pyval) :=
  d ← standing_digest c;
  s ← scored c d score_speedups;
  credit ← credit_at s (current_block context) policy (Some (crowned_block c)) (decay_start starts (current_block context) d) WEIGHT_PPM;
  Ok (d, VInt credit).

Definition arena_base_credits (claims : list StandingRewardClaim) (policy : EmissionsPolicyManifest)
    (context : GlobalRewardProjectionContext) (starts : dict (option Z)) (score_speedups : option (dict Z)) : result (dict pyval) :=
  rows ← map_result (base_credit policy context starts score_speedups) claims;
  Ok (foldl (fun d kv => dict_set kv.1 kv.2 d) [] rows).
