(* ===== verification/EvidenceRef.v ===== *)
(** * Evidence references

    The content-addressed reference of [cacheon/eval/evidence_store.py] that
    projections and settlement evidence hold; the store itself is outside the
    model. *)

From S2P Require Import Prelude PyVal Dict Identity Strict.

Open Scope Z_scope.

Definition EvidenceStoreError (m : string) : exn := Exn "EvidenceStoreError" m.

Definition is_alnum_lower (c : chr) : bool := is_digit c || in_range 97 122 c.
Definition HARD_MAX_EVIDENCE_BYTES : Z := Z.shiftl 1 30.

Record EvidenceArtifactRef := mkRef {
  ref_domain : string; ref_sha256 : string; ref_size : Z; ref_media_type : string; ref_schema : string }.

#[export] Instance evidence_ref_eq_dec : EqDecision EvidenceArtifactRef.
Proof. solve_decision. Defined.

Definition dotted (c : chr) : bool := is_alnum_lower c || bool_decide (ord c ∈ [46; 95; 45]%N).

(** [^[a-z0-9][<tail>]{0,n-1}$] as a full match *)
Definition token (tail : chr -> bool) (n : nat) (s : string) : bool :=
  match s with
  | EmptyString => false
  | String c t => is_alnum_lower c && all_chars tail t && (String.length s <=? n)%nat
  end.

(** [!#$&^_.+-] *)
Definition media_tail (c : chr) : bool :=
  is_alnum_lower c || bool_decide (ord c ∈ [33; 35; 36; 38; 94; 95; 46; 43; 45]%N).

Definition slash : chr := Ascii.ascii_of_N 47.

Definition is_media (s : string) : bool :=
  match split_on slash s with [a; b] => token media_tail 64 a && token media_tail 64 b | _ => false end.

Definition read_token (p : string -> bool) (v : pyval) (e : exn) : result string :=
  match v with VStr s => raise_if negb (p s) with e; Ok s | _ => Raise e end.

(** [isinstance(size, int)] accepts an [int] only, [bool] being refused first. *)
Definition read_size (v : pyval) : result Z :=
  match v with
  | VInt z => raise_if (z <? 0) || (HARD_MAX_EVIDENCE_BYTES <? z) with (EvidenceStoreError "evidence size is invalid");
              Ok z
  | _ => Raise (EvidenceStoreError "evidence size is invalid")
  end.

Definition make_ref (domain sha size media schema : pyval) : result EvidenceArtifactRef :=
  domain ← read_token (token dotted 96) domain (EvidenceStoreError "evidence domain is invalid");
  sha ← match require_sha256_hex sha "evidence sha256" with
        | Ok s => Ok s
        | Raise e => Raise (EvidenceStoreError (exn_message e))
        end;
  size ← read_size size;
  media ← read_token is_media media (EvidenceStoreError "evidence media_type is invalid");
  schema ← read_token (token dotted 128) schema (EvidenceStoreError "evidence schema is invalid");
  Ok (mkRef domain sha size media schema).

Definition ref_to_dict (r : EvidenceArtifactRef) : pyval :=
  str_dict [("domain", VStr (ref_domain r)); ("media_type", VStr (ref_media_type r)); ("schema", VStr (ref_schema r));
            ("sha256", VStr (ref_sha256 r)); ("size", VInt (ref_size r))].

Definition ref_from_dict (value : pyval) : result EvidenceArtifactRef :=
  row ← exact_dict value ["domain"; "media_type"; "schema"; "sha256"; "size"]
          (EvidenceStoreError "evidence reference schema is not closed");
  make_ref (argument row "domain") (argument row "sha256") (argument row "size") (argument row "media_type")
    (argument row "schema").

Lemma sha_value v field s : require_sha256_hex v field = Ok s -> v = VStr s /\ is_sha256_hex s = true.
Proof. unfold require_sha256_hex. destruct v; try done. destruct (is_sha256_hex s0) eqn:E; [|done]. by intros [= <-]. Qed.

Lemma make_ref_again d s z m c r :
  make_ref d s z m c = Ok r ->
  make_ref (VStr (ref_domain r)) (VStr (ref_sha256 r)) (VInt (ref_size r)) (VStr (ref_media_type r))
    (VStr (ref_schema r)) = Ok r.
Proof.
  intros H. rewrite <- H. unfold make_ref in H. inv_ok.
  repeat match goal with
  | H : match require_sha256_hex ?v ?f with _ => _ end = Ok _ |- _ =>
      destruct (require_sha256_hex v f) eqn:E; [apply sha_value in E as [-> _]|discriminate H]; injection H as ->
  | H : read_token ?p ?v _ = Ok ?x |- _ =>
      assert (v = VStr x) as -> by (unfold read_token in H; destruct v; try done; step_guard H; congruence); clear H
  | H : read_size ?v = Ok ?x |- _ =>
      assert (v = VInt x) as -> by (unfold read_size in H; destruct v; try done; step_guard H; congruence); clear H
  end.
  done.
Qed.

Lemma ref_reload v ref : ref_from_dict v = Ok ref -> ref_from_dict (ref_to_dict ref) = Ok ref.
Proof. unfold ref_from_dict at 1. intros H. inv_ok. apply make_ref_again in H. rewrite <- H. reflexivity. Qed.
