(* ===== verification/Leases.v ===== *)
(** * Evaluation leases: identities and types

    [cacheon/chain/evaluation_leases.py] and the reservation statuses of
    [cacheon/chain/intake.py]. Fields are typed here as the dataclasses annotate
    them; what [__post_init__] checks beyond the types is a [make_*] function.
    The event types and statuses are the closed string sets of the code. *)

From S2P Require Import Prelude PyVal Identity.

Open Scope Z_scope.

(** ** Closed vocabularies *)

Inductive status :=
  | deferred | reserved | fetching | transport_retry | published | qualifying | reproduction_pending
  | failed | expired | qualified | held | no_decision.

#[export] Instance status_eq_dec : EqDecision status.
Proof. solve_decision. Defined.

Definition status_text (s : status) : string :=
  match s with
  | deferred => "deferred" | reserved => "reserved" | fetching => "fetching"
  | transport_retry => "transport_retry" | published => "published" | qualifying => "qualifying"
  | reproduction_pending => "reproduction_pending" | failed => "failed" | expired => "expired"
  | qualified => "qualified" | held => "held" | no_decision => "no_decision"
  end.

Definition EVALUATION_STAGES : list string := ["qualification"].
Definition EVALUATION_PRIOR_STATUSES : list status := [published; reproduction_pending].

Inductive lease_event_type := ev_claimed | ev_heartbeat | ev_expired | ev_released | ev_completed.

#[export] Instance lease_event_type_eq_dec : EqDecision lease_event_type.
Proof. solve_decision. Defined.

Definition event_type_text (e : lease_event_type) : string :=
  match e with
  | ev_claimed => "claimed" | ev_heartbeat => "heartbeat" | ev_expired => "expired"
  | ev_released => "released" | ev_completed => "completed"
  end.

Definition EvaluationLeaseError (m : string) : exn := Exn "EvaluationLeaseError" m.

(** ** Checks *)

Definition _digest (value field : string) : result string :=
  raise_if negb (is_sha256_hex value) with (EvaluationLeaseError (string_app field " is malformed"));
  Ok value.

Definition owner_ok (s : string) : bool :=
  negb (String.eqb s "") && is_stripped s && (py_len s <=? 256) && negb (has_control s).

Definition require_evaluation_owner (value : pyval) : result string :=
  match value with
  | VStr s => raise_if negb (owner_ok s) with (EvaluationLeaseError "evaluation lease owner is malformed"); Ok s
  | _ => Raise (EvaluationLeaseError "evaluation lease owner is malformed")
  end.

(** ** Members and leases *)

Record EvaluationLeaseMember := mkMember { reservation_id : string; prior_status : status }.

#[export] Instance member_eq_dec : EqDecision EvaluationLeaseMember.
Proof. solve_decision. Defined.

Definition make_member (rid : string) (prior : status) : result EvaluationLeaseMember :=
  _ ← _digest rid "evaluation reservation id";
  raise_if negb (bool_decide (prior ∈ EVALUATION_PRIOR_STATUSES))
    with (EvaluationLeaseError "evaluation lease member status is malformed");
  Ok (mkMember rid prior).

Definition member_to_dict (m : EvaluationLeaseMember) : pyval :=
  str_dict [("prior_status", VStr (status_text (prior_status m))); ("reservation_id", VStr (reservation_id m))].

Record EvaluationLease := mkLease {
  lease_id : string;
  generation : Z;
  stage : string;
  owner : string;
  members : list EvaluationLeaseMember;
  claimed_block : Z;
  initial_expires_block : Z;
  expires_block : Z;
}.

#[export] Instance lease_eq_dec : EqDecision EvaluationLease.
Proof. solve_decision. Defined.

Definition reservation_ids (l : EvaluationLease) : list string := reservation_id <$> members l.

Definition members_ok (ms : list EvaluationLeaseMember) : bool :=
  match ms with [] => false | _ => distinct (reservation_id <$> ms) end.

(** [EvaluationLease.__post_init__]; the members are already checked. *)
Definition make_lease (l : EvaluationLease) : result EvaluationLease :=
  _ ← _digest (lease_id l) "evaluation lease id";
  _ ← require_evaluation_owner (VStr (owner l));
  raise_if (generation l <=? 0) || negb (bool_decide (stage l ∈ EVALUATION_STAGES))
           || negb (members_ok (members l)) || (claimed_block l <? 0)
           || (initial_expires_block l <=? claimed_block l) || (expires_block l <? initial_expires_block l)
    with (EvaluationLeaseError "evaluation lease bounds are malformed");
  Ok l.

Record EvaluationLeaseEvent := mkEvent {
  sequence : Z;
  event_id : string;
  ev_lease_id : string;
  ev_generation : Z;
  event_index : Z;
  event_type : lease_event_type;
  ev_stage : string;
  ev_owner : string;
  ev_members : list EvaluationLeaseMember;
  finalized_block : Z;
  ev_expires_block : Z;
  result_digest : string;
  reason : string;
}.

#[export] Instance lease_event_eq_dec : EqDecision EvaluationLeaseEvent.
Proof. solve_decision. Defined.

Definition make_event (e : EvaluationLeaseEvent) : result EvaluationLeaseEvent :=
  _ ← _digest (event_id e) "event_id";
  _ ← _digest (ev_lease_id e) "lease_id";
  _ ← require_evaluation_owner (VStr (ev_owner e));
  raise_if (sequence e <=? 0) || (ev_generation e <=? 0) || (event_index e <? 0)
           || negb (bool_decide (ev_stage e ∈ EVALUATION_STAGES)) || negb (members_ok (ev_members e))
           || (finalized_block e <? 0) || (ev_expires_block e <=? 0)
           || (negb (String.eqb (result_digest e) "") && negb (is_sha256_hex (result_digest e)))
           || (2048 <? py_len (reason e))
    with (EvaluationLeaseError "evaluation lease event is malformed");
  Ok e.

(** ** Content identities *)

Definition _LEASE_DOMAIN : string := "cacheon.chain.evaluation-lease.v1".
Definition _EVENT_DOMAIN : string := "cacheon.chain.evaluation-lease-event.v1".

Definition evaluation_lease_id (scope_digest : string) (generation : Z) (stage owner : string)
    (members : list EvaluationLeaseMember) (claimed_block initial_expires_block : Z) : result string :=
  canonical_digest _LEASE_DOMAIN
    (str_dict [("claimed_block", VInt claimed_block); ("generation", VInt generation);
               ("initial_expires_block", VInt initial_expires_block);
               ("members", VList (member_to_dict <$> members)); ("owner", VStr owner);
               ("scope_digest", VStr scope_digest); ("stage", VStr stage)]) 1.

Definition evaluation_lease_event_id (lease : EvaluationLease) (event_index : Z) (event_type : lease_event_type)
    (finalized_block : Z) (result_digest reason : string) : result string :=
  canonical_digest _EVENT_DOMAIN
    (str_dict [("event_index", VInt event_index); ("event_type", VStr (event_type_text event_type));
               ("expires_block", VInt (expires_block lease)); ("finalized_block", VInt finalized_block);
               ("generation", VInt (generation lease)); ("lease_id", VStr (lease_id lease));
               ("members", VList (member_to_dict <$> members lease)); ("owner", VStr (owner lease));
               ("reason", VStr reason); ("result_digest", VStr result_digest);
               ("stage", VStr (stage lease))]) 1.

(** ** Lemmas *)

Lemma make_member_Ok rid prior m :
  make_member rid prior = Ok m -> m = mkMember rid prior /\ prior ∈ EVALUATION_PRIOR_STATUSES.
Proof.
  unfold make_member. intros H. inv_ok. step_guard H. injection H as <-.
  split; [done|]. by apply negb_false_iff, bool_decide_eq_true in Eg.
Qed.

Lemma make_lease_Ok l l' :
  make_lease l = Ok l' -> l' = l /\ members l <> [] /\ NoDup (reservation_ids l) /\
    0 < generation l /\ 0 <= claimed_block l < initial_expires_block l /\ initial_expires_block l <= expires_block l.
Proof.
  unfold make_lease. intros H. inv_ok. step_guard H. injection H as <-. split_bool.
  unfold members_ok, reservation_ids in *. destruct (members l) as [|m ms] eqn:E; [done|].
  split_and!; try done; try lia. by apply distinct_spec.
Qed.
