(* ===== verification/Recovery.v ===== *)
(** * Qualification recovery: phases and event histories

    [cacheon/chain/evaluation_recovery.py]: the durable record that owns one
    qualification lease while its carrier is orchestrated, the closed set of its
    phases, and which immutable event may follow which. The lease is typed, so
    the [type(...) is] guards of the code are the types here. *)

From S2P Require Import Prelude PyVal Identity Leases.

Open Scope Z_scope.

Definition EvaluationRecoveryError (m : string) : exn := Exn "EvaluationRecoveryError" m.

(** ** Vocabularies *)

Inductive RecoveryPhase :=
  | CLAIMED | PREPARED | PUBLICATION_COMMITTED | REQUEST_READY | RESULT_READY | EVIDENCE_IMPORTED | HELD.
Inductive RecoveryResolution := UNRESOLVED | PRE_RESIDENT_RELEASED | COMMITTED.
Inductive RecoveryAction := SAME_REQUEST | DOWNSTREAM_ONLY | IMPORT_ONLY | PRE_RESIDENT_RELEASE | HOLD | COMPLETE.
Inductive RecoveryEventType :=
  | EV_CLAIMED | EV_PREPARED | EV_PUBLICATION_COMMITTED | EV_REQUEST_READY | EV_RESULT_READY
  | EV_EVIDENCE_IMPORTED | EV_RENEWED | EV_HELD | EV_PRE_RESIDENT_RELEASED | EV_COMMITTED.

#[export] Instance phase_eq_dec : EqDecision RecoveryPhase.
Proof. solve_decision. Defined.
#[export] Instance resolution_eq_dec : EqDecision RecoveryResolution.
Proof. solve_decision. Defined.
#[export] Instance recovery_event_type_eq_dec : EqDecision RecoveryEventType.
Proof. solve_decision. Defined.

Definition phase_value (p : RecoveryPhase) : string :=
  match p with
  | CLAIMED => "claimed" | PREPARED => "prepared" | PUBLICATION_COMMITTED => "publication_committed"
  | REQUEST_READY => "request_ready" | RESULT_READY => "result_ready"
  | EVIDENCE_IMPORTED => "evidence_imported" | HELD => "held"
  end.
Definition resolution_value (r : RecoveryResolution) : string :=
  match r with
  | UNRESOLVED => "" | PRE_RESIDENT_RELEASED => "pre_resident_released" | COMMITTED => "committed"
  end.
Definition recovery_event_value (e : RecoveryEventType) : string :=
  match e with
  | EV_CLAIMED => "claimed" | EV_PREPARED => "prepared" | EV_PUBLICATION_COMMITTED => "publication_committed"
  | EV_REQUEST_READY => "request_ready" | EV_RESULT_READY => "result_ready"
  | EV_EVIDENCE_IMPORTED => "evidence_imported" | EV_RENEWED => "renewed" | EV_HELD => "held"
  | EV_PRE_RESIDENT_RELEASED => "pre_resident_released" | EV_COMMITTED => "committed"
  end.


Definition STALE_INCUMBENT_RELEASE_REASON_PREFIX : string := "systemic:incumbent_changed:v1:".
Definition WORKER_PRE_RESIDENT_RELEASE_REASONS : list string :=
  ["worker_pre_resident:adapter_request_failed"; "worker_pre_resident:adapter_start_failed"].

Definition _require_reason (reason : string) (required : bool) : result string :=
  raise_if (2048 <? py_len reason) || negb (is_stripped reason) || has_control reason
           || (required && negb (truthy reason))
    with (EvaluationRecoveryError "evaluation recovery reason is malformed");
  Ok reason.

(** ** The stale-incumbent release reason *)

Definition colon : chr := Ascii.ascii_of_N 58.

Definition stale_incumbent_release_reason_digests (reason : string) :
    option (string * string * string * string * string) :=
  if negb (starts_with STALE_INCUMBENT_RELEASE_REASON_PREFIX reason) then None
  else
    let fields := split_on colon (drop_prefix STALE_INCUMBENT_RELEASE_REASON_PREFIX reason) in
    if negb (length fields =? 5)%nat
       || existsb (fun v => negb (String.length v =? 64)%nat || negb (all_chars is_lower_hex v)) fields
    then None
    else match fields with [a; b; c; d; e] => Some (a, b, c, d, e) | _ => None end.

Definition stale_incumbent_release_reason (product_digest previous_stack_digest previous_tree_digest
    live_stack_digest live_tree_digest : string) : result string :=
  _ ← require_sha256_hex (VStr product_digest) "stale qualification product digest";
  _ ← require_sha256_hex (VStr previous_stack_digest) "stale qualification incumbent stack digest";
  _ ← require_sha256_hex (VStr previous_tree_digest) "stale qualification incumbent tree digest";
  _ ← require_sha256_hex (VStr live_stack_digest) "live qualification stack digest";
  _ ← require_sha256_hex (VStr live_tree_digest) "live qualification tree digest";
  Ok (string_app STALE_INCUMBENT_RELEASE_REASON_PREFIX
        (join ":" [product_digest; previous_stack_digest; previous_tree_digest; live_stack_digest;
                   live_tree_digest])).

(** ** Identities *)

Definition _RECOVERY_DOMAIN : string := "cacheon.evaluation-recovery.v1".
Definition _EVENT_DOMAIN : string := "cacheon.evaluation-recovery-event.v1".

Definition evaluation_recovery_id (lease : EvaluationLease) : result string :=
  raise_if negb (String.eqb (stage lease) "qualification")
    with (EvaluationRecoveryError "evaluation recovery requires an exact qualification lease");
  canonical_digest _RECOVERY_DOMAIN
    (str_dict [("generation", VInt (generation lease)); ("lease_id", VStr (lease_id lease));
               ("members", VList (member_to_dict <$> members lease)); ("owner", VStr (owner lease))]) 1.

Record recovery_event := mkRecoveryEvent {
  re_sequence : Z;
  re_event_id : string;
  re_recovery_id : string;
  re_lease_id : string;
  re_revision : Z;
  re_type : RecoveryEventType;
  re_phase : RecoveryPhase;
  re_resolution : RecoveryResolution;
  re_finalized : Z;
  re_expires : Z;
  re_plan_digest : string;
  re_request_id : string;
  re_reason : string;
}.

Definition evaluation_recovery_event_id (recovery_id lease_id : string) (revision : Z)
    (event_type : RecoveryEventType) (phase : RecoveryPhase) (resolution : RecoveryResolution)
    (finalized_block expires_block : Z) (plan_digest request_id reason : string) : result string :=
  _ ← require_sha256_hex (VStr recovery_id) "evaluation recovery id";
  _ ← require_sha256_hex (VStr lease_id) "evaluation recovery lease id";
  raise_if (revision <? 0) || (finalized_block <? 0) || (expires_block <=? 0)
    with (EvaluationRecoveryError "evaluation recovery event input is malformed");
  _ ← _require_reason reason false;
  raise_if negb (Bool.eqb (truthy plan_digest) (truthy request_id))
    with (EvaluationRecoveryError "evaluation recovery plan identity is partial");
  _ ← (if truthy plan_digest then
         _ ← require_sha256_hex (VStr plan_digest) "evaluation recovery plan digest";
         require_sha256_hex (VStr request_id) "evaluation recovery request id"
       else Ok "");
  canonical_digest _EVENT_DOMAIN
    (str_dict [("event_type", VStr (recovery_event_value event_type)); ("expires_block", VInt expires_block);
               ("finalized_block", VInt finalized_block); ("lease_id", VStr lease_id);
               ("phase", VStr (phase_value phase)); ("plan_digest", VStr plan_digest);
               ("reason", VStr reason); ("recovery_id", VStr recovery_id); ("request_id", VStr request_id);
               ("resolution", VStr (resolution_value resolution)); ("revision", VInt revision)]) 1.

(** [EvaluationRecoveryEvent.__post_init__] *)
Definition make_recovery_event (e : recovery_event) : result recovery_event :=
  raise_if re_sequence e <=? 0 with (EvaluationRecoveryError "evaluation recovery event is malformed");
  _ ← require_sha256_hex (VStr (re_event_id e)) "evaluation recovery event id";
  expected ← evaluation_recovery_event_id (re_recovery_id e) (re_lease_id e) (re_revision e) (re_type e)
               (re_phase e) (re_resolution e) (re_finalized e) (re_expires e) (re_plan_digest e)
               (re_request_id e) (re_reason e);
  raise_if negb (String.eqb (re_event_id e) expected)
    with (EvaluationRecoveryError "evaluation recovery event identity is corrupt");
  Ok e.

Lemma make_recovery_event_Ok e e' : make_recovery_event e = Ok e' -> e' = e.
Proof.
  unfold make_recovery_event. generalize "evaluation recovery event is malformed" "evaluation recovery event id".
  intros f1 f2 H. step_guard H. inv_ok. step_guard H. congruence.
Qed.

(** ** The recovery record *)

Record EvaluationRecovery := mkRecovery {
  recovery_id : string;
  rec_lease : EvaluationLease;
  revision : Z;
  phase : RecoveryPhase;
  resolution : RecoveryResolution;
  created_block : Z;
  updated_block : Z;
  plan_digest : string;
  request_id : string;
  request_plan : string;
  rec_reason : string;
}.

#[export] Instance recovery_eq_dec : EqDecision EvaluationRecovery.
Proof. solve_decision. Defined.

Definition is_phase (p q : RecoveryPhase) : bool := bool_decide (p = q).
Definition is_resolution (p q : RecoveryResolution) : bool := bool_decide (p = q).

(** [EvaluationRecovery.__post_init__] *)
Definition make_recovery (r : EvaluationRecovery) : result EvaluationRecovery :=
  _ ← require_sha256_hex (VStr (recovery_id r)) "evaluation recovery id";
  expected ← (if negb (String.eqb (stage (rec_lease r)) "qualification")
              then Raise (EvaluationRecoveryError "evaluation recovery is malformed")
              else evaluation_recovery_id (rec_lease r));
  raise_if negb (String.eqb (recovery_id r) expected) || (revision r <? 0) || (created_block r <? 0)
           || (updated_block r <? created_block r)
    with (EvaluationRecoveryError "evaluation recovery is malformed");
  _ ← _require_reason (rec_reason r) false;
  let plan_bound := truthy (request_plan r) in
  raise_if negb (Bool.eqb plan_bound (truthy (plan_digest r)))
           || negb (Bool.eqb plan_bound (truthy (request_id r)))
           || (is_phase (phase r) CLAIMED && plan_bound)
           || (negb (is_phase (phase r) CLAIMED || is_phase (phase r) HELD) && negb plan_bound)
    with (EvaluationRecoveryError "evaluation recovery request plan is malformed");
  _ ← (if plan_bound then
         _ ← require_sha256_hex (VStr (plan_digest r)) "evaluation recovery plan digest";
         require_sha256_hex (VStr (request_id r)) "evaluation recovery request id"
       else Ok "");
  raise_if negb (Bool.eqb (is_phase (phase r) HELD || is_resolution (resolution r) PRE_RESIDENT_RELEASED)
                          (truthy (rec_reason r)))
           || (negb (is_resolution (resolution r) UNRESOLVED) && is_phase (phase r) HELD)
    with (EvaluationRecoveryError "evaluation recovery terminal state conflicts");
  Ok r.

(** What a recovery record guarantees of its plan and its reason. *)
Record recovery_wf (r : EvaluationRecovery) : Prop := {
  wf_digest : truthy (plan_digest r) = truthy (request_plan r);
  wf_request : truthy (request_id r) = truthy (request_plan r);
  wf_claimed : phase r = CLAIMED -> request_plan r = "";
  wf_planned : phase r <> CLAIMED -> phase r <> HELD -> request_plan r <> "";
  wf_reason : truthy (rec_reason r) = true <-> phase r = HELD \/ resolution r = PRE_RESIDENT_RELEASED;
  wf_held : resolution r <> UNRESOLVED -> phase r <> HELD;
}.

Lemma make_recovery_Ok r r' : make_recovery r = Ok r' -> r' = r /\ recovery_wf r.
Proof.
  unfold make_recovery. generalize "evaluation recovery is malformed" "evaluation recovery id".
  intros f1 f2 H. inv_ok. step_guard H. inv_ok. step_guard H. inv_ok. step_guard H. split; [congruence|].
  repeat match goal with H : _ || _ = false |- _ => apply orb_false_iff in H as [? ?] end.
  repeat match goal with H : negb (Bool.eqb _ _) = false |- _ => apply negb_false_iff, eqb_prop in H end.
  split.
  - congruence.
  - congruence.
  - intros E. unfold is_phase in *. rewrite bool_decide_eq_true_2 in * by done. unfold truthy in *.
    by destruct (String.eqb_spec (request_plan r) "").
  - intros E1 E2. unfold is_phase in *. rewrite !bool_decide_eq_false_2 in * by done. unfold truthy in *.
    by destruct (String.eqb_spec (request_plan r) "").
  - match goal with H : _ = truthy (rec_reason r) |- _ => rewrite <- H end.
    rewrite orb_true_iff. unfold is_phase, is_resolution. by rewrite !bool_decide_eq_true.
  - intros E1 E2. unfold is_phase, is_resolution in *.
    rewrite (bool_decide_eq_true_2 (phase r = HELD)), (bool_decide_eq_false_2 (resolution r = UNRESOLVED)) in * by done. done.
Qed.

Definition action (r : EvaluationRecovery) : RecoveryAction :=
  if is_resolution (resolution r) PRE_RESIDENT_RELEASED then PRE_RESIDENT_RELEASE
  else if is_resolution (resolution r) COMMITTED then COMPLETE
  else if is_phase (phase r) HELD then HOLD
  else if is_phase (phase r) CLAIMED then PRE_RESIDENT_RELEASE
  else if is_phase (phase r) PREPARED || is_phase (phase r) PUBLICATION_COMMITTED
          || is_phase (phase r) REQUEST_READY then SAME_REQUEST
  else IMPORT_ONLY.

(** ** Which event may follow which *)

Definition same_plan (previous event : recovery_event) : bool :=
  String.eqb (re_plan_digest event) (re_plan_digest previous)
  && String.eqb (re_request_id event) (re_request_id previous).

Definition phase_continuation (previous event : recovery_event) : bool :=
  is_resolution (re_resolution previous) UNRESOLVED && is_resolution (re_resolution event) UNRESOLVED
  && negb (is_phase (re_phase previous) HELD).

Definition terminal_hold_reopen (previous event : recovery_event) : bool :=
  is_resolution (re_resolution previous) UNRESOLVED && is_phase (re_phase previous) HELD
  && (starts_with "remote_qualification_hold:" (re_reason previous)
      || bool_decide (re_reason previous ∈ ["post_publication_no_decision"; "transport_hold:incumbent_changed"]))
  && is_resolution (re_resolution event) UNRESOLVED.

(** The step from one phase to the next, without a reason. *)
Definition phase_step (from to : RecoveryPhase) (previous event : recovery_event) : bool :=
  phase_continuation previous event && is_phase (re_phase previous) from && is_phase (re_phase event) to
  && negb (truthy (re_reason event)).

Definition released_step (previous event : recovery_event) : bool :=
  match stale_incumbent_release_reason_digests (re_reason event) with
  | Some _ =>
      is_resolution (re_resolution previous) UNRESOLVED
      && (is_phase (re_phase previous) REQUEST_READY || is_phase (re_phase previous) RESULT_READY
          || is_phase (re_phase previous) EVIDENCE_IMPORTED)
      && is_phase (re_phase event) REQUEST_READY
      && is_resolution (re_resolution event) PRE_RESIDENT_RELEASED
  | None =>
      let phase_permitted :=
        if bool_decide (re_reason event ∈ WORKER_PRE_RESIDENT_RELEASE_REASONS)
        then is_phase (re_phase previous) REQUEST_READY
        else is_phase (re_phase previous) CLAIMED || is_phase (re_phase previous) PREPARED in
      is_resolution (re_resolution previous) UNRESOLVED && phase_permitted
      && is_phase (re_phase event) (re_phase previous)
      && is_resolution (re_resolution event) PRE_RESIDENT_RELEASED && truthy (re_reason event)
  end.

Definition valid_evaluation_recovery_event_transition (previous event : recovery_event) : bool :=
  if negb ((re_revision event =? re_revision previous + 1)
           && (re_finalized previous <=? re_finalized event) && (re_expires previous <=? re_expires event))
  then false
  else if bool_decide (re_type event = EV_RENEWED) then
    same_plan previous event && is_phase (re_phase event) (re_phase previous)
    && is_resolution (re_resolution event) (re_resolution previous)
    && String.eqb (re_reason event) (re_reason previous)
    && (re_expires previous <? re_expires event)
    && is_resolution (re_resolution previous) UNRESOLVED && negb (is_phase (re_phase previous) HELD)
  else if negb (re_expires event =? re_expires previous) then false
  else match re_type event with
  | EV_PREPARED =>
      phase_step CLAIMED PREPARED previous event && negb (truthy (re_plan_digest previous))
      && truthy (re_plan_digest event) && truthy (re_request_id event)
  | type =>
    if negb (same_plan previous event) then false
    else match type with
    | EV_PUBLICATION_COMMITTED => phase_step PREPARED PUBLICATION_COMMITTED previous event
    | EV_REQUEST_READY => phase_step PUBLICATION_COMMITTED REQUEST_READY previous event
    | EV_RESULT_READY =>
        (phase_continuation previous event || terminal_hold_reopen previous event)
        && (is_phase (re_phase previous) PUBLICATION_COMMITTED || is_phase (re_phase previous) REQUEST_READY
            || is_phase (re_phase previous) HELD)
        && is_phase (re_phase event) RESULT_READY && negb (truthy (re_reason event))
    | EV_EVIDENCE_IMPORTED => phase_step RESULT_READY EVIDENCE_IMPORTED previous event
    | EV_HELD =>
        is_resolution (re_resolution previous) UNRESOLVED && negb (is_phase (re_phase previous) HELD)
        && is_phase (re_phase event) HELD && is_resolution (re_resolution event) UNRESOLVED
        && truthy (re_reason event)
    | EV_PRE_RESIDENT_RELEASED => released_step previous event
    | EV_COMMITTED =>
        is_resolution (re_resolution previous) UNRESOLVED && negb (is_phase (re_phase previous) HELD)
        && is_phase (re_phase event) (re_phase previous) && is_resolution (re_resolution event) COMMITTED
        && negb (truthy (re_reason event))
    | _ => false
    end
  end.

(** ** The transition relation

    [follows] says declaratively which event may follow which; the boolean check
    of the code decides it ([valid_transition_equiv]). *)

Lemma is_phase_true p q : is_phase p q = true <-> p = q.
Proof. apply bool_decide_eq_true. Qed.
Lemma is_phase_false p q : is_phase p q = false <-> p <> q.
Proof. apply bool_decide_eq_false. Qed.
Lemma is_resolution_true p q : is_resolution p q = true <-> p = q.
Proof. apply bool_decide_eq_true. Qed.
Lemma truthy_true s : truthy s = true <-> s <> "".
Proof. unfold truthy. by rewrite negb_true_iff, String.eqb_neq. Qed.
Lemma truthy_false s : truthy s = false <-> s = "".
Proof. unfold truthy. by rewrite negb_false_iff, String.eqb_eq. Qed.
Lemma same_plan_true p e :
  same_plan p e = true <-> re_plan_digest e = re_plan_digest p /\ re_request_id e = re_request_id p.
Proof. unfold same_plan. by rewrite andb_true_iff, !String.eqb_eq. Qed.

Create Rewrite HintDb phases.
#[export] Hint Rewrite is_phase_true is_phase_false is_resolution_true truthy_true truthy_false same_plan_true
  andb_true_iff orb_true_iff negb_true_iff negb_false_iff Z.eqb_eq Z.leb_le Z.ltb_lt String.eqb_eq
  @bool_decide_eq_true : phases.

(** The event types that move an unresolved recovery to its next phase. *)
Inductive advances : RecoveryEventType -> RecoveryPhase -> RecoveryPhase -> Prop :=
  | adv_published : advances EV_PUBLICATION_COMMITTED PREPARED PUBLICATION_COMMITTED
  | adv_requested : advances EV_REQUEST_READY PUBLICATION_COMMITTED REQUEST_READY
  | adv_result p : p = PUBLICATION_COMMITTED \/ p = REQUEST_READY -> advances EV_RESULT_READY p RESULT_READY
  | adv_imported : advances EV_EVIDENCE_IMPORTED RESULT_READY EVIDENCE_IMPORTED.

(** The phases from which a release with this reason is legal, and the phase it records. *)
Inductive releases (reason : string) : RecoveryPhase -> RecoveryPhase -> Prop :=
  | rel_stale p : is_Some (stale_incumbent_release_reason_digests reason) ->
      p = REQUEST_READY \/ p = RESULT_READY \/ p = EVIDENCE_IMPORTED -> releases reason p REQUEST_READY
  | rel_worker : stale_incumbent_release_reason_digests reason = None ->
      reason ∈ WORKER_PRE_RESIDENT_RELEASE_REASONS -> releases reason REQUEST_READY REQUEST_READY
  | rel_plain p : stale_incumbent_release_reason_digests reason = None ->
      reason ∉ WORKER_PRE_RESIDENT_RELEASE_REASONS -> reason <> "" -> p = CLAIMED \/ p = PREPARED ->
      releases reason p p.

Definition reopenable (reason : string) : Prop :=
  starts_with "remote_qualification_hold:" reason = true \/
  reason ∈ ["post_publication_no_decision"; "transport_hold:incumbent_changed"].

Inductive moves (previous event : recovery_event) : Prop :=
  | mv_renew :
      re_type event = EV_RENEWED -> re_phase previous <> HELD -> re_phase event = re_phase previous ->
      re_resolution event = UNRESOLVED -> re_reason event = re_reason previous ->
      re_expires previous < re_expires event -> moves previous event
  | mv_advance :
      advances (re_type event) (re_phase previous) (re_phase event) -> re_resolution event = UNRESOLVED ->
      re_reason event = "" -> re_expires event = re_expires previous -> moves previous event
  | mv_reopen :
      re_type event = EV_RESULT_READY -> re_phase previous = HELD -> reopenable (re_reason previous) ->
      re_phase event = RESULT_READY -> re_resolution event = UNRESOLVED -> re_reason event = "" ->
      re_expires event = re_expires previous -> moves previous event
  | mv_hold :
      re_type event = EV_HELD -> re_phase previous <> HELD -> re_phase event = HELD ->
      re_resolution event = UNRESOLVED -> re_reason event <> "" -> re_expires event = re_expires previous ->
      moves previous event
  | mv_release :
      re_type event = EV_PRE_RESIDENT_RELEASED -> releases (re_reason event) (re_phase previous) (re_phase event) ->
      re_resolution event = PRE_RESIDENT_RELEASED -> re_expires event = re_expires previous -> moves previous event
  | mv_commit :
      re_type event = EV_COMMITTED -> re_phase previous <> HELD -> re_phase event = re_phase previous ->
      re_resolution event = COMMITTED -> re_reason event = "" -> re_expires event = re_expires previous ->
      moves previous event.

Record clock (previous event : recovery_event) : Prop := {
  clock_revision : re_revision event = re_revision previous + 1;
  clock_block : re_finalized previous <= re_finalized event;
  clock_expires : re_expires previous <= re_expires event;
  clock_open : re_resolution previous = UNRESOLVED;
}.

(** Preparing binds the plan, once; every other event keeps it. *)
Definition prepares (previous event : recovery_event) : Prop :=
  re_type event = EV_PREPARED /\ re_phase previous = CLAIMED /\ re_phase event = PREPARED /\
  re_resolution event = UNRESOLVED /\ re_plan_digest previous = "" /\ re_plan_digest event <> "" /\
  re_request_id event <> "" /\ re_reason event = "" /\ re_expires event = re_expires previous.

Definition keeps_plan (previous event : recovery_event) : Prop :=
  re_plan_digest event = re_plan_digest previous /\ re_request_id event = re_request_id previous.

Definition follows (previous event : recovery_event) : Prop :=
  clock previous event /\ (prepares previous event \/ (keeps_plan previous event /\ moves previous event)).

Lemma phase_step_true from to p e :
  phase_step from to p e = true <->
  re_resolution p = UNRESOLVED /\ re_resolution e = UNRESOLVED /\ re_phase p <> HELD /\ re_phase p = from /\
  re_phase e = to /\ re_reason e = "".
Proof. unfold phase_step, phase_continuation. autorewrite with phases. naive_solver. Qed.

Lemma released_step_true p e :
  released_step p e = true <->
  re_resolution p = UNRESOLVED /\ releases (re_reason e) (re_phase p) (re_phase e) /\
  re_resolution e = PRE_RESIDENT_RELEASED.
Proof.
  unfold released_step. destruct (stale_incumbent_release_reason_digests (re_reason e)) eqn:Es.
  - autorewrite with phases. split.
    + intros [[[? Hp] ->] ?]. split_and!; [done| |done]. apply rel_stale; [by rewrite Es|]. naive_solver.
    + intros (? & Hr & ?). inversion Hr; subst; try congruence. naive_solver.
  - case_bool_decide as Hw; autorewrite with phases; split.
    + intros [[[[? ->] ->] ?] ?]. split_and!; [done|by apply rel_worker|done].
    + intros (? & Hr & ?). inversion Hr as [? Hs|H1|]; subst; try done; [rewrite Es in Hs; by destruct Hs|].
      split_and!; try done. intros E. rewrite E in Hw. clear -Hw. unfold WORKER_PRE_RESIDENT_RELEASE_REASONS in Hw. set_solver.
    + intros [[[[? Hp] ->] ?] ?]. split_and!; [done|by apply rel_plain|done].
    + intros (? & Hr & ?). inversion Hr as [? Hs| |]; subst; [rewrite Es in Hs; by destruct Hs|done|].
      by split_and!.
Qed.

Ltac inv_advances :=
  match goal with
  | H : advances (re_type ?e) _ _, Et : re_type ?e = _ |- _ => rewrite Et in H; inversion H; subst
  end.

Lemma valid_transition_equiv (previous event : recovery_event) :
  valid_evaluation_recovery_event_transition previous event = true <-> follows previous event.
Proof.
  unfold valid_evaluation_recovery_event_transition, follows.
  destruct ((re_revision event =? re_revision previous + 1)
    && (re_finalized previous <=? re_finalized event) && (re_expires previous <=? re_expires event)) eqn:Ec; cbn [negb].
  2:{ split; [done|]. intros [[? ? ? ?] _]. exfalso. lia. }
  split_bool. 
  case_bool_decide as Hn.
  { autorewrite with phases. split.
    - intros [[[[[[? Hp] Hr] ?] ?] Ho] ?]. rewrite Ho in Hr. split; [split; (lia || done)|]. right.
      split; [done|]. by apply mv_renew.
    - intros [[? ? ? Ho] [Hprep|[Hk Hm]]]; [destruct Hprep as [? _]; congruence|]. rewrite Ho.
      inversion Hm; try congruence; [naive_solver|]. match goal with H : advances _ _ _ |- _ => inversion H end; congruence. }
  destruct (Z.eqb_spec (re_expires event) (re_expires previous)) as [He|He]; cbn [negb].
  2:{ split; [done|]. intros [_ [Hprep|[_ Hm]]]; [by destruct Hprep as (?&?&?&?&?&?&?&?&?)|by inversion Hm]. }
  assert (Hclock : re_resolution previous = UNRESOLVED -> clock previous event) by (intros; split; (lia || done)).
  assert (Hif : forall b : bool, (if negb (same_plan previous event) then false else b) = true <->
            keeps_plan previous event /\ b = true).
  { intros b. unfold keeps_plan. rewrite <- same_plan_true. destruct (same_plan previous event); simpl; naive_solver. }
  destruct (re_type event) eqn:Et; rewrite ?Hif; rewrite ?phase_step_true, ?released_step_true;
    unfold phase_continuation, terminal_hold_reopen; autorewrite with phases; rewrite ?phase_step_true; split.
  all: try by (intros [Hc [(? & ?)|[Hk Hm]]]; [congruence|]; pose proof (clock_open _ _ Hc); inversion Hm;
    first [congruence | inv_advances; split_and!; auto; congruence | split_and!; auto; congruence]).
  - by intros [_ ?].
  - intros [[[(? & ? & ? & ? & ? & ?) ?] ?] ?]. split; [auto|]. left. by unfold prepares.
  - intros [Hc [(? & ? & ? & ? & ? & ? & ? & ? & ?)|[Hk Hm]]].
    + pose proof (clock_open _ _ Hc). split_and!; congruence.
    + inversion Hm; try congruence. inv_advances.
  - intros (Hk & ? & ? & ? & E & E' & ?). split; [auto|]. right. split; [done|]. apply mv_advance; try done.
    rewrite Et, E, E'. constructor.
  - intros (Hk & ? & ? & ? & E & E' & ?). split; [auto|]. right. split; [done|]. apply mv_advance; try done.
    rewrite Et, E, E'. constructor.
  - intros [Hk [[[[[[? ?] Hh]|[[[? Hh] Hr] ?]] Hp] E'] ?]]; (split; [auto|]; right; split; [done|]).
    + apply mv_advance; try done. rewrite Et, E'. constructor. tauto.
    + by apply mv_reopen.
  - intros [Hc [(? & ?)|[Hk Hm]]]; [congruence|]. pose proof (clock_open _ _ Hc).
    inversion Hm; try congruence; [inv_advances|].
    + split; [done|]. split; [|done]. split; [|done]. split; [left; split_and!; intuition congruence|]. tauto.
    + split; [done|]. split; [|done]. split; [|done]. split; [right; unfold reopenable in *; tauto|]. by right.
  - intros (Hk & ? & ? & ? & E & E' & ?). split; [auto|]. right. split; [done|]. apply mv_advance; try done.
    rewrite Et, E, E'. constructor.
  - by intros [_ ?].
  - intros [Hk [[[[? ?] ?] ?] ?]]. split; [auto|]. right. split; [done|]. by apply mv_hold.
  - intros (Hk & ? & ? & ?). split; [auto|]. right. split; [done|]. by apply mv_release.
  - intros [Hk [[[[? ?] ?] ?] ?]]. split; [auto|]. right. split; [done|]. by apply mv_commit.
Qed.

(** The transition check of the code decides the declared relation: event [event] may follow
    [previous] exactly when the revision is the next one, blocks and deadlines do not go back, the
    recovery is still open, and the event is one of the declared moves from the previous phase. *)
Theorem valid_transition_spec (previous event : recovery_event) :
  valid_evaluation_recovery_event_transition previous event = true <-> follows previous event.
Proof. apply valid_transition_equiv. Qed.

(** ** Histories *)

(** The claim that opens a history ([evaluation_recovery_events]). *)
Definition claim_ok (e : recovery_event) : bool :=
  bool_decide (re_type e = EV_CLAIMED) && (re_revision e =? 0) && is_phase (re_phase e) CLAIMED
  && is_resolution (re_resolution e) UNRESOLVED && negb (truthy (re_reason e))
  && negb (truthy (re_plan_digest e)) && negb (truthy (re_request_id e)).

(** The loop over the later events. *)
Fixpoint chain_ok (lease : string) (previous : recovery_event) (events : list recovery_event) : bool :=
  match events with
  | [] => true
  | event :: events =>
      negb (negb (String.eqb (re_lease_id event) lease) || (re_sequence event <=? re_sequence previous)
            || negb (valid_evaluation_recovery_event_transition previous event))
      && chain_ok lease event events
  end.

(** What holds of an event and any later one. *)
Record before (e f : recovery_event) : Prop := {
  before_revision : re_revision e < re_revision f;
  before_block : re_finalized e <= re_finalized f;
  before_expires : re_expires e <= re_expires f;
  before_open : re_resolution e = UNRESOLVED;
  before_plan : re_plan_digest e <> "" ->
    re_plan_digest f = re_plan_digest e /\ re_request_id f = re_request_id e;
}.

Lemma follows_before p e : follows p e -> before p e.
Proof.
  intros [[Hr Hb He Ho] Hm]. split; try lia; try done. intros Hp.
  destruct Hm as [(? & ? & ? & ? & ? & ?)|[Hk _]]; [congruence|exact Hk].
Qed.

#[export] Instance before_trans : Transitive before.
Proof.
  intros e f g [? ? ? ? Hp] [? ? ? ? Hq]. split; try lia; try done. intros Hn.
  destruct (Hp Hn) as [E E']. rewrite <- E, <- E'. apply Hq. by rewrite E.
Qed.

Lemma chain_before lease c l : chain_ok lease c l = true -> StronglySorted before (c :: l).
Proof.
  revert c. induction l as [|e l IH]; intros c H; [repeat constructor|]. cbn [chain_ok] in H.
  apply andb_true_iff in H as [He H]. apply negb_true_iff, orb_false_iff in He as [_ He].
  apply negb_false_iff, valid_transition_equiv, follows_before in He. specialize (IH e H).
  constructor; [done|]. inversion IH as [|?? _ Hl]; subst. constructor; [done|].
  eapply Forall_impl; [exact Hl|]. intros f Hf. by etransitivity.
Qed.

Lemma chain_revisions lease n claim events :
  re_revision claim = Z.of_nat n -> chain_ok lease claim events = true ->
  forall i e, (claim :: events) !! i = Some e -> re_revision e = Z.of_nat (n + i).
Proof.
  revert n claim. induction events as [|e l IH]; intros n c Hr H [|i] f Hf; simpl in Hf;
    try (injection Hf as <-; rewrite Nat.add_0_r; lia).
  { done. }
  cbn [chain_ok] in H. apply andb_true_iff in H as [He H]. apply negb_true_iff, orb_false_iff in He as [_ He].
  apply negb_false_iff, valid_transition_equiv in He as [[Hrev _ _ _] _].
  replace (n + S i)%nat with (S n + i)%nat by lia. by apply (IH (S n) e); [lia|..].
Qed.

(** In every history that the store accepts the revisions count up from zero, blocks and deadlines
    never go back, a bound request plan is never replaced, and only the last event may resolve the
    recovery. *)
Theorem history_facts (lease : string) (claim : recovery_event) (events : list recovery_event) :
  claim_ok claim = true -> chain_ok lease claim events = true ->
  (forall i e, (claim :: events) !! i = Some e -> re_revision e = Z.of_nat i) /\
  (forall i j e f, (claim :: events) !! i = Some e -> (claim :: events) !! j = Some f -> (i < j)%nat ->
     re_finalized e <= re_finalized f /\ re_expires e <= re_expires f /\ re_resolution e = UNRESOLVED /\
     (re_plan_digest e <> "" -> re_plan_digest f = re_plan_digest e /\ re_request_id f = re_request_id e)).
Proof.
  intros Hc Hch. split.
  - unfold claim_ok in Hc. autorewrite with phases in Hc.
    assert (Hr : re_revision claim = Z.of_nat 0) by tauto. clear Hc.
    by apply (chain_revisions lease 0).
  - intros i j e f He Hf Hij. pose proof (chain_before _ _ _ Hch) as Hs.
    rewrite <- (take_drop j (claim :: events)) in Hs.
    destruct (StronglySorted_app_le _ _ _ e f Hs) as [? ? ? ? ?].
    + apply (list_elem_of_lookup_2 _ i). by rewrite lookup_take_lt.
    + apply (list_elem_of_lookup_2 _ 0). by rewrite lookup_drop, Nat.add_0_r.
    + done.
Qed.

Definition example_claim : recovery_event :=
  mkRecoveryEvent 1 "" "r" "l" 0 EV_CLAIMED CLAIMED UNRESOLVED 5 35 "" "" "".
Definition example_events : list recovery_event :=
  [mkRecoveryEvent 2 "" "r" "l" 1 EV_PREPARED PREPARED UNRESOLVED 6 35 "p" "q" "";
   mkRecoveryEvent 3 "" "r" "l" 2 EV_RENEWED PREPARED UNRESOLVED 7 60 "p" "q" "";
   mkRecoveryEvent 5 "" "r" "l" 3 EV_PRE_RESIDENT_RELEASED PREPARED PRE_RESIDENT_RELEASED 8 60 "p" "q" "operator"].

Lemma history_facts_witness :
  re_resolution example_claim = UNRESOLVED /\
  (forall i e, (example_claim :: example_events) !! i = Some e -> re_revision e = Z.of_nat i).
Proof.
  split; [reflexivity|]. apply (history_facts "l" example_claim example_events); vm_compute; reflexivity.
Defined.

(** ** The release reason *)

Lemma require_sha256_hex_str s field t :
  require_sha256_hex (VStr s) field = Ok t -> t = s /\ is_sha256_hex s = true.
Proof. simpl. destruct (is_sha256_hex s) eqn:E; [|done]. intros [= <-]. done. Qed.

Lemma hex_no_colon s : all_chars is_lower_hex s = true -> all_chars (fun c => negb (Ascii.eqb c colon)) s = true.
Proof.
  induction s as [|c s IH]; simpl; [done|]. intros [Hc Hs]%andb_true_iff. rewrite IH by done.
  rewrite andb_true_r. apply negb_true_iff. destruct (Ascii.eqb_spec c colon) as [->|]; done.
Qed.

Lemma digest_field_ok s :
  negb (String.length s =? 64)%nat || negb (all_chars is_lower_hex s) = negb (is_sha256_hex s).
Proof. unfold is_sha256_hex. by rewrite negb_andb. Qed.

Lemma stale_reason_equiv (a b c d e reason : string) :
  stale_incumbent_release_reason a b c d e = Ok reason <->
  stale_incumbent_release_reason_digests reason = Some (a, b, c, d, e).
Proof.
  unfold stale_incumbent_release_reason, stale_incumbent_release_reason_digests.
  generalize STALE_INCUMBENT_RELEASE_REASON_PREFIX. intros prefix. split.
  - unfold require_sha256_hex. destruct (is_sha256_hex a) eqn:Ha; [|done]. destruct (is_sha256_hex b) eqn:Hb; [|done].
    destruct (is_sha256_hex c) eqn:Hc; [|done]. destruct (is_sha256_hex d) eqn:Hd; [|done].
    destruct (is_sha256_hex e) eqn:He; [|done]. cbn [mbind result_bind]. intros H.
    assert (reason = string_app prefix (join ":" [a; b; c; d; e])) as -> by congruence.
    assert (Hs : forall t, starts_with prefix (string_app prefix t) = true)
      by (intros t; apply starts_with_spec; eauto).
    rewrite Hs, drop_prefix_app. cbn [negb]. change ":" with (String colon EmptyString).
    rewrite split_on_join; [|done|].
    + cbn [length existsb]. by rewrite !digest_field_ok, Ha, Hb, Hc, Hd, He.
    + unfold is_sha256_hex in *. split_bool. repeat constructor; by apply hex_no_colon.
  - destruct (starts_with _ reason) eqn:Hs; [|done]. cbn [negb].
    apply starts_with_spec in Hs as [t ->]. rewrite drop_prefix_app. pose proof (join_split_on colon t) as Hj.
    destruct (split_on colon t) as [|a' [|b' [|c' [|d' [|e' [|? ?]]]]]]; try done. cbn [length existsb].
    rewrite !digest_field_ok. cbn [Nat.eqb negb orb]. destruct (_ || _) eqn:E; [done|]. intros [= <- <- <- <- <-].
    split_bool. unfold require_sha256_hex.
    repeat match goal with H : is_sha256_hex _ = true |- _ => rewrite H; clear H end. cbn [mbind result_bind].
    by rewrite <- Hj.
Qed.

(** The stale-incumbent release reason carries its five digests: reading back a formatted reason
    gives them, and a reason that reads as five digests is the one formatted from them. *)
Theorem stale_reason_roundtrip (a b c d e reason : string) :
  stale_incumbent_release_reason a b c d e = Ok reason <->
  stale_incumbent_release_reason_digests reason = Some (a, b, c, d, e).
Proof. apply stale_reason_equiv. Qed.
