(* ===== verification/Stack.v ===== *)
(** * Evaluation stacks

    [cacheon/stack_manifest.py]: contributions, the manifest of a complete
    incumbent, the context it is validated against, and the replacement of one
    target. [cacheon/stack_plan.py]: the identity of a materialized arm, one
    target transition, and the marginal arm that binds them. Resolving targets
    in the catalog ([plan_marginal_arm]) is outside the model. *)

From S2P Require Import Prelude PyVal Dict Identity Strict.

Open Scope Z_scope.

Definition StackManifestError (m : string) : exn := Exn "StackManifestError" m.
Definition StackPlanError (m : string) : exn := Exn "StackPlanError" m.

(** ** Contributions *)

(** [^[0-9A-Za-z._-]+$] as a full match; such a text has no surrounding space. *)
Definition target_char (c : chr) : bool :=
  is_digit c || in_range 65 90 c || in_range 97 122 c || bool_decide (ord c ∈ [46; 95; 45]%N).
Definition _TARGET_RE (s : string) : bool := truthy s && all_chars target_char s.

Definition _target_id (value : pyval) (field : string) : result string :=
  match value with
  | VStr s => if _TARGET_RE s then Ok s else Raise (StackManifestError (string_app field " must be a canonical target ID"))
  | _ => Raise (StackManifestError (string_app field " must be a canonical target ID"))
  end.

Definition stack_digest (value : pyval) (field : string) : result string :=
  require_digest value field StackManifestError false false.

(** [value != expected or type(value) is not type(expected)] *)
Definition _current_version (value expected : pyval) : result () :=
  match value, expected with
  | VInt a, VInt b => raise_if negb (a =? b) with (StackManifestError "unsupported "); Ok tt
  | VStr a, VStr b => raise_if negb (String.eqb a b) with (StackManifestError "unsupported "); Ok tt
  | _, _ => Raise (StackManifestError "unsupported ")
  end.

Record ContributionRef := mkContribution {
  c_target : string; c_spec : string; c_artifact : string; c_payload : string; c_attribution : string;
}.

#[export] Instance contribution_eq_dec : EqDecision ContributionRef.
Proof. solve_decision. Defined.

Definition make_contribution (target spec artifact payload attribution version : pyval) : result ContributionRef :=
  target ← _target_id target "target_id";
  spec ← stack_digest spec "target_spec_digest";
  artifact ← stack_digest artifact "artifact_digest";
  payload ← stack_digest payload "selected_payload_digest";
  attribution ← stack_digest attribution "attribution_digest";
  _ ← _current_version version (VInt 1);
  Ok (mkContribution target spec artifact payload attribution).

Definition contribution_rows (c : ContributionRef) : list (string * pyval) :=
  [("artifact_digest", VStr (c_artifact c)); ("attribution_digest", VStr (c_attribution c)); ("schema_version", VInt 1);
   ("selected_payload_digest", VStr (c_payload c)); ("target_id", VStr (c_target c));
   ("target_spec_digest", VStr (c_spec c)); ("type", VStr "proposal")].

Definition contribution_to_dict (c : ContributionRef) : pyval := str_dict (contribution_rows c).

Definition contribution_digest (c : ContributionRef) : result string :=
  canonical_digest "cacheon.contribution.proposal" (contribution_to_dict c) 1.

Definition selected_delta_digest (c : ContributionRef) : result string :=
  canonical_digest "cacheon.contribution.selected_delta"
    (str_dict [("selected_payload_digest", VStr (c_payload c)); ("target_id", VStr (c_target c));
               ("target_spec_digest", VStr (c_spec c))]) 1.

Definition is_text (v : pyval) (s : string) : bool := match v with VStr t => String.eqb t s | _ => false end.

Definition contribution_from_dict (value : pyval) : result ContributionRef :=
  row ← require_exact_fields value
          ["artifact_digest"; "attribution_digest"; "schema_version"; "selected_payload_digest"; "target_id";
           "target_spec_digest"; "type"] "proposal contribution" StackManifestError false;
  raise_if negb (is_text (argument row "type") "proposal")
    with (StackManifestError "proposal contribution type must be 'proposal'");
  make_contribution (argument row "target_id") (argument row "target_spec_digest") (argument row "artifact_digest")
    (argument row "selected_payload_digest") (argument row "attribution_digest") (argument row "schema_version").

Definition contribution_ref_from_dict (value : pyval) : result ContributionRef :=
  match value with
  | VDict items =>
      raise_if negb (is_text (default VNone (items_get "type" items)) "proposal")
        with (StackManifestError "contribution requires type 'proposal'");
      contribution_from_dict value
  | _ => Raise (StackManifestError "contribution must be an object")
  end.

(** ** The catalog that a stack is sealed under *)

(** [json.loads] of canonical text: the value it encodes, object keys in order. *)
Fixpoint of_json (j : json) : pyval :=
  match j with
  | JNull => VNone
  | JBool b => VBool b
  | JInt z => VInt z
  | JStr s => VStr s
  | JArr l => VList (of_json <$> l)
  | JObj l => VDict ((fun kv => (VStr kv.1, of_json kv.2)) <$> l)
  end.

(** The canonical bytes of the snapshot, kept as the value they encode. *)
Definition _catalog_json (snapshot : pyval) : result json :=
  match snapshot with
  | VDict (_ :: _) =>
      match canonical_json_bytes snapshot with
      | Ok _ => to_json snapshot
      | Raise e => if bool_decide (exn_class e = "StackIdentityError")
                   then Raise (StackManifestError "invalid catalog_snapshot: ") else Raise e
      end
  | _ => Raise (StackManifestError "catalog_snapshot must be a non-empty object")
  end.

Definition _catalog_binding (snapshot digest : pyval) : result (json * string) :=
  canonical ← _catalog_json snapshot;
  supplied ← stack_digest digest "catalog_digest";
  computed ← canonical_digest "cacheon.target-catalog" (of_json canonical) 1;
  raise_if negb (String.eqb supplied computed)
    with (StackManifestError "catalog_digest does not match the embedded catalog_snapshot");
  Ok (canonical, supplied).

(** [tuple(sorted(rows))] of rows whose first components are distinct. *)
Definition canonical_rows {A} (rows : list (string * A)) (message : string) : result (list (string * A)) :=
  raise_if negb (distinct rows.*1) with (StackManifestError message); Ok (sorted_by fst rows).

Definition spec_row (kv : pyval * pyval) : result (string * string) :=
  target ← _target_id kv.1 "target_spec_digests key";
  digest ← stack_digest kv.2 "target spec digest";
  Ok (target, digest).

Definition _spec_rows (value : pyval) : result (list (string * string)) :=
  match value with
  | VDict items =>
      rows ← map_result spec_row items;
      canonical_rows rows "target_spec_digests contains duplicate targets"
  | _ => Raise (StackManifestError "target_spec_digests must be an object")
  end.

(** [catalog.get("targets")] *)
Definition json_get (name : string) (j : json) : option json :=
  match j with JObj l => dict_get name l | _ => None end.

Definition catalog_row (j : json) : result (string * string) :=
  match j with
  | JObj _ =>
      target ← _target_id (match json_get "target_id" j with Some v => of_json v | None => VNone end) "catalog target ID";
      digest ← canonical_digest "cacheon.target-spec" (of_json j) 1;
      Ok (target, digest)
  | _ => Raise (StackManifestError "catalog target must be an object")
  end.

Definition _catalog_spec_rows (catalog : json) : result (list (string * string)) :=
  match json_get "targets" catalog with
  | Some (JArr ((_ :: _) as targets)) =>
      rows ← map_result catalog_row targets;
      canonical_rows rows "catalog_snapshot contains duplicate target IDs"
  | _ => Raise (StackManifestError "catalog_snapshot targets must be a non-empty list")
  end.

Definition _context_spec_rows (catalog : json) (supplied : pyval) : result (list (string * string)) :=
  rows ← _spec_rows supplied;
  expected ← _catalog_spec_rows catalog;
  raise_if negb (bool_decide (rows = expected))
    with (StackManifestError "target_spec_digests do not match the complete catalog_snapshot");
  Ok rows.

(** ** Contexts and manifests *)

Record EvaluationStackContext := mkContext {
  x_runtime : string; x_engine : string; x_arena : string; x_catalog_digest : string; x_catalog : json;
  x_specs : list (string * string);
}.

Definition make_stack_context (runtime engine arena snapshot catalog_digest specs : pyval) : result EvaluationStackContext :=
  runtime ← stack_digest runtime "runtime_digest";
  engine ← stack_digest engine "base_engine_digest";
  arena ← stack_digest arena "arena_digest";
  binding ← _catalog_binding snapshot catalog_digest;
  rows ← _context_spec_rows binding.1 specs;
  Ok (mkContext runtime engine arena binding.2 binding.1 rows).

Record EvaluationStackManifest := mkManifest {
  s_runtime : string; s_engine : string; s_arena : string; s_catalog_digest : string; s_catalog : json;
  entries : list (string * ContributionRef);
}.

#[export] Instance json_eq_dec : EqDecision json.
Proof.
  intros x y. destruct (decide (render x = render y)) as [E|N].
  - left. by apply render_inj.
  - right. by intros ->.
Defined.

#[export] Instance manifest_eq_dec : EqDecision EvaluationStackManifest.
Proof. solve_decision. Defined.

Definition entry_row (kv : pyval * ContributionRef) : result (string * ContributionRef) :=
  target ← _target_id kv.1 "entry target";
  raise_if negb (String.eqb (c_target kv.2) target) with (StackManifestError "entry key does not match ref target");
  Ok (target, kv.2).

Definition _entry_rows (rows : list (pyval * ContributionRef)) : result (list (string * ContributionRef)) :=
  rows ← map_result entry_row rows;
  canonical_rows rows "entries contain duplicate targets".

Definition EVALUATION_STACK_POLICY_VERSION : string := "evaluation-stack.v1".

Definition make_manifest (runtime engine arena snapshot catalog_digest : pyval) (rows : list (pyval * ContributionRef))
    (version policy : pyval) : result EvaluationStackManifest :=
  _ ← _current_version version (VInt 1);
  _ ← _current_version policy (VStr EVALUATION_STACK_POLICY_VERSION);
  runtime ← stack_digest runtime "runtime_digest";
  engine ← stack_digest engine "base_engine_digest";
  arena ← stack_digest arena "arena_digest";
  binding ← _catalog_binding snapshot catalog_digest;
  rows ← _entry_rows rows;
  Ok (mkManifest runtime engine arena binding.2 binding.1 rows).

Definition manifest_rows (m : EvaluationStackManifest) : list (string * pyval) :=
  [("arena_digest", VStr (s_arena m)); ("base_engine_digest", VStr (s_engine m));
   ("catalog_digest", VStr (s_catalog_digest m)); ("catalog_snapshot", of_json (s_catalog m));
   ("entries", str_dict ((fun kv => (kv.1, contribution_to_dict kv.2)) <$> entries m));
   ("runtime_digest", VStr (s_runtime m)); ("schema_version", VInt 1);
   ("stack_policy_version", VStr EVALUATION_STACK_POLICY_VERSION); ("type", VStr "evaluation_stack")].

Definition manifest_to_dict (m : EvaluationStackManifest) : pyval := str_dict (manifest_rows m).

Definition manifest_digest (m : EvaluationStackManifest) : result string :=
  canonical_digest "cacheon.stack.evaluation" (manifest_to_dict m) 1.

Definition manifest_fields : list string :=
  ["arena_digest"; "base_engine_digest"; "catalog_digest"; "catalog_snapshot"; "entries"; "runtime_digest";
   "schema_version"; "stack_policy_version"; "type"].

Definition manifest_from_dict (value : pyval) : result EvaluationStackManifest :=
  row ← require_exact_fields value manifest_fields "evaluation stack manifest" StackManifestError false;
  raise_if negb (is_text (argument row "type") "evaluation_stack")
    with (StackManifestError "evaluation stack type must be 'evaluation_stack'");
  match argument row "entries" with
  | VDict items =>
      rows ← map_result (fun kv => ref ← contribution_ref_from_dict kv.2; Ok (kv.1, ref)) items;
      make_manifest (argument row "runtime_digest") (argument row "base_engine_digest") (argument row "arena_digest")
        (argument row "catalog_snapshot") (argument row "catalog_digest") rows (argument row "schema_version")
        (argument row "stack_policy_version")
  | _ => Raise (StackManifestError "evaluation stack entries must be an object")
  end.

(** An entry of a validated stack names a target of the context, at its spec. *)
Definition entry_expected (specs : list (string * string)) (kv : string * ContributionRef) : result () :=
  match dict_get kv.1 specs with
  | None => Raise (StackManifestError "active target is absent from expected catalog context")
  | Some spec =>
      raise_if negb (String.eqb (c_spec kv.2) spec)
        with (StackManifestError "target spec digest does not match expected context"); Ok tt
  end.

(** Canonical bytes are compared as texts. *)
Definition validate_against (m : EvaluationStackManifest) (x : EvaluationStackContext) : result () :=
  raise_if negb (String.eqb (s_runtime m) (x_runtime x))
    with (StackManifestError "runtime digest does not match expected context");
  raise_if negb (String.eqb (s_engine m) (x_engine x))
    with (StackManifestError "base engine digest does not match expected context");
  raise_if negb (String.eqb (s_arena m) (x_arena x))
    with (StackManifestError "arena digest does not match expected context");
  raise_if negb (String.eqb (s_catalog_digest m) (x_catalog_digest x))
    with (StackManifestError "catalog digest does not match expected context");
  raise_if negb (String.eqb (render (s_catalog m)) (render (x_catalog x)))
    with (StackManifestError "catalog snapshot does not match expected context");
  _ ← map_result (entry_expected (x_specs x)) (entries m); Ok tt.

(** [del updated[target]] for each target to remove *)
Definition remove_entry (rows : list (string * ContributionRef)) (target : string) :
    result (list (string * ContributionRef)) :=
  match dict_get target rows with
  | None => Raise (StackManifestError "cannot remove inactive target")
  | Some _ => Ok (filter (fun kv => kv.1 <> target) rows)
  end.

Definition with_contribution (m : EvaluationStackManifest) (c : ContributionRef) (remove : list pyval) :
    result EvaluationStackManifest :=
  removed ← map_result (fun v => _target_id v "remove target") remove;
  raise_if negb (distinct removed) with (StackManifestError "remove contains duplicate targets");
  updated ← fold_result remove_entry removed (entries m);
  make_manifest (VStr (s_runtime m)) (VStr (s_engine m)) (VStr (s_arena m)) (of_json (s_catalog m))
    (VStr (s_catalog_digest m)) ((fun kv => (VStr kv.1, kv.2)) <$> dict_set (c_target c) c updated)
    (VInt 1) (VStr EVALUATION_STACK_POLICY_VERSION).

(** ** Arms and transitions *)

Definition plan_digest (value : pyval) (field : string) : result string :=
  require_digest value field StackPlanError false false.

Record StackArmIdentity := mkArm { arm_stack : string; arm_tree : string }.

#[export] Instance arm_eq_dec : EqDecision StackArmIdentity.
Proof. solve_decision. Defined.

Definition make_arm (stack tree : string) : result StackArmIdentity :=
  stack ← plan_digest (VStr stack) "arm stack_digest";
  tree ← plan_digest (VStr tree) "arm tree_digest";
  Ok (mkArm stack tree).

Definition arm_to_dict (a : StackArmIdentity) : pyval :=
  str_dict [("stack_digest", VStr (arm_stack a)); ("tree_digest", VStr (arm_tree a))].

Record TargetTransition := mkTransition {
  t_target : string; t_spec : string; replacement : ContributionRef; prior : option ContributionRef;
  displaced : list ContributionRef;
}.

Definition make_transition (t : TargetTransition) : result TargetTransition :=
  raise_if negb (truthy (t_target t)) with (StackPlanError "transition target_id must be a non-empty string");
  _ ← plan_digest (VStr (t_spec t)) "transition target_spec_digest";
  raise_if negb (String.eqb (c_target (replacement t)) (t_target t))
    with (StackPlanError "replacement target does not match transition target");
  raise_if negb (String.eqb (c_spec (replacement t)) (t_spec t))
    with (StackPlanError "replacement target-spec digest does not match transition");
  _ ← match prior t with
      | None => Ok tt
      | Some p =>
          raise_if negb (String.eqb (c_target p) (t_target t))
            with (StackPlanError "prior contribution does not match transition target");
          raise_if negb (bool_decide (displaced t = []))
            with (StackPlanError "same-target replacement cannot also displace active targets");
          old ← selected_delta_digest p;
          new ← selected_delta_digest (replacement t);
          raise_if String.eqb old new with (StackPlanError "same-target replacement has no executable delta");
          Ok tt
      end;
  let ids := c_target <$> displaced t in
  raise_if negb (bool_decide (ids = sorted_id ids)) with (StackPlanError "displaced contributions must be target-sorted");
  raise_if negb (distinct ids) with (StackPlanError "displaced contributions contain duplicate targets");
  raise_if bool_decide (t_target t ∈ ids) with (StackPlanError "transition cannot displace its replacement target");
  Ok t.

Record MarginalArmPlan := mkMarginal {
  incumbent : EvaluationStackManifest; candidate : EvaluationStackManifest; transition : TargetTransition;
  baseline_before : StackArmIdentity; challenger : StackArmIdentity; baseline_after : StackArmIdentity;
}.

(** [candidate.entries.get(active_id) == incumbent_ref] for every entry the transition leaves alone *)
Definition unrelated_kept (t : TargetTransition) (old new : list (string * ContributionRef)) : bool :=
  forallb (fun kv => bool_decide (kv.1 ∈ c_target <$> displaced t) || String.eqb kv.1 (t_target t)
                     || bool_decide (dict_get kv.1 new = Some kv.2)) old.

Definition same_set (l k : list string) : bool := bool_decide (list_to_set l =@{gset string} list_to_set k).

Definition make_marginal (p : MarginalArmPlan) : result MarginalArmPlan :=
  raise_if negb (bool_decide (baseline_before p = baseline_after p))
    with (StackPlanError "B and B-prime must bind the same exact incumbent");
  old ← manifest_digest (incumbent p);
  raise_if negb (String.eqb (arm_stack (baseline_before p)) old)
    with (StackPlanError "baseline arm does not bind incumbent stack");
  new ← manifest_digest (candidate p);
  raise_if negb (String.eqb (arm_stack (challenger p)) new)
    with (StackPlanError "challenger arm does not bind candidate stack");
  raise_if String.eqb (arm_tree (challenger p)) (arm_tree (baseline_before p))
    with (StackPlanError "challenger and incumbent tree digests must differ");
  let t := transition p in
  let before := entries (incumbent p) in
  let after := entries (candidate p) in
  raise_if negb (bool_decide (dict_get (t_target t) before = prior t))
    with (StackPlanError "transition prior does not match incumbent entry");
  raise_if negb (bool_decide (dict_get (t_target t) after = Some (replacement t)))
    with (StackPlanError "transition replacement does not match candidate entry");
  raise_if negb (forallb (fun c => bool_decide (dict_get (c_target c) before = Some c)) (displaced t))
    with (StackPlanError "transition displaced entries do not match incumbent");
  raise_if negb (same_set after.*1
                   (t_target t :: filter (fun k => k ∉ c_target <$> displaced t) before.*1))
    with (StackPlanError "candidate entries do not match transition target set");
  raise_if negb (unrelated_kept t before after) with (StackPlanError "candidate changed unrelated target");
  Ok p.
