(* ===== verification/Store.v ===== *)
(** * The intake database

    The tables of the SQLite authority ([cacheon/chain/intake.py],
    [evaluation_lease_schema.py], [evaluation_recovery_store.py]) that the lease
    and recovery operations read and write, the constraints and triggers of the
    schema, and transactions. An operation is a function from the store to the
    store it leaves and its result; [transaction] undoes a failed body, and a
    statement outside one commits at once.

    A table with a primary key is a map from it; tables that are appended to
    are lists in row order. Only the columns that the modelled operations use
    are kept. *)

From S2P Require Import Prelude PyVal Leases Recovery.

Open Scope Z_scope.

Definition IntakeError (m : string) : exn := Exn "IntakeError" m.
Definition IntegrityError (m : string) : exn := Exn "IntegrityError" m.

(** ** Policy ([IntakePolicy]) *)

Record IntakePolicy := mkPolicy {
  epoch_blocks : Z; cutoff_blocks : Z; max_pending : Z; max_per_hotkey_epoch : Z; max_per_target_epoch : Z;
  max_transport_retries : Z; max_qualification_retries : Z; max_cohort : Z; expiry_blocks : Z;
}.

Definition policy_values (p : IntakePolicy) : list Z :=
  [epoch_blocks p; cutoff_blocks p; max_pending p; max_per_hotkey_epoch p; max_per_target_epoch p;
   max_transport_retries p; max_qualification_retries p; max_cohort p; expiry_blocks p].

Definition make_policy (p : IntakePolicy) : result IntakePolicy :=
  raise_if existsb (fun v => v <=? 0) (policy_values p)
    with (IntakeError "intake policy bounds must be positive integers");
  raise_if epoch_blocks p <=? cutoff_blocks p with (IntakeError "intake cutoff must be smaller than its epoch");
  raise_if max_pending p <? max_cohort p with (IntakeError "cohort bound exceeds the pending queue bound");
  Ok p.

Definition default_policy : IntakePolicy := mkPolicy 360 30 256 16 64 3 3 8 500000.

(** ** Rows *)

(** The columns of [reservations] that only admission and publication write. *)
Record columns := mkColumns {
  x_block_hash : string; x_url : string; x_payload : string; x_invalid : string; x_payment_block : Z;
  x_payment_index : Z; x_epoch : Z; x_target : string; x_members : pyval; x_fingerprint : option pyval;
  x_root : string; x_lane : string; x_authority_json : option pyval;
}.

Record reservation := mkReservation {
  r_id : string; r_block : Z; r_event_index : Z; r_event_subindex : Z; r_hotkey : string;
  r_content_hash : string; r_status : status; r_attempts : Z; r_publication : string; r_authority : string;
  r_evidence : string; r_service : string; r_retry_group : string; r_retry_position : Z;
  r_decision : string; r_reason : string; r_arena : string; r_columns : columns;
}.

Inductive lease_state := active | lease_expired | released | completed.
#[export] Instance lease_state_eq_dec : EqDecision lease_state.
Proof. solve_decision. Defined.

Record lease_row := mkLeaseRow {
  l_arena : string; l_id : string; l_generation : Z; l_stage : string; l_owner : string; l_claimed : Z;
  l_initial : Z; l_expires : Z; l_state : lease_state; l_completed : Z; l_result : string; l_reason : string;
}.

Record member_row := mkMemberRow {
  m_lease : string; m_position : Z; m_reservation : string; m_prior : status; m_active : bool;
}.

(** A [reservation_baseline_segments] row. *)
Record segment := mkSegment {
  s_arena : string; s_generation : Z; s_stack_digest : string; s_tree_digest : string; s_stack_json : pyval;
  s_transition : string;
}.
#[export] Instance segment_eq_dec : EqDecision segment.
Proof. solve_decision. Defined.

Record recovery_row := mkRecoveryRow {
  c_recovery : string; c_lease : string; c_revision : Z; c_phase : RecoveryPhase; c_resolution : RecoveryResolution;
  c_created : Z; c_updated : Z; c_plan : string; c_plan_digest : string; c_request : string; c_reason : string;
}.
#[export] Instance recovery_row_eq_dec : EqDecision recovery_row.
Proof. solve_decision. Defined.

(** [reservation_sla_resets], [eval_cost_payments] and [eval_cost_credits] *)
Record sla_reset := mkReset { reset_block : Z; reset_authority : string; reset_reason : string }.
Record payment_row := mkPaymentRow {
  p_block : Z; p_index : Z; p_reservation : string; p_content : string; p_hotkey : string; p_amount : Z;
}.
Record credit_row := mkCreditRow { e_id : string; e_hotkey : string; e_granted : string; e_reservation : string; e_spent : Z }.

Record database := mkDb {
  reservations : gmap string reservation;
  leases : gmap string lease_row;
  lease_members : list member_row;
  lease_events : list EvaluationLeaseEvent;
  recoveries : gmap string recovery_row;          (* by [lease_id], which is UNIQUE *)
  recovery_events : list recovery_event;
  dispositions : list string;                     (* [reservation_id] of each row *)
  qualifications : list (string * Z * Z);         (* reservation, reproduction index, retained block *)
  sla_resets : gmap string sla_reset;
  segments : gmap string segment;
  stacks : list string;                           (* [competition_arena] of each [evaluation_stacks] row *)
  cursor : option (Z * string);                   (* [metadata.finalized_cursor] *)
  cost_payments : list payment_row;
  cost_credits : list credit_row;
}.

(** The database and the connection-local authorities of its mutation fences. *)
Record store := mkStore {
  db : database;
  mutation_authority : gset string;
  recovery_authority : gset string;
}.

(** ** Operations *)

Definition M (A : Type) : Type := store -> store * result A.

#[export] Instance M_ret : MRet M := fun A a s => (s, Ok a).
#[export] Instance M_bind : MBind M := fun A B f m s =>
  match m s with (s', Ok a) => f a s' | (s', Raise e) => (s', Raise e) end.

Definition throw {A} (e : exn) : M A := fun s => (s, Raise e).
Definition lift {A} (r : result A) : M A := fun s => (s, r).
Definition gets {A} (f : database -> A) : M A := fun s => (s, Ok (f (db s))).
Definition put_db (d : database) : M () := fun s => (mkStore d (mutation_authority s) (recovery_authority s), Ok tt).
Definition modify (f : database -> database) : M () :=
  fun s => (mkStore (f (db s)) (mutation_authority s) (recovery_authority s), Ok tt).

Notation "'fail_if' b 'with' e ; k" := (if (b : bool) then throw e else k)
  (at level 20, b at level 200, e at level 200, k at level 200, right associativity,
   format "'fail_if'  b  'with'  e ; '//' k") : py_scope.

(** [with self._transaction():], nested ones being savepoints *)
Definition transaction {A} (m : M A) : M A := fun s =>
  match m s with (s', Ok a) => (s', Ok a) | (_, Raise e) => (s, Raise e) end.

Definition each {A} (f : A -> M ()) : list A -> M () :=
  fix go l := match l with [] => mret tt | x :: l => _ ← f x; go l end.

Definition collect {A B} (f : A -> M B) : list A -> M (list B) :=
  fix go l := match l with [] => mret [] | x :: l => y ← f x; ys ← go l; mret (y :: ys) end.

(** ** Columns *)

Definition set_status (st : status) (decision reason : string) (r : reservation) : reservation :=
  mkReservation (r_id r) (r_block r) (r_event_index r) (r_event_subindex r) (r_hotkey r) (r_content_hash r)
    st (r_attempts r) (r_publication r) (r_authority r) (r_evidence r) (r_service r) (r_retry_group r)
    (r_retry_position r) decision reason (r_arena r) (r_columns r).

Definition set_evidence (evidence : string) (r : reservation) : reservation :=
  mkReservation (r_id r) (r_block r) (r_event_index r) (r_event_subindex r) (r_hotkey r) (r_content_hash r)
    (r_status r) (r_attempts r) (r_publication r) (r_authority r) evidence (r_service r) (r_retry_group r)
    (r_retry_position r) (r_decision r) (r_reason r) (r_arena r) (r_columns r).

Definition set_attempts (attempts : Z) (r : reservation) : reservation :=
  mkReservation (r_id r) (r_block r) (r_event_index r) (r_event_subindex r) (r_hotkey r) (r_content_hash r)
    (r_status r) attempts (r_publication r) (r_authority r) (r_evidence r) (r_service r) (r_retry_group r)
    (r_retry_position r) (r_decision r) (r_reason r) (r_arena r) (r_columns r).

(** [qualification_authority_json=''] *)
Definition clear_authority_json (x : columns) : columns :=
  mkColumns (x_block_hash x) (x_url x) (x_payload x) (x_invalid x) (x_payment_block x) (x_payment_index x) (x_epoch x)
    (x_target x) (x_members x) (x_fingerprint x) (x_root x) (x_lane x) None.

(** [retry_group_digest='',retry_position=0,qualification_authority_digest='',qualification_authority_json=''] *)
Definition clear_retry (r : reservation) : reservation :=
  mkReservation (r_id r) (r_block r) (r_event_index r) (r_event_subindex r) (r_hotkey r) (r_content_hash r)
    (r_status r) (r_attempts r) (r_publication r) "" (r_evidence r) (r_service r) "" 0
    (r_decision r) (r_reason r) (r_arena r) (clear_authority_json (r_columns r)).

Definition with_reservations (rs : gmap string reservation) (d : database) : database :=
  mkDb rs (leases d) (lease_members d) (lease_events d) (recoveries d) (recovery_events d) (dispositions d)
    (qualifications d) (sla_resets d) (segments d) (stacks d) (cursor d)
    (cost_payments d) (cost_credits d).
Definition with_leases (ls : gmap string lease_row) (d : database) : database :=
  mkDb (reservations d) ls (lease_members d) (lease_events d) (recoveries d) (recovery_events d) (dispositions d)
    (qualifications d) (sla_resets d) (segments d) (stacks d) (cursor d)
    (cost_payments d) (cost_credits d).
Definition with_members (ms : list member_row) (d : database) : database :=
  mkDb (reservations d) (leases d) ms (lease_events d) (recoveries d) (recovery_events d) (dispositions d)
    (qualifications d) (sla_resets d) (segments d) (stacks d) (cursor d)
    (cost_payments d) (cost_credits d).
Definition with_events (es : list EvaluationLeaseEvent) (d : database) : database :=
  mkDb (reservations d) (leases d) (lease_members d) es (recoveries d) (recovery_events d) (dispositions d)
    (qualifications d) (sla_resets d) (segments d) (stacks d) (cursor d)
    (cost_payments d) (cost_credits d).
Definition with_recoveries (rs : gmap string recovery_row) (es : list recovery_event) (d : database) : database :=
  mkDb (reservations d) (leases d) (lease_members d) (lease_events d) rs es (dispositions d)
    (qualifications d) (sla_resets d) (segments d) (stacks d) (cursor d)
    (cost_payments d) (cost_credits d).
Definition with_dispositions (ds : list string) (d : database) : database :=
  mkDb (reservations d) (leases d) (lease_members d) (lease_events d) (recoveries d) (recovery_events d) ds
    (qualifications d) (sla_resets d) (segments d) (stacks d) (cursor d)
    (cost_payments d) (cost_credits d).

Definition with_costs (ps : list payment_row) (cs : list credit_row) (d : database) : database :=
  mkDb (reservations d) (leases d) (lease_members d) (lease_events d) (recoveries d) (recovery_events d)
    (dispositions d) (qualifications d) (sla_resets d) (segments d) (stacks d) (cursor d) ps cs.

(** ** Statements under the schema's constraints and fences *)

Definition is_active_member (rid : string) (m : member_row) : bool :=
  m_active m && String.eqb (m_reservation m) rid.

Definition has_active_member (rid : string) (d : database) : bool :=
  existsb (is_active_member rid) (lease_members d).

(** [reservations_fence_active_evaluation] *)
Definition fenced (s : store) (rid : string) : bool :=
  (has_active_member rid (db s) || bool_decide (mutation_authority s <> ∅))
  && negb (bool_decide (rid ∈ mutation_authority s)).

(** [UPDATE reservations SET ... WHERE reservation_id=?] *)
Definition update_reservation (rid : string) (f : reservation -> reservation) : M () := fun s =>
  match reservations (db s) !! rid with
  | None => (s, Ok tt)
  | Some r =>
      if fenced s rid then (s, Raise (IntegrityError "active evaluation lease fences reservation"))
      else modify (fun d => with_reservations (<[rid := f r]> (reservations d)) d) s
  end.

Definition get (rid : string) : M reservation := fun s =>
  match reservations (db s) !! rid with
  | Some r => (s, Ok r)
  | None => (s, Raise (IntakeError "unknown intake reservation"))
  end.

(** [evaluation_qualification_lease_insert_guard] and its companions: once the recovery schema is
    installed, rows of an active qualification lease change only under the recovery authority. *)
Definition recovery_guard (enabled : bool) (lid : string) : M () := fun s =>
  if enabled && negb (bool_decide (lid ∈ recovery_authority s))
  then (s, Raise (IntegrityError "qualification lease requires recovery authority")) else (s, Ok tt).

(** [with self._evaluation_recovery_mutation(lease_id):] *)
Definition recovery_mutation {A} (lid : string) (m : M A) : M A := fun s =>
  if bool_decide (recovery_authority s <> ∅)
  then (s, Raise (IntakeError "nested evaluation recovery mutation is forbidden"))
  else
    match m (mkStore (db s) (mutation_authority s) {[ lid ]}) with
    | (s', r) => (mkStore (db s') (mutation_authority s') (recovery_authority s' ∖ {[ lid ]}), r)
    end.

(** [self._evaluation_mutation_authority.update(...)] around a body, with its [finally]. *)
Definition authorized {A} (rids : list string) (m : M A) : M A := fun s =>
  if bool_decide (mutation_authority s <> ∅)
  then (s, Raise (IntakeError "nested evaluation mutation authority is forbidden"))
  else
    match m (mkStore (db s) (mutation_authority s ∪ list_to_set rids) (recovery_authority s)) with
    | (s', r) => (mkStore (db s') (mutation_authority s' ∖ list_to_set rids) (recovery_authority s'), r)
    end.

Definition absent {V} (o : option V) : bool := match o with Some _ => false | None => true end.

(** [INSERT INTO evaluation_leases]: primary key, checks and
    [evaluation_leases_one_active_qualification]. *)
Definition lease_row_ok (l : lease_row) : bool :=
  (0 <? l_generation l) && bool_decide (l_stage l ∈ EVALUATION_STAGES) && (0 <=? l_claimed l)
  && (l_claimed l <? l_initial l) && (l_initial l <=? l_expires l) && (0 <=? l_completed l).

Definition same_active_owner (l : lease_row) (k : lease_row) : bool :=
  bool_decide (l_state k = active) && String.eqb (l_arena k) (l_arena l) && String.eqb (l_owner k) (l_owner l).

Definition insert_lease (enabled : bool) (l : lease_row) : M () :=
  _ ← recovery_guard enabled (l_id l);
  ls ← gets leases;
  fail_if negb (absent (ls !! l_id l)) with (IntegrityError "UNIQUE constraint failed: evaluation_leases.lease_id");
  fail_if negb (lease_row_ok l) with (IntegrityError "CHECK constraint failed");
  fail_if bool_decide (l_state l = active) && existsb (fun kv => same_active_owner l kv.2) (map_to_list ls)
    with (IntegrityError "UNIQUE constraint failed: evaluation_leases_one_active_qualification");
  modify (fun d => with_leases (<[l_id l := l]> (leases d)) d).

(** [INSERT INTO evaluation_lease_members]: keys, the unique active member and the references. *)
Definition member_conflict (m k : member_row) : bool :=
  (String.eqb (m_lease k) (m_lease m)
   && ((m_position k =? m_position m) || String.eqb (m_reservation k) (m_reservation m)))
  || (m_active m && m_active k && String.eqb (m_reservation k) (m_reservation m)).

Definition insert_member (enabled : bool) (m : member_row) : M () :=
  _ ← recovery_guard enabled (m_lease m);
  ms ← gets lease_members;
  fail_if existsb (member_conflict m) ms with (IntegrityError "UNIQUE constraint failed: evaluation_lease_members");
  fail_if (m_position m <? 0) || negb (bool_decide (m_prior m ∈ EVALUATION_PRIOR_STATUSES))
    with (IntegrityError "CHECK constraint failed");
  rs ← gets reservations; ls ← gets leases;
  fail_if absent (rs !! m_reservation m) || absent (ls !! m_lease m)
    with (IntegrityError "FOREIGN KEY constraint failed");
  modify (fun d => with_members (lease_members d ++ [m]) d).

(** [UPDATE evaluation_leases SET ... WHERE lease_id=? AND state='active' AND expires_block=?],
    returning the row count. *)
Definition lease_matches (expires : Z) (l : lease_row) : bool :=
  bool_decide (l_state l = active) && (l_expires l =? expires).

Definition update_lease (enabled : bool) (lid : string) (expires : Z) (f : lease_row -> lease_row) : M nat :=
  ls ← gets leases;
  match ls !! lid with
  | Some l =>
      if lease_matches expires l then
        _ ← recovery_guard enabled lid;
        fail_if negb (lease_row_ok (f l)) with (IntegrityError "CHECK constraint failed");
        _ ← modify (fun d => with_leases (<[lid := f l]> (leases d)) d);
        mret 1%nat
      else mret 0%nat
  | None => mret 0%nat
  end.

Definition finish (st : lease_state) (block : Z) (digest why : string) (l : lease_row) : lease_row :=
  mkLeaseRow (l_arena l) (l_id l) (l_generation l) (l_stage l) (l_owner l) (l_claimed l) (l_initial l)
    (l_expires l) st block digest why.

Definition extend (expires : Z) (l : lease_row) : lease_row :=
  mkLeaseRow (l_arena l) (l_id l) (l_generation l) (l_stage l) (l_owner l) (l_claimed l) (l_initial l)
    expires (l_state l) (l_completed l) (l_result l) (l_reason l).

(** [UPDATE evaluation_lease_members SET active=0 WHERE lease_id=? AND active=1] *)
Definition is_open_of (lid : string) (m : member_row) : bool := m_active m && String.eqb (m_lease m) lid.

Definition deactivate (lid : string) (m : member_row) : member_row :=
  if is_open_of lid m then mkMemberRow (m_lease m) (m_position m) (m_reservation m) (m_prior m) false else m.

Definition count_open (lid : string) (ms : list member_row) : nat :=
  length (filter (fun m => is_open_of lid m = true) ms).

Definition lease_is_active (ls : gmap string lease_row) (lid : string) : bool :=
  match ls !! lid with Some l => bool_decide (l_state l = active) | None => false end.

Definition deactivate_members (enabled : bool) (lid : string) : M nat :=
  ms ← gets lease_members; ls ← gets leases;
  _ ← (if (0 <? Z.of_nat (count_open lid ms)) && lease_is_active ls lid then recovery_guard enabled lid
       else mret tt);
  _ ← modify (fun d => with_members (deactivate lid <$> lease_members d) d);
  mret (count_open lid ms).

(** ** Successful runs

    [inv_m] splits a successful run of a body into its statements and reads off
    what each of them did to the store. *)

Lemma bind_ok {A B} (m : M A) (f : A -> M B) s s' b :
  (m ≫= f) s = (s', Ok b) <-> exists a s1, m s = (s1, Ok a) /\ f a s1 = (s', Ok b).
Proof.
  unfold mbind, M_bind. split.
  - destruct (m s) as [s1 [a|e]] eqn:E; [eauto|done].
  - by intros (a & s1 & -> & ?).
Qed.

Lemma ret_ok {A} (a b : A) s s' : (mret a : M A) s = (s', Ok b) <-> s' = s /\ b = a.
Proof. unfold mret, M_ret. naive_solver. Qed.

Lemma gets_ok {A} (f : database -> A) s s' a : gets f s = (s', Ok a) <-> s' = s /\ a = f (db s).
Proof. unfold gets. naive_solver. Qed.

Lemma lift_ok {A} (r : result A) s s' a : lift r s = (s', Ok a) <-> s' = s /\ r = Ok a.
Proof. unfold lift. naive_solver. Qed.

Lemma throw_ok {A} e s s' (a : A) : throw e s = (s', Ok a) <-> False.
Proof. unfold throw. naive_solver. Qed.

Lemma fail_if_ok {A} (b : bool) e (m : M A) s s' a :
  (if b then throw e else m) s = (s', Ok a) <-> b = false /\ m s = (s', Ok a).
Proof. destruct b; [|naive_solver]. rewrite throw_ok. naive_solver. Qed.

Lemma modify_ok f s s' u :
  modify f s = (s', Ok u) <-> s' = mkStore (f (db s)) (mutation_authority s) (recovery_authority s).
Proof. unfold modify. destruct u. naive_solver. Qed.

Lemma transaction_ok {A} (m : M A) s s' a : transaction m s = (s', Ok a) -> m s = (s', Ok a).
Proof. unfold transaction. destruct (m s) as [? [?|?]]; naive_solver. Qed.

Lemma get_ok rid s s' r : get rid s = (s', Ok r) <-> s' = s /\ reservations (db s) !! rid = Some r.
Proof. unfold get. destruct (_ !! _); naive_solver. Qed.

Lemma recovery_guard_ok enabled lid s s' u : recovery_guard enabled lid s = (s', Ok u) -> s' = s.
Proof. unfold recovery_guard. destruct (_ && _); naive_solver. Qed.

Lemma update_reservation_ok rid f s s' u :
  update_reservation rid f s = (s', Ok u) ->
  (reservations (db s) !! rid = None /\ s' = s) \/
  exists r, reservations (db s) !! rid = Some r /\ fenced s rid = false /\
    s' = mkStore (with_reservations (<[rid := f r]> (reservations (db s))) (db s))
           (mutation_authority s) (recovery_authority s).
Proof.
  unfold update_reservation. destruct (_ !! _) as [r|]; [|naive_solver].
  destruct (fenced s rid); [done|]. rewrite modify_ok. naive_solver.
Qed.

Ltac inv_m :=
  repeat match goal with
  | H : (_ ≫= _) _ = (_, Ok _) |- _ =>
      let a := fresh "a" in let s := fresh "s" in let H1 := fresh "Hm" in
      apply bind_ok in H as (a & s & H1 & H)
  | H : mret _ _ = (_, Ok _) |- _ => apply ret_ok in H as [? ?]; subst
  | H : gets _ _ = (_, Ok _) |- _ => apply gets_ok in H as [? ?]; subst
  | H : lift _ _ = (_, Ok _) |- _ => apply lift_ok in H as [? H]; subst
  | H : throw _ _ = (_, Ok _) |- _ => apply throw_ok in H as []
  | H : get _ _ = (_, Ok _) |- _ => apply get_ok in H as [? H]; subst
  | H : transaction _ _ = (_, Ok _) |- _ => apply transaction_ok in H
  | H : modify _ _ = (_, Ok _) |- _ => apply modify_ok in H; subst
  | H : recovery_guard _ _ _ = (_, Ok _) |- _ => apply recovery_guard_ok in H; subst
  | H : (if _ then throw _ else _) _ = (_, Ok _) |- _ =>
      let E := fresh "Hf" in apply fail_if_ok in H as [E H]
  end.

(** A loop that succeeds runs its body on every element in turn. *)
Lemma each_invariant {A} (P : store -> Prop) (f : A -> M ()) l s s' u :
  (forall x s s' u, x ∈ l -> P s -> f x s = (s', Ok u) -> P s') -> P s -> each f l s = (s', Ok u) -> P s'.
Proof.
  revert s. induction l as [|x l IH]; intros s Hf HP H; simpl in H; inv_m; [done|].
  eapply IH; [|eapply Hf; [by left|exact HP|exact Hm]|exact H]. intros. eapply Hf; [by right|..]; eauto.
Qed.

Lemma collect_invariant {A B} (P : store -> Prop) (f : A -> M B) l s s' ys :
  (forall x s s' y, x ∈ l -> P s -> f x s = (s', Ok y) -> P s') -> P s -> collect f l s = (s', Ok ys) -> P s'.
Proof.
  revert s ys. induction l as [|x l IH]; intros s ys Hf HP H; simpl in H; inv_m; [done|].
  eapply IH; [|eapply Hf; [by left|exact HP|exact Hm]|exact Hm0]. intros. eapply Hf; [by right|..]; eauto.
Qed.

Lemma collect_get_ok l s s' rs : collect get l s = (s', Ok rs) -> s' = s.
Proof. intros H. refine (collect_invariant (fun x => x = s) _ _ _ _ _ _ eq_refl H). intros. inv_m. done. Qed.

Lemma collect_get_ids l s s' rs :
  collect get l s = (s', Ok rs) -> s' = s /\ Forall2 (fun rid r => reservations (db s) !! rid = Some r) l rs.
Proof.
  revert rs. induction l as [|k l IH]; intros rs H; simpl in H; inv_m; [by split; constructor|].
  match goal with H : collect _ _ _ = _ |- _ => apply IH in H as [-> Hl] end. split; [done|]. by constructor.
Qed.

(** ** What a body may change *)

(** Runs that end well in a state related to the one they started from. *)
Definition ends {A} (R : store -> store -> Prop) (m : M A) : Prop := forall s s' a, m s = (s', Ok a) -> R s s'.

Lemma transaction_keeps {A} (P : store -> Prop) (m : M A) s :
  (forall s' a, m s = (s', Ok a) -> P s') -> P s -> P (transaction m s).1.
Proof. intros H HP. unfold transaction. destruct (m s) as [s' [a|e]] eqn:E; [by eapply H|done]. Qed.

(** ** Successful statements *)

Lemma absent_true {V} (o : option V) : absent o = true <-> o = None.
Proof. destruct o; naive_solver. Qed.

Lemma insert_lease_ok enabled l s s' u :
  insert_lease enabled l s = (s', Ok u) ->
  leases (db s) !! l_id l = None /\ lease_row_ok l = true /\
  (l_state l = active -> forall k, same_active_owner l k = true -> forall lid, leases (db s) !! lid <> Some k) /\
  s' = mkStore (with_leases (<[l_id l := l]> (leases (db s))) (db s)) (mutation_authority s) (recovery_authority s).
Proof.
  unfold insert_lease. intros H. inv_m. split_bool. split_and!; [by apply absent_true|done| |done].
  intros Ha k Hk lid Hl. rewrite Ha, bool_decide_eq_true_2, andb_true_l in Hf1 by done.
  apply not_true_iff_false in Hf1. apply Hf1, existsb_exists. exists (lid, k). split; [|done].
  by apply list_elem_of_In, elem_of_map_to_list.
Qed.

Lemma insert_member_ok enabled m s s' u :
  insert_member enabled m s = (s', Ok u) ->
  (forall k, k ∈ lease_members (db s) -> member_conflict m k = false) /\
  is_Some (reservations (db s) !! m_reservation m) /\ is_Some (leases (db s) !! m_lease m) /\
  s' = mkStore (with_members (lease_members (db s) ++ [m]) (db s)) (mutation_authority s) (recovery_authority s).
Proof.
  unfold insert_member. intros H. inv_m. split_bool.
  repeat match goal with H : absent ?o = false |- _ => destruct o eqn:?; [clear H|discriminate H] end.
  split_and!; try done. intros k Hk. apply not_true_iff_false. intros Hc. apply not_true_iff_false in Hf.
  apply Hf, existsb_exists. exists k. split; [by apply list_elem_of_In|done].
Qed.

Lemma update_lease_ok enabled lid expires f s s' n :
  update_lease enabled lid expires f s = (s', Ok n) ->
  (n = 0%nat /\ s' = s) \/
  (n = 1%nat /\ exists l, leases (db s) !! lid = Some l /\ l_state l = active /\ l_expires l = expires /\
    lease_row_ok (f l) = true /\
    s' = mkStore (with_leases (<[lid := f l]> (leases (db s))) (db s)) (mutation_authority s) (recovery_authority s)).
Proof.
  unfold update_lease. intros H. inv_m. destruct (_ !! lid) as [l|] eqn:El; [|inv_m; by left].
  destruct (lease_matches expires l) eqn:Em; [|inv_m; by left]. inv_m. right. split; [done|].
  unfold lease_matches in Em. split_bool. exists l. split_and!; try done. by apply Z.eqb_eq.
Qed.

Lemma deactivate_members_ok enabled lid s s' n :
  deactivate_members enabled lid s = (s', Ok n) ->
  n = count_open lid (lease_members (db s)) /\
  s' = mkStore (with_members (deactivate lid <$> lease_members (db s)) (db s)) (mutation_authority s)
         (recovery_authority s).
Proof.
  unfold deactivate_members. intros H. inv_m. destruct (_ && _) in Hm1; inv_m; done.
Qed.

Lemma recovery_mutation_ok {A} lid (m : M A) s s' a :
  recovery_mutation lid m s = (s', Ok a) ->
  recovery_authority s = ∅ /\ exists s1, m (mkStore (db s) (mutation_authority s) {[ lid ]}) = (s1, Ok a) /\
    s' = mkStore (db s1) (mutation_authority s1) (recovery_authority s1 ∖ {[ lid ]}).
Proof.
  unfold recovery_mutation. case_bool_decide as Hn; [done|].
  destruct (m _) as [s1 r] eqn:E. intros [= <- ->]. eauto 10.
Qed.

Lemma authorized_ok {A} rids (m : M A) s s' a :
  authorized rids m s = (s', Ok a) ->
  mutation_authority s = ∅ /\ exists s1,
    m (mkStore (db s) (list_to_set rids) (recovery_authority s)) = (s1, Ok a) /\
    s' = mkStore (db s1) (mutation_authority s1 ∖ list_to_set rids) (recovery_authority s1).
Proof.
  unfold authorized. case_bool_decide as Hn; [done|].
  assert (E : mutation_authority s ∪ list_to_set rids = list_to_set rids :> gset string) by (rewrite Hn; set_solver).
  rewrite E. destruct (m _) as [s1 r] eqn:Em. intros [= <- ->]. eauto 10.
Qed.
