(* ===== verification/StackState.v ===== *)
(** * States of evaluation stacks

    What a stored row of [evaluation_stacks] or of
    [reservation_baseline_segments] opens as ([EvaluationStackState] and
    [_evaluation_stack_state_from_row] of [cacheon/chain/intake.py]): the
    manifest is decoded, its digest and its encoding are compared with the
    stored ones. The rows of an evaluation stack and the handling of its
    exceptions are here as well, since the queue opens the binding of its head. *)

From S2P Require Import Prelude PyVal Dict Identity Strict Stack Leases Recovery Store.

Open Scope Z_scope.

(** [except (TypeError, ValueError, json.JSONDecodeError) as exc: raise IntakeError(...)] *)
Definition value_errors : list string :=
  ["TypeError"; "ValueError"; "UnicodeEncodeError"; "StackIdentityError"; "StackManifestError"; "SettlementError";
   "SessionProtocolError"; "EvidenceStoreError"; "EconomicsError"].

Definition reread {A} (classes : list string) (message : string) (r : result A) : result A :=
  match r with
  | Raise e => Raise (if bool_decide (exn_class e ∈ classes) then IntakeError message else e)
  | done => done
  end.

(** ** Rows *)

(** [evaluation_stacks] *)
Record stack_row := mkStackRow {
  w_arena : string; w_generation : Z; w_digest : string; w_tree : string; w_json : pyval; w_transition : string;
  w_competition : string;
}.

(** ** States *)

Record EvaluationStackState := mkStackState {
  st_arena : string; st_generation : Z; st_manifest : EvaluationStackManifest; st_tree : string; st_transition : string;
}.

#[export] Instance stack_state_eq_dec : EqDecision EvaluationStackState.
Proof. solve_decision. Defined.

Definition make_stack_state (arena : string) (generation : Z) (m : EvaluationStackManifest) (tree transition : string) :
    result EvaluationStackState :=
  _ ← require_sha256_hex (VStr arena) "arena_digest";
  _ ← require_sha256_hex (VStr tree) "tree_digest";
  _ ← require_sha256_hex (VStr transition) "transition_event_id";
  raise_if (generation <? 0) || negb (String.eqb (Stack.s_arena m) arena)
    with (IntakeError "evaluation stack state is malformed");
  Ok (mkStackState arena generation m tree transition).

Definition stack_state_digest (s : EvaluationStackState) : result string :=
  d ← manifest_digest (st_manifest s);
  canonical_digest "cacheon.chain.evaluation-stack-state"
    (str_dict [("arena_digest", VStr (st_arena s)); ("generation", VInt (st_generation s)); ("stack_digest", VStr d);
               ("transition_event_id", VStr (st_transition s)); ("tree_digest", VStr (st_tree s))]) 1.

Definition _evaluation_stack_state_from_row (row : stack_row) (context : string) : result EvaluationStackState :=
  m ← reread value_errors (string_app context " is corrupt: ") (manifest_from_dict (w_json row));
  state ← make_stack_state (w_arena row) (w_generation row) m (w_tree row) (w_transition row);
  d ← manifest_digest m;
  raise_if negb (String.eqb d (w_digest row)) || negb (bool_decide (manifest_to_dict m = w_json row))
    with (IntakeError (string_app context " digest differs from stored bytes"));
  Ok state.

(** A [reservation_baseline_segments] row, reopened. *)
Definition state_of_segment (g : segment) (context : string) : result EvaluationStackState :=
  _evaluation_stack_state_from_row
    (mkStackRow (Store.s_arena g) (s_generation g) (s_stack_digest g) (s_tree_digest g) (s_stack_json g) (s_transition g) "") context.
