(* ===== verification/Queue.v ===== *)
(** * The intake queue

    Which queued reservations an evaluator may claim ([_select_evaluation_rows]
    of [cacheon/chain/arena_state.py]) and the transitions of a reservation
    outside evaluation ([cacheon/chain/intake.py]): transport, holds, expiry
    and disposal before a first claim. *)

From S2P Require Import Prelude PyVal Leases Recovery Store StackState.

Open Scope Z_scope.

(** What an opened store is bound to. [reopen_plan payload lease digest request] is
    [decode_recovery_request_plan]: the worker epoch of a retained plan that opens for a lease under these
    identities, [None] when it does not. *)
Record config := mkConfig {
  policy : IntakePolicy;
  scope_digest : string;
  competition_arena : string;
  recovery_enabled : bool;
  reopen_plan : string -> EvaluationLease -> string -> string -> option string;
}.

Definition _ACTIVE : list status :=
  [deferred; reserved; fetching; transport_retry; published; qualifying; reproduction_pending].
Definition _EXPLICITLY_EXPIRABLE : list status :=
  [deferred; reserved; transport_retry; published; reproduction_pending; held; no_decision].
Definition _AUTOMATICALLY_EXPIRABLE : list status := _EXPLICITLY_EXPIRABLE.
Definition _AUTOMATIC_EXPIRY_REASON : string := "finalized_block_sla_expired".

(** [ORDER BY block,event_index,event_subindex,hotkey,content_hash] *)
Definition arrival_key (r : reservation) : Z * (Z * (Z * (string * string))) :=
  (r_block r, (r_event_index r, (r_event_subindex r, (r_hotkey r, r_content_hash r)))).

Definition all_rows (d : database) : list reservation := (map_to_list (reservations d)).*2.

(** [SELECT ... WHERE p ORDER BY key] *)
Definition select_rows {K} `{Cmp K} (p : reservation -> bool) (key : reservation -> K) (d : database) :
    list reservation :=
  sorted_by key (filter (fun r => p r = true) (all_rows d)).

Definition in_statuses (r : reservation) (l : list status) : bool := bool_decide (r_status r ∈ l).

(** ** Selection for a claim *)

Section Select.
Context (cfg : config) (d : database).

Definition in_arena (r : reservation) : bool := String.eqb (r_arena r) (competition_arena cfg).

Definition active_leases : list lease_row :=
  filter (fun l => bool_decide (l_state l = active) && String.eqb (l_arena l) (competition_arena cfg) = true)
    (map_to_list (leases d)).*2.

(** [qualification_queue_baseline]: the segment of the oldest active row, which must open; the state it
    opens as has the fields of the row. *)
Definition qualification_queue_baseline : result (option segment) :=
  match select_rows (fun r => in_statuses r _ACTIVE && in_arena r) arrival_key d with
  | r :: _ =>
      match segments d !! r_id r with
      | Some g => _ ← state_of_segment g "qualification queue baseline"; Ok (Some g)
      | None => Ok None
      end
  | [] => Ok None
  end.

Definition in_segment (baseline : option segment) (r : reservation) : bool :=
  match baseline with
  | None => true
  | Some b => bool_decide (segments d !! r_id r = Some b)
  end.

Definition eligible (baseline : option segment) (r : reservation) : bool :=
  in_statuses r EVALUATION_PRIOR_STATUSES && negb (has_active_member (r_id r) d) && in_arena r
  && in_segment baseline r.

(** [CASE r.status WHEN 'reproduction_pending' THEN 0 ELSE 1 END] *)
Definition priority (r : reservation) : Z := if decide (r_status r = reproduction_pending) then 0 else 1.
Definition claim_key (r : reservation) : Z * (Z * (Z * (Z * (string * string)))) := (priority r, arrival_key r).

Definition in_group (g : string) (r : reservation) : bool := String.eqb (r_retry_group r) g.

Definition group_rows (baseline : option segment) (g : string) : list reservation :=
  select_rows (fun r => eligible baseline r && in_group g r) r_retry_position d.

Definition group_total (g : string) : nat :=
  length (filter (fun r => bool_decide (r_status r = published) && in_group g r && in_arena r = true) (all_rows d)).

Definition fresh_rows (baseline : option segment) : list reservation :=
  select_rows (fun r => eligible baseline r && bool_decide (r_status r = published) && in_group "" r) claim_key d.

Definition capacity_full (stage : string) (owner : option string) (capacity : Z) : bool :=
  match owner with Some o => existsb (fun l => String.eqb (l_owner l) o) active_leases | None => false end
  || (capacity <=? Z.of_nat (length (filter (fun l => String.eqb (l_stage l) stage = true) active_leases))).

Definition unbound_head (baseline : option segment) : bool :=
  match baseline with Some _ => false | None => bool_decide (competition_arena cfg ∈ stacks d) end.

Definition _select_evaluation_rows (stage : string) (bound : Z) (owner : option string) (max_active : option Z) :
    result (list reservation) :=
  raise_if match max_active with Some n => n <=? 0 | None => false end
    with (IntakeError "evaluation capacity must be a positive integer");
  if capacity_full stage owner (default 1 max_active) then Ok []
  else
    baseline ← qualification_queue_baseline;
    if unbound_head baseline then Ok []
    else
      match select_rows (eligible baseline) claim_key d with
      | [] => Ok []
      | first :: _ =>
          if decide (r_status first = reproduction_pending) then Ok [first]
          else if negb (String.eqb (r_retry_group first) "") then
            let selected := group_rows baseline (r_retry_group first) in
            raise_if negb (length selected =? group_total (r_retry_group first))%nat
              with (IntakeError "qualification retry group is partially leased");
            raise_if bound <? Z.of_nat (length selected)
              with (IntakeError "qualification retry group exceeds lease capacity");
            Ok selected
          else Ok (take (Z.to_nat bound) (fresh_rows baseline))
      end.
End Select.

(** ** Stale rows *)

Definition qualifications_of (rid : string) (d : database) : list (string * Z * Z) :=
  filter (fun q : string * Z * Z => q.1.1 = rid) (qualifications d).

Definition malformed_reproduction (d : database) (r : reservation) : bool :=
  bool_decide (r_status r = reproduction_pending)
  && (negb (length (qualifications_of (r_id r) d) =? 1)%nat
      || negb (length (filter (fun q : string * Z * Z => q.1.2 = 0%Z) (qualifications_of (r_id r) d)) =? 1)%nat).

Definition is_stale (threshold : Z) (d : database) (r : reservation) : bool :=
  in_statuses r _AUTOMATICALLY_EXPIRABLE && negb (has_active_member (r_id r) d)
  && (((default (r_block r) (reset_block <$> sla_resets d !! r_id r) <=? threshold)
       && match qualifications_of (r_id r) d with [] => true | _ => false end)
      || existsb (fun q : string * Z * Z => (q.1.2 =? 0) && (0 <? q.2) && (q.2 <=? threshold)) (qualifications_of (r_id r) d)).

Definition _expire_stale_rows (cfg : config) (current_block : Z) : M (list string) :=
  let threshold := current_block - expiry_blocks (policy cfg) in
  if threshold <? 0 then mret []
  else
    malformed ← gets (fun d => existsb (malformed_reproduction d) (all_rows d));
    fail_if malformed with (IntakeError "reproduction-pending authority is inconsistent");
    future ← gets (fun d => existsb (fun q => (q.2 <? 0) || (current_block <? q.2)) (qualifications d));
    fail_if future with (IntakeError "retained qualification block is not finalized");
    rows ← gets (fun d => r_id <$> select_rows (is_stale threshold d) arrival_key d);
    _ ← each (fun rid => update_reservation rid (set_status expired "NO_DECISION" _AUTOMATIC_EXPIRY_REASON)) rows;
    mret rows.

(** ** Transitions of one reservation *)

Definition _require_evaluation_mutation_authority (rid : string) : M () := fun s =>
  if bool_decide (mutation_authority s <> ∅) && negb (bool_decide (rid ∈ mutation_authority s))
  then (s, Raise (IntakeError "evaluation result context forbids non-member mutation"))
  else if has_active_member rid (db s) && negb (bool_decide (rid ∈ mutation_authority s))
  then (s, Raise (IntakeError "active evaluation lease fences reservation mutation"))
  else (s, Ok tt).

Definition _transition (rid : string) (expected : list status) (st : status)
    (decision reason evidence_digest : string) : M reservation :=
  fail_if 2048 <? py_len reason with (IntakeError "intake transition is malformed");
  _ ← transaction (
    _ ← _require_evaluation_mutation_authority rid;
    row ← get rid;
    fail_if negb (in_statuses row expected) with (IntakeError "intake transition is forbidden");
    update_reservation rid (fun r => set_evidence evidence_digest (set_status st decision reason r)));
  get rid.

Definition mark_fetching (cfg : config) (rid : string) : M reservation :=
  _ ← transaction (
    row ← get rid;
    fail_if negb (in_statuses row [reserved; transport_retry])
      with (IntakeError "only pending intake may begin transport");
    let attempts := r_attempts row + 1 in
    let fetch := attempts <=? max_transport_retries (policy cfg) in
    update_reservation rid (fun r =>
      set_attempts attempts
        (set_status (if fetch then fetching else held) (r_decision r)
                    (if fetch then "" else "transport_retry_limit") r)));
  get rid.

Definition mark_transport_retry (cfg : config) (rid reason : string) : M reservation :=
  row ← get rid;
  let exhausted := max_transport_retries (policy cfg) <=? r_attempts row in
  _transition rid [fetching] (if exhausted then held else transport_retry) ""
    (if exhausted then "transport_retry_limit" else reason) "".

Definition mark_failed (rid reason : string) : M reservation :=
  _transition rid [fetching; published] failed "FAIL" reason "".

Definition mark_held (rid reason : string) : M reservation :=
  _transition rid [reserved; fetching; transport_retry; published; qualifying; reproduction_pending; no_decision]
    held "" reason "".

Definition expire_stale (cfg : config) (current_block : Z) : M (list reservation) :=
  fail_if current_block <? 0 with (IntakeError "automatic expiry block is malformed");
  rows ← transaction (_expire_stale_rows cfg current_block);
  collect get rows.

Definition expire (cfg : config) (rid : string) (current_block : Z) (reason : string) : M reservation :=
  row ← get rid;
  fail_if String.eqb reason "" with (IntakeError "explicit expiry requires an operator reason");
  fail_if current_block - r_block row <? expiry_blocks (policy cfg)
    with (IntakeError "reservation is not old enough for explicit expiry");
  _transition rid _EXPLICITLY_EXPIRABLE expired "NO_DECISION" reason "".

Definition release_hold (rid reason : string) : M reservation :=
  fail_if String.eqb reason "" with (IntakeError "hold release requires an operator reason");
  _ ← transaction (
    row ← get rid;
    fail_if negb (in_statuses row [held; no_decision]) with (IntakeError "only held intake may be released");
    reproductions ← gets (fun d => length (qualifications_of rid d));
    let is_published := negb (String.eqb (r_publication row) "") in
    let st := if (reproductions =? 1)%nat then reproduction_pending
              else if is_published then published else transport_retry in
    update_reservation rid (fun r =>
      set_evidence "" (clear_retry (set_attempts (if is_published then r_attempts row else 0)
        (set_status st "" reason r)))));
  get rid.

(** [UPDATE eval_cost_credits SET reservation_id='',spent_block=0 WHERE reservation_id=?] *)
Definition refund (rid : string) (c : credit_row) : credit_row :=
  if String.eqb (e_reservation c) rid then mkCreditRow (e_id c) (e_hotkey c) (e_granted c) "" 0 else c.

Definition _expire_before_claim (rid reason : string) : M reservation :=
  _ ← transaction (
    _ ← _require_evaluation_mutation_authority rid;
    row ← get rid;
    fail_if negb (in_statuses row [fetching; published]) || negb (String.eqb (r_service row) "")
      with (IntakeError "pre-claim disposal is forbidden");
    _ ← update_reservation rid (set_status expired "NO_DECISION" reason);
    modify (fun d => with_costs (filter (fun p => p_reservation p <> rid) (cost_payments d)) (refund rid <$> cost_credits d) d));
  get rid.

Definition mark_target_unavailable (rid target_id : string) : M reservation :=
  fail_if String.eqb target_id "" with (IntakeError "closed-target disposal requires the target id");
  _expire_before_claim rid (string_app "target_unavailable:" target_id).

(** [_recover_interrupted], its update of [reservations]. *)
Definition _recover_interrupted : M () :=
  transaction (
    rows ← gets (fun d => select_rows (fun r => in_statuses r [fetching; qualifying]) arrival_key d);
    each (fun row => update_reservation (r_id row)
            (set_status held "" (string_app "controller_restart_during_" (status_text (r_status row))))) rows).

(** ** The deferred queue *)

Definition occupying : list status :=
  [reserved; fetching; transport_retry; published; qualifying; reproduction_pending; held; no_decision].

Definition _activate_deferred_rows (cfg : config) : M (list string) :=
  occupied ← gets (fun d => length (filter (fun r => in_statuses r occupying = true) (all_rows d)));
  let capacity := Z.max 0 (max_pending (policy cfg) - Z.of_nat occupied) in
  if capacity =? 0 then mret []
  else
    ids ← gets (fun d => take (Z.to_nat capacity)
                          (r_id <$> select_rows (fun r => in_statuses r [deferred]) arrival_key d));
    _ ← each (fun rid => update_reservation rid (fun r => set_status reserved (r_decision r) "" r)) ids;
    mret ids.

Definition pending (cfg : config) (limit : option Z) : M (list reservation) :=
  let bound := default (max_cohort (policy cfg)) limit in
  fail_if (bound <=? 0) || (max_pending (policy cfg) <? bound)
    with (IntakeError "pending reservation limit is invalid");
  transaction (
    _ ← _activate_deferred_rows cfg;
    gets (fun d => take (Z.to_nat bound)
      (select_rows (fun r => in_statuses r [reserved; transport_retry]
                             && (r_attempts r <? max_transport_retries (policy cfg))) arrival_key d))).

(** ** Lemmas on the selector *)

Lemma select_rows_elem {K} `{Cmp K, !CmpLaws K} p (key : reservation -> K) d r :
  r ∈ select_rows p key d <-> p r = true /\ r ∈ all_rows d.
Proof. unfold select_rows. by rewrite sorted_by_perm, list_elem_of_filter. Qed.

Lemma select_rows_head {K} `{Cmp K, !CmpLaws K} p (key : reservation -> K) d r rows :
  select_rows p key d = r :: rows ->
  p r = true /\ r ∈ all_rows d /\ forall k, p k = true -> k ∈ all_rows d -> cmp_leb (key r) (key k) = true.
Proof.
  intros E. assert (Hr : r ∈ select_rows p key d) by (rewrite E; by left).
  apply select_rows_elem in Hr as [Hp Hin]. split_and!; try done. intros k Hk Hkin.
  assert (Hk' : k ∈ select_rows p key d) by by apply select_rows_elem.
  pose proof (sorted_by_sorted key (filter (fun r => p r = true) (all_rows d))) as Hs.
  change (sorted_by _ _) with (select_rows p key d) in Hs. rewrite E in Hs, Hk'.
  inversion Hs as [|?? _ Hall]; subst. apply elem_of_cons in Hk' as [->|Hk']; [apply cmp_leb_refl|].
  rewrite Forall_forall in Hall. by apply Hall.
Qed.

Lemma filter_length_le {A} (p q : A -> bool) (l : list A) :
  (forall x, x ∈ l -> p x = true -> q x = true) ->
  (length (filter (fun x => p x = true) l) <= length (filter (fun x => q x = true) l))%nat.
Proof.
  induction l as [|y l IH]; intros Hpq; [done|]. specialize (IH (fun x Hx => Hpq x (list_elem_of_further _ _ _ Hx))).
  specialize (Hpq y (list_elem_of_here _ _)). rewrite !filter_cons. repeat case_decide; simpl; try lia. tauto.
Qed.

(** A narrower filter of the same length keeps the same elements. *)
Lemma filter_same_length {A} (p q : A -> bool) (l : list A) :
  (forall x, x ∈ l -> p x = true -> q x = true) ->
  length (filter (fun x => p x = true) l) = length (filter (fun x => q x = true) l) ->
  forall x, x ∈ l -> q x = true -> p x = true.
Proof.
  induction l as [|y l IH]; [by intros _ _ x ?%elem_of_nil|]. intros Hpq.
  pose proof (fun x Hx => Hpq x (list_elem_of_further _ _ _ Hx)) as Hpq'.
  specialize (Hpq y (list_elem_of_here _ _)). pose proof (filter_length_le p q l Hpq'). rewrite !filter_cons.
  intros Hlen x Hx Hq. repeat case_decide; simpl in Hlen; try lia; try tauto;
    (apply elem_of_cons in Hx as [->|Hx]; [done|apply IH; auto]).
Qed.

Lemma take_sorted_prefix {A} (R : A -> A -> Prop) n (l : list A) x y :
  StronglySorted R l -> x ∈ take n l -> y ∈ l -> y ∈ take n l \/ R x y.
Proof.
  intros Hs Hx Hy. rewrite <- (take_drop n l) in Hs, Hy. apply elem_of_app in Hy as [Hy|Hy]; [by left|right].
  by eapply StronglySorted_app_le.
Qed.

Lemma priority_reproduction r : r_status r = reproduction_pending <-> priority r = 0.
Proof. unfold priority. case_decide; naive_solver. Qed.

Lemma claim_key_le r k :
  cmp_leb (claim_key r) (claim_key k) = true -> r_status k = reproduction_pending ->
  r_status r = reproduction_pending /\ cmp_leb (arrival_key r) (arrival_key k) = true.
Proof.
  intros H Hk%priority_reproduction. unfold claim_key, cmp_leb, cmp at 1, cmp_prod in H. cbn [fst snd] in H. rewrite Hk in H.
  unfold priority in H. case_decide as Hr; [|done]. split; [done|]. exact H.
Qed.

Lemma group_rows_elem cfg d baseline g r :
  r ∈ group_rows cfg d baseline g <->
  r ∈ all_rows d /\ eligible cfg d baseline r = true /\ r_retry_group r = g.
Proof. unfold group_rows. rewrite select_rows_elem. unfold in_group. rewrite andb_true_iff, String.eqb_eq. tauto. Qed.

Lemma fresh_rows_elem cfg d baseline r :
  r ∈ fresh_rows cfg d baseline <->
  r ∈ all_rows d /\ eligible cfg d baseline r = true /\ r_status r = published /\ r_retry_group r = "".
Proof.
  unfold fresh_rows. rewrite select_rows_elem. unfold in_group.
  rewrite !andb_true_iff, bool_decide_eq_true, String.eqb_eq. tauto.
Qed.

(** Whatever a claim selects was eligible. *)
Lemma selected_eligible cfg d stage bound owner max_active rows r :
  _select_evaluation_rows cfg d stage bound owner max_active = Ok rows -> r ∈ rows ->
  r ∈ all_rows d /\ exists baseline, qualification_queue_baseline cfg d = Ok baseline /\ eligible cfg d baseline r = true.
Proof.
  unfold _select_evaluation_rows. intros H Hr. step_guard H.
  assert (Hnil : Ok [] <> Ok rows) by (intros [= <-]; by apply elem_of_nil in Hr).
  destruct (capacity_full _ _ _ _ _); [done|]. apply bind_Ok in H as (baseline & Eb & H).
  enough (r ∈ all_rows d /\ eligible cfg d baseline r = true) by naive_solver.
  destruct (unbound_head _ _ _); [done|].
  destruct (select_rows _ claim_key d) as [|first rest] eqn:Esel; [done|]. clear Hnil.
  apply select_rows_head in Esel as (Hel & Hin & _). destruct (decide _).
  { injection H as <-. by apply list_elem_of_singleton in Hr as ->. }
  destruct (negb _).
  - step_guard H. step_guard H. injection H as <-. apply group_rows_elem in Hr. tauto.
  - injection H as <-. assert (Hf : r ∈ fresh_rows cfg d baseline).
    { rewrite <- (take_drop (Z.to_nat bound)). apply elem_of_app. by left. }
    apply fresh_rows_elem in Hf. tauto.
Qed.

Section Selection.
Context (cfg : config) (d : database).

Lemma narrow_group baseline (g : string) :
  (forall k, k ∈ all_rows d -> eligible cfg d baseline k = true -> r_status k = published) ->
  forall k, k ∈ all_rows d -> eligible cfg d baseline k && in_group g k = true ->
    bool_decide (r_status k = published) && in_group g k && in_arena cfg k = true.
Proof.
  intros Hpub k Hin [Hk Hgk]%andb_true_iff. rewrite (bool_decide_eq_true_2 _ (Hpub k Hin Hk)), Hgk. cbn.
  unfold eligible in Hk. by split_bool.
Qed.

(** C30: what a claim may bind: only unleased rows of the arena in a claimable status and in the baseline
    segment of the queue head, at most [bound] of them and only while the worker and the arena have
    capacity; a reproduction comes first and alone, in arrival order; a retry group is bound whole; and
    fresh work is bound in arrival order, no older row being left behind. *)
Theorem select_contract (stage : string) (bound : Z) (owner : option string) (max_active : option Z)
    (rows : list reservation) :
  1 <= bound -> _select_evaluation_rows cfg d stage bound owner max_active = Ok rows -> rows <> [] ->
  exists baseline, qualification_queue_baseline cfg d = Ok baseline /\
  capacity_full cfg d stage owner (default 1 max_active) = false /\
  (forall r, r ∈ rows -> r ∈ all_rows d /\ eligible cfg d baseline r = true) /\
  Z.of_nat (length rows) <= bound /\
  (forall k, k ∈ all_rows d -> eligible cfg d baseline k = true -> r_status k = reproduction_pending ->
     exists r, rows = [r] /\ r_status r = reproduction_pending /\ cmp_leb (arrival_key r) (arrival_key k) = true) /\
  (forall r k, r ∈ rows -> r_status r = published -> r_retry_group r <> "" -> k ∈ all_rows d ->
     r_status k = published -> r_retry_group k = r_retry_group r -> r_arena k = competition_arena cfg -> k ∈ rows) /\
  (forall r k, r ∈ rows -> r_status r = published -> r_retry_group r = "" -> k ∈ all_rows d ->
     eligible cfg d baseline k = true -> r_status k = published -> r_retry_group k = "" ->
     k ∈ rows \/ cmp_leb (claim_key r) (claim_key k) = true).
Proof.
  intros Hb. unfold _select_evaluation_rows. intros H Hne. step_guard H.
  destruct (capacity_full _ _ _ _ _) eqn:Ecap; [congruence|].
  apply bind_Ok in H as (baseline & Ebase & H). exists baseline. split; [done|].
  destruct (unbound_head _ _ _); [congruence|].
  destruct (select_rows (eligible cfg d baseline) claim_key d) as [|first rest] eqn:Esel; [congruence|].
  apply select_rows_head in Esel as (Hel & Hin & Hmin). split; [done|].
  destruct (decide (r_status first = reproduction_pending)) as [Hrep|Hrep].
  { injection H as <-. split; [by intros r ->%list_elem_of_singleton|]. split; [simpl; lia|]. split.
    - intros k Hk Hek Hs. exists first. split_and!; try done. by eapply claim_key_le; [apply Hmin|].
    - split; intros r k ->%list_elem_of_singleton; congruence. }
  assert (Hnorep : forall k, k ∈ all_rows d -> eligible cfg d baseline k = true -> r_status k <> reproduction_pending).
  { intros k Hk Hek Hs. apply Hrep. by eapply claim_key_le; [apply (Hmin k)|]. }
  assert (Hpub : forall k, k ∈ all_rows d -> eligible cfg d baseline k = true -> r_status k = published).
  { intros k Hk Hek. specialize (Hnorep k Hk Hek). unfold eligible, in_statuses in Hek. split_bool.
    unfold EVALUATION_PRIOR_STATUSES in *. set_solver. }
  destruct (String.eqb_spec (r_retry_group first) "") as [Hg|Hg]; cbn [negb] in H.
  - injection H as <-. assert (Hfresh : forall r, r ∈ fresh_rows cfg d baseline -> r ∈ all_rows d /\
      eligible cfg d baseline r = true /\ r_retry_group r = "") by (intros r Hr; apply fresh_rows_elem in Hr; tauto).
    assert (Htake : forall r, r ∈ take (Z.to_nat bound) (fresh_rows cfg d baseline) -> r ∈ fresh_rows cfg d baseline).
    { intros r Hr. rewrite <- (take_drop (Z.to_nat bound)). apply elem_of_app. by left. }
    split_and!.
    + intros r Hr%Htake. destruct (Hfresh r Hr) as (? & ? & _). done.
    + rewrite length_take. lia.
    + intros k Hk Hek Hs. by destruct (Hnorep k).
    + intros r k Hr%Htake _ Hgr. by destruct (Hfresh r Hr) as (_ & _ & ?).
    + intros r k Hr _ _ Hk Hek Hs Hgk. eapply (take_sorted_prefix (key_le claim_key)); [apply sorted_by_sorted|exact Hr|].
      apply select_rows_elem. unfold in_group. by rewrite Hek, Hs, Hgk.
  - step_guard H. step_guard H. injection H as <-. apply negb_false_iff, Nat.eqb_eq in Eg0.
    pose proof (group_rows_elem cfg d baseline (r_retry_group first)) as Hgrp.
    split_and!.
    + intros r (? & ? & _)%Hgrp. done.
    + lia.
    + intros k Hk Hek Hs. by destruct (Hnorep k).
    + intros r k (Hr & Her & Egr)%Hgrp _ _ Hk Hs Egk Ear. unfold group_rows. apply select_rows_elem. split; [|done].
      unfold group_rows, select_rows in Eg0. rewrite sorted_by_perm in Eg0.
      eapply (filter_same_length _ _ _ (narrow_group _ _ Hpub) Eg0); [done|]. unfold in_group, in_arena.
      by rewrite Hs, Egk, Egr, Ear, !String.eqb_refl.
    + intros r k (_ & _ & Egr)%Hgrp _ Hno. congruence.
Qed.
End Selection.

(** ** An example store *)

Definition hex (n : N) : string := string_of_bytes (repeat n 64).

Definition example_config (recovery : bool) : config :=
  mkConfig default_policy (hex 97) "" recovery (fun _ _ _ _ => Some "epoch").

Definition no_columns : columns := mkColumns "" "" "" "" 0 0 0 "" (VList []) None "" "" None.

Definition example_row (n : N) (block : Z) (st : status) : reservation :=
  mkReservation (hex n) block 0 0 "hotkey" (hex n) st 1 (hex 102) "" "" "" "" 0 "" "" "" no_columns.

Definition rows_db (rs : list reservation) : database :=
  mkDb (list_to_map ((fun r => (r_id r, r)) <$> rs)) ∅ [] [] ∅ [] [] [] ∅ ∅ [] (Some (5, "hash")) [] [].

Definition example_rows : list reservation :=
  [example_row 98 4 published; example_row 99 3 published; example_row 100 2 held].

Lemma select_contract_witness :
  _select_evaluation_rows (example_config true) (rows_db example_rows) "qualification" 8 (Some "w") (Some 1) =
    Ok [example_row 99 3 published; example_row 98 4 published] /\
  capacity_full (example_config true) (rows_db example_rows) "qualification" (Some "w") 1 = false.
Proof.
  assert (H : _select_evaluation_rows (example_config true) (rows_db example_rows) "qualification" 8 (Some "w") (Some 1) =
    Ok [example_row 99 3 published; example_row 98 4 published]) by (vm_compute; reflexivity).
  split; [exact H|]. destruct (select_contract (example_config true) (rows_db example_rows) "qualification" 8 (Some "w")
    (Some 1) [example_row 99 3 published; example_row 98 4 published] ltac:(lia) H ltac:(done)) as (baseline & _ & Hc & _).
  exact Hc.
Defined.
