(* ===== verification/LeaseRows.v ===== *)
(** * Retained lease and recovery rows

    Reading a lease, a recovery or an event back from its row, with the checks
    on its retained identity, and the locked writes that the operations of
    [evaluation_lease_store.py] and [evaluation_recovery_store.py] share. *)

From S2P Require Import Prelude PyVal Identity Leases Recovery Store Queue.

Open Scope Z_scope.

Definition HoldError (m : string) : exn := Exn "EvaluationRecoveryHoldError" m.

(** [except (E, ...) as exc: raise ...] for the named classes. *)
Definition rethrow {A} (classes : list string) (f : string -> exn) (r : result A) : result A :=
  match r with
  | Ok a => Ok a
  | Raise e => if bool_decide (exn_class e ∈ classes) then Raise (f (exn_message e)) else Raise e
  end.

(** The classes under [ValueError] that a recovery's checks raise. *)
Definition recovery_errors : list string := ["EvaluationRecoveryError"; "StackIdentityError"; "ValueError"].

Definition corrupt (what : string) (m : string) : exn := IntakeError (string_app what m).

(** ** Leases *)

Section Rows.
Context (cfg : config).

(** [ORDER BY position] *)
Definition member_rows (d : database) (lid : string) : list member_row :=
  sorted_by m_position (filter (fun m => m_lease m = lid) (lease_members d)).

Definition _evaluation_lease (d : database) (row : lease_row) : result EvaluationLease :=
  loaded ← rethrow ["EvaluationLeaseError"] (corrupt "evaluation lease is corrupt: ")
    (members ← map_result (fun m => make_member (m_reservation m) (m_prior m)) (member_rows d (l_id row));
     lease ← make_lease (mkLease (l_id row) (l_generation row) (l_stage row) (l_owner row) members
                           (l_claimed row) (l_initial row) (l_expires row));
     expected ← evaluation_lease_id (scope_digest cfg) (generation lease) (stage lease) (owner lease)
                  members (claimed_block lease) (initial_expires_block lease);
     Ok (lease, expected));
  raise_if negb (String.eqb (lease_id loaded.1) loaded.2)
    with (IntakeError "evaluation lease identity is corrupt");
  Ok loaded.1.

Definition event_consistent (retained : EvaluationLease) (e : EvaluationLeaseEvent) : bool :=
  let no_reason := String.eqb (reason e) "" in
  let no_digest := String.eqb (result_digest e) "" in
  (ev_generation e =? generation retained) && String.eqb (ev_stage e) (stage retained)
  && String.eqb (ev_owner e) (owner retained) && bool_decide (ev_members e = members retained)
  && match event_type e with
     | ev_claimed | ev_heartbeat => no_reason && no_digest
     | ev_expired => String.eqb (reason e) "evaluation_lease_expired" && no_digest
     | ev_completed => negb no_digest && no_reason
     | ev_released => negb no_reason
     end.

Definition _evaluation_lease_event (d : database) (e : EvaluationLeaseEvent) : result EvaluationLeaseEvent :=
  loaded ← rethrow ["EvaluationLeaseError"] (corrupt "evaluation lease event is corrupt: ")
    (event ← make_event e;
     row ← match leases d !! ev_lease_id event with
           | Some row => Ok row
           | None => Raise (EvaluationLeaseError "event lease is absent")
           end;
     retained ← _evaluation_lease d row;
     event_lease ← make_lease (mkLease (lease_id retained) (ev_generation event) (ev_stage event) (ev_owner event)
                     (ev_members event) (claimed_block retained) (initial_expires_block retained)
                     (ev_expires_block event));
     Ok (event, retained, event_lease));
  let '(event, retained, event_lease) := loaded in
  raise_if negb (event_consistent retained event)
    with (IntakeError "evaluation lease event identity is corrupt");
  expected ← evaluation_lease_event_id event_lease (event_index event) (event_type event) (finalized_block event)
               (result_digest event) (reason event);
  raise_if negb (String.eqb (event_id event) expected)
    with (IntakeError "evaluation lease event identity is corrupt");
  Ok event.

Definition events_of (lid : string) (es : list EvaluationLeaseEvent) : list EvaluationLeaseEvent :=
  filter (fun e => ev_lease_id e = lid) es.

Definition event_input_ok (t : lease_event_type) (finalized : Z) (digest why : string) : bool :=
  (0 <=? finalized) && (String.eqb digest "" || is_sha256_hex digest) && (py_len why <=? 2048)
  && negb (bool_decide (t = ev_completed) && String.eqb digest "")
  && negb (negb (bool_decide (t ∈ [ev_completed; ev_released])) && negb (String.eqb digest ""))
  && negb (bool_decide (t = ev_released) && String.eqb why "").

Definition _append_evaluation_lease_event (lease : EvaluationLease) (t : lease_event_type) (finalized : Z)
    (digest why : string) : M EvaluationLeaseEvent :=
  fail_if negb (event_input_ok t finalized digest why)
    with (IntakeError "evaluation lease event input is malformed");
  es ← gets lease_events;
  let index := Z.of_nat (length (events_of (lease_id lease) es)) in
  eid ← lift (evaluation_lease_event_id lease index t finalized digest why);
  let event := mkEvent (Z.of_nat (length es) + 1) eid (lease_id lease) (generation lease) index t (stage lease)
                 (owner lease) (members lease) finalized (expires_block lease) digest why in
  fail_if existsb (fun e => String.eqb (event_id e) eid) es
    with (IntegrityError "UNIQUE constraint failed: evaluation_lease_events.event_id");
  _ ← modify (fun d => with_events (lease_events d ++ [event]) d);
  retained ← gets (fun d => _evaluation_lease_event d event);
  lift retained.

Definition same_row (row : lease_row) (lease : EvaluationLease) : bool :=
  (l_generation row =? generation lease) && String.eqb (l_stage row) (stage lease)
  && String.eqb (l_owner row) (owner lease) && (l_claimed row =? claimed_block lease)
  && (l_initial row =? initial_expires_block lease) && (l_expires row =? expires_block lease)
  && bool_decide (l_state row = active).

Definition _active_evaluation_lease_row (lease : EvaluationLease) : M lease_row :=
  row ← gets (fun d => leases d !! lease_id lease);
  match row with
  | Some row =>
      fail_if negb (same_row row lease) with (IntakeError "evaluation lease is stale or no longer active");
      loaded ← gets (fun d => _evaluation_lease d row);
      retained ← lift loaded;
      fail_if negb (bool_decide (retained = lease)) with (IntakeError "evaluation lease members changed");
      count ← gets (fun d => count_open (lease_id lease) (lease_members d));
      fail_if negb (count =? length (members lease))%nat
        with (IntakeError "evaluation lease membership is no longer active");
      mret row
  | None => throw (IntakeError "evaluation lease is stale or no longer active")
  end.

(** [self.get(...).status != prior_status] for some member *)
Definition queue_state_ok (d : database) (lease : EvaluationLease) : bool :=
  forallb (fun m => match reservations d !! reservation_id m with
                    | Some r => bool_decide (r_status r = prior_status m)
                    | None => false
                    end) (members lease).

(** [any(self.get(m.reservation_id).status != m.prior_status for m in members)] *)
Fixpoint any_moved (ms : list EvaluationLeaseMember) : M bool :=
  match ms with
  | [] => mret false
  | m :: ms =>
      row ← get (reservation_id m);
      if decide (r_status row = prior_status m) then any_moved ms else mret true
  end.

(** ** Recoveries *)

Definition _evaluation_recovery (d : database) (row : recovery_row) : result EvaluationRecovery :=
  match leases d !! c_lease row with
  | None => Raise (HoldError "evaluation recovery lost its lease")
  | Some lrow =>
      recovery ← rethrow recovery_errors HoldError
        (lease ← _evaluation_lease d lrow;
         make_recovery (mkRecovery (c_recovery row) lease (c_revision row) (c_phase row) (c_resolution row)
           (c_created row) (c_updated row) (c_plan_digest row) (c_request row) (c_plan row) (c_reason row)));
      raise_if truthy (request_plan recovery)
               && match reopen_plan cfg (request_plan recovery) (rec_lease recovery) (plan_digest recovery) (request_id recovery) with Some _ => false | None => true end
        with (HoldError "evaluation recovery request plan is corrupt");
      Ok recovery
  end.

Definition _evaluation_recovery_event (e : recovery_event) : result recovery_event :=
  rethrow recovery_errors HoldError (make_recovery_event e).

Definition _append_evaluation_recovery_event_locked (recovery : EvaluationRecovery) (t : RecoveryEventType)
    (finalized : Z) : M recovery_event :=
  let lid := lease_id (rec_lease recovery) in
  eid ← lift (evaluation_recovery_event_id (recovery_id recovery) lid (revision recovery) t (phase recovery)
                (resolution recovery) finalized (expires_block (rec_lease recovery)) (plan_digest recovery)
                (request_id recovery) (rec_reason recovery));
  es ← gets recovery_events;
  let event := mkRecoveryEvent (Z.of_nat (length es) + 1) eid (recovery_id recovery) lid (revision recovery) t
                 (phase recovery) (resolution recovery) finalized (expires_block (rec_lease recovery))
                 (plan_digest recovery) (request_id recovery) (rec_reason recovery) in
  _ ← recovery_guard true lid;
  fail_if existsb (fun e => String.eqb (re_event_id e) eid
                            || (String.eqb (re_recovery_id e) (recovery_id recovery)
                                && (re_revision e =? revision recovery))) es
    with (IntegrityError "UNIQUE constraint failed: evaluation_recovery_events");
  _ ← modify (fun d => with_recoveries (recoveries d) (recovery_events d ++ [event]) d);
  lift (_evaluation_recovery_event event).

Definition recovery_row_of (r : EvaluationRecovery) : recovery_row :=
  mkRecoveryRow (recovery_id r) (lease_id (rec_lease r)) (revision r) (phase r) (resolution r) (created_block r)
    (updated_block r) (request_plan r) (plan_digest r) (request_id r) (rec_reason r).

(** The [CHECK]s of [evaluation_recoveries]. *)
Definition recovery_row_ok (c : recovery_row) : bool :=
  (0 <=? c_revision c) && (0 <=? c_created c) && (c_created c <=? c_updated c)
  && Bool.eqb (is_phase (c_phase c) HELD || is_resolution (c_resolution c) PRE_RESIDENT_RELEASED)
              (truthy (c_reason c))
  && negb (is_phase (c_phase c) HELD && negb (is_resolution (c_resolution c) UNRESOLVED))
  && ((String.eqb (c_plan c) "" && String.eqb (c_plan_digest c) "" && String.eqb (c_request c) ""
       && (is_phase (c_phase c) CLAIMED || is_phase (c_phase c) HELD))
      || ((0 <? Z.of_nat (String.length (c_plan c))) && (Z.of_nat (String.length (c_plan c)) <=? 4194304)
          && (py_len (c_plan_digest c) =? 64) && (py_len (c_request c) =? 64))).

Definition _create_evaluation_recovery_locked (lease : EvaluationLease) : M EvaluationRecovery :=
  rid ← lift (evaluation_recovery_id lease);
  recovery ← lift (make_recovery (mkRecovery rid lease 0 CLAIMED UNRESOLVED (claimed_block lease)
                                   (claimed_block lease) "" "" "" ""));
  let row := recovery_row_of recovery in
  _ ← recovery_guard true (lease_id lease);
  rs ← gets recoveries;
  fail_if negb (absent (rs !! lease_id lease)) || existsb (fun kv => String.eqb (c_recovery kv.2) rid) (map_to_list rs)
    with (IntegrityError "UNIQUE constraint failed: evaluation_recoveries");
  fail_if negb (recovery_row_ok row) with (IntegrityError "CHECK constraint failed");
  _ ← modify (fun d => with_recoveries (<[lease_id lease := row]> (recoveries d)) (recovery_events d) d);
  _ ← _append_evaluation_recovery_event_locked recovery EV_CLAIMED (claimed_block lease);
  mret recovery.

Definition _reopen_evaluation_recovery_for_lease (d : database) (lease : EvaluationLease) :
    result EvaluationRecovery :=
  match recoveries d !! lease_id lease with
  | None => Raise (HoldError "active qualification lease has no recovery authority; HOLD")
  | Some row =>
      recovery ← _evaluation_recovery d row;
      raise_if negb (bool_decide (rec_lease recovery = lease))
        with (IntakeError "evaluation recovery lease object is stale");
      Ok recovery
  end.

(** ORDER BY revision *)
Definition recovery_events_of (rid : string) (es : list recovery_event) : list recovery_event :=
  sorted_by re_revision (filter (fun e => re_recovery_id e = rid) es).

Definition claim_matches (current : EvaluationRecovery) (e : recovery_event) : bool :=
  claim_ok e && String.eqb (re_lease_id e) (lease_id (rec_lease current))
  && (re_finalized e =? created_block current) && (re_expires e =? initial_expires_block (rec_lease current)).

Definition head_matches (current : EvaluationRecovery) (e : recovery_event) : bool :=
  (re_revision e =? revision current) && is_phase (re_phase e) (phase current)
  && is_resolution (re_resolution e) (resolution current)
  && (re_expires e =? expires_block (rec_lease current)) && (re_finalized e =? updated_block current)
  && String.eqb (re_plan_digest e) (plan_digest current) && String.eqb (re_request_id e) (request_id current)
  && String.eqb (re_reason e) (rec_reason current).

Definition evaluation_recovery_events (d : database) (recovery : EvaluationRecovery) : result (list recovery_event) :=
  current ← _reopen_evaluation_recovery_for_lease d (rec_lease recovery);
  events ← map_result _evaluation_recovery_event (recovery_events_of (recovery_id recovery) (recovery_events d));
  match events with
  | [] => Raise (HoldError "evaluation recovery history has no exact claim; HOLD")
  | claim :: rest =>
      raise_if negb (bool_decide (re_type claim = EV_CLAIMED))
        with (HoldError "evaluation recovery history has no exact claim; HOLD");
      raise_if negb (claim_matches current claim)
        with (HoldError "evaluation recovery claim event is inconsistent; HOLD");
      raise_if negb (chain_ok (lease_id (rec_lease current)) claim rest)
        with (HoldError "evaluation recovery event stream is inconsistent; HOLD");
      raise_if negb (head_matches current (List.last rest claim))
        with (HoldError "evaluation recovery head differs from immutable history; HOLD");
      Ok events
  end.

Definition _active_qualification_recovery (d : database) (lease : EvaluationLease) : result EvaluationRecovery :=
  raise_if negb (String.eqb (stage lease) "qualification")
    with (IntakeError "evaluation recovery requires a qualification lease");
  recovery ← _reopen_evaluation_recovery_for_lease d lease;
  raise_if negb (is_resolution (resolution recovery) UNRESOLVED)
    with (HoldError "active qualification lease has a resolved recovery; HOLD");
  _ ← evaluation_recovery_events d recovery;
  Ok recovery.

(** The columns compared by the update's [WHERE]. *)
Definition recovery_cas (row : recovery_row) (r : EvaluationRecovery) : bool :=
  String.eqb (c_recovery row) (recovery_id r) && (c_revision row =? revision r) && is_phase (c_phase row) (phase r)
  && is_resolution (c_resolution row) (resolution r) && (c_updated row =? updated_block r)
  && String.eqb (c_plan row) (request_plan r) && String.eqb (c_plan_digest row) (plan_digest r)
  && String.eqb (c_request row) (request_id r) && String.eqb (c_reason row) (rec_reason r).

Definition _transition_evaluation_recovery_locked (recovery : EvaluationRecovery) (ph : RecoveryPhase)
    (res : RecoveryResolution) (t : RecoveryEventType) (current_block : Z) (why : string)
    (lease : option EvaluationLease) (plan_binding : option (string * string * string)) : M EvaluationRecovery :=
  loaded ← gets (fun d => _active_qualification_recovery d (rec_lease recovery));
  current ← lift loaded;
  fail_if negb (bool_decide (current = recovery)) with (IntakeError "evaluation recovery object is stale");
  let '(plan, digest, request) :=
    default (request_plan recovery, plan_digest recovery, request_id recovery) plan_binding in
  updated ← lift (make_recovery (mkRecovery (recovery_id recovery) (default (rec_lease recovery) lease)
                    (revision recovery + 1) ph res (created_block recovery) current_block digest request plan why));
  rs ← gets recoveries;
  let lid := lease_id (rec_lease recovery) in
  match rs !! lid with
  | Some row =>
      fail_if negb (recovery_cas row recovery) with (IntakeError "evaluation recovery changed during transition");
      _ ← recovery_guard true lid;
      fail_if negb (recovery_row_ok (recovery_row_of updated)) with (IntegrityError "CHECK constraint failed");
      _ ← modify (fun d => with_recoveries (<[lid := recovery_row_of updated]> (recoveries d)) (recovery_events d) d);
      _ ← _append_evaluation_recovery_event_locked updated t current_block;
      mret updated
  | None => throw (IntakeError "evaluation recovery changed during transition")
  end.

Definition _complete_evaluation_recovery_locked (recovery : EvaluationRecovery) (current_block : Z) :
    M EvaluationRecovery :=
  fail_if is_phase (phase recovery) HELD with (IntakeError "held evaluation recovery cannot commit");
  _transition_evaluation_recovery_locked recovery (phase recovery) COMMITTED EV_COMMITTED current_block "" None None.
End Rows.

(** ** Lemmas *)

Lemma rethrow_Ok {A} classes f (r : result A) a : rethrow classes f r = Ok a <-> r = Ok a.
Proof. unfold rethrow. destruct r; [naive_solver|]. case_bool_decide; naive_solver. Qed.

Definition member_of_row (m : member_row) : EvaluationLeaseMember := mkMember (m_reservation m) (m_prior m).

Lemma map_make_member rows ms :
  map_result (fun m => make_member (m_reservation m) (m_prior m)) rows = Ok ms -> ms = member_of_row <$> rows.
Proof.
  intros H%map_result_Forall2. induction H as [|m x rows ms Hm _ IH]; [done|].
  apply make_member_Ok in Hm as [-> _]. by rewrite IH.
Qed.

Section RowLemmas.
Context (cfg : config).

(** A retained lease is its row with its member rows in order, under its own content identity. *)
Lemma evaluation_lease_Ok d row lease :
  _evaluation_lease cfg d row = Ok lease ->
  lease = mkLease (l_id row) (l_generation row) (l_stage row) (l_owner row)
            (member_of_row <$> member_rows d (l_id row)) (l_claimed row) (l_initial row) (l_expires row) /\
  make_lease lease = Ok lease.
Proof.
  unfold _evaluation_lease. intros H. inv_ok. apply rethrow_Ok in Hx. inv_ok. step_guard H. injection H as <-.
  apply map_make_member in Hx0 as ->. pose proof Hx1 as Hl. apply make_lease_Ok in Hx1 as [-> _]. done.
Qed.

Lemma lease_event_same d x y : _evaluation_lease_event cfg d x = Ok y -> y = x.
Proof.
  intros H. unfold _evaluation_lease_event in H.
  destruct (rethrow _ _ _) as [[[event retained] event_lease]|] eqn:Er; [|done]. apply rethrow_Ok in Er.
  cbn [mbind result_bind] in H. step_guard H. apply bind_Ok in H as (expected & _ & H). step_guard H.
  injection H as <-. apply bind_Ok in Er as (event' & Hev & Er). unfold make_event in Hev. inv_ok. step_guard Hev.
  injection Hev as <-. congruence.
Qed.

Lemma append_lease_event_ok lease t finalized digest why s s' e :
  _append_evaluation_lease_event cfg lease t finalized digest why s = (s', Ok e) ->
  ev_lease_id e = lease_id lease /\ event_type e = t /\ finalized_block e = finalized /\
  ev_expires_block e = expires_block lease /\ result_digest e = digest /\ reason e = why /\
  event_index e = Z.of_nat (length (events_of (lease_id lease) (lease_events (db s)))) /\
  sequence e = Z.of_nat (length (lease_events (db s))) + 1 /\
  s' = mkStore (with_events (lease_events (db s) ++ [e]) (db s)) (mutation_authority s) (recovery_authority s).
Proof.
  unfold _append_evaluation_lease_event. intros H. inv_m. cbn [db] in H.
  apply lease_event_same in H as ->. cbn. split_and!; done.
Qed.

Lemma any_moved_ok ms s s' :
  any_moved ms s = (s', Ok false) ->
  s' = s /\ forall lease, members lease = ms -> queue_state_ok (db s) lease = true.
Proof.
  intros H. enough (E : s' = s /\ forallb (fun m => match reservations (db s) !! reservation_id m with
    | Some r => bool_decide (r_status r = prior_status m) | None => false end) ms = true).
  { destruct E as [-> E]. split; [done|]. intros lease <-. exact E. }
  induction ms as [|m ms IH]; simpl in H; inv_m; [done|].
  match goal with H : (if decide ?P then _ else _) _ = _ |- _ => destruct (decide P) as [Hst|]; [|by inv_m] end.
  destruct (IH H) as [-> E]. split; [done|]. simpl.
  match goal with H : _ !! _ = Some _ |- _ => rewrite H end. by rewrite bool_decide_eq_true_2.
Qed.

(** The recovery tables only. *)
Definition recovery_frame (s s' : store) : Prop :=
  exists rs es, s' = mkStore (with_recoveries rs es (db s)) (mutation_authority s) (recovery_authority s).

Lemma recovery_frame_refl s : recovery_frame s s.
Proof. exists (recoveries (db s)), (recovery_events (db s)). by destruct s as [[]]. Qed.

Lemma recovery_frame_trans s1 s2 s3 : recovery_frame s1 s2 -> recovery_frame s2 s3 -> recovery_frame s1 s3.
Proof. intros (rs & es & ->) (rs' & es' & ->). by exists rs', es'. Qed.

Lemma append_recovery_event_frame r t b : ends recovery_frame (_append_evaluation_recovery_event_locked r t b).
Proof.
  intros s s' e H. unfold _append_evaluation_recovery_event_locked in H. inv_m. by eexists _, _.
Qed.

Ltac by_append :=
  match goal with
  | H : _append_evaluation_recovery_event_locked _ _ _ _ = _ |- _ =>
      apply append_recovery_event_frame in H; eapply recovery_frame_trans; [|exact H]; by eexists _, _
  end.

Lemma create_recovery_frame lease : ends recovery_frame (_create_evaluation_recovery_locked lease).
Proof.
  intros s s' r H. unfold _create_evaluation_recovery_locked in H. inv_m.
  by_append.
Qed.

(** The event that a transition to [r] appends. *)
Definition event_of (r : EvaluationRecovery) (t : RecoveryEventType) (e : recovery_event) : Prop :=
  re_recovery_id e = recovery_id r /\ re_lease_id e = lease_id (rec_lease r) /\ re_revision e = revision r /\
  re_type e = t /\ re_phase e = phase r /\ re_resolution e = resolution r /\ re_finalized e = updated_block r /\
  re_expires e = expires_block (rec_lease r) /\ re_plan_digest e = plan_digest r /\ re_request_id e = request_id r /\
  re_reason e = rec_reason r.

Lemma append_recovery_event_ok r t s s' e :
  _append_evaluation_recovery_event_locked r t (updated_block r) s = (s', Ok e) ->
  event_of r t e /\ re_sequence e = Z.of_nat (length (recovery_events (db s))) + 1 /\
  (forall f, f ∈ recovery_events (db s) -> re_recovery_id f = recovery_id r -> re_revision f <> revision r) /\
  s' = mkStore (with_recoveries (recoveries (db s)) (recovery_events (db s) ++ [e]) (db s)) (mutation_authority s)
         (recovery_authority s).
Proof.
  unfold _append_evaluation_recovery_event_locked. intros H. inv_m.
  match goal with H : _evaluation_recovery_event ?x = Ok e |- _ => assert (e = x) as -> end.
  { unfold _evaluation_recovery_event in *. match goal with H : rethrow _ _ _ = _ |- _ => apply rethrow_Ok, make_recovery_event_Ok in H end. done. }
  split; [done|]. split; [done|]. split; [|done]. intros f Hin Hid Hrev.
  match goal with H : existsb _ _ = false |- _ => apply not_true_iff_false in H; apply H, existsb_exists end.
  exists f. split; [by apply list_elem_of_In|]. by rewrite Hid, Hrev, String.eqb_refl, Z.eqb_refl, orb_true_r.
Qed.

Lemma create_recovery_ok lease s s' r :
  _create_evaluation_recovery_locked lease s = (s', Ok r) ->
  phase r = CLAIMED /\ resolution r = UNRESOLVED /\ rec_lease r = lease /\ revision r = 0 /\
  exists e, event_of r EV_CLAIMED e /\
    s' = mkStore (with_recoveries (<[lease_id lease := recovery_row_of r]> (recoveries (db s))) (recovery_events (db s) ++ [e])
                    (db s)) (mutation_authority s) (recovery_authority s).
Proof.
  unfold _create_evaluation_recovery_locked. intros H. inv_m.
  match goal with H : make_recovery _ = Ok _ |- _ => apply make_recovery_Ok in H as [-> _] end.
  match goal with H : _append_evaluation_recovery_event_locked ?u _ ?b _ = _ |- _ =>
    change b with (updated_block u) in H; apply append_recovery_event_ok in H as (He & _ & _ & ->) end.
  split_and!; try done. by eexists.
Qed.

Lemma transition_ok r ph res t b why lease plan s s' r' :
  _transition_evaluation_recovery_locked cfg r ph res t b why lease plan s = (s', Ok r') ->
  let binding := default (request_plan r, plan_digest r, request_id r) plan in
  r' = mkRecovery (recovery_id r) (default (rec_lease r) lease) (revision r + 1) ph res (created_block r) b
         binding.1.2 binding.2 binding.1.1 why /\ recovery_wf r' /\
  _active_qualification_recovery cfg (db s) (rec_lease r) = Ok r /\
  exists e rs, event_of r' t e /\ re_sequence e = Z.of_nat (length (recovery_events (db s))) + 1 /\
    (forall f, f ∈ recovery_events (db s) -> re_recovery_id f = recovery_id r -> re_revision f <> revision r + 1) /\
    rs = <[lease_id (rec_lease r) := recovery_row_of r']> (recoveries (db s)) /\
    s' = mkStore (with_recoveries rs (recovery_events (db s) ++ [e]) (db s)) (mutation_authority s)
           (recovery_authority s).
Proof.
  unfold _transition_evaluation_recovery_locked. intros H. inv_m. cbv zeta.
  match goal with H : negb (bool_decide (?x = r)) = false |- _ =>
    apply negb_false_iff, bool_decide_eq_true in H; subst x end.
  destruct (default _ plan) as [[p dg] rq]. inv_m. destruct (_ !! _) as [row|]; inv_m. cbn [fst snd].
  match goal with H : make_recovery _ = Ok _ |- _ => apply make_recovery_Ok in H as [-> Hwf] end.
  match goal with H : _append_evaluation_recovery_event_locked ?u _ _ _ = _ |- _ =>
    change b with (updated_block u) in H at 3; apply append_recovery_event_ok in H as (He & Hs & Hu & ->) end.
  split; [done|]. split; [done|]. split; [done|]. eexists _, _. split_and!; done.
Qed.

(** What a transition writes can be read back: its record is well formed, its event reopens. *)
Lemma transition_reads r ph res t b why lease plan s s' r' :
  _transition_evaluation_recovery_locked cfg r ph res t b why lease plan s = (s', Ok r') ->
  make_recovery r' = Ok r' /\ exists e, recovery_events (db s') = recovery_events (db s) ++ [e] /\
    _evaluation_recovery_event e = Ok e.
Proof.
  unfold _transition_evaluation_recovery_locked. intros H. inv_m.
  destruct (default _ plan) as [[p dg] rq]. inv_m. destruct (_ !! _) as [row|]; inv_m.
  match goal with H : make_recovery _ = Ok _ |- _ => pose proof H as Hmake; apply make_recovery_Ok in H as [-> _] end.
  split; [exact Hmake|]. unfold _append_evaluation_recovery_event_locked in *. inv_m.
  match goal with H : _evaluation_recovery_event _ = Ok _ |- _ => pose proof H as Hread;
    unfold _evaluation_recovery_event in H; apply rethrow_Ok, make_recovery_event_Ok in H as -> end.
  by eexists.
Qed.

Lemma transition_recovery_frame r ph res t b why lease plan :
  ends recovery_frame (_transition_evaluation_recovery_locked cfg r ph res t b why lease plan).
Proof.
  intros s s' u H. unfold _transition_evaluation_recovery_locked in H. inv_m.
  destruct (default _ plan) as [[p dg] rq]. inv_m. destruct (_ !! _) as [row|]; inv_m.
  by_append.
Qed.

Lemma complete_recovery_frame r b : ends recovery_frame (_complete_evaluation_recovery_locked cfg r b).
Proof.
  intros s s' u H. unfold _complete_evaluation_recovery_locked in H. inv_m.
  by eapply transition_recovery_frame.
Qed.
End RowLemmas.
