(* ===== verification/LeaseStore.v ===== *)
(** * Evaluation leases

    The operations of [EvaluationLeaseStoreMixin]
    ([cacheon/chain/evaluation_lease_store.py]): the finalized clock, expiry,
    the claim and its preview, the audit of the event streams, the cap on
    infrastructure releases, and the acceptance of one worker result. *)

From S2P Require Import Prelude PyVal Identity Leases Recovery Store Queue LeaseRows.

Open Scope Z_scope.

Section LeaseStore.
Context (cfg : config).

(** ** Clock and expiry *)

Definition _require_evaluation_clock (current_block : Z) : M () :=
  c ← gets cursor;
  fail_if (current_block <? 0) || match c with Some (b, _) => negb (current_block =? b) | None => true end
    with (IntakeError "evaluation lease block differs from the durable finalized cursor");
  mret tt.

Definition _active_qualification_rows (d : database) (owner : option string) : list lease_row :=
  filter (fun l => String.eqb (l_stage l) "qualification" && bool_decide (l_state l = active)
                   && String.eqb (l_arena l) (competition_arena cfg)
                   && match owner with Some o => String.eqb (l_owner l) o | None => true end = true)
    (map_to_list (leases d)).*2.

Definition _require_no_orphan_active_qualification : M () :=
  rows ← gets (fun d => _active_qualification_rows d None);
  each (fun row =>
    checked ← gets (fun d => lease ← _evaluation_lease cfg d row; _active_qualification_recovery cfg d lease);
    _ ← lift checked; mret tt) rows.

(** The reservation at position 0 of a lease. *)
Definition first_member (d : database) (lid : string) : option reservation :=
  match filter (fun m => String.eqb (m_lease m) lid && (m_position m =? 0) = true) (lease_members d) with
  | m :: _ => reservations d !! m_reservation m
  | [] => None
  end.

(** [ORDER BY] the first member's arrival, then the lease. *)
Definition joined_leases (p : lease_row -> bool) (d : database) : list lease_row :=
  (sorted_by fst (omap (fun l => (fun r => ((arrival_key r, l_id l), l)) <$> first_member d (l_id l))
     (filter (fun l => p l = true) (map_to_list (leases d)).*2))).*2.

Definition due (current_block : Z) (l : lease_row) : bool :=
  bool_decide (l_state l = active) && negb (recovery_enabled cfg && String.eqb (l_stage l) "qualification")
  && (l_expires l <=? current_block).

Definition expire_one (current_block : Z) (row : lease_row) : M EvaluationLease :=
  loaded ← gets (fun d => _evaluation_lease cfg d row);
  lease ← lift loaded;
  moved ← any_moved (members lease);
  fail_if moved with (IntakeError "expired evaluation lease no longer has its exact queue state");
  changed ← update_lease (recovery_enabled cfg) (lease_id lease) (expires_block lease)
              (fun l => finish lease_expired current_block (l_result l) "evaluation_lease_expired" l);
  fail_if negb (changed =? 1)%nat with (IntakeError "evaluation lease changed while expiring");
  members' ← deactivate_members (recovery_enabled cfg) (lease_id lease);
  fail_if negb (members' =? length (members lease))%nat
    with (IntakeError "evaluation lease members changed while expiring");
  _ ← _append_evaluation_lease_event cfg lease ev_expired current_block "" "evaluation_lease_expired";
  mret lease.

Definition _expire_evaluation_leases (current_block : Z) : M (list EvaluationLease) :=
  _ ← (if recovery_enabled cfg then _require_no_orphan_active_qualification else mret tt);
  rows ← gets (joined_leases (due current_block));
  collect (expire_one current_block) rows.

Definition expire_evaluation_leases (current_block : Z) : M (list EvaluationLease) :=
  _ ← _require_evaluation_clock current_block;
  transaction (_expire_evaluation_leases current_block).

(** ** Claiming *)

Definition claim_bound (max_members : option Z) : Z := default (max_cohort (policy cfg)) max_members.

Definition preview_evaluation_claim (stage : string) (max_members : option Z) (owner : option string)
    (max_active : option Z) : M (list string) :=
  let bound := claim_bound max_members in
  fail_if negb (bool_decide (stage ∈ EVALUATION_STAGES)) || (bound <=? 0) || (max_cohort (policy cfg) <? bound)
    with (IntakeError "evaluation lease preview bounds are malformed");
  rows ← gets (fun d => _select_evaluation_rows cfg d stage bound owner max_active);
  selected ← lift rows;
  mret (r_id <$> selected).

Definition max_Z (l : list Z) : Z := foldr Z.max 0 l.

(** [COALESCE(MAX(generation),0)+1] over the leases that held one of the reservations. *)
Definition next_generation (d : database) (ids : list string) : Z :=
  max_Z (omap (fun m => if decide (m_reservation m ∈ ids) then l_generation <$> (leases d !! m_lease m) else None)
           (lease_members d)) + 1.

Definition members_of_rows (rows : list reservation) : result (list EvaluationLeaseMember) :=
  map_result (fun r => make_member (r_id r) (r_status r)) rows.

(** [enumerate(members)] *)
Definition enumerate {A} (l : list A) : list (Z * A) := zip (Z.of_nat <$> seq 0 (length l)) l.

(** [authority = self._evaluation_recovery_mutation(...) if enabled else nullcontext()] *)
Definition with_authority {A} (lid : string) (m : M A) : M A :=
  if recovery_enabled cfg then recovery_mutation lid m else m.

Definition install_lease (lid : string) (generation : Z) (stage owner : string)
    (members : list EvaluationLeaseMember) (current_block expires : Z) : M EvaluationLease :=
  _ ← insert_lease (recovery_enabled cfg)
        (mkLeaseRow (competition_arena cfg) lid generation stage owner current_block expires expires active 0 "" "");
  _ ← each (fun pm => insert_member (recovery_enabled cfg)
                        (mkMemberRow lid pm.1 (reservation_id pm.2) (prior_status pm.2) true)) (enumerate members);
  loaded ← gets (fun d => match leases d !! lid with
                          | Some row => _evaluation_lease cfg d row
                          | None => Raise (IntakeError "evaluation lease was not retained")
                          end);
  lease ← lift loaded;
  _ ← _append_evaluation_lease_event cfg lease ev_claimed current_block "" "";
  _ ← (if recovery_enabled cfg then _ ← _create_evaluation_recovery_locked lease; mret tt else mret tt);
  mret lease.

Definition claim_evaluation_lease (stage : string) (owner : pyval) (current_block lease_blocks : Z)
    (max_members max_active : option Z) : M (option EvaluationLease) :=
  owner ← lift (rethrow ["EvaluationLeaseError"] IntakeError (require_evaluation_owner owner));
  let bound := claim_bound max_members in
  fail_if negb (bool_decide (stage ∈ EVALUATION_STAGES)) || (lease_blocks <=? 0)
          || (expiry_blocks (policy cfg) <? lease_blocks) || (bound <=? 0) || (max_cohort (policy cfg) <? bound)
    with (IntakeError "evaluation lease claim bounds are malformed");
  _ ← _require_evaluation_clock current_block;
  transaction (
    _ ← _expire_evaluation_leases current_block;
    _ ← _expire_stale_rows cfg current_block;
    rows ← gets (fun d => _select_evaluation_rows cfg d stage bound (Some owner) max_active);
    selected ← lift rows;
    members ← lift (members_of_rows selected);
    match selected with
    | [] => mret None
    | _ =>
        generation ← gets (fun d => next_generation d (r_id <$> selected));
        let expires := current_block + lease_blocks in
        lid ← lift (evaluation_lease_id (scope_digest cfg) generation stage owner members current_block expires);
        lease ← with_authority lid (install_lease lid generation stage owner members current_block expires);
        mret (Some lease)
    end).

Definition active_evaluation_leases : M (list EvaluationLease) :=
  loaded ← gets (fun d => map_result (_evaluation_lease cfg d)
                            (joined_leases (fun l => bool_decide (l_state l = active)) d));
  lift loaded.

(** ** The audit of the event streams *)

Definition terminal (t : lease_event_type) : bool := bool_decide (t ∈ [ev_expired; ev_released; ev_completed]).

Definition event_step_ok (previous e : EvaluationLeaseEvent) (index : Z) : bool :=
  negb (negb (event_index e =? index) || terminal (event_type previous)
        || (finalized_block e <? finalized_block previous)
        || (bool_decide (event_type e = ev_heartbeat)
            && ((ev_expires_block e <=? ev_expires_block previous)
                || (ev_expires_block previous <=? finalized_block e)))
        || (bool_decide (event_type e = ev_released) && (ev_expires_block e <=? finalized_block e))
        || (bool_decide (event_type e = ev_expired) && (finalized_block e <? ev_expires_block e))).

Fixpoint stream_steps_ok (previous : EvaluationLeaseEvent) (index : Z) (es : list EvaluationLeaseEvent) : bool :=
  match es with
  | [] => true
  | e :: es => event_step_ok previous e index && stream_steps_ok e (index + 1) es
  end.

(** The stream of one lease: an exact claim, legal steps, nothing after a terminal event. *)
Definition check_stream (d : database) (stream : list EvaluationLeaseEvent) : result () :=
  match stream with
  | [] => Ok tt
  | first :: rest =>
      match leases d !! ev_lease_id first with
      | None => Raise (IntakeError "evaluation lease event stream lost its lease")
      | Some row =>
          lease ← _evaluation_lease cfg d row;
          raise_if negb ((event_index first =? 0) && bool_decide (event_type first = ev_claimed)
                         && (finalized_block first =? claimed_block lease)
                         && (ev_expires_block first =? initial_expires_block lease))
            with (IntakeError "evaluation lease event stream has no exact claim");
          raise_if negb (stream_steps_ok first 1 rest)
            with (IntakeError "evaluation lease event stream is inconsistent");
          raise_if existsb (fun e => terminal (event_type e)) (removelast stream)
            with (IntakeError "evaluation lease event stream continued after terminal");
          Ok tt
      end
  end.

(** [evaluation_lease_events()] over the whole table or one lease. *)
Definition evaluation_lease_events (d : database) (lid : option string) : result (list EvaluationLeaseEvent) :=
  events ← map_result (_evaluation_lease_event cfg d)
             (match lid with Some l => events_of l (lease_events d) | None => lease_events d end);
  _ ← map_result (fun l => check_stream d (events_of l events)) (remove_dups (ev_lease_id <$> events));
  Ok events.

(** ** The cap on infrastructure releases *)

Definition _SYSTEMIC_RELEASE_CAP : Z := 3.

(** [LIKE 'operator%'] ignores ASCII case. *)
Definition cap_exempt (why : string) : bool :=
  bool_decide (why ∈ ["systemic:worker_infrastructure:worker_replaced";
                      "systemic:worker_infrastructure:checkpoint_computation_changed"])
  || starts_with "operator" (ascii_lower why).

Definition held_by (d : database) (rid : string) (e : EvaluationLeaseEvent) : bool :=
  existsb (fun m => String.eqb (m_lease m) (ev_lease_id e) && String.eqb (m_reservation m) rid) (lease_members d).

Definition last_completion (d : database) (rid : string) : Z :=
  max_Z (sequence <$> filter (fun e => held_by d rid e && bool_decide (event_type e = ev_completed) = true)
                        (lease_events d)).

Definition counted_releases (d : database) (rid : string) : Z :=
  Z.of_nat (length (filter (fun e => held_by d rid e && bool_decide (event_type e = ev_released)
                                     && negb (cap_exempt (reason e)) && (last_completion d rid <? sequence e) = true)
                      (lease_events d))).

Definition _cap_infrastructure_releases (lease : EvaluationLease) : M () :=
  each (fun m =>
    count ← gets (fun d => counted_releases d (reservation_id m));
    if count <? _SYSTEMIC_RELEASE_CAP then mret tt
    else
      row ← gets (fun d => reservations d !! reservation_id m);
      match row with
      | Some r =>
          if decide (r_status r = prior_status m) then
            update_reservation (reservation_id m)
              (set_status held "" (string_app "systemic_release_cap:" (dec_of_Z count)))
          else mret tt
      | None => mret tt
      end) (members lease).

(** ** Accepting a result *)

(** [_generic_lease_operation_allowed] under the recovery store. *)
Definition _generic_lease_operation_allowed (lease : EvaluationLease) : M () :=
  if negb (String.eqb (stage lease) "qualification") then mret tt
  else
    recovery ← gets (fun d => _active_qualification_recovery cfg d lease);
    _ ← lift recovery;
    throw (IntakeError "protected evaluation recovery forbids generic operation").

Definition _durably_expire_exact_evaluation_lease_if_due (lease : EvaluationLease) (current_block : Z) : M bool :=
  _ ← (if recovery_enabled cfg then _generic_lease_operation_allowed lease else mret tt);
  if current_block <? expires_block lease then mret false
  else
    _ ← transaction (
      _ ← _active_evaluation_lease_row cfg lease;
      expired ← _expire_evaluation_leases current_block;
      fail_if negb (bool_decide (lease ∈ expired)) with (IntakeError "due evaluation lease was not expired");
      mret tt);
    mret true.

Definition disposition_count (d : database) (rid : string) : nat :=
  length (filter (fun r => r = rid) (dispositions d)).

(** The caller's transition, the body of [with store.accept_evaluation_result(...) as rows]: any code that
    reads the database, raises, sets columns of reservations (never their key) through the fence, disposes
    of reservations, writes the retained qualifications, the resets and the bindings, and handles the
    exceptions of its own nested transactions. *)
Inductive body_program :=
  | Return
  | Stop (e : exn)
  | Read (k : database -> body_program)
  | Update (rid : string) (f : reservation -> reservation) (k : body_program)
  | Dispose (rid : string) (k : body_program)
  | Retain (qs : list (string * Z * Z)) (resets : gmap string sla_reset) (gs : gmap string segment) (k : body_program)
  | Nested (p : body_program) (k : result () -> body_program).

Definition set_columns (f : reservation -> reservation) (r : reservation) : reservation :=
  let q := f r in
  mkReservation (r_id r) (r_block q) (r_event_index q) (r_event_subindex q) (r_hotkey q) (r_content_hash q) (r_status q)
    (r_attempts q) (r_publication q) (r_authority q) (r_evidence q) (r_service q) (r_retry_group q) (r_retry_position q)
    (r_decision q) (r_reason q) (r_arena q) (r_columns q).

Definition retain (qs : list (string * Z * Z)) (resets : gmap string sla_reset) (gs : gmap string segment)
    (d : database) : database :=
  mkDb (reservations d) (leases d) (lease_members d) (lease_events d) (recoveries d) (recovery_events d) (dispositions d)
    qs resets gs (stacks d) (cursor d) (cost_payments d) (cost_credits d).

Fixpoint run_body (p : body_program) : M () :=
  match p with
  | Return => mret tt
  | Stop e => throw e
  | Read k => fun s => run_body (k (db s)) s
  | Update rid f k => _ ← update_reservation rid (set_columns f); run_body k
  | Dispose rid k => _ ← get rid; _ ← modify (fun d => with_dispositions (dispositions d ++ [rid]) d); run_body k
  | Retain qs resets gs k => _ ← modify (retain qs resets gs); run_body k
  | Nested p k => fun s =>
      match transaction (run_body p) s with
      | (s', r) => run_body (k r) s'
      end
  end.

Definition cohort_disposed (before d : database) (lease : EvaluationLease) : bool :=
  forallb (fun m => (disposition_count d (reservation_id m) =? disposition_count before (reservation_id m) + 1)%nat
                    && match reservations d !! reservation_id m with
                       | Some r => negb (bool_decide (r_status r = qualifying))
                       | None => false
                       end) (members lease)
  && (length (dispositions d) =? length (dispositions before) + length (members lease))%nat.

(** The lease row and its members leave the active state together, with a completed event. *)
Definition complete_lease (lease : EvaluationLease) (current_block : Z) (digest : string) : M () :=
  changed ← update_lease (recovery_enabled cfg) (lease_id lease) (expires_block lease)
              (finish completed current_block digest "");
  fail_if negb (changed =? 1)%nat with (IntakeError "evaluation lease changed during completion");
  closed ← deactivate_members (recovery_enabled cfg) (lease_id lease);
  fail_if negb (closed =? length (members lease))%nat
    with (IntakeError "evaluation lease members changed during completion");
  _ ← _append_evaluation_lease_event cfg lease ev_completed current_block digest "";
  mret tt.

Definition accept_evaluation_result (lease : EvaluationLease) (current_block : Z) (digest : string)
    (body : list reservation -> body_program) : M () :=
  _ ← lift (require_sha256_hex (VStr digest) "evaluation result digest");
  _ ← _require_evaluation_clock current_block;
  _ ← (if recovery_enabled cfg then
         loaded ← gets (fun d => _active_qualification_recovery cfg d lease);
         recovery ← lift loaded;
         fail_if negb (is_phase (phase recovery) EVIDENCE_IMPORTED)
           with (IntakeError "protected evaluation result requires imported evidence");
         fail_if expires_block lease <=? current_block
           with (IntakeError "protected evaluation result requires recovery renewal");
         mret tt
       else
         late ← _durably_expire_exact_evaluation_lease_if_due lease current_block;
         fail_if late with (IntakeError "evaluation result arrived after lease expiry");
         mret tt);
  transaction (
    _ ← _active_evaluation_lease_row cfg lease;
    recovery ← (if recovery_enabled cfg then
                  loaded ← gets (fun d => _active_qualification_recovery cfg d lease);
                  recovery ← lift loaded; mret (Some recovery)
                else mret None);
    rows ← collect get (reservation_ids lease);
    intact ← gets (fun d => queue_state_ok d lease);
    fail_if negb intact with (IntakeError "evaluation lease no longer has its exact queue state");
    before ← gets id;
    _ ← authorized (reservation_ids lease) (run_body (body rows));
    complete ← gets (fun d => cohort_disposed before d lease);
    fail_if negb complete with (IntakeError "evaluation result did not retain the exact cohort dispositions");
    match recovery with
    | Some r =>
        recovery_mutation (lease_id lease) (
          _ ← complete_lease lease current_block digest;
          _ ← _complete_evaluation_recovery_locked cfg r current_block;
          mret tt)
    | None => complete_lease lease current_block digest
    end).
End LeaseStore.
