(* ===== verification/RecoveryStore.v ===== *)
(** * Qualification recovery operations

    [EvaluationRecoveryStoreMixin] ([cacheon/chain/evaluation_recovery_store.py])
    over the store: claiming with a recovery, advancing its phase, renewing the
    deadline, holding, completing a remote hold, and the releases. *)

From S2P Require Import Prelude PyVal Identity Leases Recovery Store Queue LeaseRows LeaseStore.

Open Scope Z_scope.

(** The hold reasons of [cacheon/chain/execution_disposition.py]. *)
Definition WORKER_INFRASTRUCTURE_HOLD_REASON : string := "transport_hold:worker_infrastructure_result".
Definition AUTHORITY_CHANGED_HOLD_REASON : string := "transport_hold:authority_changed".
Definition ORPHANED_CARRIER_HOLD_REASON : string := "transport_hold:published_carrier_missing".
Definition COMPLETED_NO_DECISION_HOLD_REASON : string := "post_publication_no_decision".

(** [_PHASE_EVENTS] *)
Definition _PHASE_EVENTS (p : RecoveryPhase) : option RecoveryEventType :=
  match p with
  | PREPARED => Some EV_PREPARED
  | PUBLICATION_COMMITTED => Some EV_PUBLICATION_COMMITTED
  | REQUEST_READY => Some EV_REQUEST_READY
  | RESULT_READY => Some EV_RESULT_READY
  | EVIDENCE_IMPORTED => Some EV_EVIDENCE_IMPORTED
  | CLAIMED | HELD => None
  end.

Section RecoveryStore.
Context (cfg : config).

Definition load_active (d : database) (recovery : EvaluationRecovery) : result EvaluationRecovery :=
  _active_qualification_recovery cfg d (rec_lease recovery).

(** ** Claim and reopening *)

Definition claim_recoverable_qualification (owner : pyval) (current_block lease_blocks : Z)
    (max_members : option Z) (max_active : Z) : M (option EvaluationRecovery) :=
  lease ← claim_evaluation_lease cfg "qualification" owner current_block lease_blocks max_members (Some max_active);
  match lease with
  | None => mret None
  | Some lease =>
      loaded ← gets (fun d => _active_qualification_recovery cfg d lease);
      recovery ← lift loaded;
      mret (Some recovery)
  end.

Definition pending_qualification_recovery (owner : option string) : M (option EvaluationRecovery) :=
  rows ← gets (fun d => _active_qualification_rows cfg d owner);
  match rows with
  | [] => mret None
  | [row] =>
      loaded ← gets (fun d => lease ← _evaluation_lease cfg d row; _active_qualification_recovery cfg d lease);
      recovery ← lift loaded;
      mret (Some recovery)
  | _ => throw (HoldError "multiple active qualification leases exist; HOLD")
  end.

(** The worker epoch of the one retained plan. *)
Definition reopen_recovery_request_plan (recovery : EvaluationRecovery) : M string :=
  loaded ← gets (fun d => load_active d recovery);
  current ← lift loaded;
  fail_if negb (bool_decide (current = recovery)) || negb (truthy (request_plan current))
    with (HoldError "evaluation recovery has no exact request plan; HOLD");
  match reopen_plan cfg (request_plan current) (rec_lease current) (plan_digest current) (request_id current) with
  | Some epoch => mret epoch
  | None => throw (HoldError "evaluation recovery request plan cannot reopen")
  end.

(** ** Phases *)

Definition _advance_recovery_phase (recovery : EvaluationRecovery) (expected : list RecoveryPhase)
    (ph : RecoveryPhase) (t : RecoveryEventType) (current_block : Z)
    (encoded : option (result (string * string * string))) : M EvaluationRecovery :=
  _ ← _require_evaluation_clock current_block;
  fail_if negb (is_resolution (resolution recovery) UNRESOLVED) || negb (bool_decide (phase recovery ∈ expected))
          || (expires_block (rec_lease recovery) <=? current_block)
    with (IntakeError "evaluation recovery phase transition is forbidden");
  binding ← (if is_phase ph PREPARED then
               match encoded with
               | None => throw (IntakeError "preparing recovery requires an exact request plan")
               | Some r => plan ← lift (rethrow ["EvaluationRecoveryPlanError"]
                                          (corrupt "qualification request plan is invalid: ") r);
                           mret (Some plan)
               end
             else
               match encoded with
               | Some _ => throw (IntakeError "request plan may only bind the prepared transition")
               | None => mret None
               end);
  transaction (recovery_mutation (lease_id (rec_lease recovery))
    (_transition_evaluation_recovery_locked cfg recovery ph UNRESOLVED t current_block "" None binding)).

Definition prepare_qualification_recovery (recovery : EvaluationRecovery)
    (encoded : result (string * string * string)) (current_block : Z) : M EvaluationRecovery :=
  _advance_recovery_phase recovery [CLAIMED] PREPARED EV_PREPARED current_block (Some encoded).
Definition commit_recovery_publication (recovery : EvaluationRecovery) (current_block : Z) : M EvaluationRecovery :=
  _advance_recovery_phase recovery [PREPARED] PUBLICATION_COMMITTED EV_PUBLICATION_COMMITTED current_block None.
Definition observe_recovery_request_ready (recovery : EvaluationRecovery) (current_block : Z) : M EvaluationRecovery :=
  _advance_recovery_phase recovery [PUBLICATION_COMMITTED] REQUEST_READY EV_REQUEST_READY current_block None.
Definition record_recovery_result (recovery : EvaluationRecovery) (current_block : Z) : M EvaluationRecovery :=
  _advance_recovery_phase recovery [PUBLICATION_COMMITTED; REQUEST_READY] RESULT_READY EV_RESULT_READY
    current_block None.
Definition record_recovery_import (recovery : EvaluationRecovery) (current_block : Z) : M EvaluationRecovery :=
  _advance_recovery_phase recovery [RESULT_READY] EVIDENCE_IMPORTED EV_EVIDENCE_IMPORTED current_block None.

(** ** Renewal and hold *)

Definition extended (lease : EvaluationLease) (expires : Z) : EvaluationLease :=
  mkLease (lease_id lease) (generation lease) (stage lease) (owner lease) (members lease) (claimed_block lease)
    (initial_expires_block lease) expires.

(** The renewal shared by [renew_recovery_lease] and the remote hold: event first, then the row. *)
Definition renew_locked (current : EvaluationRecovery) (current_block expires : Z) (failure : string) :
    M EvaluationRecovery :=
  renewed_lease ← lift (make_lease (extended (rec_lease current) expires));
  renewed ← _transition_evaluation_recovery_locked cfg current (phase current) UNRESOLVED EV_RENEWED current_block
              "" (Some renewed_lease) None;
  changed ← update_lease true (lease_id (rec_lease current)) (expires_block (rec_lease current)) (extend expires);
  fail_if negb (changed =? 1)%nat with (IntakeError failure);
  mret renewed.

Definition renew_recovery_lease (recovery : EvaluationRecovery) (current_block lease_blocks : Z) :
    M (EvaluationRecovery * EvaluationLease) :=
  fail_if negb (is_resolution (resolution recovery) UNRESOLVED) || is_phase (phase recovery) HELD
          || (lease_blocks <=? 0) || (expiry_blocks (policy cfg) <? lease_blocks)
    with (IntakeError "evaluation recovery renewal is malformed");
  _ ← _require_evaluation_clock current_block;
  transaction (
    loaded ← gets (fun d => load_active d recovery);
    current ← lift loaded;
    fail_if negb (bool_decide (current = recovery)) with (IntakeError "evaluation recovery object is stale");
    let expires := current_block + lease_blocks in
    fail_if expires <=? expires_block (rec_lease recovery)
      with (IntakeError "evaluation recovery renewal does not extend lease");
    renewed ← recovery_mutation (lease_id (rec_lease recovery))
                (renew_locked recovery current_block expires "evaluation lease changed during recovery renewal");
    mret (renewed, rec_lease renewed)).

Definition hold_reason_ok (why : string) : bool :=
  truthy why && is_stripped why && (py_len why <=? 2048) && negb (has_control why).

Definition hold_recovery (recovery : EvaluationRecovery) (current_block : Z) (why : string) : M EvaluationRecovery :=
  _ ← _require_evaluation_clock current_block;
  fail_if negb (is_resolution (resolution recovery) UNRESOLVED) || is_phase (phase recovery) HELD
          || negb (hold_reason_ok why)
    with (IntakeError "evaluation recovery hold is malformed");
  transaction (recovery_mutation (lease_id (rec_lease recovery))
    (_transition_evaluation_recovery_locked cfg recovery HELD UNRESOLVED EV_HELD current_block why None None)).

(** ** Completing a remote hold *)

Definition hold_member (why digest : string) (m : EvaluationLeaseMember) : M () :=
  row ← gets (fun d => reservations d !! reservation_id m);
  fail_if match row with Some r => negb (bool_decide (r_status r = prior_status m)) | None => true end
    with (IntakeError "remote qualification HOLD disposition changed");
  update_reservation (reservation_id m) (fun r => clear_retry (set_evidence digest (set_status held "" why r))).

Definition commit_remote_qualification_hold (recovery : EvaluationRecovery) (current_block : Z)
    (digest why : string) (rids : list string) (lease_blocks : Z) : M EvaluationLease :=
  _ ← lift (require_sha256_hex (VStr digest) "remote qualification HOLD digest");
  fail_if negb (is_resolution (resolution recovery) UNRESOLVED)
          || negb (is_phase (phase recovery) RESULT_READY || is_phase (phase recovery) HELD)
          || negb (starts_with "remote_qualification_hold:" why) || negb (is_stripped why) || (2048 <? py_len why)
          || negb (bool_decide (rids = reservation_ids (rec_lease recovery)))
          || (lease_blocks <=? 0) || (expiry_blocks (policy cfg) <? lease_blocks)
    with (IntakeError "remote qualification HOLD completion is malformed");
  _ ← _require_evaluation_clock current_block;
  transaction (
    loaded ← gets (fun d => load_active d recovery);
    current ← lift loaded;
    fail_if negb (bool_decide (current = recovery))
            || (is_phase (phase current) HELD
                && negb (bool_decide (rec_reason current ∈ [why; COMPLETED_NO_DECISION_HOLD_REASON])))
      with (IntakeError "remote qualification HOLD recovery changed");
    _ ← collect get (reservation_ids (rec_lease current));
    intact ← gets (fun d => queue_state_ok d (rec_lease current));
    fail_if negb intact with (IntakeError "remote qualification HOLD changed its cohort");
    recovery_mutation (lease_id (rec_lease current)) (
      current ← (if is_phase (phase current) HELD then
                   _transition_evaluation_recovery_locked cfg current RESULT_READY UNRESOLVED EV_RESULT_READY
                     current_block "" None None
                 else mret current);
      current ← (if expires_block (rec_lease current) <=? current_block then
                   renew_locked current current_block (current_block + lease_blocks)
                     "remote qualification HOLD lease changed during renewal"
                 else mret current);
      let lease := rec_lease current in
      _ ← authorized (reservation_ids lease) (each (hold_member why digest) (members lease));
      changed ← update_lease true (lease_id lease) (expires_block lease) (finish completed current_block digest "");
      fail_if negb (changed =? 1)%nat with (IntakeError "remote qualification HOLD lease changed");
      closed ← deactivate_members true (lease_id lease);
      fail_if negb (closed =? length (members lease))%nat
        with (IntakeError "remote qualification HOLD members changed");
      _ ← _append_evaluation_lease_event cfg lease ev_completed current_block digest "";
      _ ← _complete_evaluation_recovery_locked cfg current current_block;
      mret lease)).

(** ** Releases *)

Definition _release_recovery (recovery : EvaluationRecovery) (current_block : Z) (why : string)
    (release_phase : option RecoveryPhase) (allow_expired : bool) : M EvaluationLease :=
  let lease := rec_lease recovery in
  _ ← _require_evaluation_clock current_block;
  fail_if negb (is_resolution (resolution recovery) UNRESOLVED)
          || ((expires_block lease <=? current_block) && negb allow_expired)
    with (IntakeError "pre-resident recovery release is forbidden");
  transaction (
    _ ← _active_evaluation_lease_row cfg lease;
    moved ← any_moved (members lease);
    fail_if moved with (IntakeError "recovery lease no longer has its exact queue state");
    resolved ← recovery_mutation (lease_id lease) (
      resolved ← _transition_evaluation_recovery_locked cfg recovery (default (phase recovery) release_phase)
                   PRE_RESIDENT_RELEASED EV_PRE_RESIDENT_RELEASED current_block why None None;
      changed ← update_lease true (lease_id lease) (expires_block lease) (finish released current_block "" why);
      fail_if negb (changed =? 1)%nat with (IntakeError "evaluation lease changed during recovery release");
      closed ← deactivate_members true (lease_id lease);
      fail_if negb (closed =? length (members lease))%nat
        with (IntakeError "recovery lease members changed during release");
      _ ← _append_evaluation_lease_event cfg lease ev_released current_block "" why;
      mret resolved);
    fail_if negb (is_resolution (resolution resolved) PRE_RESIDENT_RELEASED)
      with (IntakeError "recovery release resolution was not retained");
    mret lease).

(** [AuthenticatedPreResidentRefusal]: the request it refuses and its durable release reason. *)
Definition release_worker_pre_resident_recovery (recovery : EvaluationRecovery) (refusal_request : string)
    (failure_code : string) (current_block : Z) : M EvaluationLease :=
  let why := string_app "worker_pre_resident:" failure_code in
  fail_if negb (bool_decide (why ∈ WORKER_PRE_RESIDENT_RELEASE_REASONS))
          || negb (is_phase (phase recovery) REQUEST_READY) || negb (String.eqb refusal_request (request_id recovery))
    with (IntakeError "worker pre-resident recovery release is forbidden");
  _release_recovery recovery current_block why None false.

(** [re.fullmatch(r"[0-9a-f]{32}", epoch)] *)
Definition is_epoch (s : string) : bool := (String.length s =? 32)%nat && all_chars is_lower_hex s.

Definition failure_code_ok (code : string) : bool :=
  truthy code && is_stripped code && (py_len code <=? 256) && negb (has_control code).

Definition release_worker_infrastructure_recovery (recovery : EvaluationRecovery) (failure_code : string)
    (current_block : Z) (live_worker_epoch : string) : M EvaluationLease :=
  let parked_held := is_phase (phase recovery) HELD in
  retired_epoch ← (if truthy (request_id recovery) && is_epoch live_worker_epoch then
                     epoch ← reopen_recovery_request_plan recovery;
                     mret (negb (String.eqb epoch live_worker_epoch))
                   else mret false);
  let replaced := String.eqb failure_code "worker_replaced" in
  let held_migration :=
    parked_held
    && ((retired_epoch && (replaced || String.eqb (rec_reason recovery) COMPLETED_NO_DECISION_HOLD_REASON))
        || bool_decide (rec_reason recovery ∈ [WORKER_INFRASTRUCTURE_HOLD_REASON; AUTHORITY_CHANGED_HOLD_REASON;
                                               ORPHANED_CARRIER_HOLD_REASON])) in
  fail_if negb (failure_code_ok failure_code)
          || negb (is_phase (phase recovery) REQUEST_READY || held_migration) || (replaced && negb retired_epoch)
    with (IntakeError "worker infrastructure recovery release is forbidden");
  lease ← _release_recovery recovery current_block (string_app "systemic:worker_infrastructure:" failure_code)
            (if held_migration then Some REQUEST_READY else None) held_migration;
  _ ← (if bool_decide (failure_code ∈ ["worker_replaced"; "checkpoint_computation_changed"]) then mret tt
       else _cap_infrastructure_releases lease);
  mret lease.

(** The identities of a completed product and of the live stack that a stale release compares. *)
Record product_identity := mkProduct {
  product_digest : string; incumbent_stack : string; incumbent_tree : string;
  product_catalog : string; product_arena : string; product_service : string;
}.
Record stack_identity := mkStack { live_stack : string; live_catalog : string; live_arena : string }.

Definition release_stale_incumbent_qualification_recovery (recovery : EvaluationRecovery)
    (product : product_identity) (live : stack_identity) (live_tree_digest : pyval) (current_block : Z) :
    M EvaluationLease :=
  let forbidden := IntakeError "stale-incumbent recovery release is forbidden" in
  fail_if negb (is_phase (phase recovery) REQUEST_READY || is_phase (phase recovery) RESULT_READY
                || is_phase (phase recovery) EVIDENCE_IMPORTED)
    with forbidden;
  live_tree ← lift (rethrow ["StackIdentityError"] (fun _ => forbidden)
                      (require_sha256_hex live_tree_digest "live qualification tree digest"));
  fail_if (String.eqb (incumbent_stack product) (live_stack live) && String.eqb (incumbent_tree product) live_tree)
          || negb (String.eqb (product_catalog product) (live_catalog live))
          || negb (String.eqb (product_arena product) (live_arena live))
          || negb (String.eqb (product_service product) (live_arena live))
    with forbidden;
  why ← lift (stale_incumbent_release_reason (product_digest product) (incumbent_stack product)
                (incumbent_tree product) (live_stack live) live_tree);
  lease ← _release_recovery recovery current_block why (Some REQUEST_READY) true;
  _ ← _cap_infrastructure_releases lease;
  mret lease.
End RecoveryStore.
