(* ===== verification/LeaseInvariant.v ===== *)
(** * The lease invariant

    What holds of the lease tables in every store that the operations can
    reach: an active lease binds its members exclusively, one active lease per
    worker and arena, members are active exactly while their lease is, and a
    leased reservation keeps the queue state it was claimed in. *)

From S2P Require Import Prelude PyVal Identity Leases Recovery Store Queue LeaseRows LeaseStore RecoveryStore.

Open Scope Z_scope.

Definition active_members (ms : list member_row) : list member_row := filter (fun m => m_active m = true) ms.

Record lease_inv (d : database) : Prop := {
  inv_reservation_id : forall rid r, reservations d !! rid = Some r -> r_id r = rid;
  inv_id : forall lid l, leases d !! lid = Some l -> l_id l = lid;
  inv_bounds : forall lid l, leases d !! lid = Some l -> lease_row_ok l = true;
  inv_owner : forall lid lid' l l', leases d !! lid = Some l -> leases d !! lid' = Some l' ->
    l_state l = active -> l_state l' = active -> l_arena l = l_arena l' -> l_owner l = l_owner l' -> lid = lid';
  inv_reference : forall m, m ∈ lease_members d -> is_Some (leases d !! m_lease m);
  inv_open : forall m, m ∈ lease_members d -> m_active m = true -> lease_is_active (leases d) (m_lease m) = true;
  inv_whole : forall m, m ∈ lease_members d -> lease_is_active (leases d) (m_lease m) = true -> m_active m = true;
  inv_first : forall lid l, leases d !! lid = Some l -> l_state l = active ->
    exists m, m ∈ lease_members d /\ m_lease m = lid /\ m_position m = 0;
  inv_exclusive : NoDup (m_reservation <$> active_members (lease_members d));
  inv_frozen : forall m, m ∈ lease_members d -> m_active m = true ->
    exists r, reservations d !! m_reservation m = Some r /\ r_status r = m_prior m;
}.

(** Between operations no mutation is authorized. *)
Definition good (s : store) : Prop :=
  lease_inv (db s) /\ mutation_authority s = ∅ /\ recovery_authority s = ∅.

(** ** Updates of reservations *)

Definition quiet (f : reservation -> reservation) : Prop := forall r, r_id (f r) = r_id r.

Lemma has_active_member_spec rid d :
  has_active_member rid d = false <-> forall m, m ∈ lease_members d -> m_active m = true -> m_reservation m <> rid.
Proof.
  unfold has_active_member. rewrite <- not_true_iff_false, existsb_exists. unfold is_active_member. split.
  - intros H m Hm Ha E. apply H. exists m. split; [by apply list_elem_of_In|].
    apply andb_true_iff. split; [done|]. by apply String.eqb_eq.
  - intros H (m & Hm & E). apply list_elem_of_In in Hm. apply andb_true_iff in E as [Ha E%String.eqb_eq].
    by apply (H m).
Qed.

Lemma lease_inv_update d rid r f :
  lease_inv d -> quiet f -> reservations d !! rid = Some r -> has_active_member rid d = false ->
  lease_inv (with_reservations (<[rid := f r]> (reservations d)) d).
Proof.
  intros [] Hf Hr Hm. split; cbn; try done.
  - intros rid' r'. rewrite lookup_insert_Some. intros [[<- <-]|[_ ?]]; [|by eauto]. rewrite Hf. by eauto.
  - intros m Hin Ha. destruct (inv_frozen0 m Hin Ha) as (r' & E & Hs). exists r'. split; [|done].
    rewrite lookup_insert_ne; [done|]. rewrite has_active_member_spec in Hm. intros Eq. by apply (Hm m).
Qed.

Lemma update_reservation_good rid f s s' u :
  quiet f -> good s -> update_reservation rid f s = (s', Ok u) -> good s'.
Proof.
  intros Hf (Hi & Ha & Hr) [[_ ->]|(r & E & Hn & ->)]%update_reservation_ok; [done|]. split; [|done]. cbn.
  apply lease_inv_update; try done. unfold fenced in Hn. rewrite Ha in Hn.
  rewrite (bool_decide_eq_false_2 (rid ∈ (∅ : gset string))) in Hn by set_solver.
  rewrite (bool_decide_eq_false_2 ((∅ : gset string) <> ∅)) in Hn by (intros Hx; by apply Hx).
  cbn in Hn. by rewrite andb_true_r, orb_false_r in Hn.
Qed.

(** Operations that leave the lease tables alone and end in a good store. *)
Definition keeps_good {A} (m : M A) : Prop := forall s, good s -> good (m s).1.

Lemma transaction_good {A} (m : M A) :
  (forall s s' a, good s -> m s = (s', Ok a) -> good s') -> keeps_good (transaction m).
Proof. intros H s Hs. apply transaction_keeps; [|done]. intros. by eapply H. Qed.

Lemma bind_good {A B} (m : M A) (f : A -> M B) :
  keeps_good m -> (forall a, keeps_good (f a)) -> keeps_good (m ≫= f).
Proof.
  intros Hm Hf s Hs. unfold mbind, M_bind. specialize (Hm s Hs). destruct (m s) as [s1 [a|e]]; [by apply Hf|done].
Qed.

Lemma fail_if_good {A} (b : bool) e (m : M A) : keeps_good m -> keeps_good (if b then throw e else m).
Proof. intros Hm s Hs. destruct b; [done|by apply Hm]. Qed.

Lemma ret_good {A} (a : A) : keeps_good (mret a).
Proof. by intros s Hs. Qed.
Lemma gets_good {A} (f : database -> A) : keeps_good (gets f).
Proof. by intros s Hs. Qed.
Lemma lift_good {A} (r : result A) : keeps_good (lift r).
Proof. by intros s Hs. Qed.
Lemma throw_good {A} e : keeps_good (@throw A e).
Proof. by intros s Hs. Qed.
Lemma get_good rid : keeps_good (get rid).
Proof. intros s Hs. unfold get. by destruct (_ !! _). Qed.

Lemma each_good {A} (f : A -> M ()) l : (forall x, keeps_good (f x)) -> keeps_good (each f l).
Proof. intros Hf. induction l as [|x l IH]; simpl; [apply ret_good|]. apply bind_good; [done|by intros]. Qed.

Lemma collect_good {A B} (f : A -> M B) l : (forall x, keeps_good (f x)) -> keeps_good (collect f l).
Proof.
  intros Hf. induction l as [|x l IH]; simpl; [apply ret_good|].
  apply bind_good; [done|]. intros y. apply bind_good; [done|]. intros. apply ret_good.
Qed.

Lemma update_good rid f : quiet f -> keeps_good (update_reservation rid f).
Proof.
  intros Hf s Hs. destruct (update_reservation rid f s) as [s' [u|e]] eqn:E; [by eapply update_reservation_good|].
  unfold update_reservation in E. destruct (_ !! _) as [r|]; [|done]. destruct (fenced s rid); [|done]. by injection E as <- _.
Qed.

Lemma keeps_good_ok {A} (m : M A) s s' a : keeps_good m -> good s -> m s = (s', Ok a) -> good s'.
Proof. intros Hm Hs E. specialize (Hm s Hs). by rewrite E in Hm. Qed.

Lemma keeps_transaction {A} (m : M A) : keeps_good m -> keeps_good (transaction m).
Proof. intros Hm. apply transaction_good. intros s s' a Hs E. by eapply keeps_good_ok. Qed.

Create HintDb good discriminated.
#[export] Hint Resolve ret_good gets_good lift_good throw_good get_good update_good keeps_transaction : good.
#[export] Hint Extern 1 (quiet _) => (intros ?; reflexivity) : good.
#[export] Hint Extern 1 (keeps_good (_ ≫= _)) => (apply bind_good; [|intros]) : good.
#[export] Hint Extern 1 (keeps_good (if _ then throw _ else _)) => apply fail_if_good : good.
#[export] Hint Extern 2 (keeps_good (if _ then _ else _)) => case_match : good.
#[export] Hint Extern 2 (keeps_good (match _ with _ => _ end)) => case_match : good.
#[export] Hint Extern 1 (keeps_good (each _ _)) => (apply each_good; intros) : good.
#[export] Hint Extern 1 (keeps_good (collect _ _)) => (apply collect_good; intros) : good.

(** ** The queue operations *)

Lemma expire_stale_rows_good cfg b : keeps_good (_expire_stale_rows cfg b).
Proof. unfold _expire_stale_rows. auto 20 with good. Qed.

Lemma require_authority_good rid : keeps_good (_require_evaluation_mutation_authority rid).
Proof. intros s Hs. unfold _require_evaluation_mutation_authority. by repeat case_match. Qed.
#[export] Hint Resolve expire_stale_rows_good require_authority_good : good.

Lemma transition_good rid expected st dec why ev : keeps_good (_transition rid expected st dec why ev).
Proof. unfold _transition. auto 20 with good. Qed.
#[export] Hint Resolve transition_good : good.

Lemma mark_fetching_good cfg rid : keeps_good (mark_fetching cfg rid).
Proof. unfold mark_fetching. auto 20 with good. Qed.
Lemma mark_transport_retry_good cfg rid why : keeps_good (mark_transport_retry cfg rid why).
Proof. unfold mark_transport_retry. auto 20 with good. Qed.
Lemma mark_failed_good rid why : keeps_good (mark_failed rid why).
Proof. unfold mark_failed. auto with good. Qed.
Lemma mark_held_good rid why : keeps_good (mark_held rid why).
Proof. unfold mark_held. auto with good. Qed.
Lemma expire_stale_good cfg b : keeps_good (expire_stale cfg b).
Proof. unfold expire_stale. auto 20 with good. Qed.
Lemma expire_good cfg rid b why : keeps_good (expire cfg rid b why).
Proof. unfold expire. auto 20 with good. Qed.
Lemma release_hold_good rid why : keeps_good (release_hold rid why).
Proof. unfold release_hold. auto 20 with good. Qed.
Lemma recover_interrupted_good : keeps_good _recover_interrupted.
Proof. unfold _recover_interrupted. auto 20 with good. Qed.
Lemma pending_good cfg limit : keeps_good (pending cfg limit).
Proof. unfold pending, _activate_deferred_rows. auto 20 with good. Qed.

Lemma modify_costs_good f : (forall d, exists ps cs, f d = with_costs ps cs d) -> keeps_good (modify f).
Proof.
  intros Hf s (Hi & ? & ?). split; [|done]. cbn. destruct (Hf (db s)) as (ps & cs & ->).
  destruct Hi. by split.
Qed.

Lemma expire_before_claim_good rid why : keeps_good (_expire_before_claim rid why).
Proof.
  unfold _expire_before_claim. auto 20 with good.
  apply bind_good; [|auto with good]. intros. apply keeps_transaction.
  repeat (apply bind_good; [auto with good|intros]). apply fail_if_good.
  apply bind_good; [auto with good|intros]. apply modify_costs_good. eauto.
Qed.

Lemma mark_target_unavailable_good rid t : keeps_good (mark_target_unavailable rid t).
Proof. unfold mark_target_unavailable. apply fail_if_good, expire_before_claim_good. Qed.

(** ** Closing a lease *)

Lemma deactivate_fields lid m :
  m_lease (deactivate lid m) = m_lease m /\ m_reservation (deactivate lid m) = m_reservation m /\
  m_prior (deactivate lid m) = m_prior m /\
  (m_active (deactivate lid m) = true <-> m_active m = true /\ m_lease m <> lid).
Proof.
  unfold deactivate, is_open_of. destruct (m_active m) eqn:Ha; cbn.
  - destruct (String.eqb_spec (m_lease m) lid) as [->|]; cbn; rewrite ?Ha; naive_solver.
  - rewrite Ha. naive_solver.
Qed.

Lemma deactivate_active lid ms :
  m_reservation <$> active_members (deactivate lid <$> ms) =
  m_reservation <$> filter (fun m => m_lease m <> lid) (active_members ms).
Proof.
  unfold active_members. induction ms as [|m ms IH]; [done|].
  destruct (deactivate_fields lid m) as (_ & Er & _ & Ha). rewrite fmap_cons, !filter_cons.
  destruct (decide (m_active (deactivate lid m) = true)) as [H|H].
  - apply Ha in H as [H1 H2]. rewrite (decide_True _ _ H1), filter_cons, (decide_True _ _ H2), !fmap_cons.
    by rewrite Er, IH.
  - destruct (decide (m_active m = true)) as [H1|H1]; [|done]. rewrite filter_cons, decide_False; [done|].
    intros H2. by apply H, Ha.
Qed.

Lemma lease_is_active_insert ls lid l k :
  lease_is_active (<[lid := l]> ls) k = if decide (k = lid) then bool_decide (l_state l = active) else lease_is_active ls k.
Proof.
  unfold lease_is_active. case_decide as E; [subst; by rewrite lookup_insert_eq|by rewrite lookup_insert_ne].
Qed.

(** Closing a lease may change the reservations it bound, and no others. *)
Lemma close_inv d d' lid l l' :
  lease_inv d -> leases d !! lid = Some l ->
  l_state l' <> active -> l_id l' = lid -> lease_row_ok l' = true ->
  leases d' = <[lid := l']> (leases d) -> lease_members d' = deactivate lid <$> lease_members d ->
  (forall rid r, reservations d' !! rid = Some r -> r_id r = rid) ->
  (forall m, m ∈ lease_members d -> m_active m = true -> m_lease m <> lid ->
     reservations d' !! m_reservation m = reservations d !! m_reservation m) ->
  lease_inv d'.
Proof.
  intros [] Hl Hst Hid Hok El Em Hrid Hres. split; rewrite ?El, ?Em; try done.
  - intros k r. rewrite lookup_insert_Some. intros [[<- <-]|[_ ?]]; [done|by eauto].
  - intros k r. rewrite lookup_insert_Some. intros [[<- <-]|[_ ?]]; [done|by eauto].
  - intros k k' r r'. rewrite !lookup_insert_Some. intros [[_ <-]|[_ ?]] [[_ <-]|[_ ?]]; [done..|by eauto].
  - intros m' (m & -> & Hm)%list_elem_of_fmap. destruct (deactivate_fields lid m) as (-> & _).
    apply lookup_insert_is_Some'. right. by apply inv_reference0.
  - intros m' (m & -> & Hm)%list_elem_of_fmap. destruct (deactivate_fields lid m) as (-> & _ & _ & ->).
    intros [Ha Hne]. rewrite lease_is_active_insert, decide_False by done. by apply inv_open0.
  - intros m' (m & -> & Hm)%list_elem_of_fmap. destruct (deactivate_fields lid m) as (-> & _ & _ & Hact).
    rewrite lease_is_active_insert. case_decide as E; [by intros ?%bool_decide_eq_true|].
    intros Ha. apply Hact. split; [by apply inv_whole0|done].
  - intros k r. rewrite lookup_insert_Some. intros [[_ <-]|[_ Hk]] Ha; [done|].
    destruct (inv_first0 k r Hk Ha) as (m & Hm & <- & Hp). exists (deactivate lid m). split_and!.
    + by apply list_elem_of_fmap_2.
    + apply deactivate_fields.
    + rewrite <- Hp. unfold deactivate. by destruct (is_open_of lid m).
  - rewrite deactivate_active. by apply NoDup_fmap_filter.
  - intros m' (m & -> & Hm)%list_elem_of_fmap. destruct (deactivate_fields lid m) as (_ & -> & -> & ->).
    intros [Ha Hne]. rewrite Hres by done. by apply inv_frozen0.
Qed.

(** ** Installing a lease *)

Lemma active_members_app ms ms' : active_members (ms ++ ms') = active_members ms ++ active_members ms'.
Proof. apply filter_app. Qed.

Lemma insert_members_ok enabled new s s' u :
  each (insert_member enabled) new s = (s', Ok u) ->
  s' = mkStore (with_members (lease_members (db s) ++ new) (db s)) (mutation_authority s) (recovery_authority s) /\
  (NoDup (m_reservation <$> active_members (lease_members (db s))) ->
   NoDup (m_reservation <$> active_members (lease_members (db s) ++ new))).
Proof.
  revert s. induction new as [|m new IH]; intros s H; simpl in H; inv_m.
  { rewrite app_nil_r. split; [by destruct s as [[]]|done]. }
  apply insert_member_ok in Hm as (Hc & _ & _ & ->). apply IH in H as [-> Hnd]. cbn in *.
  rewrite <- app_assoc in *. split; [done|]. intros Hn. apply Hnd. clear Hnd.
  rewrite active_members_app, fmap_app. apply NoDup_app. split_and!; [done| |].
  - intros x (k & -> & [Hk Hin]%list_elem_of_filter)%list_elem_of_fmap (k' & E & [Hk' ->%list_elem_of_singleton]%list_elem_of_filter)%list_elem_of_fmap.
    specialize (Hc k Hin). unfold member_conflict in Hc. apply orb_false_iff in Hc as [_ Hc].
    rewrite Hk', Hk, E, String.eqb_refl in Hc. done.
  - unfold active_members. rewrite filter_cons, filter_nil. case_decide; [apply NoDup_singleton|constructor].
Qed.

Lemma install_inv d d' lid l new :
  lease_inv d -> leases d !! lid = None -> l_id l = lid -> lease_row_ok l = true -> l_state l = active ->
  (forall k, same_active_owner l k = true -> forall lid', leases d !! lid' <> Some k) ->
  leases d' = <[lid := l]> (leases d) -> lease_members d' = lease_members d ++ new ->
  reservations d' = reservations d -> (exists m, m ∈ new /\ m_position m = 0) ->
  (forall m, m ∈ new -> m_lease m = lid /\ m_active m = true /\
     exists r, reservations d !! m_reservation m = Some r /\ r_status r = m_prior m) ->
  NoDup (m_reservation <$> active_members (lease_members d ++ new)) ->
  lease_inv d'.
Proof.
  intros [] Hl Hid Hok Hst Hown El Em Er Hfirst Hnew Hnd.
  assert (Hold : forall m, m ∈ lease_members d -> m_lease m <> lid).
  { intros m Hm E. destruct (inv_reference0 m Hm) as [? Hx]. congruence. }
  assert (Hsame : forall k l', leases d !! k = Some l' -> l_state l' = active -> l_arena l' = l_arena l ->
                    l_owner l' = l_owner l -> False).
  { intros k l' Hk Ha Har Ho. eapply (Hown l'); [|exact Hk]. unfold same_active_owner.
    rewrite bool_decide_eq_true_2, Har, Ho, !String.eqb_refl by done. done. }
  split; rewrite ?El, ?Em, ?Er; try done.
  - intros k r. rewrite lookup_insert_Some. intros [[<- <-]|[_ ?]]; [done|by eauto].
  - intros k r. rewrite lookup_insert_Some. intros [[<- <-]|[_ ?]]; [done|by eauto].
  - intros k k' r r'. rewrite !lookup_insert_Some. intros [[<- <-]|[? Hk]] [[<- <-]|[? Hk']] Ha Ha' Har Ho;
      [done|exfalso; eauto|exfalso; eauto|by eauto].
  - intros m [Hm|Hm]%elem_of_app; apply lookup_insert_is_Some'; [right; by apply inv_reference0|left].
    symmetry. by apply Hnew.
  - intros m [Hm|Hm]%elem_of_app Ha; rewrite lease_is_active_insert.
    + rewrite decide_False by (by apply Hold). by apply inv_open0.
    + destruct (Hnew m Hm) as (-> & _). rewrite decide_True by done. by apply bool_decide_eq_true_2.
  - intros m [Hm|Hm]%elem_of_app; rewrite lease_is_active_insert; [|intros _; by apply Hnew].
    rewrite decide_False by (by apply Hold). by apply inv_whole0.
  - intros k r. rewrite lookup_insert_Some. intros [[<- <-]|[_ Hk]] Ha.
    + destruct Hfirst as (m & Hm & Hp). exists m. split_and!; [apply elem_of_app; by right|by apply Hnew|done].
    + destruct (inv_first0 k r Hk Ha) as (m & Hm & ? & Hp). exists m. split_and!; try done. apply elem_of_app. by left.
  - intros m [Hm|Hm]%elem_of_app Ha; [by apply inv_frozen0|]. by apply Hnew.
Qed.

(** ** The lease operations *)

(** What closing a lease leaves: its row finished, its members inactive, one more event. *)
Definition closed_db (d : database) (lid : string) (l' : lease_row) (e : EvaluationLeaseEvent) : database :=
  with_events (lease_events d ++ [e])
    (with_members (deactivate lid <$> lease_members d) (with_leases (<[lid := l']> (leases d)) d)).

Definition on_db (s : store) (d : database) : store := mkStore d (mutation_authority s) (recovery_authority s).

Lemma expire_one_ok cfg b row s s' lease :
  expire_one cfg b row s = (s', Ok lease) ->
  _evaluation_lease cfg (db s) row = Ok lease /\ exists l e,
  leases (db s) !! lease_id lease = Some l /\ l_state l = active /\ l_expires l = expires_block lease /\
  lease_row_ok (finish lease_expired b (l_result l) "evaluation_lease_expired" l) = true /\
  count_open (lease_id lease) (lease_members (db s)) = length (members lease) /\
  event_type e = ev_expired /\ ev_lease_id e = lease_id lease /\
  s' = on_db s (closed_db (db s) (lease_id lease) (finish lease_expired b (l_result l) "evaluation_lease_expired" l) e).
Proof.
  unfold expire_one. intros H. inv_m.
  match goal with H : any_moved _ _ = _ |- _ => apply any_moved_ok in H as [-> _] end.
  match goal with H : update_lease _ _ _ _ _ = _ |- _ => apply update_lease_ok in H as [[-> ->]|(-> & l & El & Ha & Hx & Hok & ->)] end; [done|].
  match goal with H : deactivate_members _ _ _ = _ |- _ => apply deactivate_members_ok in H as [-> ->] end.
  match goal with H : _append_evaluation_lease_event _ _ _ _ _ _ _ = _ |- _ =>
    apply append_lease_event_ok in H as (He & Ht & _ & _ & _ & _ & _ & _ & ->) end. cbn in *.
  split; [done|]. eexists l, _. split_and!; try done. by apply negb_false_iff, Nat.eqb_eq in Hf1.
Qed.

Lemma closed_good s lid l l' e :
  good s -> leases (db s) !! lid = Some l -> l_state l' <> active -> l_id l' = l_id l -> lease_row_ok l' = true ->
  good (on_db s (closed_db (db s) lid l' e)).
Proof.
  intros (Hi & Ha & Hr) Hl Hst Hid Hok. split; [|done]. cbn.
  eapply (close_inv (db s) _ lid l l'); try done; [rewrite Hid; exact (inv_id _ Hi _ _ Hl)|exact (inv_reservation_id _ Hi)].
Qed.

Lemma expire_one_good cfg b row s s' lease : good s -> expire_one cfg b row s = (s', Ok lease) -> good s'.
Proof.
  intros Hs (_ & l & e & El & _ & _ & Hok & _ & _ & _ & ->)%expire_one_ok. by eapply closed_good.
Qed.

Lemma orphan_check_ok cfg s s' u : _require_no_orphan_active_qualification cfg s = (s', Ok u) -> s' = s.
Proof.
  unfold _require_no_orphan_active_qualification. intros H. inv_m.
  refine (each_invariant (fun x => x = s) _ _ _ _ _ _ eq_refl H). intros. inv_m. done.
Qed.

Lemma expire_leases_good cfg b s s' ls : good s -> _expire_evaluation_leases cfg b s = (s', Ok ls) -> good s'.
Proof.
  unfold _expire_evaluation_leases. intros Hs H. inv_m.
  assert (s0 = s) as ->.
  { revert Hm. case_match; [by intros ?%orphan_check_ok|by intros; inv_m]. }
  eapply collect_invariant; [|exact Hs|exact H]. intros. by eapply expire_one_good.
Qed.
