(* ===== verification/Admission.v ===== *)
(** * Admission of finalized arrivals

    [cacheon/chain/intake.py]: what a finalized arrival is and how it is
    identified ([FinalizedArrival]), how a row of the database opens
    ([IntakeReservation], [_row]), which arrivals of a finalized block are
    admitted, deferred or refused, and what they pay ([reserve_finalized]),
    publication, copies ([copy_predecessors], [reconcile_copies]) and the
    readmission of expired rows. *)

From S2P Require Import Prelude PyVal Dict Identity Strict Fingerprint Leases Recovery Store Queue Economics.

Open Scope Z_scope.

(** ** Arrivals *)

Record FinalizedArrival := mkArrival {
  a_hotkey : string; a_content : string; a_url : string; a_block : Z; a_block_hash : string; a_index : Z;
  a_subindex : Z; a_payload : string; a_invalid : string; a_payment_block : Z; a_payment_index : Z;
}.

#[export] Instance arrival_eq_dec : EqDecision FinalizedArrival.
Proof. solve_decision. Defined.

(** [any(char in hotkey for char in "\x00\r\n")] *)
Definition has_break (s : string) : bool := any_char (fun c => bool_decide (ord c ∈ [0; 13; 10]%N)) s.

Definition hotkey_ok (h : string) : bool :=
  truthy h && is_stripped h && (py_len h <=? 256) && negb (has_break h).

Definition identified (a : FinalizedArrival) : bool := is_sha256_hex (a_content a) && truthy (a_url a).
Definition explained (a : FinalizedArrival) : bool := truthy (a_invalid a) && (py_len (a_invalid a) <=? 2048).

Definition disposition_ok (a : FinalizedArrival) : bool :=
  (identified a && negb (truthy (a_invalid a)))
  || (String.eqb (a_content a) "" && String.eqb (a_url a) "" && explained a)
  || (identified a && explained a).

Definition with_payload (p : string) (a : FinalizedArrival) : FinalizedArrival :=
  mkArrival (a_hotkey a) (a_content a) (a_url a) (a_block a) (a_block_hash a) (a_index a) (a_subindex a) p (a_invalid a)
    (a_payment_block a) (a_payment_index a).

Definition make_arrival (a : FinalizedArrival) : result FinalizedArrival :=
  raise_if negb (hotkey_ok (a_hotkey a)) with (IntakeError "arrival hotkey is malformed");
  raise_if negb (disposition_ok a) with (IntakeError "arrival payload disposition is malformed");
  raise_if a_block a <? 0 with (IntakeError "arrival block is malformed");
  raise_if negb (is_block_hash (a_block_hash a)) with (IntakeError "arrival block hash is malformed");
  raise_if (a_index a <? 0) || (a_subindex a <? 0) with (IntakeError "arrival index is malformed");
  raise_if (a_payment_block a <? 0) || (a_payment_index a <? 0)
    with (IntakeError "arrival eval-cost payment pointer is malformed");
  raise_if (a_payment_block a =? 0) && negb (a_payment_index a =? 0)
    with (IntakeError "arrival eval-cost payment pointer is malformed");
  payload ← (if truthy (a_payload a) then Ok (a_payload a)
             else canonical_digest "cacheon.chain.finalized-payload"
                    (str_dict [("content_hash", VStr (a_content a)); ("url", VStr (a_url a))]) 1);
  _ ← require_sha256_hex (VStr payload) "payload_digest";
  Ok (with_payload payload a).

Definition arrival_valid (a : FinalizedArrival) : bool := negb (truthy (a_invalid a)).

Definition order_key (a : FinalizedArrival) : Z * (Z * (Z * (string * string))) :=
  (a_block a, (a_index a, (a_subindex a, (a_hotkey a, a_content a)))).

Definition arrival_rows (a : FinalizedArrival) : list (string * pyval) :=
  [("block", VInt (a_block a)); ("block_hash", VStr (a_block_hash a)); ("content_hash", VStr (a_content a));
   ("event_index", VInt (a_index a)); ("event_subindex", VInt (a_subindex a)); ("hotkey", VStr (a_hotkey a));
   ("payload_digest", VStr (a_payload a)); ("url", VStr (a_url a))].

Definition arrival_id (a : FinalizedArrival) : result string :=
  canonical_digest "cacheon.chain.finalized-arrival" (str_dict (arrival_rows a)) 1.

(** ** Rows *)

(** The other fields of [IntakeReservation] are columns of its row. *)
Record IntakeReservation := mkIntake {
  i_row : reservation; i_arrival : FinalizedArrival; i_members : list string; i_fingerprint : option SubmittedDeltaFingerprint;
}.

Definition arrival_of (r : reservation) : FinalizedArrival :=
  let x := r_columns r in
  mkArrival (r_hotkey r) (r_content_hash r) (x_url x) (r_block r) (x_block_hash x) (r_event_index r) (r_event_subindex r)
    (x_payload x) (x_invalid x) (x_payment_block x) (x_payment_index x).

Definition hash_or_empty (s : string) : bool := String.eqb s "" || is_sha256_hex s.

Definition make_intake (i : IntakeReservation) : result IntakeReservation :=
  let r := i_row i in
  let x := r_columns r in
  _ ← require_sha256_hex (VStr (r_id r)) "reservation_id";
  rid ← arrival_id (i_arrival i);
  raise_if negb (String.eqb (r_id r) rid) with (IntakeError "reservation identity differs from finalized arrival");
  raise_if x_epoch x <? 0 with (IntakeError "reservation epoch is malformed");
  raise_if negb (is_sorted_set (i_members i)) with (IntakeError "reservation target members are not canonical");
  raise_if match i_fingerprint i with
           | Some f => negb (String.eqb (f_target f) (x_target x)) || negb (bool_decide (f_members f = i_members i))
           | None => false
           end
    with (IntakeError "reservation delta fingerprint differs from its target");
  raise_if r_attempts r <? 0 with (IntakeError "reservation transport attempts are malformed");
  raise_if negb (forallb hash_or_empty [r_publication r; r_authority r; r_evidence r; r_service r])
    with (IntakeError "reservation digest is malformed");
  raise_if negb (bool_decide (r_decision r ∈ [""; "PASS"; "FAIL"; "NO_DECISION"]))
    with (IntakeError "reservation decision is unsupported");
  raise_if negb (bool_decide (x_lane x ∈ [""; "primary"; "reproduction"]))
    with (IntakeError "reservation screen lane is unsupported");
  Ok i.

(** [except (TypeError, ValueError)] *)
Definition corrupt {A} (message : string) (r : result A) : result A :=
  match r with
  | Raise e => Raise (if bool_decide (exn_class e ∈ ["TypeError"; "ValueError"]) then IntakeError message else e)
  | done => done
  end.

Definition _row (r : reservation) : result IntakeReservation :=
  let x := r_columns r in
  read ← corrupt "reservation provenance is corrupt: " (
    members ← read_strings (x_members x);
    fingerprint ← match x_fingerprint x with Some v => Some <$> fingerprint_from_dict v | None => Ok None end;
    Ok (members, fingerprint));
  a ← make_arrival (arrival_of r);
  make_intake (mkIntake r a read.1 read.2).

Definition opened (rid : string) : M IntakeReservation := r ← get rid; lift (_row r).

(** ** Which arrivals are admitted *)

(** The epoch of a block; its last [cutoff_blocks] belong to the next epoch. *)
Definition epoch_of (p : IntakePolicy) (block : Z) : Z :=
  block / epoch_blocks p + (if epoch_blocks p - cutoff_blocks p <=? block mod epoch_blocks p then 1 else 0).

Definition count (p : reservation -> bool) (d : database) : Z :=
  Z.of_nat (length (filter (fun r => p r = true) (all_rows d))).

Definition in_epoch (epoch : Z) (hotkey : string) (r : reservation) : bool :=
  (x_epoch (r_columns r) =? epoch) && String.eqb (r_hotkey r) hotkey.

Definition _eval_cost_payment_used (block index : Z) (d : database) : bool :=
  existsb (fun p => (p_block p =? block) && (p_index p =? index)) (cost_payments d).

Definition is_unspent (hotkey : string) (c : credit_row) : bool := String.eqb (e_hotkey c) hotkey && String.eqb (e_reservation c) "".

(** [ORDER BY granted_at, credit_id LIMIT 1] *)
Definition _unspent_eval_cost_credit (hotkey : string) (d : database) : string :=
  match sorted_by (fun c => (e_granted c, e_id c)) (filter (fun c => is_unspent hotkey c = true) (cost_credits d)) with
  | [] => "" | c :: _ => e_id c
  end.

Definition missing_payment : string := "missing_eval_cost_payment".

(** The credit that may stand for the payment an arrival does not name. *)
Definition credit_for (fee : Z) (a : FinalizedArrival) (d : database) : string :=
  if (0 <? fee) && (a_payment_block a =? 0) && (arrival_valid a || String.eqb (a_invalid a) missing_payment)
  then _unspent_eval_cost_credit (a_hotkey a) d else "".

Section Admission.
Context (cfg : config) (fee finalized_block : Z).
Let p : IntakePolicy := policy cfg.

(** The [if]/[elif] chain over an arrival that is not in the database yet. *)
Definition judge (a : FinalizedArrival) (pending : Z) (credit : string) (d : database) : status * string :=
  let hotkey_count := count (in_epoch (epoch_of p (a_block a)) (a_hotkey a)) d in
  if negb (arrival_valid a) && negb (truthy credit && String.eqb (a_invalid a) missing_payment) then (failed, a_invalid a)
  else if (0 <? fee) && (a_payment_block a =? 0) && negb (truthy credit) then (failed, missing_payment)
  else if expiry_blocks p <=? finalized_block - a_block a then (expired, _AUTOMATIC_EXPIRY_REASON)
  else if max_per_hotkey_epoch p <=? hotkey_count then (failed, "hotkey_epoch_admission_limit")
  else if (0 <? fee) && (0 <? a_payment_block a) && _eval_cost_payment_used (a_payment_block a) (a_payment_index a) d
  then (failed, "eval_cost_payment_used")
  else if max_pending p <=? pending then (deferred, "pending_queue_deferred")
  else (reserved, "").

Definition new_row (rid : string) (a : FinalizedArrival) (st : status) (why : string) : reservation :=
  mkReservation rid (a_block a) (a_index a) (a_subindex a) (a_hotkey a) (a_content a) st 0 "" "" "" "" "" 0 "" why ""
    (mkColumns (a_block_hash a) (a_url a) (a_payload a) (a_invalid a) (a_payment_block a) (a_payment_index a)
       (epoch_of p (a_block a)) "" (VList []) None "" "" None).

(** [UNIQUE(block_hash, event_index, event_subindex, hotkey, content_hash)] *)
Definition same_event (r k : reservation) : bool :=
  String.eqb (x_block_hash (r_columns r)) (x_block_hash (r_columns k)) && (r_event_index r =? r_event_index k)
  && (r_event_subindex r =? r_event_subindex k) && String.eqb (r_hotkey r) (r_hotkey k)
  && String.eqb (r_content_hash r) (r_content_hash k).

Definition insert_reservation (r : reservation) : M () :=
  d ← gets id;
  fail_if negb (absent (reservations d !! r_id r)) || existsb (same_event r) (all_rows d)
    with (IntegrityError "UNIQUE constraint failed: reservations");
  modify (fun d => with_reservations (<[r_id r := r]> (reservations d)) d).

Definition insert_payment (row : payment_row) : M () :=
  d ← gets id;
  fail_if _eval_cost_payment_used (p_block row) (p_index row) d
    with (IntegrityError "UNIQUE constraint failed: eval_cost_payments");
  modify (fun d => with_costs (cost_payments d ++ [row]) (cost_credits d) d).

Definition spendable (credit : string) (c : credit_row) : bool := String.eqb (e_id c) credit && String.eqb (e_reservation c) "".

Definition spend (credit rid : string) (c : credit_row) : credit_row :=
  if spendable credit c then mkCreditRow (e_id c) (e_hotkey c) (e_granted c) rid finalized_block else c.

Definition spend_credit (credit rid : string) : M () :=
  n ← gets (fun d => length (filter (fun c => spendable credit c = true) (cost_credits d)));
  _ ← modify (fun d => with_costs (cost_payments d) (spend credit rid <$> cost_credits d) d);
  fail_if negb (n =? 1)%nat with (IntakeError "eval-cost credit disappeared during admission");
  mret tt.

(** What an admitted arrival pays with. *)
Definition charge (rid : string) (a : FinalizedArrival) (st : status) (credit : string) : M () :=
  if (0 <? fee) && bool_decide (st ∈ [reserved; deferred]) && (0 <? a_payment_block a)
  then insert_payment (mkPaymentRow (a_payment_block a) (a_payment_index a) rid (a_content a) (a_hotkey a) fee)
  else if (0 <? fee) && bool_decide (st ∈ [reserved; deferred]) && truthy credit then spend_credit credit rid
  else mret tt.

(** One arrival: the number of occupied slots after it, and its identity if it is new. *)
Definition admit_one (a : FinalizedArrival) (pending : Z) : M (Z * list string) :=
  rid ← lift (arrival_id a);
  d ← gets id;
  match reservations d !! rid with
  | Some row =>
      i ← lift (_row row);
      fail_if negb (bool_decide (i_arrival i = a)) with (IntakeError "reservation ID collision changed arrival bytes");
      mret (pending, [])
  | None =>
      let credit := credit_for fee a d in
      let verdict := judge a pending credit d in
      _ ← insert_reservation (new_row rid a verdict.1 verdict.2);
      _ ← charge rid a verdict.1 credit;
      mret (if bool_decide (verdict.1 = reserved) then pending + 1 else pending, [rid])
  end.

Fixpoint admit_all (arrivals : list FinalizedArrival) (pending : Z) : M (list string) :=
  match arrivals with
  | [] => mret []
  | a :: arrivals =>
      one ← admit_one a pending;
      more ← admit_all arrivals one.1;
      mret (one.2 ++ more)
  end.

Definition occupied (d : database) : Z := count (fun r => in_statuses r occupying) d.

Definition cursor_moves_back (hash : string) (c : option (Z * string)) : bool :=
  match c with
  | None => false
  | Some (block, h) => (finalized_block <? block) || ((finalized_block =? block) && negb (String.eqb hash h))
  end.

Definition with_cursor_at (c : Z * string) (d : database) : database :=
  mkDb (reservations d) (leases d) (lease_members d) (lease_events d) (recoveries d) (recovery_events d) (dispositions d)
    (qualifications d) (sla_resets d) (segments d) (stacks d) (Some c) (cost_payments d) (cost_credits d).

Definition reserve_finalized (arrivals : list FinalizedArrival) (hash : string) : M (list IntakeReservation) :=
  fail_if negb (bool_decide (order_key <$> arrivals = sorted_by id (remove_dups (order_key <$> arrivals))))
    with (IntakeError "finalized arrivals are duplicated or out of order");
  fail_if finalized_block <? 0 with (IntakeError "finalized block is malformed");
  fail_if negb (is_block_hash hash) with (IntakeError "finalized block hash is malformed");
  fail_if fee <? 0 with (IntakeError "eval cost amount cannot be negative");
  fail_if existsb (fun a => finalized_block <? a_block a) arrivals
    with (IntakeError "unfinalized arrival reached durable intake");
  inserted ← transaction (
    _ ← _expire_stale_rows cfg finalized_block;
    _ ← _activate_deferred_rows cfg;
    c ← gets cursor;
    fail_if cursor_moves_back hash c with (IntakeError "finalized cursor regressed or changed hash");
    pending ← gets occupied;
    inserted ← admit_all arrivals pending;
    _ ← modify (with_cursor_at (finalized_block, hash));
    mret inserted);
  collect opened inserted.
End Admission.
