(* ===== verification/Copies.v ===== *)
(** * Publication and copies

    [cacheon/chain/intake.py]: the publication of a fetched submission
    ([mark_published]), the earlier submissions that it copies
    ([copy_predecessors]) and the demotion of copies ([mark_copy],
    [mark_reference_copy], [reconcile_copies]). *)

From S2P Require Import Prelude PyVal Dict Identity Strict Fingerprint Leases Recovery Store Queue EvidenceRef Admission.

Open Scope Z_scope.

Definition ArenaServiceError (m : string) : exn := Exn "ArenaServiceError" m.

(** [all]: every row in finalized order, opened. *)
Definition all : M (list IntakeReservation) :=
  rows ← gets (select_rows (fun _ => true) arrival_key);
  collect (fun r => lift (_row r)) rows.

(** ** Publication *)

(** [legacy] is [metadata.legacy_arena_id]: the arena that older rows belong to under the empty name. *)
Definition publication_arena (legacy : option string) (arena : string) : result string :=
  _ ← (if String.eqb arena "" then Ok "" else require_identifier (VStr arena) "competition arena" ArenaServiceError (token dotted 256));
  Ok (if match legacy with Some l => String.eqb arena l | None => false end then "" else arena).

Definition same_family (epoch : Z) (target arena : string) (r : reservation) : bool :=
  (x_epoch (r_columns r) =? epoch) && String.eqb (x_target (r_columns r)) target && String.eqb (r_arena r) arena.

Definition publish_row (st : status) (why : string) (f : SubmittedDeltaFingerprint) (digest root arena : string)
    (r : reservation) : reservation :=
  let x := r_columns r in
  mkReservation (r_id r) (r_block r) (r_event_index r) (r_event_subindex r) (r_hotkey r) (r_content_hash r)
    st (r_attempts r) digest (r_authority r) (r_evidence r) (r_service r) (r_retry_group r) (r_retry_position r)
    "" why arena
    (mkColumns (x_block_hash x) (x_url x) (x_payload x) (x_invalid x) (x_payment_block x) (x_payment_index x) (x_epoch x)
       (f_target f) (VList (VStr <$> f_members f)) (Some (fingerprint_to_dict f)) root "primary" (x_authority_json x)).

Definition mark_published (cfg : config) (legacy : option string) (rid : string) (f : SubmittedDeltaFingerprint)
    (digest root arena : string) : M IntakeReservation :=
  arena ← lift (publication_arena legacy arena);
  _ ← lift (require_sha256_hex (VStr digest) "publication_digest");
  _ ← transaction (
    row ← opened rid;
    fail_if negb (in_statuses (i_row row) [fetching]) with (IntakeError "publication requires an active transport");
    n ← gets (count (same_family (x_epoch (r_columns (i_row row))) (f_target f) arena));
    let full := max_per_target_epoch (policy cfg) <=? n in
    update_reservation rid
      (publish_row (if full then failed else published) (if full then "target_epoch_admission_limit" else "") f digest root arena));
  opened rid.

Definition qualification_attempts (rid : string) : M Z :=
  _ ← opened rid;
  gets (fun d => Z.of_nat (length (filter (fun k => k = rid) (dispositions d)))).

(** ** Copies *)

Definition key_of (i : IntakeReservation) : Z * (Z * (Z * (string * string))) := order_key (i_arrival i).

(** The rows before the first that is not earlier than [key]. *)
Fixpoint earlier_than (key : Z * (Z * (Z * (string * string)))) (l : list IntakeReservation) : list IntakeReservation :=
  match l with
  | [] => []
  | i :: l => if cmp_leb key (key_of i) then [] else i :: earlier_than key l
  end.

Definition copied_by (candidate : IntakeReservation) (g : SubmittedDeltaFingerprint) (i : IntakeReservation) : bool :=
  negb (String.eqb (a_hotkey (i_arrival i)) (a_hotkey (i_arrival candidate)))
  && match i_fingerprint i with
     | Some f => authoritative (compare_submitted_deltas f g)
     | None => false
     end.

Definition copy_predecessors (rid : string) : M (list IntakeReservation) :=
  candidate ← opened rid;
  match i_fingerprint candidate with
  | None => throw (IntakeError "candidate has no submitted-delta fingerprint")
  | Some g =>
      rows ← all;
      mret (filter (fun i => copied_by candidate g i = true) (earlier_than (key_of candidate) rows))
  end.

(** Equality of the fields of two [IntakeReservation]s. *)
Definition same_intake (i j : IntakeReservation) : bool :=
  let r := i_row i in let k := i_row j in
  let x := r_columns r in let y := r_columns k in
  String.eqb (r_id r) (r_id k) && bool_decide (i_arrival i = i_arrival j) && (x_epoch x =? x_epoch y)
  && bool_decide (r_status r = r_status k) && String.eqb (x_target x) (x_target y)
  && bool_decide (i_members i = i_members j) && bool_decide (i_fingerprint i = i_fingerprint j)
  && (r_attempts r =? r_attempts k) && String.eqb (r_publication r) (r_publication k) && String.eqb (x_root x) (x_root y)
  && String.eqb (r_authority r) (r_authority k) && String.eqb (r_evidence r) (r_evidence k)
  && String.eqb (r_service r) (r_service k) && String.eqb (x_lane x) (x_lane y)
  && String.eqb (r_decision r) (r_decision k) && String.eqb (r_reason r) (r_reason k) && String.eqb (r_arena r) (r_arena k).

Definition demotable : list status := [published; qualifying; reproduction_pending; qualified; held; no_decision].

Definition mark_copy (rid pid : string) : M IntakeReservation :=
  predecessor ← opened pid;
  candidate ← opened rid;
  fail_if cmp_leb (key_of candidate) (key_of predecessor)
    with (IntakeError "copy predecessor is not earlier in finalized order");
  known ← copy_predecessors rid;
  fail_if negb (existsb (same_intake predecessor) known)
    with (IntakeError "claimed predecessor is not an authoritative delta copy");
  _ ← _transition rid demotable failed "FAIL" (string_app "copy_of:" (r_id (i_row predecessor))) "";
  opened rid.

(** [[A-Za-z0-9._-]{1,80}] *)
Definition reference_char (c : chr) : bool :=
  is_digit c || in_range 65 90 c || in_range 97 122 c || bool_decide (ord c ∈ [46; 95; 45]%N).
Definition is_reference_name (s : string) : bool :=
  truthy s && all_chars reference_char s && (String.length s <=? 80)%nat.

Definition mark_reference_copy (rid name : string) : M IntakeReservation :=
  fail_if negb (is_reference_name name) with (IntakeError "validator reference name is malformed");
  _ ← _transition rid demotable failed "FAIL" (string_app "copy_of:validator_reference:" name) "";
  opened rid.

Definition settled_already (i : IntakeReservation) : bool :=
  match i_fingerprint i with None => true | Some _ => in_statuses (i_row i) [failed; expired] end.

(** One row of the loop of [reconcile_copies]. *)
Definition demote_copy (i : IntakeReservation) : M (list (string * string)) :=
  if settled_already i then mret []
  else
    predecessors ← copy_predecessors (r_id (i_row i));
    match predecessors with
    | [] => mret []
    | p :: _ => _ ← mark_copy (r_id (i_row i)) (r_id (i_row p)); mret [(r_id (i_row i), r_id (i_row p))]
    end.

Definition reconcile_copies : M (list (string * string)) :=
  rows ← all;
  done ← collect demote_copy rows;
  mret (concat done).
