(* ===== verification/AdmissionInvariant.v ===== *)
(** * Admission, publication and copies respect the leases

    [reserve_finalized], [mark_published], [mark_copy], [mark_reference_copy]
    and [reconcile_copies] keep the invariant of the evaluation leases. *)

From S2P Require Import Prelude PyVal Leases Recovery Store Queue LeaseInvariant Fingerprint Admission Copies.

Open Scope Z_scope.

Lemma modify_good f : (forall d, lease_inv d -> lease_inv (f d)) -> keeps_good (modify f).
Proof. intros Hf s (Hi & ? & ?). split; [by apply Hf|done]. Qed.

(** A new reservation is bound by no lease. *)
Lemma insert_inv r d : reservations d !! r_id r = None -> lease_inv d -> lease_inv (with_reservations (<[r_id r := r]> (reservations d)) d).
Proof.
  intros Hn []. split; cbn; try done.
  - intros rid k. rewrite lookup_insert_Some. intros [[<- <-]|[_ ?]]; [done|by eauto].
  - intros m Hm Hact. destruct (inv_frozen m Hm Hact) as (k & Hk & ?). exists k. split; [|done].
    rewrite lookup_insert_ne; [done|]. intros E. by rewrite <- E, Hn in Hk.
Qed.

Lemma opened_good rid : keeps_good (opened rid).
Proof. unfold opened. auto with good. Qed.

Lemma insert_reservation_good r : keeps_good (insert_reservation r).
Proof.
  intros s Hs. unfold insert_reservation, mbind, M_bind, gets. cbn [fst id].
  destruct (reservations (db s) !! r_id r) eqn:E; cbn [absent negb orb]; [exact Hs|].
  destruct (existsb _ _); [exact Hs|]. destruct Hs as (Hi & Ha & Hr).
  split; [exact (insert_inv _ _ E Hi)|by split].
Qed.

Lemma costs_good p c : keeps_good (modify (fun d => with_costs (p d) (c d) d)).
Proof. apply modify_costs_good. eauto. Qed.
#[export] Hint Resolve costs_good : good.

Lemma insert_payment_good p : keeps_good (insert_payment p).
Proof. unfold insert_payment. apply bind_good; [auto with good|]. intros d. apply fail_if_good, (costs_good (fun d => cost_payments d ++ [p]) cost_credits). Qed.

Lemma spend_credit_good fb credit rid : keeps_good (spend_credit fb credit rid).
Proof.
  unfold spend_credit. apply bind_good; [auto with good|]. intros n. apply bind_good; [|auto with good].
  apply (costs_good cost_payments (fun d => spend fb credit rid <$> cost_credits d)).
Qed.
#[export] Hint Resolve opened_good insert_reservation_good insert_payment_good spend_credit_good : good.

Section Good.
Context (cfg : config) (fee fb : Z).

Lemma charge_good rid a st credit : keeps_good (charge fee fb rid a st credit).
Proof. unfold charge. auto 10 with good. Qed.
Hint Resolve charge_good : good.

Lemma admit_good a n : keeps_good (admit_one cfg fee fb a n).
Proof. unfold admit_one. auto 20 with good. Qed.
Hint Resolve admit_good : good.

Lemma admit_all_good arrivals n : keeps_good (admit_all cfg fee fb arrivals n).
Proof. revert n. induction arrivals; intros n; cbn; auto 20 with good. Qed.

Lemma with_cursor_at_good c : keeps_good (modify (with_cursor_at c)).
Proof. apply modify_good. intros d []. by split. Qed.
Hint Resolve admit_all_good with_cursor_at_good : good.

Lemma activate_good : keeps_good (_activate_deferred_rows cfg).
Proof. unfold _activate_deferred_rows. auto 20 with good. Qed.
Hint Resolve activate_good : good.

Lemma reserve_finalized_good arrivals hash : keeps_good (reserve_finalized cfg fee fb arrivals hash).
Proof. unfold reserve_finalized. auto 40 with good. Qed.
End Good.

Lemma all_good : keeps_good all.
Proof. unfold all. auto with good. Qed.
#[export] Hint Resolve all_good : good.

Lemma mark_published_good cfg legacy rid f digest root arena : keeps_good (mark_published cfg legacy rid f digest root arena).
Proof. unfold mark_published. auto 40 with good. Qed.

Lemma copy_predecessors_good rid : keeps_good (copy_predecessors rid).
Proof. unfold copy_predecessors. auto 20 with good. Qed.
#[export] Hint Resolve copy_predecessors_good : good.

Lemma mark_copy_good rid pid : keeps_good (mark_copy rid pid).
Proof. unfold mark_copy. auto 40 with good. Qed.
#[export] Hint Resolve mark_copy_good : good.

Lemma mark_reference_copy_good rid name : keeps_good (mark_reference_copy rid name).
Proof. unfold mark_reference_copy. auto 40 with good. Qed.

Lemma demote_copy_good i : keeps_good (demote_copy i).
Proof. unfold demote_copy. auto 40 with good. Qed.
#[export] Hint Resolve demote_copy_good : good.

Lemma reconcile_copies_good : keeps_good reconcile_copies.
Proof. unfold reconcile_copies. auto 40 with good. Qed.
