(* ===== verification/LeaseSafety.v ===== *)
(** * Every operation keeps the lease invariant

    The claim, the acceptance of a result and the recovery operations, each
    with what a successful run of it does to the lease tables; then the
    operations as a step relation, and the invariant of every store that they
    reach. *)

From S2P Require Import Prelude PyVal Identity Leases Recovery Store Queue LeaseRows LeaseStore RecoveryStore LeaseInvariant.

Open Scope Z_scope.

(** ** The claim *)

Lemma each_fmap {A B} (g : A -> B) (f : B -> M ()) l s : each (fun x => f (g x)) l s = each f (g <$> l) s.
Proof.
  revert s. induction l as [|x l IH]; intros s; [done|]. simpl. unfold mbind, M_bind.
  destruct (f (g x) s) as [s1 [u|e]]; [apply IH|done].
Qed.

(** The member rows that a claim inserts. *)
Definition claimed_members (lid : string) (ms : list EvaluationLeaseMember) : list member_row :=
  (fun pm => mkMemberRow lid pm.1 (reservation_id pm.2) (prior_status pm.2) true) <$> enumerate ms.

Lemma claimed_members_elem lid ms m :
  m ∈ claimed_members lid ms ->
  m_lease m = lid /\ m_active m = true /\ mkMember (m_reservation m) (m_prior m) ∈ ms.
Proof.
  intros ([p [rid st]] & -> & Hin)%list_elem_of_fmap. cbn. split_and!; try done.
  unfold enumerate in Hin. by apply elem_of_zip_r in Hin.
Qed.

Lemma claimed_members_first lid ms : ms <> [] -> exists m, m ∈ claimed_members lid ms /\ m_position m = 0.
Proof. destruct ms as [|x ms]; [done|]. intros _. eexists. split; [by left|done]. Qed.

Definition installed_row (cfg : config) (lid : string) (gen : Z) (st own : string) (b e : Z) : lease_row :=
  mkLeaseRow (competition_arena cfg) lid gen st own b e e active 0 "" "".

Lemma install_lease_ok cfg lid gen st own ms b e s s' lease :
  install_lease cfg lid gen st own ms b e s = (s', Ok lease) ->
  let row := installed_row cfg lid gen st own b e in
  leases (db s) !! lid = None /\ lease_row_ok row = true /\
  (forall k, same_active_owner row k = true -> forall lid', leases (db s) !! lid' <> Some k) /\
  (NoDup (m_reservation <$> active_members (lease_members (db s))) ->
   NoDup (m_reservation <$> active_members (lease_members (db s) ++ claimed_members lid ms))) /\
  exists ev rs es,
    _evaluation_lease cfg (with_members (lease_members (db s) ++ claimed_members lid ms)
                             (with_leases (<[lid := row]> (leases (db s))) (db s))) row = Ok lease /\
    event_type ev = ev_claimed /\ ev_lease_id ev = lease_id lease /\ finalized_block ev = b /\
    (if recovery_enabled cfg
     then exists r e', rs = <[lease_id lease := recovery_row_of r]> (recoveries (db s)) /\ es = recovery_events (db s) ++ [e'] /\
            event_of r EV_CLAIMED e' /\ phase r = CLAIMED /\ resolution r = UNRESOLVED /\ revision r = 0 /\ rec_lease r = lease
     else rs = recoveries (db s) /\ es = recovery_events (db s)) /\
    s' = on_db s (with_recoveries rs es (with_events (lease_events (db s) ++ [ev])
           (with_members (lease_members (db s) ++ claimed_members lid ms)
              (with_leases (<[lid := row]> (leases (db s))) (db s))))).
Proof.
  unfold install_lease. intros H. inv_m. cbv zeta.
  match goal with H : insert_lease _ _ _ = _ |- _ => apply insert_lease_ok in H as (Hn & Hok & Hown & ->) end.
  match goal with H : each _ _ _ = _ |- _ =>
    rewrite (each_fmap (fun pm => mkMemberRow lid pm.1 (reservation_id pm.2) (prior_status pm.2) true)) in H;
    apply insert_members_ok in H as [-> Hnd] end.
  match goal with H : _append_evaluation_lease_event _ _ _ _ _ _ _ = _ |- _ =>
    apply append_lease_event_ok in H as (He & Ht & Hb & _ & _ & _ & _ & _ & ->) end.
  cbn in *. unfold installed_row. split_and!; try done; [by apply Hown|].
  match goal with H : match <[lid:=?x]> ?m !! lid with _ => _ end = Ok _ |- _ => rewrite lookup_insert_eq in H; rename H into Hl end.
  match type of He with ev_lease_id ?v = _ => rename v into ev end.
  match goal with H : (if recovery_enabled cfg then _ else _) ?x = _ |- _ => rename H into Hrec end.
  destruct (recovery_enabled cfg); inv_m.
  - match goal with H : _create_evaluation_recovery_locked _ _ = (_, Ok ?r) |- _ =>
      rename r into rec; apply create_recovery_ok in H as (? & ? & ? & ? & e' & ? & ->) end.
    eexists ev, _, _. split_and!; try done. exists rec, e'. split_and!; done.
  - exists ev, (recoveries (db s)), (recovery_events (db s)). split_and!; done.
Qed.

Lemma with_authority_ok {A} cfg lid (m : M A) s s' a :
  with_authority cfg lid m s = (s', Ok a) -> recovery_authority s = ∅ ->
  exists s0 s1, db s0 = db s /\ mutation_authority s0 = mutation_authority s /\ m s0 = (s1, Ok a) /\
    db s' = db s1 /\ mutation_authority s' = mutation_authority s1 /\
    (recovery_authority s1 = recovery_authority s0 -> recovery_authority s' = ∅).
Proof.
  unfold with_authority. destruct (recovery_enabled cfg).
  - intros (_ & s1 & Hm & ->)%recovery_mutation_ok _. exists (mkStore (db s) (mutation_authority s) {[ lid ]}), s1. split_and!; try done.
    cbn. intros ->. set_solver.
  - intros H Hr. exists s, s'. split_and!; try done. congruence.
Qed.

Lemma inv_recoveries d rs es : lease_inv d -> lease_inv (with_recoveries rs es d).
Proof. intros []. by split. Qed.
Lemma inv_events d es : lease_inv d -> lease_inv (with_events es d).
Proof. intros []. by split. Qed.

Lemma install_good cfg lid gen st own ms b e s s' lease :
  good s -> with_authority cfg lid (install_lease cfg lid gen st own ms b e) s = (s', Ok lease) ->
  ms <> [] ->
  (forall m, m ∈ ms -> exists r, reservations (db s) !! reservation_id m = Some r /\ r_status r = prior_status m) ->
  good s'.
Proof.
  intros (Hi & Ha & Hr) H Hne Hms. apply with_authority_ok in H as (s0 & s1 & Ed & Ea & H & Ed' & Ea' & Er'); [|done].
  apply install_lease_ok in H as (Hn & Hok & Hown & Hnd & ev & rs & es & _ & _ & _ & _ & _ & ->). cbn in *.
  rewrite Ed in *. split; [|split; [congruence|by apply Er']]. rewrite Ed'. apply inv_recoveries, inv_events.
  eapply (install_inv (db s) _ lid (installed_row cfg lid gen st own b e) (claimed_members lid ms)); try done.
  - by apply claimed_members_first.
  - intros m (? & ? & Hin)%claimed_members_elem. split_and!; try done. by apply Hms in Hin.
  - by apply Hnd, inv_exclusive.
Qed.

Lemma all_rows_elem d r : lease_inv d -> r ∈ all_rows d -> reservations d !! r_id r = Some r.
Proof.
  intros Hi ([rid r'] & -> & Hin)%list_elem_of_fmap. apply elem_of_map_to_list in Hin. cbn.
  by rewrite (inv_reservation_id _ Hi rid r').
Qed.

Lemma members_of_rows_ok rows ms :
  members_of_rows rows = Ok ms -> ms = (fun r => mkMember (r_id r) (r_status r)) <$> rows.
Proof.
  intros H%map_result_Forall2. induction H as [|m x rows ms Hm _ IH]; [done|].
  apply make_member_Ok in Hm as [-> _]. by rewrite IH.
Qed.

Lemma clock_ok b s s' u :
  _require_evaluation_clock b s = (s', Ok u) -> s' = s /\ 0 <= b /\ exists h, cursor (db s) = Some (b, h).
Proof.
  unfold _require_evaluation_clock. intros H. inv_m. split; [done|]. apply orb_false_iff in Hf as [Hb Hc].
  apply Z.ltb_ge in Hb. split; [done|]. destruct (cursor (db s)) as [[c h]|]; [|done].
  apply negb_false_iff, Z.eqb_eq in Hc as ->. eauto.
Qed.

(** A claim is a selection on the store that the two expiries leave, and the installation of its lease. *)
Lemma claim_ok_some cfg st own b n mm ma s s' lease :
  claim_evaluation_lease cfg st own b n mm ma s = (s', Ok (Some lease)) ->
  exists o h s0 ls s1 stale rows ms lid,
    require_evaluation_owner own = Ok o /\ cursor (db s) = Some (b, h) /\
    0 < n <= expiry_blocks (policy cfg) /\ 0 < claim_bound cfg mm <= max_cohort (policy cfg) /\
    _expire_evaluation_leases cfg b s = (s0, Ok ls) /\ _expire_stale_rows cfg b s0 = (s1, Ok stale) /\
    _select_evaluation_rows cfg (db s1) st (claim_bound cfg mm) (Some o) ma = Ok rows /\ rows <> [] /\
    ms = (fun r => mkMember (r_id r) (r_status r)) <$> rows /\
    evaluation_lease_id (scope_digest cfg) (next_generation (db s1) (r_id <$> rows)) st o ms b (b + n) = Ok lid /\
    with_authority cfg lid (install_lease cfg lid (next_generation (db s1) (r_id <$> rows)) st o ms b (b + n)) s1
      = (s', Ok lease).
Proof.
  unfold claim_evaluation_lease. intros H. inv_m.
  match goal with H : rethrow _ _ _ = Ok _ |- _ => apply rethrow_Ok in H as Ho end.
  match goal with H : _require_evaluation_clock _ _ = _ |- _ => apply clock_ok in H as (-> & Hb & h & Hc) end.
  match goal with H : members_of_rows _ = Ok _ |- _ => apply members_of_rows_ok in H as Hms end.
  repeat match goal with H : _ || _ = false |- _ => apply orb_false_iff in H as [? ?] end.
  repeat match goal with H : (_ <=? _) = false |- _ => apply Z.leb_gt in H | H : (_ <? _) = false |- _ => apply Z.ltb_ge in H end.
  match goal with H : _select_evaluation_rows _ _ _ _ _ _ = Ok ?r |- _ => rename r into rows end.
  destruct rows as [|r rows]; [by inv_m|]. inv_m.
  match goal with H : Some _ = Some _ |- _ => injection H as <- end.
  match goal with H : evaluation_lease_id _ _ _ _ _ _ _ = Ok ?l |- _ => rename l into lid end.
  eexists _, h, _, _, _, _, (r :: rows), _, lid. split_and!; try done; lia.
Qed.

Lemma clock_good b : keeps_good (_require_evaluation_clock b).
Proof. unfold _require_evaluation_clock. auto 10 with good. Qed.
#[export] Hint Resolve clock_good : good.

Lemma claim_good cfg st own b n mm ma : keeps_good (claim_evaluation_lease cfg st own b n mm ma).
Proof.
  unfold claim_evaluation_lease. apply bind_good; [auto with good|]. intros o. apply fail_if_good.
  apply bind_good; [auto with good|]. intros _. apply transaction_good. intros s s' a Hs H. inv_m.
  match goal with H : _expire_evaluation_leases _ _ _ = _ |- _ => apply expire_leases_good in H; [|done] end.
  match goal with H : _expire_stale_rows _ _ _ = _ |- _ =>
    apply (keeps_good_ok _ _ _ _ (expire_stale_rows_good cfg b)) in H; [|done] end.
  match goal with H : members_of_rows _ = Ok _ |- _ => apply members_of_rows_ok in H as Hms end.
  match goal with H : _select_evaluation_rows _ _ _ _ _ _ = Ok ?r |- _ => rename r into rows, H into Hsel end.
  destruct rows as [|r0 rows]; [by inv_m|]. inv_m. eapply install_good; [|eassumption|..]; [done|by subst|].
  subst. intros m (r & -> & Hr)%list_elem_of_fmap. exists r. split; [|done].
  eapply selected_eligible in Hr as [Hr _]; [|exact Hsel]. apply all_rows_elem; [|done].
  match goal with H : good ?x |- lease_inv (db ?x) => by destruct H end.
Qed.

(** ** Settling a lease *)

(** No other active lease binds one of [ids]. *)
Definition owned (ms : list member_row) (lid : string) (ids : list string) : Prop :=
  forall m, m ∈ ms -> m_active m = true -> m_lease m <> lid -> m_reservation m ∉ ids.

Lemma NoDup_fmap_eq {A B} (f : A -> B) l x y : NoDup (f <$> l) -> x ∈ l -> y ∈ l -> f x = f y -> x = y.
Proof.
  induction l as [|z l IH]; [by intros _ ?%elem_of_nil|]. rewrite fmap_cons. intros [Hz Hn]%NoDup_cons.
  intros [->|Hx]%elem_of_cons [->|Hy]%elem_of_cons E; [done|exfalso..|by apply IH].
  - apply Hz. rewrite E. by apply list_elem_of_fmap_2.
  - apply Hz. rewrite <- E. by apply list_elem_of_fmap_2.
Qed.

Lemma member_rows_elem d lid m : m ∈ member_rows d lid <-> m_lease m = lid /\ m ∈ lease_members d.
Proof. unfold member_rows. by rewrite sorted_by_perm, list_elem_of_filter. Qed.

Lemma lease_owned cfg d row lease :
  lease_inv d -> leases d !! lease_id lease = Some row -> l_state row = active ->
  _evaluation_lease cfg d row = Ok lease -> owned (lease_members d) (lease_id lease) (reservation_ids lease).
Proof.
  intros Hi Hrow Hst [-> _]%evaluation_lease_Ok m Hm Ha Hne Hin. cbn in *.
  unfold reservation_ids in Hin. cbn in Hin. apply list_elem_of_fmap in Hin as (x & Ex & Hx).
  apply list_elem_of_fmap in Hx as (k & -> & [Hl Hk]%member_rows_elem). cbn in Ex.
  assert (Hka : m_active k = true).
  { apply (inv_whole _ Hi); [done|]. unfold lease_is_active. rewrite Hl, Hrow. by apply bool_decide_eq_true_2. }
  assert (m = k) as ->; [|congruence].
  eapply (NoDup_fmap_eq m_reservation); [exact (inv_exclusive _ Hi)| | |done]; by apply list_elem_of_filter.
Qed.

(** Only the reservations [ids], the dispositions and what was retained with them may have changed. *)
Record body_frame (ids : list string) (s s' : store) : Prop := {
  bf_leases : leases (db s') = leases (db s);
  bf_members : lease_members (db s') = lease_members (db s);
  bf_events : lease_events (db s') = lease_events (db s);
  bf_recoveries : recoveries (db s') = recoveries (db s);
  bf_recovery_events : recovery_events (db s') = recovery_events (db s);
  bf_rest : stacks (db s') = stacks (db s) /\ cursor (db s') = cursor (db s) /\
    cost_payments (db s') = cost_payments (db s) /\ cost_credits (db s') = cost_credits (db s);
  bf_ids : forall rid r, reservations (db s') !! rid = Some r -> exists r0, reservations (db s) !! rid = Some r0 /\ r_id r = r_id r0;
  bf_others : forall rid, rid ∉ ids -> reservations (db s') !! rid = reservations (db s) !! rid;
  bf_mutation : mutation_authority s' = mutation_authority s;
  bf_recovery : recovery_authority s' = recovery_authority s;
}.

Lemma body_frame_refl ids s : body_frame ids s s.
Proof. split; eauto. Qed.

Lemma body_frame_trans ids s1 s2 s3 : body_frame ids s1 s2 -> body_frame ids s2 s3 -> body_frame ids s1 s3.
Proof.
  intros [] []. split; try congruence.
  - destruct bf_rest0 as (? & ? & ? & ?), bf_rest1 as (? & ? & ? & ?). split_and!; congruence.
  - intros rid r H. destruct (bf_ids1 _ _ H) as (r1 & H1 & E1). destruct (bf_ids0 _ _ H1) as (r0 & H0 & E0).
    exists r0. split; congruence.
  - intros rid H. rewrite bf_others1, bf_others0; done.
Qed.

(** Under a non-empty authority the fence lets only its members through. *)
Lemma update_frame ids rid f s s' u :
  quiet f -> mutation_authority s = list_to_set ids -> ids <> [] ->
  update_reservation rid f s = (s', Ok u) -> body_frame ids s s'.
Proof.
  intros Hf Hm Hne [[_ ->]|(r & E & Hn & ->)]%update_reservation_ok; [apply body_frame_refl|].
  assert (Hin : rid ∈ ids).
  { unfold fenced in Hn. rewrite Hm in Hn. rewrite (bool_decide_eq_true_2 (list_to_set ids <> ∅)) in Hn.
    - rewrite orb_true_r, andb_true_l in Hn. apply negb_false_iff, bool_decide_eq_true in Hn.
      by apply elem_of_list_to_set in Hn.
    - destruct ids; [done|]. set_solver. }
  split; cbn; try done.
  - intros k r'. rewrite lookup_insert_Some. intros [[<- <-]|[_ ?]]; [|by eauto]. exists r. by rewrite Hf.
  - intros k Hk. rewrite lookup_insert_ne; [done|congruence].
Qed.

Lemma each_frame {A} ids (f : A -> M ()) l s s' u :
  (forall x s s' u, mutation_authority s = list_to_set ids -> f x s = (s', Ok u) -> body_frame ids s s') ->
  mutation_authority s = list_to_set ids -> each f l s = (s', Ok u) -> body_frame ids s s'.
Proof.
  intros Hf Hm H. refine (each_invariant (fun x => body_frame ids s x) _ _ _ _ _ _ (body_frame_refl ids s) H).
  intros x s1 s2 v _ Hs Hx. eapply body_frame_trans; [exact Hs|]. eapply Hf; [|exact Hx].
  by rewrite (bf_mutation _ _ _ Hs).
Qed.

(** The caller's transition, under the authority of its cohort. *)
Lemma run_body_frame ids p s s' u :
  mutation_authority s = list_to_set ids -> ids <> [] -> run_body p s = (s', Ok u) -> body_frame ids s s'.
Proof.
  intros Hm Hne. revert s s' u Hm. induction p as [|e|k IH|rid f k IH|rid k IH|qs rs gs k IH|p IHp k IH];
    intros s s' u Hm H; cbn [run_body] in H; inv_m.
  - apply body_frame_refl.
  - by eapply IH.
  - match goal with H : update_reservation _ _ _ = _ |- _ => eapply (update_frame ids) in H as Hu; [|done..] end.
    eapply body_frame_trans; [exact Hu|]. eapply IH; [|exact H]. by rewrite (bf_mutation _ _ _ Hu).
  - eapply IH in H; [|exact Hm]. destruct H. by split.
  - eapply IH in H; [|exact Hm]. destruct H. by split.
  - unfold transaction in H. destruct (run_body p s) as [s1 [v|e]] eqn:E; [|by eapply IH].
    apply IHp in E; [|done]. eapply body_frame_trans; [exact E|]. eapply IH; [|exact H]. by rewrite (bf_mutation _ _ _ E).
Qed.

Lemma authorized_frame ids (m : M ()) s s' u :
  (forall s s' u, mutation_authority s = list_to_set ids -> m s = (s', Ok u) -> body_frame ids s s') ->
  authorized ids m s = (s', Ok u) -> mutation_authority s = ∅ /\ body_frame ids s s'.
Proof.
  intros Hf (Hm & s1 & H & ->)%authorized_ok. split; [done|]. apply Hf in H; [|done]. cbn in H.
  destruct H. cbn in *. split; cbn; try done. rewrite bf_mutation0, Hm. set_solver.
Qed.

(** What completing a lease does, given what its body did before. *)
Lemma settle_inv ids s s1 d2 lid l l' :
  lease_inv (db s) -> owned (lease_members (db s)) lid ids -> body_frame ids s s1 ->
  leases (db s) !! lid = Some l -> l_state l' <> active -> l_id l' = l_id l -> lease_row_ok l' = true ->
  leases d2 = <[lid := l']> (leases (db s1)) -> lease_members d2 = deactivate lid <$> lease_members (db s1) ->
  reservations d2 = reservations (db s1) -> lease_inv d2.
Proof.
  intros Hi Hown [] Hl Hst Hid Hok El Em Er.
  eapply (close_inv (db s) _ lid l l'); try done.
  - rewrite Hid. by apply (inv_id _ Hi).
  - congruence.
  - congruence.
  - intros rid r. rewrite Er. intros (r0 & H0 & ->)%bf_ids0. by apply (inv_reservation_id _ Hi).
  - intros m Hm Hact Hne. rewrite Er. apply bf_others0. by apply Hown.
Qed.

Lemma settle_good ids s s1 s2 lid l l' :
  good s -> owned (lease_members (db s)) lid ids -> body_frame ids s s1 ->
  leases (db s) !! lid = Some l -> l_state l' <> active -> l_id l' = l_id l -> lease_row_ok l' = true ->
  leases (db s2) = <[lid := l']> (leases (db s1)) -> lease_members (db s2) = deactivate lid <$> lease_members (db s1) ->
  reservations (db s2) = reservations (db s1) -> mutation_authority s2 = ∅ -> recovery_authority s2 = ∅ ->
  good s2.
Proof. intros (Hi & _). intros. split; [|done]. by eapply (settle_inv ids s s1 _ lid l l'). Qed.

(** ** Accepting a result *)

Lemma active_row_ok cfg lease s s' row :
  _active_evaluation_lease_row cfg lease s = (s', Ok row) ->
  s' = s /\ leases (db s) !! lease_id lease = Some row /\ l_state row = active /\ l_expires row = expires_block lease /\
  _evaluation_lease cfg (db s) row = Ok lease /\
  count_open (lease_id lease) (lease_members (db s)) = length (members lease).
Proof.
  unfold _active_evaluation_lease_row. intros H. inv_m. destruct (leases (db s) !! lease_id lease) as [row'|] eqn:El; [|by inv_m].
  inv_m. unfold same_row in Hf.
  repeat match goal with H : negb _ = false |- _ => apply negb_false_iff in H | H : _ && _ = true |- _ => apply andb_true_iff in H as [? ?] end.
  repeat match goal with H : bool_decide _ = true |- _ => apply bool_decide_eq_true in H end. subst.
  split_and!; try done; [by apply Z.eqb_eq|by apply Nat.eqb_eq].
Qed.

Lemma complete_lease_ok cfg lease b digest s s' u :
  complete_lease cfg lease b digest s = (s', Ok u) ->
  exists l e, leases (db s) !! lease_id lease = Some l /\ l_state l = active /\ l_expires l = expires_block lease /\
    lease_row_ok (finish completed b digest "" l) = true /\
    count_open (lease_id lease) (lease_members (db s)) = length (members lease) /\
    event_type e = ev_completed /\ ev_lease_id e = lease_id lease /\ finalized_block e = b /\ result_digest e = digest /\
    s' = on_db s (closed_db (db s) (lease_id lease) (finish completed b digest "" l) e).
Proof.
  unfold complete_lease. intros H. inv_m.
  match goal with H : update_lease _ _ _ _ _ = _ |- _ => apply update_lease_ok in H as [[-> ->]|(-> & l & El & Ha & Hx & Hok & ->)] end; [done|].
  match goal with H : deactivate_members _ _ _ = _ |- _ => apply deactivate_members_ok in H as [-> ->] end.
  match goal with H : _append_evaluation_lease_event _ _ _ _ _ _ _ = _ |- _ =>
    apply append_lease_event_ok in H as (He & Ht & Hb & _ & Hd & _ & _ & _ & ->) end. cbn in *.
  eexists l, _. split_and!; try done. by apply negb_false_iff, Nat.eqb_eq in Hf0.
Qed.

Lemma lease_members_nonempty cfg d row lease : _evaluation_lease cfg d row = Ok lease -> reservation_ids lease <> [].
Proof.
  intros [_ (_ & Hne & _)%make_lease_Ok]%evaluation_lease_Ok. unfold reservation_ids. by destruct (members lease).
Qed.

(** The close of an accepted result: the lease with its members and event, and the recovery when there is one. *)
Definition closed_result (cfg : config) (lease : EvaluationLease) (b : Z) (digest : string) (rec : option EvaluationRecovery)
    (s s' : store) : Prop :=
  exists l e rs es,
    leases (db s) !! lease_id lease = Some l /\ lease_row_ok (finish completed b digest "" l) = true /\
    event_type e = ev_completed /\ ev_lease_id e = lease_id lease /\ finalized_block e = b /\ result_digest e = digest /\
    db s' = with_recoveries rs es (closed_db (db s) (lease_id lease) (finish completed b digest "" l) e) /\
    mutation_authority s' = mutation_authority s /\ recovery_authority s' = ∅ /\
    match rec with
    | None => rs = recoveries (db s) /\ es = recovery_events (db s)
    | Some r => exists s1 r' e',
        db s1 = closed_db (db s) (lease_id lease) (finish completed b digest "" l) e /\
        _complete_evaluation_recovery_locked cfg r b s1 = (mkStore (db s') (mutation_authority s') {[ lease_id lease ]}, Ok r') /\
        rec_lease r' = rec_lease r /\ resolution r' = COMMITTED /\ event_of r' EV_COMMITTED e' /\
        rs = <[lease_id (rec_lease r) := recovery_row_of r']> (recoveries (db s)) /\ es = recovery_events (db s) ++ [e']
    end.

Lemma close_ok cfg lease b digest rec s s' u :
  match rec with
  | Some r => recovery_mutation (lease_id lease) (
      _ ← complete_lease cfg lease b digest; _ ← _complete_evaluation_recovery_locked cfg r b; mret tt)
  | None => complete_lease cfg lease b digest
  end s = (s', Ok u) -> recovery_authority s = ∅ -> closed_result cfg lease b digest rec s s'.
Proof.
  destruct rec as [r|]; intros H Hra.
  - apply recovery_mutation_ok in H as (_ & s2 & H & ->). inv_m.
    match goal with H : complete_lease _ _ _ _ _ = _ |- _ => apply complete_lease_ok in H as (l & e & ? & ? & ? & ? & ? & ? & ? & ? & ? & ->) end.
    match goal with H : _complete_evaluation_recovery_locked _ _ _ _ = _ |- _ => pose proof H as Hcomp end.
    unfold _complete_evaluation_recovery_locked in Hm0. inv_m.
    match goal with H : _transition_evaluation_recovery_locked _ _ _ _ _ _ _ _ _ _ = _ |- _ =>
      apply transition_ok in H as (Er & _ & _ & e' & rs & He & _ & _ & -> & ->) end.
    cbn in *. eexists l, e, _, _. split_and!; try done; [set_solver|].
    eexists _, _, e'. split_and!; [|exact Hcomp|by rewrite Er..|exact He|done|done]. done.
  - apply complete_lease_ok in H as (l & e & ? & ? & ? & ? & ? & ? & ? & ? & ? & ->).
    exists l, e, (recoveries (db s)), (recovery_events (db s)). split_and!; done.
Qed.

(** The run of an accepted result: the checks, the body under the members' authority, the close. *)
Lemma accept_ok cfg lease b digest body s s' u :
  accept_evaluation_result cfg lease b digest body s = (s', Ok u) -> good s ->
  b < expires_block lease /\ (exists h, cursor (db s) = Some (b, h)) /\ queue_state_ok (db s) lease = true /\
  exists row rows s1 rec,
    leases (db s) !! lease_id lease = Some row /\ l_state row = active /\ _evaluation_lease cfg (db s) row = Ok lease /\
    Forall2 (fun rid r => reservations (db s) !! rid = Some r) (reservation_ids lease) rows /\
    authorized (reservation_ids lease) (run_body (body rows)) s = (s1, Ok ()) /\
    body_frame (reservation_ids lease) s s1 /\ mutation_authority s1 = ∅ /\
    cohort_disposed (db s) (db s1) lease = true /\ closed_result cfg lease b digest rec s1 s' /\
    match rec with
    | Some r => recovery_enabled cfg = true /\ _active_qualification_recovery cfg (db s) lease = Ok r /\ phase r = EVIDENCE_IMPORTED
    | None => recovery_enabled cfg = false
    end.
Proof.
  unfold accept_evaluation_result. intros H (Hi & Hma & Hra). inv_m.
  match goal with H : _require_evaluation_clock _ _ = _ |- _ => apply clock_ok in H as (-> & Hb & h & Hc) end.
  match goal with H : (if recovery_enabled cfg then _ else _) s = (?x, Ok _) |- _ =>
    assert (x = s /\ b < expires_block lease /\ (recovery_enabled cfg = true -> exists r,
      _active_qualification_recovery cfg (db s) lease = Ok r /\ phase r = EVIDENCE_IMPORTED)) as (-> & Hlt & Hrec); [|clear H] end.
  { unfold _durably_expire_exact_evaluation_lease_if_due in *. destruct (recovery_enabled cfg) eqn:Een; inv_m.
    - match goal with H : (_ <=? _) = false |- _ => apply Z.leb_gt in H end.
      match goal with H : negb (is_phase _ _) = false |- _ => apply negb_false_iff, is_phase_true in H end. eauto 10.
    - destruct (b <? expires_block lease) eqn:Ex; inv_m; [|done]. apply Z.ltb_lt in Ex. split_and!; done. }
  match goal with H : _active_evaluation_lease_row _ _ _ = (_, Ok ?x) |- _ => rename x into row; apply active_row_ok in H as (-> & Hrow & Hst & Hx & Hl & Hco) end.
  match goal with H : collect get _ _ = (_, Ok ?x) |- _ => rename x into rows; apply collect_get_ids in H as [-> Hrows] end.
  match goal with H : (if recovery_enabled cfg then _ else _) s = (?x, Ok ?o) |- _ =>
    assert (x = s /\ match o with Some r => recovery_enabled cfg = true /\ _active_qualification_recovery cfg (db s) lease = Ok r
                     | None => recovery_enabled cfg = false end) as (-> & Hs); [|clear H; rename o into rec] end.
  { destruct (recovery_enabled cfg); inv_m; done. }
  repeat match goal with H : negb _ = false |- _ => apply negb_false_iff in H end.
  match goal with H : authorized _ _ _ = (?x, Ok ?v) |- _ => rename x into s1, H into Hauth; destruct v end.
  pose proof Hauth as Hbody. apply (authorized_frame (reservation_ids lease)) in Hbody as [_ Hbf].
  2:{ intros x y v Hxm. apply run_body_frame; [done|]. by eapply lease_members_nonempty. }
  apply close_ok in H; [|by rewrite (bf_recovery _ _ _ Hbf)].
  split_and!; [done|by eauto|done|]. exists row, rows, s1, rec. split_and!; try done; [by rewrite (bf_mutation _ _ _ Hbf)|].
  destruct rec as [r|]; [|done]. destruct Hs as [Een Hr]. destruct (Hrec Een) as (r0 & Hr0 & Hph). split_and!; congruence.
Qed.

Lemma accept_success_good cfg lease b digest body s s' u :
  good s -> accept_evaluation_result cfg lease b digest body s = (s', Ok u) -> good s'.
Proof.
  intros Hs H. apply accept_ok in H as (_ & _ & _ & row & rows & s1 & rec & Hrow & Hst & Hl & _ & _ & Hf & Hm1 & _ &
    (l & e & rs & es & Hl1 & Hok & _ & _ & _ & _ & Ed & Em & Er & _) & _); [|done].
  assert (l = row) as -> by (rewrite (bf_leases _ _ _ Hf) in Hl1; congruence).
  eapply (settle_good (reservation_ids lease) s s1 s' (lease_id lease) row
            (finish completed b digest "" row) Hs); rewrite ?Ed; try done.
  - eapply lease_owned; [by destruct Hs|done..].
  - by rewrite Em.
Qed.

(** Runs that do not change the store. *)
Definition reads {A} (m : M A) : Prop := forall s, (m s).1 = s.

Lemma reads_good {A} (m : M A) : reads m -> keeps_good m.
Proof. intros H s Hs. by rewrite H. Qed.

Lemma reads_bind {A B} (m : M A) (f : A -> M B) : reads m -> (forall a, reads (f a)) -> reads (m ≫= f).
Proof.
  intros Hm Hf s. unfold mbind, M_bind. specialize (Hm s). destruct (m s) as [s1 [a|e]]; cbn in Hm; subst; [apply Hf|done].
Qed.

Create HintDb reads discriminated.
Lemma reads_ret {A} (a : A) : reads (mret a).
Proof. by intros s. Qed.
Lemma reads_gets {A} (f : database -> A) : reads (gets f).
Proof. by intros s. Qed.
Lemma reads_lift {A} (r : result A) : reads (lift r).
Proof. by intros s. Qed.
Lemma reads_throw {A} e : reads (@throw A e).
Proof. by intros s. Qed.
Lemma reads_get rid : reads (get rid).
Proof. intros s. unfold get. by destruct (_ !! _). Qed.
Lemma reads_collect {A B} (f : A -> M B) l : (forall x, reads (f x)) -> reads (collect f l).
Proof.
  intros Hf. induction l as [|x l IH]; simpl; [apply reads_ret|].
  apply reads_bind; [done|]. intros y. apply reads_bind; [done|]. intros. apply reads_ret.
Qed.
Lemma reads_if {A} (b : bool) (m k : M A) : reads m -> reads k -> reads (if b then m else k).
Proof. by destruct b. Qed.
#[export] Hint Resolve reads_ret reads_gets reads_lift reads_throw reads_get reads_if : reads.
#[export] Hint Extern 1 (reads (_ ≫= _)) => (apply reads_bind; [|intros]) : reads.
#[export] Hint Extern 2 (reads (match _ with _ => _ end)) => case_match : reads.
#[export] Hint Extern 1 (reads (collect _ _)) => (apply reads_collect; intros) : reads.

Lemma reads_clock b : reads (_require_evaluation_clock b).
Proof. unfold _require_evaluation_clock. auto 10 with reads. Qed.
Lemma reads_active_row cfg lease : reads (_active_evaluation_lease_row cfg lease).
Proof. unfold _active_evaluation_lease_row. auto 20 with reads. Qed.
Lemma reads_generic cfg lease : reads (_generic_lease_operation_allowed cfg lease).
Proof. unfold _generic_lease_operation_allowed. auto 10 with reads. Qed.
#[export] Hint Resolve reads_clock reads_active_row reads_generic : reads.

(** A run ends in the store it started from, or a first part of it already changed it. *)
Lemma bind_raise {A B} (m : M A) (f : A -> M B) s s' e :
  (m ≫= f) s = (s', Raise e) ->
  m s = (s', Raise e) \/ exists a s1, m s = (s1, Ok a) /\ f a s1 = (s', Raise e).
Proof. unfold mbind, M_bind. destruct (m s) as [s1 [a|e']]; [by eauto|]. intros [= -> ->]. by left. Qed.

Lemma reads_raise {A B} (m : M A) (f : A -> M B) s s' e :
  reads m -> (m ≫= f) s = (s', Raise e) -> s' = s \/ exists a, m s = (s, Ok a) /\ f a s = (s', Raise e).
Proof.
  intros Hr [H|(a & s1 & Hm & H)]%bind_raise.
  - left. specialize (Hr s). by rewrite H in Hr.
  - right. assert (s1 = s) as -> by (specialize (Hr s); by rewrite Hm in Hr). by eauto.
Qed.

Lemma transaction_raise {A} (m : M A) s s' e : transaction m s = (s', Raise e) -> s' = s.
Proof. unfold transaction. destruct (m s) as [? [?|?]]; congruence. Qed.

(** A refused result leaves the store alone, or leaves the due leases expired. *)
Lemma accept_raise cfg lease b digest body s s' e :
  accept_evaluation_result cfg lease b digest body s = (s', Raise e) ->
  s' = s \/ (recovery_enabled cfg = false /\ _durably_expire_exact_evaluation_lease_if_due cfg lease b s = (s', Ok true)).
Proof.
  unfold accept_evaluation_result. intros H.
  apply reads_raise in H as [->|(a & _ & H)]; [by left| |auto with reads].
  apply reads_raise in H as [->|(a1 & _ & H)]; [by left| |auto with reads].
  destruct (recovery_enabled cfg) eqn:Een.
  - apply reads_raise in H as [->|(a2 & _ & H)]; [by left| |auto 10 with reads]. left. by eapply transaction_raise.
  - apply bind_raise in H as [H|(a2 & s1 & Hd & H)].
    + apply bind_raise in H as [H|(late & s1 & Hd & H)].
      * left. revert H. unfold _durably_expire_exact_evaluation_lease_if_due. rewrite Een. cbn.
        intros [->|(u & _ & H)]%reads_raise; [done| |auto with reads].
        destruct (b <? expires_block lease); [done|].
        apply bind_raise in H as [H|(v & s2 & _ & H)]; [by apply transaction_raise in H|done].
      * destruct late; [|done]. injection H as <- _. right. by split.
    + apply transaction_raise in H as ->. left. unfold _durably_expire_exact_evaluation_lease_if_due in Hd.
      rewrite Een in Hd. destruct (b <? expires_block lease); inv_m; done.
Qed.

Lemma durably_expire_good cfg lease b : keeps_good (_durably_expire_exact_evaluation_lease_if_due cfg lease b).
Proof.
  unfold _durably_expire_exact_evaluation_lease_if_due. apply bind_good; [apply reads_good; auto with reads|].
  intros _. case_match; [auto with good|]. apply bind_good; [|auto with good]. apply transaction_good.
  intros s s' a Hs Hrun. inv_m.
  match goal with H : _active_evaluation_lease_row _ _ _ = _ |- _ => apply active_row_ok in H as (-> & _) end.
  by eapply expire_leases_good.
Qed.

Lemma accept_good cfg lease b digest body : keeps_good (accept_evaluation_result cfg lease b digest body).
Proof.
  intros s Hs. destruct (accept_evaluation_result cfg lease b digest body s) as [s' [u|e]] eqn:E.
  - by eapply accept_success_good.
  - apply accept_raise in E as [->|[_ E]]; [done|]. by eapply keeps_good_ok; [apply durably_expire_good| |exact E].
Qed.

(** ** The recovery operations *)

(** A body that succeeds under the recovery authority keeps the invariant of the lease tables. *)
Lemma recovery_mutation_good {A} lid (m : M A) s s' a :
  good s ->
  (forall s0 s1, lease_inv (db s0) -> mutation_authority s0 = ∅ -> recovery_authority s0 = {[ lid ]} -> db s0 = db s ->
     m s0 = (s1, Ok a) -> lease_inv (db s1) /\ mutation_authority s1 = ∅ /\ recovery_authority s1 = {[ lid ]}) ->
  recovery_mutation lid m s = (s', Ok a) -> good s'.
Proof.
  intros (Hi & Ha & Hr) Hm (_ & s1 & H & ->)%recovery_mutation_ok.
  apply Hm in H as (? & ? & Hx); try done. split; [done|]. split; [done|]. cbn. rewrite Hx. set_solver.
Qed.

Lemma frame_inv s s' : recovery_frame s s' -> lease_inv (db s) -> lease_inv (db s').
Proof. intros (rs & es & ->). apply inv_recoveries. Qed.

Lemma frame_good_body {A} (m : M A) lid s0 s1 a :
  ends recovery_frame m -> lease_inv (db s0) -> mutation_authority s0 = ∅ -> recovery_authority s0 = {[ lid ]} ->
  m s0 = (s1, Ok a) -> lease_inv (db s1) /\ mutation_authority s1 = ∅ /\ recovery_authority s1 = {[ lid ]}.
Proof. intros Hf Hi Ha Hr H. apply Hf in H. split; [by eapply frame_inv|]. by destruct H as (? & ? & ->). Qed.

Lemma advance_good cfg r expected ph t b enc : keeps_good (_advance_recovery_phase cfg r expected ph t b enc).
Proof.
  unfold _advance_recovery_phase. apply bind_good; [auto with good|]. intros _. apply fail_if_good.
  apply bind_good; [auto 10 with good|]. intros binding. apply transaction_good. intros s s' a Hs H.
  eapply recovery_mutation_good; [exact Hs| |exact H]. intros s0 s1 Hi Ha Hr _.
  apply frame_good_body; [apply transition_recovery_frame|done..].
Qed.

Lemma hold_recovery_good cfg r b why : keeps_good (hold_recovery cfg r b why).
Proof.
  unfold hold_recovery. apply bind_good; [auto with good|]. intros _. apply fail_if_good.
  apply transaction_good. intros s s' a Hs H.
  eapply recovery_mutation_good; [exact Hs| |exact H]. intros s0 s1 Hi Ha Hr _.
  apply frame_good_body; [apply transition_recovery_frame|done..].
Qed.

Lemma extend_inv d lid l e :
  lease_inv d -> leases d !! lid = Some l -> lease_row_ok (extend e l) = true ->
  lease_inv (with_leases (<[lid := extend e l]> (leases d)) d).
Proof.
  intros Hi Hl Hok. assert (Hact : forall k, lease_is_active (<[lid := extend e l]> (leases d)) k = lease_is_active (leases d) k).
  { intros k. rewrite lease_is_active_insert. case_decide as E; [|done]. subst. unfold lease_is_active. by rewrite Hl. }
  assert (Hback : forall k l', <[lid := extend e l]> (leases d) !! k = Some l' -> exists l0, leases d !! k = Some l0 /\
    l_state l' = l_state l0 /\ l_id l' = l_id l0 /\ l_arena l' = l_arena l0 /\ l_owner l' = l_owner l0).
  { intros k l'. rewrite lookup_insert_Some. intros [[<- <-]|[_ ?]]; eauto 10. }
  split; cbn; try by destruct Hi.
  - intros k l' (l0 & H0 & _ & -> & _)%Hback. by apply (inv_id _ Hi).
  - intros k l'. rewrite lookup_insert_Some. intros [[_ <-]|[_ ?]]; [done|by eapply (inv_bounds _ Hi)].
  - intros k k' l1 l2 (l3 & H3 & -> & _ & -> & ->)%Hback (l4 & H4 & -> & _ & -> & ->)%Hback. by apply (inv_owner _ Hi).
  - intros m Hm. apply lookup_insert_is_Some'. right. by apply (inv_reference _ Hi).
  - intros m Hm. rewrite Hact. by apply (inv_open _ Hi).
  - intros m Hm. rewrite Hact. by apply (inv_whole _ Hi).
  - intros k l' (l0 & H0 & -> & _)%Hback. by apply (inv_first _ Hi).
Qed.

(** The renewal: one more recovery event, and the later deadline on the lease row. *)
Lemma renew_locked_ok cfg r b e why s s' r' :
  renew_locked cfg r b e why s = (s', Ok r') ->
  exists s1 l, recovery_frame s s1 /\ leases (db s1) !! lease_id (rec_lease r) = Some l /\ l_state l = active /\
    l_expires l = expires_block (rec_lease r) /\ lease_row_ok (extend e l) = true /\
    _transition_evaluation_recovery_locked cfg r (phase r) UNRESOLVED EV_RENEWED b "" (Some (extended (rec_lease r) e)) None s
      = (s1, Ok r') /\ rec_lease r' = extended (rec_lease r) e /\
    s' = on_db s1 (with_leases (<[lease_id (rec_lease r) := extend e l]> (leases (db s1))) (db s1)).
Proof.
  unfold renew_locked. intros H. inv_m.
  match goal with H : make_lease _ = Ok _ |- _ => apply make_lease_Ok in H as [-> _] end.
  match goal with H : _transition_evaluation_recovery_locked _ _ _ _ _ _ _ _ _ _ = (?x, _) |- _ =>
    pose proof H as Ht; apply transition_recovery_frame in H as Hfr; rename x into s1 end.
  match goal with H : update_lease _ _ _ _ _ = _ |- _ => apply update_lease_ok in H as [[-> ->]|(-> & l & El & Ha & Hx & Hok & ->)] end; [done|].
  exists s1, l. split_and!; try done. by apply transition_ok in Ht as (-> & _).
Qed.

Lemma renew_locked_inv cfg r b e why s s' r' :
  lease_inv (db s) -> renew_locked cfg r b e why s = (s', Ok r') ->
  lease_inv (db s') /\ lease_members (db s') = lease_members (db s) /\ reservations (db s') = reservations (db s) /\
  mutation_authority s' = mutation_authority s /\ recovery_authority s' = recovery_authority s /\
  rec_lease r' = extended (rec_lease r) e /\ lease_is_active (leases (db s)) (lease_id (rec_lease r)) = true.
Proof.
  intros Hi (s1 & l & Hf & Hl & Hst & _ & Hok & _ & Hr & ->)%renew_locked_ok.
  pose proof (frame_inv _ _ Hf Hi) as Hi1. destruct Hf as (rs & es & ->). cbn in *.
  split_and!; try done.
  - exact (extend_inv _ _ l e Hi1 Hl Hok).
  - unfold lease_is_active. rewrite Hl. by apply bool_decide_eq_true_2.
Qed.

Lemma renew_recovery_lease_good cfg r b n : keeps_good (renew_recovery_lease cfg r b n).
Proof.
  unfold renew_recovery_lease. apply fail_if_good. apply bind_good; [auto with good|]. intros _.
  apply transaction_good. intros s s' a Hs H. inv_m.
  eapply recovery_mutation_good; [exact Hs| |eassumption]. intros x y Hi Ha Hr _ Hn.
  apply renew_locked_inv in Hn as (? & _ & _ & -> & -> & _); [done|done].
Qed.

Lemma active_recovery_ok cfg d lease r :
  lease_inv d -> _active_qualification_recovery cfg d lease = Ok r ->
  rec_lease r = lease /\ resolution r = UNRESOLVED /\
  (exists row, leases d !! lease_id lease = Some row /\ _evaluation_lease cfg d row = Ok lease) /\
  exists events, evaluation_recovery_events cfg d r = Ok events.
Proof.
  intros Hi H. unfold _active_qualification_recovery in H. step_guard H. inv_ok. step_guard H. inv_ok.
  apply negb_false_iff, is_resolution_true in Eg0.
  unfold _reopen_evaluation_recovery_for_lease in Hx. destruct (recoveries d !! lease_id lease) as [c|] eqn:Ec; [|done].
  inv_ok. step_guard Hx. apply negb_false_iff, bool_decide_eq_true in Eg1.
  assert (x = r) as -> by congruence. clear Hx. split; [done|]. split; [done|]. split; [|by eauto].
  unfold _evaluation_recovery in Hx1. destruct (leases d !! c_lease c) as [lrow|] eqn:El; [|done].
  inv_ok. apply rethrow_Ok in Hx. inv_ok. step_guard Hx1. assert (x = r) as -> by congruence.
  match goal with H : make_recovery _ = Ok _ |- _ => apply make_recovery_Ok in H as [E _]; subst end. cbn.
  exists lrow. split; [|done].
  match goal with H : _evaluation_lease _ _ _ = Ok _ |- _ => apply evaluation_lease_Ok in H as [-> _] end.
  cbn. by rewrite (inv_id _ Hi _ _ El).
Qed.

Lemma release_ok cfg r b why ph allow s s' lease :
  _release_recovery cfg r b why ph allow s = (s', Ok lease) -> good s ->
  lease = rec_lease r /\ (exists h, cursor (db s) = Some (b, h)) /\ resolution r = UNRESOLVED /\
  (expires_block lease <= b -> allow = true) /\ queue_state_ok (db s) lease = true /\
  exists row s1 r' e,
    leases (db s) !! lease_id lease = Some row /\ l_state row = active /\ _evaluation_lease cfg (db s) row = Ok lease /\
    _transition_evaluation_recovery_locked cfg r (default (phase r) ph) PRE_RESIDENT_RELEASED EV_PRE_RESIDENT_RELEASED
      b why None None (mkStore (db s) ∅ {[ lease_id lease ]}) = (s1, Ok r') /\
    lease_row_ok (finish released b "" why row) = true /\
    event_type e = ev_released /\ ev_lease_id e = lease_id lease /\ finalized_block e = b /\
    ev_expires_block e = expires_block lease /\ reason e = why /\
    event_index e = Z.of_nat (length (events_of (lease_id lease) (lease_events (db s)))) /\
    s' = mkStore (closed_db (db s1) (lease_id lease) (finish released b "" why row) e) ∅ ∅.
Proof.
  unfold _release_recovery. intros H (Hi & Hma & Hra). inv_m.
  match goal with H : _require_evaluation_clock _ _ = _ |- _ => apply clock_ok in H as (-> & Hb & h & Hc) end.
  match goal with H : _active_evaluation_lease_row _ _ _ = (_, Ok ?x) |- _ =>
    rename x into row; apply active_row_ok in H as (-> & Hrow & Hst & Hx & Hl & Hco) end.
  match goal with H : any_moved _ _ = _ |- _ => apply any_moved_ok in H as [-> Hq] end.
  specialize (Hq _ eq_refl).
  repeat match goal with H : negb _ = false |- _ => apply negb_false_iff in H | H : _ || _ = false |- _ => apply orb_false_iff in H as [? ?] end.
  match goal with H : is_resolution (resolution r) _ = true |- _ => apply is_resolution_true in H as Hres end.
  match goal with H : _ && negb allow = false |- _ => rename H into Hal end.
  match goal with H : recovery_mutation _ _ _ = _ |- _ => apply recovery_mutation_ok in H as (_ & s1 & H & ->) end.
  inv_m.
  match goal with H : _transition_evaluation_recovery_locked _ _ _ _ _ _ _ _ _ _ = (?x, _) |- _ =>
    rename x into st1; rewrite Hma in H; pose proof H as Ht; apply transition_recovery_frame in H as (rs & es & ->) end.
  match goal with H : update_lease _ _ _ _ _ = _ |- _ => apply update_lease_ok in H as [[-> ->]|(-> & l & El & Ha & Hex & Hok & ->)] end; [done|].
  match goal with H : deactivate_members _ _ _ = _ |- _ => apply deactivate_members_ok in H as [-> ->] end.
  match goal with H : _append_evaluation_lease_event _ _ _ _ _ _ _ = _ |- _ =>
    apply append_lease_event_ok in H as (He & Hty & Hfb & Heb & _ & Hwhy & Hidx & _ & ->) end. cbn in *.
  assert (l = row) as -> by congruence.
  split_and!; try done; [by eauto| |].
  - intros Hle. rewrite (proj2 (Z.leb_le _ _) Hle) in Hal. by destruct allow.
  - eexists row, _, _, _. split_and!; try done. f_equal. set_solver.
Qed.

Lemma release_recovery_good cfg r b why ph allow : keeps_good (_release_recovery cfg r b why ph allow).
Proof.
  intros s Hs. destruct (_release_recovery cfg r b why ph allow s) as [s' [lease|e]] eqn:E.
  - apply release_ok in E as (_ & _ & _ & _ & _ & row & s1 & r' & e & Hrow & Hst & Hl & Ht & Hok & _ & _ & _ & _ & _ & _ & ->); [|done].
    apply transition_recovery_frame in Ht as (rs & es & ->).
    eapply (settle_good [] s s _ (lease_id lease) row (finish released b "" why row)); try done; [|apply body_frame_refl].
    intros m _ _ _ Hm. by apply elem_of_nil in Hm.
  - unfold _release_recovery in E. apply reads_raise in E as [->|(? & _ & E)]; [done| |auto with reads].
    destruct (negb _ || _) in E; [by injection E as <- _|]. by apply transaction_raise in E as ->.
Qed.

Lemma cap_good lease : keeps_good (_cap_infrastructure_releases lease).
Proof. unfold _cap_infrastructure_releases. auto 20 with good. Qed.

Lemma reopen_plan_reads cfg r : reads (reopen_recovery_request_plan cfg r).
Proof. unfold reopen_recovery_request_plan. auto 20 with reads. Qed.
#[export] Hint Resolve release_recovery_good cap_good : good.

Lemma release_worker_pre_resident_good cfg r q c b : keeps_good (release_worker_pre_resident_recovery cfg r q c b).
Proof. unfold release_worker_pre_resident_recovery. auto with good. Qed.

Lemma release_worker_infrastructure_good cfg r c b ep : keeps_good (release_worker_infrastructure_recovery cfg r c b ep).
Proof.
  unfold release_worker_infrastructure_recovery. apply bind_good.
  - case_match; [|auto with good]. apply bind_good; [apply reads_good, reopen_plan_reads|auto with good].
  - intros retired. apply fail_if_good. auto 10 with good.
Qed.

Lemma release_stale_incumbent_good cfg r p l t b :
  keeps_good (release_stale_incumbent_qualification_recovery cfg r p l t b).
Proof.
  unfold release_stale_incumbent_qualification_recovery. apply fail_if_good. apply bind_good; [auto with good|].
  intros x. apply fail_if_good. auto 10 with good.
Qed.

Lemma hold_member_frame ids why digest m s s' u :
  mutation_authority s = list_to_set ids -> ids <> [] -> hold_member why digest m s = (s', Ok u) -> body_frame ids s s'.
Proof. unfold hold_member. intros Hm Hne H. inv_m. by eapply update_frame; [|exact Hm|exact Hne|exact H]. Qed.

(** The optional reopening of a hold and the optional renewal, before the hold is completed. *)
Definition hold_prepared (s s1 : store) (r r' : EvaluationRecovery) : Prop :=
  lease_inv (db s1) /\ lease_members (db s1) = lease_members (db s) /\ reservations (db s1) = reservations (db s) /\
  mutation_authority s1 = mutation_authority s /\ recovery_authority s1 = recovery_authority s /\
  lease_id (rec_lease r') = lease_id (rec_lease r) /\ members (rec_lease r') = members (rec_lease r) /\
  (forall k, lease_is_active (leases (db s1)) k = lease_is_active (leases (db s)) k).

Lemma hold_reopen_prepared cfg r b s s1 r' :
  lease_inv (db s) ->
  (if is_phase (phase r) HELD
   then _transition_evaluation_recovery_locked cfg r RESULT_READY UNRESOLVED EV_RESULT_READY b "" None None
   else mret r) s = (s1, Ok r') -> hold_prepared s s1 r r'.
Proof.
  intros Hi. destruct (is_phase _ _); intros H; [|inv_m; by split_and!].
  pose proof H as (-> & _)%transition_ok. apply transition_recovery_frame in H as Hf.
  pose proof (frame_inv _ _ Hf Hi). by destruct Hf as (rs & es & ->); split_and!.
Qed.

Lemma hold_renew_prepared cfg r b e why s s1 r' :
  lease_inv (db s) ->
  (if expires_block (rec_lease r) <=? b then renew_locked cfg r b e why else mret r) s = (s1, Ok r') ->
  hold_prepared s s1 r r'.
Proof.
  intros Hi. destruct (_ <=? _); intros H; [|inv_m; by split_and!].
  pose proof H as (s2 & l & Hf & Hl & Hst & _ & _ & _ & _ & Es)%renew_locked_ok.
  apply renew_locked_inv in H as (? & ? & ? & ? & ? & Er' & _); [|done]. unfold hold_prepared. rewrite Er'.
  split_and!; try done. intros k. destruct Hf as (rs & es & ->). rewrite Es. cbn in *. rewrite lease_is_active_insert.
  case_decide as E; [|done]. subst. unfold lease_is_active. by rewrite Hl.
Qed.

Lemma commit_hold_good cfg r b digest why rids n : keeps_good (commit_remote_qualification_hold cfg r b digest why rids n).
Proof.
  unfold commit_remote_qualification_hold. apply bind_good; [auto with good|]. intros _. apply fail_if_good.
  apply bind_good; [auto with good|]. intros _. apply transaction_good. intros s s' a Hs H. inv_m.
  match goal with H : collect get _ _ = _ |- _ => apply collect_get_ok in H; subst end.
  match goal with H : load_active _ _ _ = Ok ?c |- _ => unfold load_active in H; rename c into cur; rename H into Hload end.
  match goal with H : _ || _ = false |- _ => apply orb_false_iff in H as [Hcur _]; apply negb_false_iff, bool_decide_eq_true in Hcur; subst cur end.
  destruct (active_recovery_ok _ _ _ _ (proj1 Hs) Hload) as (_ & _ & (row & Hrow & Hl) & _).
  eapply recovery_mutation_good; [exact Hs| |exact H]. clear H. intros x y Hi Ha Hr Ed H. inv_m.
  match goal with H : (if is_phase _ _ then _ else _) _ = _ |- _ => apply (hold_reopen_prepared _ _ _ _ _ _ Hi) in H as (Hi1 & Em1 & Er1 & Ea1 & Eb1 & El1 & Eq1 & Eact1) end.
  match goal with H : (if _ <=? _ then _ else _) _ = _ |- _ => apply (hold_renew_prepared _ _ _ _ _ _ _ _ Hi1) in H as (Hi2 & Em2 & Er2 & Ea2 & Eb2 & El2 & Eq2 & Eact2) end.
  assert (Eids : forall q, members q = members (rec_lease r) -> reservation_ids q = reservation_ids (rec_lease r)) by (intros q Eq; unfold reservation_ids; by rewrite Eq).
  match goal with H : authorized (reservation_ids (rec_lease ?q)) _ ?z = (?w, _) |- _ =>
    rename q into cur, z into before, w into after, H into Hauth end.
  rewrite (Eids (rec_lease cur)) in Hauth by congruence.
  apply (authorized_frame (reservation_ids (rec_lease r))) in Hauth as [Hma Hbf].
  2:{ intros p q v Hm. apply each_frame; [|done]. intros. eapply hold_member_frame; [done| |done]. by eapply lease_members_nonempty. }
  match goal with H : update_lease _ _ _ _ _ = _ |- _ => apply update_lease_ok in H as [[-> ->]|(-> & l & Ell & Hst & _ & Hok & ->)] end; [done|].
  match goal with H : deactivate_members _ _ _ = _ |- _ => apply deactivate_members_ok in H as [-> ->] end.
  match goal with H : _append_evaluation_lease_event _ _ _ _ _ _ _ = _ |- _ =>
    apply append_lease_event_ok in H as (_ & _ & _ & _ & _ & _ & _ & _ & ->) end.
  match goal with H : _complete_evaluation_recovery_locked _ _ _ _ = _ |- _ => apply complete_recovery_frame in H as (rs & es & ->) end.
  cbn in *. rewrite El2, El1 in *. rewrite (bf_leases _ _ _ Hbf) in Ell.
  split_and!; [|rewrite (bf_mutation _ _ _ Hbf); congruence|rewrite (bf_recovery _ _ _ Hbf); congruence].
  eapply (settle_inv (reservation_ids (rec_lease r)) before after _ (lease_id (rec_lease r)) l
            (finish completed b digest "" l)); try done.
  rewrite Em2, Em1, Ed. assert (Hact : lease_is_active (leases (db s)) (lease_id (rec_lease r)) = true).
  { rewrite <- Ed, <- Eact1, <- Eact2. unfold lease_is_active. rewrite Ell. by apply bool_decide_eq_true_2. }
  unfold lease_is_active in Hact. rewrite Hrow in Hact. apply bool_decide_eq_true in Hact.
  by eapply lease_owned; [exact (proj1 Hs)|..].
Qed.
