(* ===== verification/LeaseMachine.v ===== *)
(** * The lease protocol as a state machine

    The public operations of the intake store, admission and publication included,
    as steps, and what holds in every store that any sequence of them, failed calls included, can reach. *)

From S2P Require Import Prelude PyVal Identity Leases Recovery Store Queue Fingerprint LeaseRows LeaseStore RecoveryStore LeaseInvariant Admission Copies AdmissionInvariant LeaseSafety.

Open Scope Z_scope.

(** A call of a public operation, with its arguments. *)
Inductive operation :=
  | OpClaim (owner : pyval) (block lease_blocks : Z) (max_members : option Z) (max_active : Z)
  | OpClaimLease (stage : string) (owner : pyval) (block lease_blocks : Z) (max_members max_active : option Z)
  | OpExpire (block : Z)
  | OpAccept (lease : EvaluationLease) (block : Z) (digest : string) (body : list reservation -> body_program)
  | OpPrepare (r : EvaluationRecovery) (plan : result (string * string * string)) (block : Z)
  | OpPublish (r : EvaluationRecovery) (block : Z)
  | OpRequestReady (r : EvaluationRecovery) (block : Z)
  | OpResult (r : EvaluationRecovery) (block : Z)
  | OpImport (r : EvaluationRecovery) (block : Z)
  | OpRenew (r : EvaluationRecovery) (block lease_blocks : Z)
  | OpHold (r : EvaluationRecovery) (block : Z) (why : string)
  | OpCommitHold (r : EvaluationRecovery) (block : Z) (digest why : string) (rids : list string) (lease_blocks : Z)
  | OpReleasePreResident (r : EvaluationRecovery) (request code : string) (block : Z)
  | OpReleaseInfrastructure (r : EvaluationRecovery) (code : string) (block : Z) (epoch : string)
  | OpReleaseStale (r : EvaluationRecovery) (product : product_identity) (live : stack_identity) (tree : pyval) (block : Z)
  | OpFetching (rid : string)
  | OpTransportRetry (rid why : string)
  | OpFailed (rid why : string)
  | OpHeld (rid why : string)
  | OpExpireStale (block : Z)
  | OpExpireOne (rid : string) (block : Z) (why : string)
  | OpReleaseHold (rid why : string)
  | OpTargetUnavailable (rid target : string)
  | OpPending (limit : option Z)
  | OpRecoverInterrupted
  | OpReserve (arrivals : list FinalizedArrival) (fee block : Z) (hash : string)
  | OpPublished (legacy : option string) (rid : string) (f : SubmittedDeltaFingerprint) (digest root arena : string)
  | OpCopy (rid predecessor : string)
  | OpReferenceCopy (rid name : string)
  | OpReconcileCopies.

Section Machine.
Context (cfg : config).

(** The store that a call leaves, whether it returns or raises. *)
Definition run (op : operation) (s : store) : store :=
  match op with
  | OpClaim owner b n mm ma => (claim_recoverable_qualification cfg owner b n mm ma s).1
  | OpClaimLease stage owner b n mm ma => (claim_evaluation_lease cfg stage owner b n mm ma s).1
  | OpExpire b => (expire_evaluation_leases cfg b s).1
  | OpAccept lease b digest body => (accept_evaluation_result cfg lease b digest body s).1
  | OpPrepare r plan b => (prepare_qualification_recovery cfg r plan b s).1
  | OpPublish r b => (commit_recovery_publication cfg r b s).1
  | OpRequestReady r b => (observe_recovery_request_ready cfg r b s).1
  | OpResult r b => (record_recovery_result cfg r b s).1
  | OpImport r b => (record_recovery_import cfg r b s).1
  | OpRenew r b n => (renew_recovery_lease cfg r b n s).1
  | OpHold r b why => (hold_recovery cfg r b why s).1
  | OpCommitHold r b digest why rids n => (commit_remote_qualification_hold cfg r b digest why rids n s).1
  | OpReleasePreResident r q c b => (release_worker_pre_resident_recovery cfg r q c b s).1
  | OpReleaseInfrastructure r c b ep => (release_worker_infrastructure_recovery cfg r c b ep s).1
  | OpReleaseStale r p l t b => (release_stale_incumbent_qualification_recovery cfg r p l t b s).1
  | OpFetching rid => (mark_fetching cfg rid s).1
  | OpTransportRetry rid why => (mark_transport_retry cfg rid why s).1
  | OpFailed rid why => (mark_failed rid why s).1
  | OpHeld rid why => (mark_held rid why s).1
  | OpExpireStale b => (expire_stale cfg b s).1
  | OpExpireOne rid b why => (expire cfg rid b why s).1
  | OpReleaseHold rid why => (release_hold rid why s).1
  | OpTargetUnavailable rid t => (mark_target_unavailable rid t s).1
  | OpPending limit => (pending cfg limit s).1
  | OpRecoverInterrupted => (_recover_interrupted s).1
  | OpReserve arrivals fee b hash => (reserve_finalized cfg fee b arrivals hash s).1
  | OpPublished legacy rid f digest root arena => (mark_published cfg legacy rid f digest root arena s).1
  | OpCopy rid predecessor => (mark_copy rid predecessor s).1
  | OpReferenceCopy rid name => (mark_reference_copy rid name s).1
  | OpReconcileCopies => (reconcile_copies s).1
  end.

Definition with_cursor (c : option (Z * string)) (d : database) : database :=
  mkDb (reservations d) (leases d) (lease_members d) (lease_events d) (recoveries d) (recovery_events d)
    (dispositions d) (qualifications d) (sla_resets d) (segments d) (stacks d) c (cost_payments d) (cost_credits d).

Inductive step (s : store) : store -> Prop :=
  | step_call op : step s (run op s).

Definition reachable : store -> store -> Prop := rtc step.

(** A freshly created authority: no lease has been issued. *)
Definition fresh_db (d : database) : Prop :=
  leases d = ∅ /\ lease_members d = [] /\ forall rid r, reservations d !! rid = Some r -> r_id r = rid.

Definition fresh (s : store) : Prop := fresh_db (db s) /\ mutation_authority s = ∅ /\ recovery_authority s = ∅.

Lemma fresh_good s : fresh s -> good s.
Proof.
  intros [(El & Em & Hr) ?]. split; [|done].
  assert (Hn : forall m (P : Prop), m ∈ lease_members (db s) -> P) by (intros m P; rewrite Em; by intros ?%elem_of_nil).
  assert (Hl : forall lid l (P : Prop), leases (db s) !! lid = Some l -> P) by (intros lid l P; rewrite El; by rewrite lookup_empty).
  split; try done; intros; try match goal with
    | H : _ ∈ lease_members _ |- ?G => exact (Hn _ G H)
    | H : leases _ !! _ = Some _ |- ?G => exact (Hl _ _ G H)
    end.
  unfold active_members. rewrite Em. constructor.
Qed.

Lemma claim_recoverable_good owner b n mm ma : keeps_good (claim_recoverable_qualification cfg owner b n mm ma).
Proof.
  unfold claim_recoverable_qualification. apply bind_good; [apply claim_good|]. intros [lease|]; auto 10 with good.
Qed.

Lemma expire_evaluation_leases_good b : keeps_good (expire_evaluation_leases cfg b).
Proof.
  unfold expire_evaluation_leases. apply bind_good; [auto with good|]. intros _. apply transaction_good.
  intros. by eapply expire_leases_good.
Qed.

Lemma run_good op s : good s -> good (run op s).
Proof.
  intros Hs. destruct op; cbn [run]; revert s Hs.
  - apply claim_recoverable_good.
  - apply claim_good.
  - apply expire_evaluation_leases_good.
  - apply accept_good.
  - apply advance_good.
  - apply advance_good.
  - apply advance_good.
  - apply advance_good.
  - apply advance_good.
  - apply renew_recovery_lease_good.
  - apply hold_recovery_good.
  - apply commit_hold_good.
  - apply release_worker_pre_resident_good.
  - apply release_worker_infrastructure_good.
  - apply release_stale_incumbent_good.
  - apply mark_fetching_good.
  - apply mark_transport_retry_good.
  - apply mark_failed_good.
  - apply mark_held_good.
  - apply expire_stale_good.
  - apply expire_good.
  - apply release_hold_good.
  - apply mark_target_unavailable_good.
  - apply pending_good.
  - apply recover_interrupted_good.
  - apply reserve_finalized_good.
  - apply mark_published_good.
  - apply mark_copy_good.
  - apply mark_reference_copy_good.
  - apply reconcile_copies_good.
Qed.

Lemma step_good s s' : step s s' -> good s -> good s'.
Proof. intros [op] Hs. by apply run_good. Qed.

(** C1: in every store that the operations reach, whatever calls failed on the way: an active lease has all
    its members active and a settled one none; no reservation is bound by two active leases; a worker holds
    at most one active lease in an arena; a leased reservation still has the status it was claimed in; and
    no mutation authority is left open between calls. *)
Theorem reachable_lease_inv (s0 s : store) :
  fresh s0 -> reachable s0 s -> lease_inv (db s) /\ mutation_authority s = ∅ /\ recovery_authority s = ∅.
Proof.
  intros Hf%fresh_good Hr. enough (good s) by done. induction Hr as [|x y z Hxy _ IH]; [done|].
  apply IH. by eapply step_good.
Qed.
End Machine.

(** A claim of the one published reservation of a store. *)
Definition example_store : store := mkStore (rows_db [example_row 98 3 published]) ∅ ∅.
Definition example_op : operation := OpClaim (VStr "worker") 5 30 None 1.

Lemma example_fresh : fresh example_store.
Proof.
  split; [|done]. split; [done|]. split; [done|].
  intros rid r. cbn [db example_store rows_db reservations fmap list_fmap list_to_map r_id example_row foldr uncurry].
  rewrite lookup_insert_Some, lookup_empty. intros [[<- <-]|[_ ?]]; done.
Qed.

Lemma reachable_lease_inv_witness :
  let s := run (example_config true) example_op example_store in
  size (leases (db s)) = 1%nat /\ length (active_members (lease_members (db s))) = 1%nat /\ lease_inv (db s).
Proof.
  split; [vm_compute; reflexivity|]. split; [vm_compute; reflexivity|].
  apply (reachable_lease_inv (example_config true) example_store); [apply example_fresh|].
  apply rtc_once, step_call.
Defined.

Definition at_block (b : Z) (s : store) : store := on_db s (with_cursor (Some (b, "hash")) (db s)).

Lemma at_block_good b s : good s -> good (at_block b s).
Proof. intros ([] & ? & ?). split; [|done]. by split. Qed.

