(* ===== verification/QueueContracts.v ===== *)
(** * What the queue operations promise

    The service-level expiry of stale rows, and the activation of deferred
    rows under the bound of the pending queue ([cacheon/chain/intake.py]). *)

From S2P Require Import Prelude PyVal Leases Recovery Store Queue LeaseRows LeaseStore LeaseInvariant LeaseSafety LeaseMachine.

Open Scope Z_scope.

(** ** Updating a list of rows *)

Lemma each_update_ok f l s s' u :
  each (fun rid => update_reservation rid f) l s = (s', Ok u) -> NoDup l ->
  (forall rid, reservations (db s') !! rid =
     if decide (rid ∈ l) then f <$> (reservations (db s) !! rid) else reservations (db s) !! rid).
Proof.
  revert s. induction l as [|k l IH]; intros s H Hnd; simpl in H; inv_m; [done|].
  apply NoDup_cons in Hnd as [Hk Hnd].
  match goal with H : update_reservation _ _ _ = (?x, _) |- _ =>
    assert (forall rid, reservations (db x) !! rid = if decide (rid = k) then f <$> (reservations (db s) !! rid) else reservations (db s) !! rid) as Hx end.
  { intros rid. apply update_reservation_ok in Hm as [[Hn ->]|(r & Er & _ & ->)]; case_decide as E; subst; try done; cbn.
    - by rewrite Hn.
    - by rewrite lookup_insert_eq, Er.
    - by rewrite lookup_insert_ne. }
  intros rid. rewrite (IH _ H Hnd), !Hx. destruct (decide (rid = k)) as [->|Hne].
  - rewrite decide_False, decide_True by (done || by left). done.
  - destruct (decide (rid ∈ l)) as [Hin|Hin]; [rewrite decide_True by (by right); done|].
    rewrite decide_False; [done|]. by intros [?|?]%elem_of_cons.
Qed.

Lemma all_rows_ids d : lease_inv d -> r_id <$> all_rows d = (map_to_list (reservations d)).*1.
Proof.
  intros Hi. unfold all_rows. rewrite <- list_fmap_compose. apply list_fmap_ext. intros i [k r] Hx. cbn.
  apply (inv_reservation_id _ Hi). apply elem_of_map_to_list. by eapply list_elem_of_lookup_2.
Qed.

Lemma select_rows_NoDup {K} `{Cmp K, !CmpLaws K} p (key : reservation -> K) d :
  lease_inv d -> NoDup (r_id <$> select_rows p key d).
Proof.
  intros Hi. unfold select_rows. rewrite sorted_by_perm. apply NoDup_fmap_filter. rewrite all_rows_ids by done.
  apply NoDup_fst_map_to_list.
Qed.

Lemma select_rows_lookup {K} `{Cmp K, !CmpLaws K} p (key : reservation -> K) d rid :
  lease_inv d ->
  rid ∈ r_id <$> select_rows p key d <-> exists r, reservations d !! rid = Some r /\ p r = true.
Proof.
  intros Hi. split.
  - intros (r & -> & [Hp Hr]%select_rows_elem)%list_elem_of_fmap. exists r. split; [|done]. by apply all_rows_elem.
  - intros (r & Hr & Hp). pose proof (inv_reservation_id _ Hi _ _ Hr) as <-. apply list_elem_of_fmap_2, select_rows_elem.
    split; [done|]. unfold all_rows. apply list_elem_of_fmap. exists (r_id r, r). split; [done|]. by apply elem_of_map_to_list.
Qed.

(** ** Stale rows *)

Definition stale_at (cfg : config) (b : Z) (d : database) (r : reservation) : bool :=
  (0 <=? b - expiry_blocks (policy cfg)) && is_stale (b - expiry_blocks (policy cfg)) d r.

(** The rows whose finalized-block bound has passed, spelled out: in a queued, held or undecided status, bound
    by no active lease, and either never qualified and as old as the bound (counted from the last reset),
    or first qualified that long ago. *)
Definition overaged (cfg : config) (b : Z) (d : database) (r : reservation) : Prop :=
  let threshold := b - expiry_blocks (policy cfg) in
  0 <= threshold /\
  r_status r ∈ [deferred; reserved; transport_retry; published; reproduction_pending; held; no_decision] /\
  has_active_member (r_id r) d = false /\
  ((default (r_block r) (reset_block <$> sla_resets d !! r_id r) <= threshold /\ forall q, q ∈ qualifications d -> q.1.1 <> r_id r) \/
   exists block, (r_id r, 0, block) ∈ qualifications d /\ 0 < block <= threshold).

Lemma stale_overaged cfg b d r : stale_at cfg b d r = true <-> overaged cfg b d r.
Proof.
  unfold stale_at, is_stale, overaged, in_statuses, qualifications_of. cbv zeta.
  rewrite !andb_true_iff, orb_true_iff, andb_true_iff, bool_decide_eq_true, negb_true_iff, !Z.leb_le.
  assert (Hnone : match filter (fun q : string * Z * Z => q.1.1 = r_id r) (qualifications d) with [] => true | _ => false end = true <->
      forall q, q ∈ qualifications d -> q.1.1 <> r_id r).
  { destruct (filter _ _) as [|q l] eqn:E; split; try done.
    - intros _ q Hq Hid. assert (Hf : q ∈ filter (fun q : string * Z * Z => q.1.1 = r_id r) (qualifications d)) by
        by apply list_elem_of_filter. by rewrite E in Hf; apply elem_of_nil in Hf.
    - intros H. assert (Hf : q ∈ filter (fun q : string * Z * Z => q.1.1 = r_id r) (qualifications d)) by (rewrite E; by left).
      apply list_elem_of_filter in Hf as [Hid Hq]. by destruct (H _ Hq). }
  rewrite Hnone.
  assert (Hex : existsb (fun q : string * Z * Z => (q.1.2 =? 0) && (0 <? q.2) && (q.2 <=? b - expiry_blocks (policy cfg)))
      (filter (fun q : string * Z * Z => q.1.1 = r_id r) (qualifications d)) = true <->
      exists block, (r_id r, 0, block) ∈ qualifications d /\ 0 < block <= b - expiry_blocks (policy cfg)).
  { rewrite existsb_exists. split.
    - intros ([[k i] blk] & Hin & Hq). apply list_elem_of_In, list_elem_of_filter in Hin as [Hk Hin]. cbn in *.
      rewrite !andb_true_iff, Z.eqb_eq, Z.ltb_lt, Z.leb_le in Hq. destruct Hq as [[-> ?] ?]. subst k. eauto.
    - intros (blk & Hin & Hb). exists (r_id r, 0, blk). split; [by apply list_elem_of_In, list_elem_of_filter|].
      cbn. rewrite !andb_true_iff, Z.ltb_lt, Z.leb_le. lia. }
  rewrite Hex. unfold _AUTOMATICALLY_EXPIRABLE, _EXPLICITLY_EXPIRABLE. tauto.
Qed.

(** The expiry changes no table but the reservations, and there exactly the stale rows. *)
Lemma expire_stale_rows_exact (cfg : config) (b : Z) (s s' : store) (ids : list string) :
  lease_inv (db s) -> _expire_stale_rows cfg b s = (s', Ok ids) ->
  (exists rs, s' = on_db s (with_reservations rs (db s))) /\
  (forall rid, rid ∈ ids <-> exists r, reservations (db s) !! rid = Some r /\ stale_at cfg b (db s) r = true) /\
  (forall rid, reservations (db s') !! rid =
     (fun r => if stale_at cfg b (db s) r then set_status expired "NO_DECISION" _AUTOMATIC_EXPIRY_REASON r else r) <$>
       (reservations (db s) !! rid)).
Proof.
  intros Hi H. unfold _expire_stale_rows in H. unfold stale_at.
  destruct (Z.ltb_spec (b - expiry_blocks (policy cfg)) 0) as [Hlt|Hge]; inv_m.
  { rewrite (proj2 (Z.leb_gt _ _) Hlt). cbn. split_and!; [exists (reservations (db s)); by destruct s as [[]]| |].
    - intros rid. split; [by intros ?%elem_of_nil|by intros (? & _ & ?)].
    - intros rid. by rewrite option_fmap_id. }
  rewrite (proj2 (Z.leb_le _ _) Hge). cbn [andb].
  match goal with H : each _ _ s = (?x, _) |- _ => rename x into mid; rename H into Heach end.
  pose proof (each_update_ok _ _ _ _ _ Heach (select_rows_NoDup _ _ _ Hi)) as Hup. set (stale := is_stale _ _) in *.
  split_and!.
  - refine (each_invariant (fun x => exists rs, x = on_db s (with_reservations rs (db s))) _ _ _ _ _ _ _ Heach).
    + intros rid x y v _ (rs & ->) Hx. apply update_reservation_ok in Hx as [[_ ->]|(r & _ & _ & ->)]; by eexists.
    + exists (reservations (db s)). by destruct s as [[]].
  - intros rid. by apply select_rows_lookup.
  - intros rid. rewrite Hup. case_decide as Hd.
    + apply select_rows_lookup in Hd as (r' & Hr' & Hst); [|done]. rewrite Hr'. cbn. by rewrite Hst.
    + destruct (reservations (db s) !! rid) as [r|] eqn:Hr; [|done]. cbn. destruct (stale r) eqn:Hst; [|done].
      exfalso. apply Hd, select_rows_lookup; eauto.
Qed.

Lemma expire_stale_exact (cfg : config) (b : Z) (s s' : store) (rows : list reservation) :
  good s -> expire_stale cfg b s = (s', Ok rows) ->
  0 <= b /\
  (forall rid, rid ∈ r_id <$> rows <-> exists r, reservations (db s) !! rid = Some r /\ stale_at cfg b (db s) r = true) /\
  (forall rid r, reservations (db s) !! rid = Some r -> reservations (db s') !! rid =
     Some (if stale_at cfg b (db s) r then set_status expired "NO_DECISION" _AUTOMATIC_EXPIRY_REASON r else r)).
Proof.
  intros [Hi _] H. unfold expire_stale in H. inv_m. apply Z.ltb_ge in Hf. split; [done|].
  match goal with H : _expire_stale_rows _ _ s = (?x, Ok ?l) |- _ => rename x into mid, l into ids;
    apply expire_stale_rows_exact in H as (_ & Hids & Hup); [|done] end.
  apply collect_get_ids in H as [-> Hrows].
  assert (Eids : r_id <$> rows = ids).
  { assert (Hkey : forall rid r, reservations (db mid) !! rid = Some r -> r_id r = rid).
    { intros rid r. rewrite Hup. intros (k & Hk & ->)%fmap_Some. pose proof (inv_reservation_id _ Hi _ _ Hk). by case_match. }
    clear Hup Hids. induction Hrows as [|k r l rs Hk _ IH]; [done|]. by rewrite fmap_cons, (Hkey _ _ Hk), IH. }
  split; [intros rid; by rewrite Eids|]. intros rid r Hr. by rewrite Hup, Hr.
Qed.

(** The automatic expiry at a finalized block expires exactly the stale rows: queued, not bound by an active
    lease, and older than the expiry bound, or with a retained qualification that is; it returns them and
    changes no other row. *)
Theorem expire_stale_contract (cfg : config) (b : Z) (s s' : store) (rows : list reservation) :
  good s -> expire_stale cfg b s = (s', Ok rows) ->
  0 <= b /\
  (forall rid, rid ∈ r_id <$> rows <-> exists r, reservations (db s) !! rid = Some r /\ overaged cfg b (db s) r) /\
  (forall rid r, reservations (db s) !! rid = Some r ->
     (overaged cfg b (db s) r ->
      reservations (db s') !! rid = Some (set_status expired "NO_DECISION" _AUTOMATIC_EXPIRY_REASON r)) /\
     (~ overaged cfg b (db s) r -> reservations (db s') !! rid = Some r)).
Proof.
  intros Hs H. apply expire_stale_exact in H as (Hb & Hin & Hup); [|done]. setoid_rewrite <- stale_overaged.
  split_and!; [done..|]. intros rid r Hr. rewrite (Hup _ _ Hr). by destruct (stale_at cfg b (db s) r).
Qed.

(** A stale published row, and one that is still within its bound. *)
Definition aging_store : store :=
  at_block 500010 (mkStore (rows_db [example_row 98 3 published; example_row 99 400000 published]) ∅ ∅).

Lemma aging_store_good : good aging_store.
Proof.
  apply at_block_good, fresh_good. split; [|done]. split; [done|]. split; [done|].
  intros rid r. cbn [db rows_db reservations fmap list_fmap list_to_map r_id example_row foldr uncurry].
  rewrite !lookup_insert_Some, lookup_empty. intros [[<- <-]|[_ [[<- <-]|[_ ?]]]]; done.
Qed.

Lemma expire_stale_contract_witness :
  match expire_stale (example_config true) 500010 aging_store with
  | (s', Ok rows) => r_id <$> rows = [hex 98] /\
      reservations (db s') !! hex 99 = Some (example_row 99 400000 published)
  | _ => False
  end.
Proof.
  assert (E : match (expire_stale (example_config true) 500010 aging_store).2 with
    | Ok rows => r_id <$> rows = [hex 98] | Raise _ => False end) by (vm_compute; reflexivity).
  destruct (expire_stale (example_config true) 500010 aging_store) as [s' [rows|e]] eqn:H; [|exact E]. split; [exact E|].
  destruct (expire_stale_contract _ _ _ _ _ aging_store_good H) as (_ & _ & Hrows).
  apply (Hrows (hex 99) (example_row 99 400000 published)); [vm_compute; reflexivity|].
  rewrite <- stale_overaged. vm_compute. discriminate.
Defined.
