(* ===== verification/AdmissionContracts.v ===== *)
(** * What admission promises

    Every arrival of a finalized block gets one row, in order, behind a cursor
    that never moves back; the queue and the epochs stay within their bounds;
    and nothing is admitted without having been paid for
    ([reserve_finalized] of [cacheon/chain/intake.py]). *)

From S2P Require Import Prelude PyVal Identity Leases Recovery Store Queue LeaseInvariant Fingerprint Admission AdmissionInvariant LeaseSafety LeaseMachine QueueContracts.

Open Scope Z_scope.

(** ** Counting rows *)

Definition ids_where (p : reservation -> bool) (d : database) : gset string :=
  dom (filter (fun kv : string * reservation => p kv.2 = true) (reservations d)).

Lemma ids_where_elem p d rid : rid ∈ ids_where p d <-> exists r, reservations d !! rid = Some r /\ p r = true.
Proof.
  unfold ids_where. rewrite elem_of_dom. unfold is_Some. setoid_rewrite map_lookup_filter_Some. done.
Qed.

Lemma count_size p d : count p d = Z.of_nat (size (ids_where p d)).
Proof.
  unfold count, ids_where, all_rows. f_equal. rewrite size_dom. induction (reservations d) as [|rid r m Hn Hf IH] using map_first_key_ind.
  { by rewrite map_filter_empty, map_size_empty, map_to_list_empty. }
  rewrite map_filter_insert. rewrite map_to_list_insert by done. rewrite fmap_cons, filter_cons. cbn [snd].
  case_decide; [|by rewrite map_filter_delete, delete_id by (by rewrite map_lookup_filter, Hn)].
  rewrite map_size_insert_None by (by rewrite map_lookup_filter, Hn). cbn. by rewrite IH.
Qed.

Lemma count_le p q d d' :
  (forall rid r', reservations d' !! rid = Some r' -> q r' = true -> exists r, reservations d !! rid = Some r /\ p r = true) ->
  count q d' <= count p d.
Proof.
  intros H. rewrite !count_size. apply Nat2Z.inj_le, subseteq_size. intros rid (r' & Hr & Hq)%ids_where_elem.
  apply ids_where_elem. eauto.
Qed.

Lemma count_insert p d d' r :
  reservations d !! r_id r = None -> reservations d' = <[r_id r := r]> (reservations d) ->
  count p d' = count p d + (if p r then 1 else 0).
Proof.
  intros Hn E. unfold count, all_rows. rewrite E, map_to_list_insert by done. rewrite fmap_cons, filter_cons. cbn [snd].
  case_decide as Hp; destruct (p r); cbn; try done; lia.
Qed.

(** ** Before the arrivals: expiry and activation *)

(** What expiry and activation may do to a row. *)
Definition aged (r r' : reservation) : Prop :=
  r' = r \/ r' = set_status expired "NO_DECISION" _AUTOMATIC_EXPIRY_REASON r \/
  (r_status r = deferred /\ r' = set_status reserved (r_decision r) "" r).

Definition pointwise (R : reservation -> reservation -> Prop) (d d' : database) : Prop :=
  forall rid, option_Forall2 R (reservations d !! rid) (reservations d' !! rid).

(** Everything but the reservations is unchanged. *)
Definition only_rows (d d' : database) : Prop := exists rs, d' = with_reservations rs d.

Lemma only_rows_refl d : only_rows d d.
Proof. exists (reservations d). by destruct d. Qed.

Lemma only_rows_trans d1 d2 d3 : only_rows d1 d2 -> only_rows d2 d3 -> only_rows d1 d3.
Proof. intros [rs ->] [rs' ->]. by exists rs'. Qed.

Lemma each_update_frame f l s s' u : each (fun rid => update_reservation rid f) l s = (s', Ok u) -> only_rows (db s) (db s').
Proof.
  refine (each_invariant (fun x => only_rows (db s) (db x)) _ l s s' u _ (only_rows_refl _)). intros rid x y v _ Hx Hu.
  apply update_reservation_ok in Hu as [[_ ->]|(r & _ & _ & ->)]; [done|]. eapply only_rows_trans; [exact Hx|]. eexists. done.
Qed.

Lemma pointwise_lookup R d d' rid r : pointwise R d d' -> reservations d !! rid = Some r -> exists r', reservations d' !! rid = Some r' /\ R r r'.
Proof. intros H Hr. specialize (H rid). rewrite Hr in H. inversion H; eauto. Qed.

Lemma pointwise_back R d d' rid r' : pointwise R d d' -> reservations d' !! rid = Some r' -> exists r, reservations d !! rid = Some r /\ R r r'.
Proof. intros H Hr. specialize (H rid). rewrite Hr in H. inversion H; eauto. Qed.

Lemma pointwise_refl (R : reservation -> reservation -> Prop) d : (forall r, R r r) -> pointwise R d d.
Proof. intros HR rid. destruct (_ !! _); by constructor. Qed.

(** A pass that updates selected rows. *)
Lemma pass_pointwise (R : reservation -> reservation -> Prop) f l s s' u :
  each (fun rid => update_reservation rid f) l s = (s', Ok u) -> NoDup l ->
  (forall r, R r r) -> (forall rid r, rid ∈ l -> reservations (db s) !! rid = Some r -> R r (f r)) ->
  pointwise R (db s) (db s').
Proof.
  intros H Hnd Hrefl Hf rid. rewrite (each_update_ok _ _ _ _ _ H Hnd). case_decide as Hin.
  - destruct (reservations (db s) !! rid) as [r|] eqn:E; cbn; constructor. eauto.
  - destruct (_ !! _); by constructor.
Qed.

Section Room.
Context (cfg : config) (fb : Z).

Lemma expiry_pass s s' ids :
  good s -> _expire_stale_rows cfg fb s = (s', Ok ids) ->
  good s' /\ only_rows (db s) (db s') /\
  pointwise (fun r r' => r' = r \/ r' = set_status expired "NO_DECISION" _AUTOMATIC_EXPIRY_REASON r) (db s) (db s').
Proof.
  intros Hs H. split; [exact (keeps_good_ok _ _ _ _ (expire_stale_rows_good cfg fb) Hs H)|].
  unfold _expire_stale_rows in H. destruct (_ <? 0); inv_m.
  { split; [apply only_rows_refl|]. apply pointwise_refl. by left. }
  split; [by eapply each_update_frame|]. eapply pass_pointwise; [done|apply select_rows_NoDup; by destruct Hs|by left|by right].
Qed.

Lemma activation_pass s s' ids :
  good s -> _activate_deferred_rows cfg s = (s', Ok ids) ->
  good s' /\ only_rows (db s) (db s') /\
  pointwise (fun r r' => r' = r \/ (r_status r = deferred /\ r' = set_status reserved (r_decision r) "" r)) (db s) (db s') /\
  occupied (db s') <= Z.max (max_pending (policy cfg)) (occupied (db s)).
Proof.
  intros Hs H. split; [exact (keeps_good_ok _ _ _ _ (activate_good cfg) Hs H)|].
  unfold _activate_deferred_rows in H. inv_m. set (n := length _) in H.
  assert (En : occupied (db s) = Z.of_nat n) by done.
  destruct (Z.eqb_spec (Z.max 0 (max_pending (policy cfg) - Z.of_nat n)) 0) as [E|E]; inv_m.
  { split; [apply only_rows_refl|]. split; [|lia]. apply pointwise_refl. by left. }
  set (l := take _ _) in *. assert (Hi : lease_inv (db s)) by by destruct Hs.
  assert (Hnd : NoDup l).
  { eapply sublist_NoDup; [|apply sublist_take]. by apply (select_rows_NoDup (fun r => in_statuses r [deferred]) arrival_key). }
  assert (Hdef : forall rid r, rid ∈ l -> reservations (db s) !! rid = Some r -> r_status r = deferred).
  { intros rid r Hin Hr. apply (sublist_subseteq _ _ (sublist_take _ _)) in Hin. apply select_rows_lookup in Hin as (k & Hk & Hst); [|done].
    assert (k = r) as -> by congruence. apply bool_decide_eq_true in Hst. set_solver. }
  match goal with H : each _ _ _ = (?x, Ok _) |- _ => rename H into He; rename x into t end.
  split; [by eapply each_update_frame|]. split.
  { eapply pass_pointwise; [done..|by left|]. intros. right. eauto. }
  assert (Hle : occupied (db t) <= occupied (db s) + Z.of_nat (length l)); [|unfold l in Hle; rewrite length_take in Hle; lia].
  unfold occupied. rewrite !count_size. rewrite <- (size_list_to_set (C:=gset string) l Hnd).
  assert (Hsub : ids_where (fun r => in_statuses r occupying) (db t) ⊆ ids_where (fun r => in_statuses r occupying) (db s) ∪ list_to_set l).
  { intros rid (r' & Hr & Hst)%ids_where_elem. rewrite (each_update_ok _ _ _ _ _ He Hnd) in Hr. case_decide as Hin; [set_solver|].
    apply elem_of_union_l, ids_where_elem. eauto. }
  apply subseteq_size in Hsub. rewrite size_union_alt in Hsub.
  assert (size (list_to_set l ∖ ids_where (fun r => in_statuses r occupying) (db s) : gset string) <= size (list_to_set l : gset string))%nat by (apply subseteq_size; set_solver).
  lia.
Qed.
End Room.

(** ** One arrival *)

(** An arrival as the code constructs it. *)
Definition accepted (a : FinalizedArrival) : Prop := make_arrival a = Ok a.

Lemma accepted_pointer a : accepted a -> 0 <= a_payment_block a.
Proof. unfold accepted, make_arrival. intros H. do 6 step_guard H. apply orb_false_iff in Eg4 as [?%Z.ltb_ge _]. done. Qed.

Lemma arrival_id_truthy a rid : arrival_id a = Ok rid -> rid <> "".
Proof. intros H%canonical_digest_shape ->. done. Qed.

Definition pays (fee : Z) (st : status) : bool := (0 <? fee) && bool_decide (st ∈ [reserved; deferred]).

(** The price of a new row: nothing; the payment it names, unused until then; or a credit of its hotkey, unspent
    until then. *)
Inductive charged (fee fb : Z) (rid : string) (a : FinalizedArrival) (st : status) (d d' : database) : Prop :=
  | charged_nothing : pays fee st = false -> cost_payments d' = cost_payments d -> cost_credits d' = cost_credits d ->
      charged fee fb rid a st d d'
  | charged_payment : pays fee st = true -> 0 < a_payment_block a ->
      _eval_cost_payment_used (a_payment_block a) (a_payment_index a) d = false ->
      cost_payments d' = cost_payments d ++ [mkPaymentRow (a_payment_block a) (a_payment_index a) rid (a_content a) (a_hotkey a) fee] ->
      cost_credits d' = cost_credits d -> charged fee fb rid a st d d'
  | charged_credit credit c : pays fee st = true -> a_payment_block a = 0 ->
      c ∈ cost_credits d -> e_id c = credit -> e_hotkey c = a_hotkey a -> e_reservation c = "" ->
      length (filter (fun c => spendable credit c = true) (cost_credits d)) = 1%nat ->
      cost_payments d' = cost_payments d -> cost_credits d' = spend fb credit rid <$> cost_credits d ->
      charged fee fb rid a st d d'.

Lemma unspent_credit hotkey d credit :
  _unspent_eval_cost_credit hotkey d = credit -> credit <> "" ->
  exists c, c ∈ cost_credits d /\ e_id c = credit /\ e_hotkey c = hotkey /\ e_reservation c = "".
Proof.
  unfold _unspent_eval_cost_credit. destruct (sorted_by _ _) as [|c l] eqn:E; [by intros <-|]. intros <- _.
  assert (Hc : c ∈ sorted_by (fun c => (e_granted c, e_id c)) (filter (fun c => is_unspent hotkey c = true) (cost_credits d))).
  { rewrite E. by left. }
  apply sorted_by_elem, list_elem_of_filter in Hc as [[?%String.eqb_eq ?%String.eqb_eq]%andb_true_iff ?]. eauto.
Qed.

Section Admit.
Context (cfg : config) (fee fb : Z).
Let p := policy cfg.

(** The row that a new arrival gets. *)
Definition verdict_row (a : FinalizedArrival) (rid : string) (n : Z) (d : database) : reservation :=
  let v := judge cfg fee fb a n (credit_for fee a d) d in new_row cfg rid a v.1 v.2.

(** An unpaid arrival is not admitted. *)
Lemma judge_unpaid a n d st why :
  judge cfg fee fb a n "" d = (st, why) -> 0 < fee -> a_payment_block a = 0 -> st ∉ [reserved; deferred].
Proof.
  unfold judge. intros H Hf Hb. cbn [truthy andb negb] in H. rewrite (proj2 (Z.ltb_lt _ _) Hf), (proj2 (Z.eqb_eq _ _) Hb) in H.
  cbn [andb negb] in H. rewrite andb_true_r in H. destruct (negb (arrival_valid a)); injection H as <- _; set_solver.
Qed.

Lemma charge_ok rid a n s s' u :
  accepted a ->
  let d := db s in let v := judge cfg fee fb a n (credit_for fee a d) d in
  forall t, cost_payments (db t) = cost_payments d -> cost_credits (db t) = cost_credits d ->
  charge fee fb rid a v.1 (credit_for fee a d) t = (s', Ok u) ->
  charged fee fb rid a v.1 d (db s') /\ reservations (db s') = reservations (db t) /\ cursor (db s') = cursor (db t).
Proof.
  intros Ha%accepted_pointer d v t Ep Ec H. unfold charge in H. change ((0 <? fee) && bool_decide (v.1 ∈ [reserved; deferred])) with (pays fee v.1) in H.
  destruct (pays fee v.1) eqn:Epay; cbn [andb] in H; [|inv_m; split; [by constructor 1|done]].
  pose proof Epay as [Hfee%Z.ltb_lt Hst%bool_decide_eq_true]%andb_true_iff.
  destruct (Z.ltb_spec 0 (a_payment_block a)) as [Hb|Hb].
  - unfold insert_payment in H. inv_m. split; [|done]. constructor 2; try done; cbn; try congruence.
    cbn in Hf. unfold _eval_cost_payment_used in *. by rewrite <- Ep.
  - assert (Hb0 : a_payment_block a = 0) by lia. destruct (truthy (credit_for fee a d)) eqn:Et.
    + unfold spend_credit in H. inv_m. split; [|done]. cbn. apply negb_false_iff, Nat.eqb_eq in Hf. rewrite Ec in Hf.
      destruct (unspent_credit (a_hotkey a) d (credit_for fee a d)) as (c & ? & ? & ? & ?).
      { unfold credit_for in *. destruct (_ && _); done. }
      { intros E. by rewrite E in Et. }
      eapply (charged_credit _ _ _ _ _ _ _ (credit_for fee a d) c); try done. cbn. by rewrite Ec.
    + exfalso. destruct (judge cfg fee fb a n (credit_for fee a d) d) as [st why] eqn:Ej. eapply judge_unpaid; [|exact Hfee|exact Hb0|exact Hst].
      by destruct (credit_for fee a d).
Qed.

Lemma admit_ok a n s s' out :
  accepted a -> admit_one cfg fee fb a n s = (s', Ok out) ->
  exists rid, arrival_id a = Ok rid /\
  ((exists row i, reservations (db s) !! rid = Some row /\ _row row = Ok i /\ i_arrival i = a /\ s' = s /\ out = (n, [])) \/
   (reservations (db s) !! rid = None /\ let r := verdict_row a rid n (db s) in
    reservations (db s') = <[rid := r]> (reservations (db s)) /\ cursor (db s') = cursor (db s) /\
    charged fee fb rid a (r_status r) (db s) (db s') /\
    out = (if bool_decide (r_status r = reserved) then n + 1 else n, [rid]))).
Proof.
  intros Ha H. unfold admit_one in H. inv_m. exists a0. split; [done|].
  destruct (reservations _ !! a0) as [row|] eqn:E; inv_m.
  - left. apply negb_false_iff, bool_decide_eq_true in Hf. eauto 10.
  - right. split; [done|]. unfold insert_reservation in *. inv_m.
    match goal with H : charge _ _ _ _ _ _ _ = _ |- _ => apply (charge_ok _ _ n s) in H; [|done..]; destruct H as (Hc & Er & Ecur) end.
    cbn zeta. unfold verdict_row. cbn [r_status new_row]. by rewrite Er, Ecur.
Qed.
End Admit.

(** ** The arrivals of a block *)

Section Block.
Context (cfg : config) (fee fb : Z).

(** What the arrivals so far have made of the database [d0]. *)
Lemma admit_all_rule (P : list FinalizedArrival -> Z -> list string -> database -> Prop) arrivals :
  Forall accepted arrivals ->
  (forall past a n ids s s' out, accepted a -> P past n ids (db s) -> admit_one cfg fee fb a n s = (s', Ok out) ->
     P (past ++ [a]) out.1 (ids ++ out.2) (db s')) ->
  forall past n ids s s' new, P past n ids (db s) -> admit_all cfg fee fb arrivals n s = (s', Ok new) ->
  exists n', P (past ++ arrivals) n' (ids ++ new) (db s').
Proof.
  intros Ha Hstep. induction Ha as [|a l Ha _ IH]; intros past n ids s s' new HP H; cbn in H; inv_m.
  { rewrite !app_nil_r. eauto. }
  match goal with H1 : admit_one _ _ _ _ _ _ = (_, Ok ?o), H2 : admit_all _ _ _ _ _ _ = _ |- _ =>
    specialize (Hstep _ _ _ _ _ _ _ Ha HP H1); destruct (IH _ _ _ _ _ _ Hstep H2) as (n' & Hn') end.
  exists n'. by rewrite <- !app_assoc in Hn'.
Qed.

(** The parts of a successful run: the state once room has been made, and the state the arrivals leave. *)
Lemma reserve_parts arrivals hash s s' out :
  good s -> Forall accepted arrivals -> reserve_finalized cfg fee fb arrivals hash s = (s', Ok out) ->
  exists s1 s2 ids,
    good s1 /\ pointwise aged (db s) (db s1) /\ only_rows (db s) (db s1) /\
    occupied (db s1) <= Z.max (max_pending (policy cfg)) (occupied (db s)) /\
    admit_all cfg fee fb arrivals (occupied (db s1)) s1 = (s2, Ok ids) /\
    db s' = with_cursor_at (fb, hash) (db s2) /\ collect opened ids s' = (s', Ok out) /\
    cursor_moves_back fb hash (cursor (db s1)) = false /\
    order_key <$> arrivals = sorted_by id (remove_dups (order_key <$> arrivals)).
Proof.
  intros Hs Ha H. unfold reserve_finalized in H. inv_m.
  match goal with H1 : _expire_stale_rows _ _ s = (?x, _), H2 : _activate_deferred_rows _ ?x = (?y, _) |- _ =>
    destruct (expiry_pass _ _ _ _ _ Hs H1) as (Hg1 & Ho1 & Hp1);
    destruct (activation_pass _ _ _ _ Hg1 H2) as (Hg2 & Ho2 & Hp2 & Hocc); exists y end.
  match goal with H1 : admit_all _ _ _ _ _ _ = (?x, Ok ?ids) |- _ => exists x, ids; rename H1 into Hall end.
  split; [done|]. split.
  { intros rid. specialize (Hp1 rid). specialize (Hp2 rid). unfold aged.
    inversion Hp1 as [r r1 Hr E1 E2|E1 E2]; rewrite <- E2 in Hp2; inversion Hp2 as [? r2 Hr2 E3 E4|]; constructor; subst.
    destruct Hr as [->| ->]; [naive_solver|]. destruct Hr2 as [->|[? ?]]; [naive_solver|done]. }
  split; [by eapply only_rows_trans|]. split.
  { assert (occupied (db s1) <= occupied (db s)); [|lia].
    apply count_le. intros rid r1 Hr Hst. destruct (pointwise_back _ _ _ _ _ Hp1 Hr) as (r & Hr0 & [->| ->]); [eauto|].
    apply bool_decide_eq_true in Hst. cbn in Hst. unfold occupying in Hst. set_solver. }
  split; [done|].
  assert (Hread : forall ids s s' rs, collect opened ids s = (s', Ok rs) -> s' = s).
  { intros ids x y rs Hc. refine (collect_invariant (fun z => z = x) _ _ _ _ _ _ eq_refl Hc).
    intros ? ? ? ? _ -> Ho. unfold opened in Ho. by inv_m. }
  pose proof H as H'. apply Hread in H' as ->. split; [done|]. split; [done|]. split; [done|].
  by apply negb_false_iff, bool_decide_eq_true in Hf.
Qed.

Lemma row_ok r i : _row r = Ok i -> i_row i = r /\ make_arrival (arrival_of r) = Ok (i_arrival i).
Proof.
  unfold _row. intros H. inv_ok. assert (Hm : forall j k, make_intake j = Ok k -> k = j).
  { intros j k Hk. unfold make_intake in Hk. inv_ok. repeat step_guard Hk. by injection Hk. }
  apply Hm in H. subst i. done.
Qed.

Definition is_new (d : database) (a : FinalizedArrival) : bool :=
  match arrival_id a with Ok rid => absent (reservations d !! rid) | Raise _ => false end.

Definition stored (ids : list string) (d : database) (a : FinalizedArrival) : Prop :=
  exists rid r, arrival_id a = Ok rid /\ reservations d !! rid = Some r /\
    ((exists i, _row r = Ok i /\ i_arrival i = a) \/ (rid ∈ ids /\ arrival_of r = a)).

Definition filed (d : database) (rid : string) (a : FinalizedArrival) : Prop :=
  arrival_id a = Ok rid /\ exists r, reservations d !! rid = Some r /\ arrival_of r = a /\ r_id r = rid.

(** After the arrivals [past], which made the rows [ids] in the database [d1]. *)
Definition filing (d1 : database) (past : list FinalizedArrival) (n : Z) (ids : list string) (d : database) : Prop :=
  NoDup past -> cursor d = cursor d1 /\ reservations d1 ⊆ reservations d /\ Forall (stored ids d) past /\
  Forall2 (filed d) ids (filter (fun a => is_new d1 a = true) past) /\
  (forall rid, rid ∈ ids <-> reservations d1 !! rid = None /\ is_Some (reservations d !! rid)).

Lemma stored_mono ids ids' d d' a : ids ⊆ ids' -> reservations d ⊆ reservations d' -> stored ids d a -> stored ids' d' a.
Proof.
  intros Hids Hsub (rid & r & ? & ? & Hr). exists rid, r. split; [done|]. split; [by eapply lookup_weaken|].
  destruct Hr as [?|[? ?]]; [by left|right]. split; [by apply Hids|done].
Qed.

Lemma filed_mono d d' rid a : reservations d ⊆ reservations d' -> filed d rid a -> filed d' rid a.
Proof. intros Hsub (? & r & ? & ?). split; [done|]. exists r. split; [by eapply lookup_weaken|done]. Qed.

Lemma filing_step d1 past a n ids s s' out :
  Forall accepted past -> accepted a -> filing d1 past n ids (db s) -> admit_one cfg fee fb a n s = (s', Ok out) ->
  filing d1 (past ++ [a]) out.1 (ids ++ out.2) (db s').
Proof.
  intros Hpast Ha HP H [Hnd [Hfresh _]]%NoDup_app. destruct (HP Hnd) as (Hcur & Hsub & Hst & Hids & Hdom).
  apply admit_ok in H as (rid & Hrid & [(row & i & Hrow & Hi & Hia & -> & ->)|(Hn & Hr & Hc & _ & ->)]); [..|done]; cbn [fst snd].
  - rewrite app_nil_r. rewrite filter_app, filter_cons, filter_nil.
    assert (Hold : is_new d1 a = false).
    { unfold is_new. rewrite Hrid. destruct (reservations d1 !! rid) eqn:E1; [done|]. exfalso.
      assert (Hin : rid ∈ ids) by (apply Hdom; rewrite Hrow; eauto).
      apply list_elem_of_lookup in Hin as [k Hk]. destruct (Forall2_lookup_l _ _ _ _ _ Hids Hk) as (a' & Ha' & _ & r & Hr & Har & _).
      apply list_elem_of_lookup_2, list_elem_of_filter in Ha' as [_ Ha']. apply row_ok in Hi as [_ Hm]. assert (r = row) as -> by congruence.
      rewrite Forall_forall in Hpast. pose proof (Hpast _ Ha') as Hacc. unfold accepted in Hacc.
      apply (Hfresh a'); [done|]. apply list_elem_of_singleton. congruence. }
    rewrite Hold. rewrite decide_False by done. rewrite app_nil_r. split_and!; try done.
    apply Forall_app. split; [done|]. apply Forall_singleton. exists rid, row. eauto 10.
  - set (r := verdict_row _ _ _ _ _ _ _) in *. assert (Hid : r_id r = rid) by done. assert (Har : arrival_of r = a) by by destruct a.
    assert (Hsub' : reservations (db s) ⊆ reservations (db s')) by (rewrite Hr; by apply insert_subseteq).
    assert (Hnew : reservations d1 !! rid = None) by by eapply lookup_weaken_None.
    rewrite filter_app, filter_cons, filter_nil. rewrite decide_True by (unfold is_new; by rewrite Hrid, Hnew).
    assert (Hl : reservations (db s') !! rid = Some r) by by rewrite Hr, lookup_insert_eq.
    split_and!.
    + congruence.
    + by etrans.
    + apply Forall_app. split; [eapply Forall_impl; [exact Hst|intros ? Hk; eapply stored_mono; [|done|exact Hk]; set_solver]|].
      apply Forall_singleton. exists rid, r. split_and!; [done..|]. right. split; [set_solver|done].
    + apply Forall2_app; [eapply Forall2_impl; [exact Hids|intros; by eapply filed_mono]|]. constructor; [|done]. split; [done|]. eauto.
    + intros k. rewrite elem_of_app, list_elem_of_singleton, Hdom, Hr, lookup_insert_is_Some. destruct (decide (k = rid)) as [->|]; naive_solver.
Qed.

Lemma filing_run d1 arrivals n s s' ids :
  Forall accepted arrivals -> NoDup arrivals -> db s = d1 -> admit_all cfg fee fb arrivals n s = (s', Ok ids) ->
  exists n', filing d1 arrivals n' ids (db s').
Proof.
  intros Ha Hnd Hd H.
  destruct (admit_all_rule (fun past n ids d => Forall accepted past /\ filing d1 past n ids d) arrivals Ha) with
    (past := @nil FinalizedArrival) (n := n) (ids := @nil string) (s := s) (s' := s') (new := ids) as (n' & _ & Hf); [..|by eauto].
  - intros past a m js t t' out Hacc [Hp Hf] Hs. split; [apply Forall_app; split; [done|by apply Forall_singleton]|].
    by eapply filing_step.
  - split; [done|]. intros _. rewrite Hd. split_and!; try done.
    intros rid. split; [by intros ?%elem_of_nil|]. intros [E1 [? E2]]. congruence.
  - done.
Qed.

Lemma opened_rows ids s out : collect opened ids s = (s, Ok out) ->
  Forall2 (fun rid i => exists r, reservations (db s) !! rid = Some r /\ _row r = Ok i) ids out.
Proof.
  revert out. induction ids as [|rid ids IH]; intros out H; cbn in H; inv_m; [by constructor|].
  unfold opened in *. inv_m. constructor; [eauto|]. by apply IH.
Qed.

Lemma pointwise_new d d1 : pointwise aged d d1 -> forall a, is_new d1 a = is_new d a.
Proof.
  intros Hp a. unfold is_new. destruct (arrival_id a) as [rid|]; [|done]. specialize (Hp rid). by inversion Hp.
Qed.

(** The rows read back are the new ones. *)
Lemma returned_rows d ids l out :
  Forall2 (filed d) ids l -> Forall accepted l ->
  Forall2 (fun rid i => exists r, reservations d !! rid = Some r /\ _row r = Ok i) ids out ->
  i_arrival <$> out = l /\ (fun i => r_id (i_row i)) <$> out = ids /\
  (forall i, i ∈ out -> reservations d !! r_id (i_row i) = Some (i_row i)).
Proof.
  intros Hl. revert out. induction Hl as [|rid a ids l [Hrid (r & Hr & Har & Hid)] _ IH]; intros out Hacc Hc.
  { inversion Hc; subst. split_and!; try done. by intros i ?%elem_of_nil. }
  inversion Hc as [|? i ? out' (r' & Hr' & Hi) Hc']; subst. inversion Hacc as [|? ? Ha0 Hacc']; subst.
  destruct (IH _ Hacc' Hc') as (E1 & E2 & E3). assert (r' = r) as -> by congruence. apply row_ok in Hi as [Ei Hm].
  unfold accepted in Ha0. rewrite !fmap_cons, Ei, E1, E2. split_and!; [congruence|done|].
  intros k [->|Hk]%elem_of_cons; [by rewrite Ei|by apply E3].
Qed.

(** C16: a successful admission moves the cursor to the finalized head, and never backwards or sideways; it returns
    exactly the arrivals that had no row, in finalized order, each with the one new row it was given; every arrival
    of the block has a row that opens as that arrival; and besides the new rows only expiry and the activation of
    deferred rows have touched the queue. *)
Theorem reserve_contract (arrivals : list FinalizedArrival) (hash : string) (s s' : store) (out : list IntakeReservation) :
  good s -> Forall accepted arrivals -> reserve_finalized cfg fee fb arrivals hash s = (s', Ok out) ->
  cursor (db s') = Some (fb, hash) /\
  (forall b h, cursor (db s) = Some (b, h) -> b < fb \/ (b = fb /\ h = hash)) /\
  i_arrival <$> out = filter (fun a => is_new (db s) a = true) arrivals /\
  (forall i, i ∈ out -> reservations (db s) !! r_id (i_row i) = None /\
     reservations (db s') !! r_id (i_row i) = Some (i_row i)) /\
  (forall a, a ∈ arrivals -> exists rid r i,
     arrival_id a = Ok rid /\ reservations (db s') !! rid = Some r /\ _row r = Ok i /\ i_arrival i = a) /\
  (forall rid, match reservations (db s) !! rid, reservations (db s') !! rid with
     | Some r, Some r' => aged r r'
     | Some _, None => False
     | None, Some _ => rid ∈ (fun i => r_id (i_row i)) <$> out
     | None, None => True
     end).
Proof.
  intros Hs Ha H. destruct (reserve_parts _ _ _ _ _ Hs Ha H) as (s1 & s2 & ids & Hg1 & Hp & [rs Ho] & _ & Hall & Hd & Hc & Hback & Hord).
  assert (Hnd : NoDup arrivals).
  { apply (NoDup_fmap_1 order_key). rewrite Hord, sorted_by_perm. apply NoDup_remove_dups. }
  destruct (filing_run _ _ _ _ _ _ Ha Hnd eq_refl Hall) as (n' & Hf). destruct (Hf Hnd) as (_ & Hsub & Hst & Hids & Hdom).
  assert (Er : reservations (db s') = reservations (db s2)) by by rewrite Hd.
  apply opened_rows in Hc. rewrite Er in Hc. rewrite Ho in Hback. cbn in Hback.
  assert (Hacc : Forall accepted (filter (fun a => is_new (db s1) a = true) arrivals)).
  { apply Forall_forall. intros a [_ Hin]%list_elem_of_filter. by eapply Forall_forall in Ha. }
  destruct (returned_rows _ _ _ _ Hids Hacc Hc) as (Earr & Eids & Hrow).
  assert (Hnone : forall rid, reservations (db s1) !! rid = None <-> reservations (db s) !! rid = None).
  { intros rid. specialize (Hp rid). inversion Hp; naive_solver. }
  split; [by rewrite Hd|]. split.
  { intros b h E. rewrite E in Hback. unfold cursor_moves_back in Hback. apply orb_false_iff in Hback as [Hb%Z.ltb_ge Hh].
    apply andb_false_iff in Hh as [Hh%Z.eqb_neq|Hh%negb_false_iff%String.eqb_eq]; [lia|]. destruct (decide (b = fb)); [by right|lia]. }
  split.
  { rewrite Earr. apply list_filter_iff. intros. by rewrite (pointwise_new _ _ Hp). }
  rewrite Er. split.
  { intros i Hi. split; [|by apply Hrow]. apply Hnone, Hdom. rewrite <- Eids. by apply (list_elem_of_fmap_2 (fun i => r_id (i_row i))). }
  split.
  { intros a Hin. rewrite Forall_forall in Hst. destruct (Hst a Hin) as (rid & r & Hrid & Hr & [(i & Hi & Hia)|[Hn Har]]); [by exists rid, r, i|].
    apply list_elem_of_lookup in Hn as [k Hk]. destruct (Forall2_lookup_l _ _ _ _ _ Hc Hk) as (i & _ & r' & Hr' & Hi).
    assert (r' = r) as -> by congruence. exists rid, r, i. split_and!; try done. apply row_ok in Hi as [_ Hm].
    rewrite Forall_forall in Ha. pose proof (Ha a Hin) as Hm'. unfold accepted in Hm'. congruence. }
  intros rid. destruct (reservations (db s) !! rid) as [r|] eqn:E.
  - destruct (pointwise_lookup _ _ _ _ _ Hp E) as (r1 & Hr1 & Hag). by rewrite (lookup_weaken _ _ _ _ Hr1 Hsub).
  - destruct (reservations (db s2) !! rid) eqn:E2; [|done]. rewrite Eids. apply Hdom. split; [by apply Hnone|by rewrite E2].
Qed.

(** ** Bounds *)

(** The rows of a hotkey in an admission epoch that were neither refused nor expired. *)
Definition standing (epoch : Z) (hotkey : string) (r : reservation) : bool :=
  in_epoch epoch hotkey r && negb (in_statuses r [failed; expired]).

Lemma judge_bounds a n credit d st why :
  judge cfg fee fb a n credit d = (st, why) ->
  (st = reserved /\ n < max_pending (policy cfg)
     /\ count (in_epoch (epoch_of (policy cfg) (a_block a)) (a_hotkey a)) d < max_per_hotkey_epoch (policy cfg)) \/
  (st = deferred /\ count (in_epoch (epoch_of (policy cfg) (a_block a)) (a_hotkey a)) d < max_per_hotkey_epoch (policy cfg)) \/
  st = failed \/ st = expired.
Proof.
  unfold judge. intros H. destruct (_ && negb (_ && _)); [injection H as <- _; tauto|]. destruct (_ && negb _); [injection H as <- _; tauto|].
  destruct (expiry_blocks _ <=? _); [injection H as <- _; tauto|].
  destruct (Z.leb_spec (max_per_hotkey_epoch (policy cfg)) (count (in_epoch (epoch_of (policy cfg) (a_block a)) (a_hotkey a)) d)); [injection H as <- _; tauto|].
  destruct (_ && _eval_cost_payment_used _ _ _); [injection H as <- _; tauto|].
  destruct (Z.leb_spec (max_pending (policy cfg)) n); injection H as <- _; [tauto|]. left. split; [done|lia].
Qed.

Definition bounded (d0 : database) (past : list FinalizedArrival) (n : Z) (ids : list string) (d : database) : Prop :=
  n = occupied d /\ occupied d <= Z.max (max_pending (policy cfg)) (occupied d0) /\
  forall e h, count (standing e h) d <= Z.max (max_per_hotkey_epoch (policy cfg)) (count (standing e h) d0).

Lemma standing_le e h d : count (standing e h) d <= count (in_epoch e h) d.
Proof. apply count_le. intros rid r Hr [? _]%andb_true_iff. eauto. Qed.

Lemma bounded_step d0 past a n ids s s' out :
  accepted a -> bounded d0 past n ids (db s) -> admit_one cfg fee fb a n s = (s', Ok out) ->
  bounded d0 (past ++ [a]) out.1 (ids ++ out.2) (db s').
Proof.
  intros Ha (Hn & Hocc & Hst) H.
  apply admit_ok in H as (rid & _ & [(row & i & _ & _ & _ & -> & ->)|(Hnone & Hr & _ & _ & ->)]); [done| |done]; cbn [fst snd].
  set (r := verdict_row _ _ _ _ _ _ _) in *. assert (Hid : r_id r = rid) by done.
  rewrite <- Hid in Hnone, Hr. unfold bounded.
  assert (Eo : occupied (db s') = occupied (db s) + (if in_statuses r occupying then 1 else 0))
    by exact (count_insert (fun r => in_statuses r occupying) _ _ r Hnone Hr).
  assert (Es : forall e h, count (standing e h) (db s') = count (standing e h) (db s) + (if standing e h r then 1 else 0)) by (intros; exact (count_insert _ _ _ r Hnone Hr)).
  assert (Hother : forall e h, standing e h r = true -> e = epoch_of (policy cfg) (a_block a) /\ h = a_hotkey a).
  { intros e h [[?%Z.eqb_eq ?%String.eqb_eq]%andb_true_iff _]%andb_true_iff. done. }
  pose proof (judge_bounds a n (credit_for fee a (db s)) (db s)) as Hj. unfold r, verdict_row, in_statuses in *. cbn zeta in *.
  destruct (judge _ _ _ _ _ _ _) as [st why] eqn:Ej. cbn [fst snd r_status new_row] in *.
  assert (Hlim : forall e h, count (in_epoch (epoch_of (policy cfg) (a_block a)) (a_hotkey a)) (db s) < max_per_hotkey_epoch (policy cfg) ->
    count (standing e h) (db s') <= Z.max (max_per_hotkey_epoch (policy cfg)) (count (standing e h) d0)).
  { intros e h Hlt. rewrite Es. specialize (Hst e h). destruct (standing e h _) eqn:E; [|lia].
    apply Hother in E as [-> ->]. pose proof (standing_le (epoch_of (policy cfg) (a_block a)) (a_hotkey a) (db s)). lia. }
  assert (Hsame : forall e h, standing e h (new_row cfg rid a st why) = false ->
    count (standing e h) (db s') <= Z.max (max_per_hotkey_epoch (policy cfg)) (count (standing e h) d0)).
  { intros e h E. rewrite Es, E, Z.add_0_r. apply Hst. }
  destruct (Hj _ _ eq_refl) as [(-> & Hlt & Hc)|[(-> & Hc)|[-> | ->]]];
    repeat match goal with Eo : context [bool_decide (?x ∈ occupying)] |- _ =>
      let b := eval vm_compute in (bool_decide (x ∈ occupying)) in change (bool_decide (x ∈ occupying)) with b in Eo end;
    repeat match goal with |- context [bool_decide (?x = reserved)] =>
      let b := eval vm_compute in (bool_decide (x = reserved)) in change (bool_decide (x = reserved)) with b end; cbn [fst] in *.
  - split; [lia|]. split; [lia|]. intros. by apply Hlim.
  - split; [lia|]. split; [lia|]. intros. by apply Hlim.
  - split; [lia|]. split; [lia|]. intros. apply Hsame. unfold standing. apply andb_false_r.
  - split; [lia|]. split; [lia|]. intros. apply Hsame. unfold standing. apply andb_false_r.
Qed.

(** C17: however many arrivals a finalized block brings, admitting them leaves at most [max_pending] rows in the slots
    of the queue, and for no hotkey and epoch more than [max_per_hotkey_epoch] rows that were neither refused nor
    expired; a queue that was over a bound already does not grow. *)
Theorem reserve_bounds (arrivals : list FinalizedArrival) (hash : string) (s s' : store) (out : list IntakeReservation) :
  good s -> Forall accepted arrivals -> reserve_finalized cfg fee fb arrivals hash s = (s', Ok out) ->
  occupied (db s') <= Z.max (max_pending (policy cfg)) (occupied (db s)) /\
  forall epoch hotkey, count (standing epoch hotkey) (db s') <=
    Z.max (max_per_hotkey_epoch (policy cfg)) (count (standing epoch hotkey) (db s)).
Proof.
  intros Hs Ha H. destruct (reserve_parts _ _ _ _ _ Hs Ha H) as (s1 & s2 & ids & Hg1 & Hp & _ & Hocc & Hall & Hd & _).
  destruct (admit_all_rule (bounded (db s1)) arrivals Ha (bounded_step _) [] (occupied (db s1)) [] s1 s2 ids) as (n' & _ & Ho & Hst); [|done|].
  { split; [done|]. split; [lia|]. intros. lia. }
  assert (Ed : forall q, count q (db s') = count q (db s2)) by (intros q; by rewrite Hd).
  unfold occupied in *. rewrite Ed. split; [lia|]. intros e h. rewrite Ed. specialize (Hst e h).
  assert (count (standing e h) (db s1) <= count (standing e h) (db s)); [|lia].
  apply count_le. intros rid r1 Hr Hq. destruct (pointwise_back _ _ _ _ _ Hp Hr) as (r & Hr0 & Hag). exists r. split; [done|].
  destruct Hag as [->|[->|[Hdef ->]]]; [done|..]; apply andb_true_iff in Hq as [Hq Hq']; [by vm_compute in Hq'|].
  apply andb_true_iff. split; [exact Hq|]. unfold in_statuses. by rewrite Hdef.
Qed.

(** ** Payment *)

Definition pointers (d : database) : list (Z * Z) := (fun p => (p_block p, p_index p)) <$> cost_payments d.

Lemma unused_pointer b i d : _eval_cost_payment_used b i d = false <-> (b, i) ∉ pointers d.
Proof.
  unfold _eval_cost_payment_used, pointers. rewrite <- not_true_iff_false, existsb_exists, list_elem_of_fmap. apply not_iff_compat.
  split; intros (p & H1 & H2).
  - apply andb_true_iff in H2 as [<-%Z.eqb_eq <-%Z.eqb_eq]. exists p. split; [done|]. by apply list_elem_of_In.
  - exists p. split; [by apply list_elem_of_In|]. injection H1 as -> ->. by rewrite !Z.eqb_refl.
Qed.

(** What stands for a row that was admitted between two databases: a payment no row had used, or a credit of the
    hotkey that no row had spent. *)
Definition backed (d0 d : database) (r : reservation) : Prop :=
  (0 < x_payment_block (r_columns r) /\
   _eval_cost_payment_used (x_payment_block (r_columns r)) (x_payment_index (r_columns r)) d0 = false /\
   mkPaymentRow (x_payment_block (r_columns r)) (x_payment_index (r_columns r)) (r_id r) (r_content_hash r) (r_hotkey r) fee
     ∈ cost_payments d) \/
  (x_payment_block (r_columns r) = 0 /\
   exists k c, cost_credits d0 !! k = Some c /\ e_hotkey c = r_hotkey r /\ e_reservation c = "" /\
     cost_credits d !! k = Some (mkCreditRow (e_id c) (e_hotkey c) (e_granted c) (r_id r) fb)).

Record ledger (d0 d : database) : Prop := {
  ledger_pointers : NoDup (pointers d);
  ledger_payments : exists more, cost_payments d = cost_payments d0 ++ more;
  ledger_unspent : forall k c, cost_credits d !! k = Some c -> e_reservation c = "" -> cost_credits d0 !! k = Some c;
  ledger_spent : forall k c, cost_credits d0 !! k = Some c -> e_reservation c <> "" -> cost_credits d !! k = Some c;
}.

Lemma ledger_unused d0 d b i : ledger d0 d -> _eval_cost_payment_used b i d = false -> _eval_cost_payment_used b i d0 = false.
Proof. rewrite !unused_pointer. intros [_ [more E] _ _]. unfold pointers. rewrite E, fmap_app. set_solver. Qed.

(** Charging a row keeps the ledger, backs that row, and leaves the others backed. *)
Lemma charged_ledger d0 d d' r a :
  ledger d0 d -> charged fee fb (r_id r) a (r_status r) d d' -> arrival_of r = a -> r_id r <> "" ->
  ledger d0 d' /\ (pays fee (r_status r) = true -> backed d0 d' r) /\
  (forall k, r_id k <> "" -> backed d0 d k -> backed d0 d' k).
Proof.
  intros HL Hc <- Hid. destruct HL as [Hp [more Em] Hu Hs] eqn:EL. clear EL.
  destruct Hc as [Hpay Ep Ec|Hpay Hb Hun Ep Ec|credit c Hpay Hb Hin Eid Eh Er Hone Ep Ec].
  - split; [split; unfold pointers in *; rewrite ?Ep, ?Ec; eauto|]. split; [congruence|].
    intros k _ Hk. unfold backed in *. by rewrite Ep, Ec.
  - cbn in *. split; [split; rewrite ?Ec; eauto|].
    + unfold pointers. rewrite Ep, fmap_app. apply NoDup_app. split; [done|]. split; [|apply NoDup_singleton].
      intros x Hx ->%list_elem_of_singleton. by apply unused_pointer in Hun.
    + exists (more ++ [mkPaymentRow (x_payment_block (r_columns r)) (x_payment_index (r_columns r)) (r_id r) (r_content_hash r) (r_hotkey r) fee]).
      by rewrite Ep, Em, app_assoc.
    + split.
      * intros _. left. split; [done|]. split; [by eapply ledger_unused|]. rewrite Ep. set_solver.
      * intros k _ [(? & ? & ?)|?]; unfold backed; rewrite Ep, Ec; [left; set_solver|by right].
  - cbn in *. assert (Hkeep : forall k c, e_reservation c <> "" -> cost_credits d !! k = Some c -> cost_credits d' !! k = Some c).
    { intros k c0 Hne Hk. rewrite Ec, list_lookup_fmap, Hk. cbn. unfold spend, spendable. destruct (String.eqb_spec (e_reservation c0) ""); [done|].
      by rewrite andb_false_r. }
    assert (Hspent : spendable credit c = true) by (unfold spendable; by rewrite Eid, Er, !String.eqb_refl).
    split; [split; [unfold pointers in *; by rewrite Ep|rewrite Ep; by exists more|..]|split].
    + intros k c0 Hk Hr0. rewrite Ec, list_lookup_fmap in Hk. destruct (cost_credits d !! k) as [c1|] eqn:E1; [|done]. cbn in Hk. injection Hk as Hk.
      unfold spend in Hk. destruct (spendable credit c1); subst c0; [done|]. by apply Hu.
    + intros k c0 Hk Hne. apply Hkeep; [done|]. by apply Hs.
    + intros _. right. split; [done|]. apply list_elem_of_lookup in Hin as [k Hk]. exists k, c. split_and!; [by apply Hu|done|done|].
      rewrite Ec, list_lookup_fmap, Hk. cbn. unfold spend. by rewrite Hspent.
    + intros k Hne [?|(? & j & c0 & ? & ? & ? & ?)]; unfold backed; [left; by rewrite Ep|]. right. split; [done|]. exists j, c0.
      split_and!; try done. by apply Hkeep.
Qed.

Definition accounted (d0 : database) (past : list FinalizedArrival) (n : Z) (ids : list string) (d : database) : Prop :=
  ledger d0 d /\ forall rid, rid ∈ ids -> exists r, reservations d !! rid = Some r /\ r_id r = rid /\ rid <> "" /\
    (pays fee (r_status r) = true -> backed d0 d r).

Lemma accounted_step d0 past a n ids s s' out :
  accepted a -> accounted d0 past n ids (db s) -> admit_one cfg fee fb a n s = (s', Ok out) ->
  accounted d0 (past ++ [a]) out.1 (ids ++ out.2) (db s').
Proof.
  intros Ha [HL Hids] H.
  apply admit_ok in H as (rid & Hid & [(row & i & _ & _ & _ & -> & ->)|(Hnone & Hr & _ & Hc & ->)]); [by rewrite app_nil_r| |done].
  cbn [fst snd]. set (r := verdict_row _ _ _ _ _ _ _) in *. assert (Har : arrival_of r = a) by by destruct a.
  assert (Hrid : r_id r = rid) by done.
  assert (Hne : r_id r <> "") by exact (arrival_id_truthy _ _ Hid).
  destruct (charged_ledger _ _ _ r _ HL Hc Har Hne) as (HL' & Hback & Hkeep). clearbody r. split; [exact HL'|].
  intros k [Hk| ->%list_elem_of_singleton]%elem_of_app.
  - destruct (Hids _ Hk) as (r0 & Hr0 & Hid0 & Hne0 & Hb0). exists r0. split; [|split_and!; [exact Hid0|exact Hne0|intros E; apply Hkeep; [by rewrite Hid0|by apply Hb0]]].
    rewrite Hr, lookup_insert_ne; [exact Hr0|]. intros ->. rewrite Hnone in Hr0. discriminate.
  - exists r. rewrite Hr, lookup_insert_eq, <- Hrid. by split_and!.
Qed.

(** C4: nothing is admitted unpaid. Under a fee, every row that an admission adds to the queue, or parks in front of
    it, is backed: by a payment that no row had used, now recorded for it with its hotkey, content and amount; or by a
    credit of its hotkey that was unspent and is now spent on this row. No payment is recorded twice, none is lost,
    and a credit that was spent stays spent on the row it was spent on. *)
Theorem reserve_is_paid (arrivals : list FinalizedArrival) (hash : string) (s s' : store) (out : list IntakeReservation) :
  good s -> Forall accepted arrivals -> NoDup (pointers (db s)) ->
  reserve_finalized cfg fee fb arrivals hash s = (s', Ok out) -> 0 < fee ->
  NoDup (pointers (db s')) /\
  (forall p, p ∈ cost_payments (db s) -> p ∈ cost_payments (db s')) /\
  (forall k c, cost_credits (db s) !! k = Some c -> e_reservation c <> "" -> cost_credits (db s') !! k = Some c) /\
  (forall i, i ∈ out -> r_status (i_row i) = reserved \/ r_status (i_row i) = deferred -> backed (db s) (db s') (i_row i)).
Proof.
  intros Hs Ha Hnd H Hfee. destruct (reserve_parts _ _ _ _ _ Hs Ha H) as (s1 & s2 & ids & Hg1 & Hp & [rs Ho] & _ & Hall & Hd & Hc & _).
  destruct (admit_all_rule (accounted (db s)) arrivals Ha (accounted_step _) [] (occupied (db s1)) [] s1 s2 ids) as (n' & HL & Hids); [|done|].
  { split; [|by intros rid ?%elem_of_nil]. rewrite Ho. split; try done. exists []. by rewrite app_nil_r. }
  destruct HL as [Hp' [more Em] _ Hsp]. rewrite Hd. split; [exact Hp'|]. split.
  { intros p Hin. change (p ∈ cost_payments (db s2)). rewrite Em. set_solver. }
  split; [exact Hsp|]. intros i Hi Hst. apply opened_rows in Hc. apply list_elem_of_lookup in Hi as [k Hk].
  destruct (Forall2_lookup_r _ _ _ _ _ Hc Hk) as (rid & Hrid & r & Hr & Hrow). apply row_ok in Hrow as [Ei _]. rewrite Ei in *.
  rewrite Hd in Hr. cbn in Hr. destruct (Hids rid) as (r' & Hr' & _ & _ & Hb); [by eapply list_elem_of_lookup_2|].
  assert (r' = r) as -> by congruence. apply Hb. unfold pays. rewrite (proj2 (Z.ltb_lt _ _) Hfee).
  apply bool_decide_eq_true_2. destruct Hst as [-> | ->]; [by left|by right; left].
Qed.
End Block.

(** ** An example block

    Two submissions under a fee: one names a payment, the other is stood for by a credit. *)

Definition example_arrival (hotkey : string) (index pay : Z) : FinalizedArrival :=
  mkArrival hotkey (hex 97) "https://example.org/bundle" 7 (string_app "0x" (hex 98)) index 0 (hex 99) "" pay 0.

Definition example_block : list FinalizedArrival := [example_arrival "alice" 0 6; example_arrival "bob" 1 0].

Definition example_head : string := string_app "0x" (hex 100).

Definition example_market : store :=
  mkStore (with_costs [mkPaymentRow 3 1 (hex 101) (hex 97) "carol" 10] [mkCreditRow "gift" "bob" "2025-01-01" "" 0] (rows_db [])) ∅ ∅.

Definition example_run : store * result (list IntakeReservation) :=
  reserve_finalized (example_config false) 10 9 example_block example_head example_market.

Definition example_admitted : list IntakeReservation :=
  Eval vm_compute in match example_run.2 with Ok out => out | Raise _ => [] end.

Lemma example_ran : example_run.2 = Ok example_admitted.
Proof. vm_compute. reflexivity. Qed.

Lemma example_returned : reserve_finalized (example_config false) 10 9 example_block example_head example_market = (example_run.1, Ok example_admitted).
Proof. rewrite <- example_ran. apply surjective_pairing. Qed.

Lemma example_market_good : good example_market.
Proof.
  apply fresh_good. split; [|done]. split; [done|]. split; [done|]. intros rid r H.
  change ((∅ : gmap string reservation) !! rid = Some r) in H. by rewrite lookup_empty in H.
Qed.

Lemma example_accepted : Forall accepted example_block.
Proof. repeat constructor; vm_compute; reflexivity. Qed.

Lemma reserve_contract_witness :
  cursor (db example_run.1) = Some (9, example_head) /\ i_arrival <$> example_admitted = example_block.
Proof.
  split; [|reflexivity].
  destruct (reserve_contract _ _ _ _ _ _ _ _ example_market_good example_accepted example_returned) as [Hc _]. exact Hc.
Defined.

Lemma reserve_bounds_witness : length example_admitted = 2%nat /\ occupied (db example_run.1) <= 256.
Proof.
  split; [reflexivity|].
  destruct (reserve_bounds _ _ _ _ _ _ _ _ example_market_good example_accepted example_returned) as [Hb _]. exact Hb.
Defined.

Lemma example_reserved : Forall (fun i => r_status (i_row i) = reserved) example_admitted.
Proof. repeat constructor. Qed.

Lemma reserve_is_paid_witness :
  length example_admitted = 2%nat /\ forall i, i ∈ example_admitted -> backed 10 9 (db example_market) (db example_run.1) (i_row i).
Proof.
  split; [reflexivity|]. intros i Hi.
  assert (Hfee : 0 < 10) by lia.
  destruct (reserve_is_paid _ _ _ _ _ _ _ _ example_market_good example_accepted (NoDup_singleton _) example_returned Hfee) as (_ & _ & _ & Hb).
  apply (Hb i Hi). left. exact (proj1 (Forall_forall _ _) example_reserved i Hi).
Defined.
