(* ===== verification/CopyContracts.v ===== *)
(** * What publication and the copy check promise

    The publication of a bundle under the bound of its target, and the
    demotion of copies: the first to submit keeps the delta
    ([mark_published], [reconcile_copies] of [cacheon/chain/intake.py]). *)

From S2P Require Import Prelude PyVal Dict Identity Strict Leases Recovery Store Queue LeaseInvariant Fingerprint Admission Copies AdmissionInvariant LeaseSafety LeaseMachine QueueContracts AdmissionContracts.

Open Scope Z_scope.

(** ** Opened rows *)

Definition row_at (d : database) (k : reservation) (i : IntakeReservation) : Prop :=
  reservations d !! r_id k = Some k /\ _row k = Ok i.

Lemma row_key k i : _row k = Ok i -> key_of i = arrival_key k.
Proof.
  intros [_ H]%row_ok. unfold make_arrival in H. repeat (step_guard H || inv_ok). unfold key_of. by rewrite <- H.
Qed.

Lemma all_ok s s' l : lease_inv (db s) -> all s = (s', Ok l) ->
  s' = s /\ StronglySorted (key_le key_of) l /\ NoDup ((fun i => r_id (i_row i)) <$> l) /\
  (forall i, i ∈ l <-> exists k, row_at (db s) k i) /\
  (forall k, reservations (db s) !! r_id k = Some k -> exists i, _row k = Ok i).
Proof.
  intros Hi H. unfold all in H. inv_m.
  assert (Hc : forall ks s' l, collect (fun r => lift (_row r)) ks s = (s', Ok l) -> s' = s /\ Forall2 (fun k i => _row k = Ok i) ks l).
  { induction ks as [|k ks IH]; intros t m Hm; cbn in Hm; inv_m; [by split; constructor|].
    match goal with H : collect _ ks _ = _ |- _ => apply IH in H as [-> ?] end. split; [done|]. by constructor. }
  apply Hc in H as [-> Hl]. split; [done|].
  assert (Hkeys : key_of <$> l = arrival_key <$> select_rows (fun _ => true) arrival_key (db s)).
  { clear Hc. induction Hl as [|k i ks l Hk _ IH]; [done|]. by rewrite !fmap_cons, IH, (row_key _ _ Hk). }
  assert (Hids : (fun i => r_id (i_row i)) <$> l = r_id <$> select_rows (fun _ => true) arrival_key (db s)).
  { clear Hc Hkeys. induction Hl as [|k i ks l Hk _ IH]; [done|]. apply row_ok in Hk as [Ek _]. by rewrite !fmap_cons, IH, Ek. }
  split.
  { pose proof (sorted_by_sorted arrival_key (filter (fun r => true = true) (all_rows (db s)))) as Hs.
    change (sorted_by _ _) with (select_rows (fun _ => true) arrival_key (db s)) in Hs.
    revert Hs Hl. generalize (select_rows (fun _ => true) arrival_key (db s)). clear. intros ks Hs Hl.
    induction Hl as [|k i ks l Hk Hl IH]; [constructor|]. inversion Hs as [|? ? Hs' Hall]; subst. constructor; [by apply IH|].
    rewrite Forall_forall in Hall. apply Forall_forall. intros j [n Hj]%list_elem_of_lookup.
    destruct (Forall2_lookup_r _ _ _ _ _ Hl Hj) as (k' & Hk' & Hj'). unfold key_le. rewrite (row_key _ _ Hk), (row_key _ _ Hj').
    apply Hall. by eapply list_elem_of_lookup_2. }
  split; [rewrite Hids; by apply (select_rows_NoDup (fun _ => true) arrival_key)|].
  assert (Hin : forall k, k ∈ select_rows (fun _ => true) arrival_key (db s) <-> reservations (db s) !! r_id k = Some k).
  { intros k. rewrite select_rows_elem. split; [intros [_ ?]; by apply all_rows_elem|]. intros Hk. split; [done|].
    unfold all_rows. apply list_elem_of_fmap. exists (r_id k, k). split; [done|]. by apply elem_of_map_to_list. }
  split; [|intros k [n Hk]%Hin%list_elem_of_lookup; destruct (Forall2_lookup_l _ _ _ _ _ Hl Hk) as (i & _ & ?); by exists i].
  intros i. split.
  - intros [n Hn]%list_elem_of_lookup. destruct (Forall2_lookup_r _ _ _ _ _ Hl Hn) as (k & Hk & Hki). exists k. split; [|done].
    apply Hin. by eapply list_elem_of_lookup_2.
  - intros (k & Hk%Hin & Hki). apply list_elem_of_lookup in Hk as [n Hn]. destruct (Forall2_lookup_l _ _ _ _ _ Hl Hn) as (i' & Hi' & E).
    assert (i' = i) as -> by congruence. by eapply list_elem_of_lookup_2.
Qed.

Lemma earlier_than_elem key l i : StronglySorted (key_le key_of) l ->
  i ∈ earlier_than key l <-> i ∈ l /\ cmp_ltb (key_of i) key = true.
Proof.
  induction l as [|j l IH]; intros Hs; cbn [earlier_than]; [split; [by intros ?%elem_of_nil|by intros [?%elem_of_nil _]]|].
  inversion Hs as [|? ? Hs' Hall]; subst. specialize (IH Hs'). destruct (cmp_leb key (key_of j)) eqn:E.
  - split; [by intros ?%elem_of_nil|]. intros [Hin Hlt]. exfalso. rewrite cmp_ltb_leb in Hlt. apply negb_true_iff in Hlt.
    apply elem_of_cons in Hin as [->|Hin]; [congruence|]. rewrite Forall_forall in Hall. specialize (Hall _ Hin).
    rewrite (cmp_leb_trans _ _ _ E Hall) in Hlt. done.
  - rewrite !elem_of_cons, IH. split; [|naive_solver]. intros [->|?]; [|naive_solver]. split; [by left|]. by rewrite cmp_ltb_leb, E.
Qed.

(** ** Copies *)

(** The candidate [j] copies the earlier submission [i] of another hotkey. *)
Definition is_copy (i j : IntakeReservation) : Prop :=
  exists f g, i_fingerprint i = Some f /\ i_fingerprint j = Some g /\
    a_hotkey (i_arrival i) <> a_hotkey (i_arrival j) /\ cmp_ltb (key_of i) (key_of j) = true /\
    f_kind f = f_kind g /\ same_namespace f g /\ same_delta f g.

Lemma copy_predecessors_ok rid s s' ms : lease_inv (db s) -> copy_predecessors rid s = (s', Ok ms) ->
  s' = s /\ exists r j, reservations (db s) !! rid = Some r /\ _row r = Ok j /\ StronglySorted (key_le key_of) ms /\
  forall i, i ∈ ms <-> (exists k, row_at (db s) k i) /\ is_copy i j.
Proof.
  intros Hi H. unfold copy_predecessors, opened in H. inv_m.
  match goal with H : _row ?r = Ok ?j, H' : reservations _ !! rid = Some ?r |- _ => rename r into row, j into cand, H into Hrow, H' into Hr end.
  destruct (i_fingerprint cand) as [g|] eqn:Eg; inv_m.
  match goal with H : all s = _ |- _ => apply all_ok in H as (-> & Hs & _ & Hel & _); [|done] end.
  split; [done|]. exists row, cand. split_and!; try done.
  - assert (Hp : StronglySorted (key_le key_of) (earlier_than (key_of cand) a)).
    { clear Hel. induction Hs as [|x l Hs IH Hall]; cbn; [constructor|]. destruct (cmp_leb _ _); constructor; [done|].
      clear -Hall. induction Hall as [|y l Hy _ IH]; cbn; [constructor|]. destruct (cmp_leb _ _); by constructor. }
    clear -Hp. induction Hp as [|x l Hs IH Hall]; [constructor|]. rewrite filter_cons. case_decide; [|done]. constructor; [done|].
    apply Forall_forall. intros y [_ Hy]%list_elem_of_filter. rewrite Forall_forall in Hall. by apply Hall.
  - intros i. rewrite list_elem_of_filter, earlier_than_elem, Hel by done. unfold copied_by, is_copy.
    rewrite andb_true_iff, negb_true_iff, String.eqb_neq. split.
    + intros [[Hne Ha] [Hk Hlt]]. split; [done|]. destruct (i_fingerprint i) as [f|]; [|done]. apply copy_spec in Ha. exists f, g. tauto.
    + intros [Hk (f & g' & -> & Eg' & Hne & Hlt & Hc)]. assert (g' = g) as -> by congruence. split_and!; try done. by apply copy_spec.
Qed.

(** A row demoted for a reason. *)
Definition demoted (why : string) (r : reservation) : reservation := set_evidence "" (set_status failed "FAIL" why r).

Definition with_row (r : reservation) (i : IntakeReservation) : IntakeReservation :=
  mkIntake r (i_arrival i) (i_members i) (i_fingerprint i).

Lemma row_demoted why r i : _row r = Ok i -> _row (demoted why r) = Ok (with_row (demoted why r) i).
Proof.
  intros H. unfold _row in *. cbn [r_columns demoted set_evidence set_status].
  change (arrival_of (demoted why r)) with (arrival_of r).
  apply bind_Ok in H as (read & Hread & H). rewrite Hread. apply bind_Ok in H as (a & Ha & H). cbn [mbind result_bind]. rewrite Ha.
  cbn [mbind result_bind]. unfold make_intake in *. cbn [i_row i_arrival i_members i_fingerprint] in *.
  apply bind_Ok in H as (id & Hid & H). apply bind_Ok in H as (rid & Hrid & H).
  change (r_id (demoted why r)) with (r_id r). rewrite Hid. cbn [mbind result_bind]. rewrite Hrid. cbn [mbind result_bind].
  change (r_columns (demoted why r)) with (r_columns r). change (r_attempts (demoted why r)) with (r_attempts r).
  do 6 step_guard H. change (r_decision (demoted why r)) with "FAIL".
  assert (Ev : negb (forallb hash_or_empty [r_publication r; r_authority r; ""; r_service r]) = false).
  { apply negb_false_iff. apply negb_false_iff in Eg4. cbn [forallb] in *. rewrite !andb_true_iff in *. tauto. }
  change (r_publication (demoted why r)) with (r_publication r). change (r_authority (demoted why r)) with (r_authority r).
  change (r_evidence (demoted why r)) with "". change (r_service (demoted why r)) with (r_service r). rewrite Ev.
  do 2 step_guard H. by injection H as <-.
Qed.

Lemma is_copy_arrival i j i' j' :
  i_arrival i' = i_arrival i -> i_fingerprint i' = i_fingerprint i -> i_arrival j' = i_arrival j -> i_fingerprint j' = i_fingerprint j ->
  is_copy i j -> is_copy i' j'.
Proof. intros E1 E2 E3 E4. unfold is_copy, key_of. by rewrite E1, E2, E3, E4. Qed.

Lemma transition_moves rid expected st dec why ev s s' r' :
  _transition rid expected st dec why ev s = (s', Ok r') ->
  exists r, reservations (db s) !! rid = Some r /\ in_statuses r expected = true /\
    s' = on_db s (with_reservations (<[rid := set_evidence ev (set_status st dec why r)]> (reservations (db s))) (db s)).
Proof.
  unfold _transition. intros H. inv_m.
  assert (Hauth : forall t u, _require_evaluation_mutation_authority rid s = (t, Ok u) -> t = s).
  { intros t u. unfold _require_evaluation_mutation_authority. repeat case_match; naive_solver. }
  match goal with H : _require_evaluation_mutation_authority _ _ = _ |- _ => apply Hauth in H as -> end.
  match goal with H : update_reservation _ _ _ = _ |- _ => apply update_reservation_ok in H as [[? _]|(r & Hr & _ & ->)] end; [congruence|].
  exists r. split; [done|]. split; [|done]. match goal with H : negb (in_statuses ?k _) = false, H' : _ !! rid = Some ?k |- _ =>
    assert (k = r) as -> by congruence; by apply negb_false_iff in H end.
Qed.

(** A successful demotion. *)
Lemma mark_copy_ok rid pid s s' out : good s -> mark_copy rid pid s = (s', Ok out) ->
  good s' /\ exists r, reservations (db s) !! rid = Some r /\
    reservations (db s') = <[rid := demoted (string_app "copy_of:" pid) r]> (reservations (db s)).
Proof.
  intros Hs H. split; [exact (keeps_good_ok _ _ _ _ (mark_copy_good rid pid) Hs H)|]. unfold mark_copy, opened in H. inv_m.
  match goal with H : copy_predecessors _ _ = _ |- _ => apply copy_predecessors_ok in H as (-> & _); [|by destruct Hs] end.
  match goal with H : _transition _ _ _ _ _ _ _ = _ |- _ => apply transition_moves in H as (r & Hr & _ & ->) end.
  exists r. split; [done|]. cbn. repeat f_equal.
  match goal with H : _row ?k = Ok ?i, H' : reservations _ !! pid = Some ?k |- context [i_row ?i] =>
    apply row_ok in H as [-> _]; destruct Hs as [Hi _]; by rewrite (inv_reservation_id _ Hi _ _ H') end.
Qed.

(** ** The pass over all rows *)

Definition demoting (d d' : database) : Prop := pointwise (fun r r' => r' = r \/ exists why, r' = demoted why r) d d'.

Definition opening (d : database) : Prop := forall k, reservations d !! r_id k = Some k -> exists i, _row k = Ok i.

Lemma demoting_insert d d' k why :
  demoting d d' -> reservations d !! r_id k = Some k -> forall d2, reservations d2 = <[r_id k := demoted why k]> (reservations d') -> demoting d d2.
Proof.
  intros Hd Hk d2 E rid. rewrite E. destruct (decide (rid = r_id k)) as [->|Hne].
  - rewrite Hk, lookup_insert_eq. constructor. eauto.
  - rewrite lookup_insert_ne by done. apply Hd.
Qed.

(** Demotion hides nobody: the same submissions are seen before and after it. *)
Lemma seen_after d d' k i : demoting d d' -> row_at d k i ->
  exists k' i', row_at d' k' i' /\ r_id k' = r_id k /\ i_arrival i' = i_arrival i /\ i_fingerprint i' = i_fingerprint i.
Proof.
  intros Hd [Hk Hi]. destruct (pointwise_lookup _ _ _ _ _ Hd Hk) as (k' & Hk' & [->|[why ->]]).
  - by exists k, i.
  - exists (demoted why k), (with_row (demoted why k) i). split_and!; try done. split; [done|]. by apply row_demoted.
Qed.

Lemma seen_before d d' k' i' : lease_inv d -> opening d -> demoting d d' -> row_at d' k' i' ->
  exists k i, row_at d k i /\ r_id k' = r_id k /\ i_arrival i' = i_arrival i /\ i_fingerprint i' = i_fingerprint i.
Proof.
  intros Hinv Ho Hd [Hk' Hi']. destruct (pointwise_back _ _ _ _ _ Hd Hk') as (k & Hk & Hkk).
  pose proof (inv_reservation_id _ Hinv _ _ Hk) as Eid. rewrite <- Eid in Hk. destruct (Ho k Hk) as [i Hi].
  exists k, i. split; [done|]. split; [done|]. destruct Hkk as [->|[why ->]].
  - assert (i' = i) as -> by congruence. done.
  - pose proof (row_demoted why _ _ Hi) as Hi2. assert (i' = with_row (demoted why k) i) as -> by congruence. done.
Qed.

(** [p] is the first submission that [j] copies. *)
Definition first_copied (d : database) (j : IntakeReservation) (p : string) : Prop :=
  exists k i, row_at d k i /\ r_id k = p /\ is_copy i j /\
    forall k' i', row_at d k' i' -> is_copy i' j -> cmp_leb (key_of i) (key_of i') = true.

Definition original (d : database) (j : IntakeReservation) : Prop := forall k i, row_at d k i -> ~ is_copy i j.

Lemma demote_copy_ok d0 k j t t' out :
  lease_inv d0 -> opening d0 -> good t -> demoting d0 (db t) -> row_at d0 k j -> reservations (db t) !! r_id k = Some k ->
  demote_copy j t = (t', Ok out) ->
  good t' /\
  ((db t' = db t /\ out = [] /\ (settled_already j = true \/ original d0 j)) \/
   (exists p, out = [(r_id k, p)] /\ settled_already j = false /\ first_copied d0 j p /\
      reservations (db t') = <[r_id k := demoted (string_app "copy_of:" p) k]> (reservations (db t)))).
Proof.
  intros Hinv Ho Ht Hd [Hk0 Hj] Hk H. split; [exact (keeps_good_ok _ _ _ _ (demote_copy_good j) Ht H)|].
  unfold demote_copy in H. rewrite (proj1 (row_ok _ _ Hj)) in H. destruct (settled_already j) eqn:Es; inv_m; [left; eauto|].
  match goal with H : copy_predecessors _ _ = _ |- _ => apply copy_predecessors_ok in H as (-> & r & j' & Hr & Hj' & Hs & Hel); [|by destruct Ht] end.
  assert (r = k) as -> by congruence. assert (j' = j) as -> by congruence.
  destruct a as [|p ms]; inv_m.
  - left. split_and!; [done..|]. right. intros k1 i1 Hk1 Hc. destruct (seen_after _ _ _ _ Hd Hk1) as (k2 & i2 & Hk2 & _ & Ea & Ef).
    assert (Hin : i2 ∈ []) by (apply Hel; split; [by exists k2|by eapply is_copy_arrival in Hc]). by apply elem_of_nil in Hin.
  - right. match goal with H : mark_copy _ _ _ = _ |- _ => apply mark_copy_ok in H as [_ (r & Hr' & Er)]; [|done] end.
    assert (r = k) as -> by congruence. exists (r_id (i_row p)). split_and!; try done.
    assert (Hp : p ∈ p :: ms) by by left. apply Hel in Hp as [[kp Hkp] Hc].
    destruct (seen_before _ _ _ _ Hinv Ho Hd Hkp) as (k1 & i1 & Hk1 & Eid & Ea & Ef).
    destruct Hkp as [_ Hp]. apply row_ok in Hp as [-> _]. exists k1, i1. split; [done|]. split; [done|].
    split; [by eapply is_copy_arrival in Hc|]. intros k' i' Hk' Hc'. destruct (seen_after _ _ _ _ Hd Hk') as (k2 & i2 & Hk2 & _ & Ea2 & Ef2).
    assert (Hin : i2 ∈ p :: ms) by (apply Hel; split; [by exists k2|by eapply is_copy_arrival in Hc']).
    unfold key_of. rewrite <- Ea, <- Ea2. apply elem_of_cons in Hin as [->|Hin]; [apply cmp_leb_refl|].
    inversion Hs as [|? ? _ Hall]; subst. rewrite Forall_forall in Hall. by apply Hall.
Qed.

(** What becomes of a row. *)
Definition outcome (d0 : database) (k : reservation) (j : IntakeReservation) (d : database) (pairs : list (string * string)) : Prop :=
  (reservations d !! r_id k = Some k /\ (settled_already j = true \/ original d0 j)) \/
  (exists p, (r_id k, p) ∈ pairs /\ settled_already j = false /\ first_copied d0 j p /\
     reservations d !! r_id k = Some (demoted (string_app "copy_of:" p) k)).

Lemma pass_ok d0 l : lease_inv d0 -> opening d0 -> forall t t' outs,
  good t -> demoting d0 (db t) -> NoDup ((fun i => r_id (i_row i)) <$> l) ->
  (forall j, j ∈ l -> row_at d0 (i_row j) j /\ reservations (db t) !! r_id (i_row j) = Some (i_row j)) ->
  collect demote_copy l t = (t', Ok outs) ->
  demoting d0 (db t') /\ lease_inv (db t') /\
  (forall rid, rid ∉ (fun i => r_id (i_row i)) <$> l -> reservations (db t') !! rid = reservations (db t) !! rid) /\
  (forall j, j ∈ l -> outcome d0 (i_row j) j (db t') (concat outs)).
Proof.
  intros Hinv Ho. induction l as [|j l IH]; intros t t' outs Ht Hd Hnd Hl H; cbn in H; inv_m.
  { split; [done|]. split; [by destruct Ht|]. split; [done|]. by intros j ?%elem_of_nil. }
  rewrite fmap_cons in Hnd. apply NoDup_cons in Hnd as [Hj Hnd]. destruct (Hl j (list_elem_of_here _ _)) as [Hj0 Hjt].
  match goal with H1 : demote_copy j t = (?t1, Ok ?o), H2 : collect _ _ ?t1 = (?t2, Ok ?os) |- _ =>
    rename t1 into mid, t2 into fin, o into one, os into rest; rename H2 into Hrest;
    destruct (demote_copy_ok _ _ _ _ _ _ Hinv Ho Ht Hd Hj0 Hjt H1) as [Hgm Hone] end.
  assert (Hmid : demoting d0 (db mid) /\ (forall rid, rid <> r_id (i_row j) -> reservations (db mid) !! rid = reservations (db t) !! rid) /\
    outcome d0 (i_row j) j (db mid) one).
  { destruct Hone as [(E & -> & Hs)|(p & -> & Hs & Hf & E)].
    - rewrite E. split; [done|]. split; [done|]. by left.
    - split; [eapply demoting_insert; [done|apply Hj0|done]|]. rewrite E. split; [intros rid Hne; by rewrite lookup_insert_ne|].
      right. exists p. rewrite E, lookup_insert_eq. split_and!; [by left|done..]. }
  destruct Hmid as (Hdm & Hother & Hout).
  destruct (IH mid fin rest Hgm Hdm Hnd) as (Hd' & Hinv' & Hframe & Hrows); [|exact Hrest|].
  { intros i Hi. destruct (Hl i) as [? Hi']; [by right|]. split; [done|]. rewrite Hother; [done|].
    intros E. apply Hj. rewrite <- E. by apply (list_elem_of_fmap_2 (fun i => r_id (i_row i))). }
  split; [done|]. split; [done|]. split.
  - intros rid Hrid. rewrite fmap_cons in Hrid. rewrite Hframe by set_solver. apply Hother. set_solver.
  - intros i [->|Hi]%elem_of_cons.
    + unfold outcome in *. rewrite Hframe by done. cbn [concat].
      destruct Hout as [?|(p & Hp & ?)]; [by left|]. right. exists p. split; [|done]. apply elem_of_app. by left.
    + destruct (Hrows i Hi) as [?|(p & Hp & ?)]; [by left|]. right. exists p. split; [|done]. cbn [concat]. apply elem_of_app. by right.
Qed.

Lemma reconcile_ok s s' pairs : good s -> reconcile_copies s = (s', Ok pairs) ->
  opening (db s) /\ demoting (db s) (db s') /\ lease_inv (db s') /\
  forall k j, row_at (db s) k j -> outcome (db s) k j (db s') pairs.
Proof.
  intros Hs H. pose proof Hs as [Hinv _]. unfold reconcile_copies in H. inv_m.
  match goal with H : all s = _ |- _ => apply all_ok in H as (-> & _ & Hnd & Hel & Ho); [|done] end.
  match goal with H : collect demote_copy _ _ = (?t, _) |- _ => rename H into Hpass; rename t into fin end.
  assert (Hrow : forall k j, row_at (db s) k j -> i_row j = k) by (intros k j [_ Hj]; by apply row_ok in Hj as [? _]).
  apply (pass_ok (db s)) in Hpass as (Hd & Hinv' & _ & Hout); try done.
  - split; [done|]. split; [done|]. split; [done|]. intros k j Hk. pose proof (Hrow _ _ Hk) as <-. apply Hout, Hel. eauto.
  - apply pointwise_refl. by left.
  - intros j [k Hk]%Hel. pose proof (Hrow _ _ Hk) as <-. split; [done|]. by destruct Hk.
Qed.

(** C18: the first to submit keeps the delta. After the copies have been reconciled, every row whose delta is that of an
    earlier submission of another hotkey has failed or expired. A row that changed was such a copy and still undecided; it
    failed as a copy of the earliest submission it copies, and the pair was reported. *)
Theorem copies_lose (s s' : store) (pairs : list (string * string)) :
  good s -> reconcile_copies s = (s', Ok pairs) ->
  (forall k i r j, row_at (db s') k i -> row_at (db s') r j -> is_copy i j -> r_status r = failed \/ r_status r = expired) /\
  (forall rid r, reservations (db s) !! rid = Some r -> reservations (db s') !! rid <> Some r ->
     exists j p, _row r = Ok j /\ settled_already j = false /\ first_copied (db s) j p /\ (rid, p) ∈ pairs /\
       reservations (db s') !! rid = Some (demoted (string_app "copy_of:" p) r)).
Proof.
  intros Hs H. pose proof Hs as [Hinv _]. destruct (reconcile_ok _ _ _ Hs H) as (Ho & Hd & Hinv' & Hout). split.
  - intros k i r j Hk Hr Hc. destruct (seen_before _ _ _ _ Hinv Ho Hd Hk) as (k0 & i0 & Hk0 & _ & Ea & Ef).
    destruct (seen_before _ _ _ _ Hinv Ho Hd Hr) as (r0 & j0 & Hr0 & Eid & Eaj & Efj).
    assert (Hc0 : is_copy i0 j0) by by eapply is_copy_arrival in Hc.
    destruct Hr as [Hr Hj]. rewrite Eid in Hr. destruct (Hout _ _ Hr0) as [[E Hset]|(p & _ & _ & _ & E)].
    + assert (r0 = r) as -> by congruence. destruct Hset as [Hset|Hor]; [|by destruct (Hor _ _ Hk0 Hc0)].
      unfold settled_already in Hset. destruct Hc0 as (f & g & _ & Eg & _). rewrite Eg in Hset. apply bool_decide_eq_true in Hset.
      destruct Hr0 as [_ Hj0]. apply row_ok in Hj0 as [Ei _]. rewrite Ei in Hset. set_solver.
    + rewrite Hr in E. injection E as ->. by left.
  - intros rid r Hr Hne. pose proof (inv_reservation_id _ Hinv _ _ Hr) as <-. destruct (Ho r Hr) as [j Hj].
    destruct (Hout r j (conj Hr Hj)) as [[E _]|(p & Hp & Hset & Hf & E)]; [done|]. exists j, p. by split_and!.
Qed.

(** ** Publication *)

(** The rows of a target in an epoch and arena that were neither refused nor expired. *)
Definition competing (epoch : Z) (target arena : string) (r : reservation) : bool :=
  same_family epoch target arena r && negb (in_statuses r [failed; expired]).

Lemma count_update p d d' rid :
  (forall k, k <> rid -> reservations d' !! k = reservations d !! k) -> count p d' <= count p d + 1.
Proof.
  intros H. rewrite !count_size. assert (Hsub : ids_where p d' ⊆ ids_where p d ∪ {[ rid ]}).
  { intros k (r & Hr & Hp)%ids_where_elem. destruct (decide (k = rid)) as [->|Hne]; [set_solver|].
    rewrite H in Hr by done. apply elem_of_union_l, ids_where_elem. eauto. }
  apply subseteq_size in Hsub. rewrite size_union_alt in Hsub.
  assert (size ({[ rid ]} ∖ ids_where p d : gset string) <= size ({[ rid ]} : gset string))%nat by (apply subseteq_size; set_solver).
  rewrite size_singleton in H0. lia.
Qed.

Lemma published_reads f st why digest root arena r i : _row (publish_row st why f digest root arena r) = Ok i ->
  i_members i = f_members f /\ i_fingerprint i = Some f /\ accepted_fingerprint f.
Proof.
  intros H. unfold _row in H. apply bind_Ok in H as (read & Hread & H). apply bind_Ok in H as (a & _ & H).
  assert (Hm : forall j k, make_intake j = Ok k -> k = j).
  { intros j k Hk. unfold make_intake in Hk. inv_ok. repeat step_guard Hk. by injection Hk. }
  apply Hm in H as ->. cbn [i_members i_fingerprint].
  unfold corrupt in Hread. cbn [publish_row r_columns x_members x_fingerprint read_strings] in Hread.
  rewrite all_strings_texts in Hread. cbn [mbind result_bind] in Hread. rewrite fingerprint_reads in Hread.
  destruct (make_fingerprint f) as [f'|e] eqn:E; [|discriminate Hread].
  injection Hread as <-. pose proof (make_fingerprint_Ok _ _ E) as ->. done.
Qed.

Lemma competing_bound e target arena d d' rid n :
  (forall k, k <> rid -> reservations d' !! k = reservations d !! k) ->
  (forall r', reservations d' !! rid = Some r' -> competing e target arena r' = true -> count (same_family e target arena) d < n) ->
  count (competing e target arena) d' <= Z.max n (count (competing e target arena) d).
Proof.
  intros Hother Hnew. destruct (reservations d' !! rid) as [r'|] eqn:E.
  - destruct (competing e target arena r') eqn:Ec.
    + specialize (Hnew _ eq_refl Ec). pose proof (count_update (competing e target arena) d d' rid Hother) as Hu.
      assert (count (competing e target arena) d <= count (same_family e target arena) d); [|lia].
      apply count_le. intros k r Hr [? _]%andb_true_iff. eauto.
    + assert (count (competing e target arena) d' <= count (competing e target arena) d); [|lia].
      apply count_le. intros k r Hr Hc. destruct (decide (k = rid)) as [->|Hne]; [congruence|]. exists r. by rewrite <- Hother.
  - assert (count (competing e target arena) d' <= count (competing e target arena) d); [|lia].
    apply count_le. intros k r Hr Hc. destruct (decide (k = rid)) as [->|Hne]; [congruence|]. exists r. by rewrite <- Hother.
Qed.

(** A successful publication concerns a submission in transport and no other row; what it stores opens as the
    fingerprint and the members it was given; and it never leaves more than [max_per_target_epoch] competing rows in an
    epoch, target and arena, unless there were more already: beyond the bound the submission is refused. *)
Theorem publication_contract (cfg : config) (legacy : option string) (rid : string) (f : SubmittedDeltaFingerprint)
    (digest root arena : string) (s s' : store) (out : IntakeReservation) :
  good s -> mark_published cfg legacy rid f digest root arena s = (s', Ok out) ->
  (exists r, reservations (db s) !! rid = Some r /\ r_status r = fetching) /\
  reservations (db s') = <[rid := i_row out]> (reservations (db s)) /\
  i_fingerprint out = Some f /\ i_members out = f_members f /\ accepted_fingerprint f /\
  (r_status (i_row out) = published \/
   (r_status (i_row out) = failed /\ r_reason (i_row out) = "target_epoch_admission_limit")) /\
  (forall epoch target a, count (competing epoch target a) (db s') <=
     Z.max (max_per_target_epoch (policy cfg)) (count (competing epoch target a) (db s))).
Proof.
  intros Hs H. unfold mark_published, opened in H. inv_m.
  match goal with H : update_reservation _ _ _ = _ |- _ => apply update_reservation_ok in H as [[? _]|(r & Hr & _ & ->)] end; [congruence|].
  match goal with H : _row ?k = Ok ?i, H' : reservations (db s) !! rid = Some ?k |- _ =>
    assert (k = r) as -> by congruence; apply row_ok in H as [Ei _]; rewrite Ei in * end.
  cbn [db with_reservations reservations] in *.
  set (full := max_per_target_epoch (policy cfg) <=? _) in *. set (new := publish_row _ _ _ _ _ _ _) in *.
  match goal with H : <[rid:=new]> _ !! rid = Some ?k |- _ =>
    rewrite lookup_insert_eq in H; assert (k = new) as -> by congruence end.
  match goal with H : _row new = Ok out |- _ =>
    destruct (row_ok _ _ H) as [Enew _]; destruct (published_reads _ _ _ _ _ _ _ _ H) as (Emem & Ef & Hacc); rewrite Enew end.
  apply negb_false_iff, bool_decide_eq_true, list_elem_of_singleton in Hf.
  split; [by exists r|]. split; [done|]. split; [done|]. split; [done|]. split; [done|]. split.
  { unfold new. cbn [r_status r_reason publish_row]. destruct full; [by right|by left]. }
  intros e t ar. apply (competing_bound e t ar (db s) _ rid).
  { intros k Hne. cbn. by rewrite lookup_insert_ne. }
  intros r' E Hc. cbn in E. rewrite lookup_insert_eq in E. injection E as <-.
  apply andb_true_iff in Hc as [Hfam Hlive]. unfold new, same_family in Hfam. cbn [publish_row r_columns x_epoch x_target r_arena] in Hfam.
  apply andb_true_iff in Hfam as [[<-%Z.eqb_eq <-%String.eqb_eq]%andb_true_iff <-%String.eqb_eq].
  unfold new in Hlive. cbn [publish_row r_status in_statuses] in Hlive. unfold in_statuses in Hlive. cbn [publish_row r_status] in Hlive.
  destruct full eqn:Efull; [done|]. unfold full in Efull. by apply Z.leb_gt in Efull.
Qed.

(** ** An example

    Two hotkeys have published the same delta; a third submission is being published. *)

Definition example_delta : SubmittedDeltaFingerprint :=
  mkFingerprint "component" "mlp" (hex 97) ["model.layers.0.mlp"] (hex 97) (hex 98) (hex 99) [] [].

Definition fetched_row (a : FinalizedArrival) : reservation :=
  new_row (example_config false) (match arrival_id a with Ok rid => rid | Raise _ => "" end) a fetching "".

Definition published_row (a : FinalizedArrival) : reservation :=
  publish_row published "" example_delta (hex 100) "/bundles" "" (fetched_row a).

Definition alice : reservation := Eval vm_compute in published_row (example_arrival "alice" 0 6).
Definition bob : reservation := Eval vm_compute in published_row (example_arrival "bob" 1 7).
Definition carol : reservation := Eval vm_compute in fetched_row (example_arrival "carol" 2 8).

Definition example_library : store := mkStore (rows_db [alice; bob; carol]) ∅ ∅.

Lemma example_library_good : good example_library.
Proof.
  apply fresh_good. split; [|done]. split; [done|]. split; [done|]. intros rid r.
  cbn [db example_library rows_db reservations fmap list_fmap list_to_map foldr uncurry].
  rewrite !lookup_insert_Some, lookup_empty. intros [[<- <-]|[_ [[<- <-]|[_ [[<- <-]|[_ ?]]]]]]; done.
Qed.

Lemma example_reconciled : (reconcile_copies example_library).2 = Ok [(r_id bob, r_id alice)].
Proof. vm_compute. reflexivity. Qed.

Lemma copies_lose_witness :
  reservations (db (reconcile_copies example_library).1) !! r_id bob <> Some bob /\
  exists j p, _row bob = Ok j /\ first_copied (db example_library) j p /\ (r_id bob, p) ∈ [(r_id bob, r_id alice)].
Proof.
  assert (H : reconcile_copies example_library = ((reconcile_copies example_library).1, Ok [(r_id bob, r_id alice)])).
  { rewrite <- example_reconciled. apply surjective_pairing. }
  destruct (copies_lose _ _ _ example_library_good H) as [_ Hc].
  assert (Hb : reservations (db example_library) !! r_id bob = Some bob) by (vm_compute; reflexivity).
  assert (Hne : reservations (db (reconcile_copies example_library).1) !! r_id bob <> Some bob) by (vm_compute; discriminate).
  split; [exact Hne|]. destruct (Hc _ _ Hb Hne) as (j & p & Hj & _ & Hf & Hp & _). exists j, p. split; [exact Hj|]. split; [exact Hf|exact Hp].
Defined.

Definition example_publication : store * result IntakeReservation :=
  mark_published (example_config false) None (r_id carol) example_delta (hex 101) "/bundles" "" example_library.

Definition carol_published : IntakeReservation :=
  Eval vm_compute in match example_publication.2 with Ok i => i | Raise _ => mkIntake carol (example_arrival "carol" 2 8) [] None end.

Lemma example_published : example_publication.2 = Ok carol_published.
Proof. vm_compute. reflexivity. Qed.

Lemma publication_contract_witness :
  i_fingerprint carol_published = Some example_delta /\
  reservations (db example_publication.1) = <[r_id carol := i_row carol_published]> (reservations (db example_library)).
Proof.
  split; [reflexivity|].
  assert (H : mark_published (example_config false) None (r_id carol) example_delta (hex 101) "/bundles" "" example_library =
    (example_publication.1, Ok carol_published)).
  { rewrite <- example_published. apply surjective_pairing. }
  destruct (publication_contract _ _ _ _ _ _ _ _ _ _ example_library_good H) as (_ & Hr & _). exact Hr.
Defined.
