(* ===== verification/LeaseContracts.v ===== *)
(** * What the lease operations promise

    The contract of a claim, of an accepted and of a refused result, of an
    expiry, and of the cap on infrastructure releases. *)

From S2P Require Import Prelude PyVal Identity Leases Recovery Store Queue LeaseRows LeaseStore RecoveryStore LeaseInvariant LeaseSafety LeaseMachine QueueContracts.

Open Scope Z_scope.

(** ** The members of an installed lease *)

Lemma claimed_members_sorted lid ms : StronglySorted (key_le m_position) (claimed_members lid ms).
Proof.
  unfold claimed_members, enumerate. generalize 0%nat as n. induction ms as [|x ms IH]; intros n; [constructor|].
  cbn [length seq fmap list_fmap zip zip_with]. constructor; [apply IH|]. clear IH. rewrite Forall_forall.
  intros m ([p y] & -> & Hin)%list_elem_of_fmap. unfold key_le. cbn. apply elem_of_zip_l in Hin.
  apply list_elem_of_fmap in Hin as (k & -> & [Hk _]%elem_of_seq). rewrite cmp_leb_Z. lia.
Qed.

Lemma claimed_members_values lid ms : member_of_row <$> claimed_members lid ms = ms.
Proof.
  unfold claimed_members, enumerate. generalize 0%nat as n. induction ms as [|x ms IH]; intros n; [done|].
  cbn [length seq fmap list_fmap zip zip_with]. f_equal; [by destruct x|apply IH].
Qed.

Lemma member_rows_installed d d' lid ms :
  lease_inv d -> leases d !! lid = None -> lease_members d' = lease_members d ++ claimed_members lid ms ->
  member_rows d' lid = claimed_members lid ms.
Proof.
  intros Hi Hn Em. unfold member_rows. rewrite Em, filter_app.
  assert (E1 : filter (fun m => m_lease m = lid) (lease_members d) = []).
  { apply filter_none. intros m Hm E. destruct (inv_reference _ Hi m Hm) as [? Hx]. congruence. }
  assert (E2 : filter (fun m => m_lease m = lid) (claimed_members lid ms) = claimed_members lid ms).
  { apply filter_all. by intros m (? & _)%claimed_members_elem. }
  rewrite E1, E2. apply sorted_by_fix, claimed_members_sorted.
Qed.

(** Generations grow: a lease comes after every earlier lease of its reservations. *)
Lemma max_Z_elem x l : x ∈ l -> x <= max_Z l.
Proof.
  induction l as [|y l IH]; [by intros ?%elem_of_nil|]. intros [->|Hx]%elem_of_cons; simpl; [lia|].
  specialize (IH Hx). lia.
Qed.

Lemma next_generation_above d ids m row :
  m ∈ lease_members d -> m_reservation m ∈ ids -> leases d !! m_lease m = Some row ->
  l_generation row < next_generation d ids.
Proof.
  intros Hm Hin Hl. unfold next_generation. enough (l_generation row <= max_Z (omap (fun m =>
    if decide (m_reservation m ∈ ids) then l_generation <$> (leases d !! m_lease m) else None) (lease_members d))) by lia.
  apply max_Z_elem, list_elem_of_omap. exists m. split; [done|]. by rewrite decide_True, Hl by done.
Qed.

(** What the store records of an active lease. *)
Record leased (cfg : config) (d : database) (lease : EvaluationLease) : Prop := {
  leased_row : leases d !! lease_id lease = Some (mkLeaseRow (competition_arena cfg) (lease_id lease)
    (generation lease) (stage lease) (owner lease) (claimed_block lease) (initial_expires_block lease)
    (expires_block lease) active 0 "" "");
  leased_members : forall rid, rid ∈ reservation_ids lease -> has_active_member rid d = true;
  leased_status : queue_state_ok d lease = true;
  leased_reopens : forall row, leases d !! lease_id lease = Some row -> _evaluation_lease cfg d row = Ok lease;
}.

Lemma evaluation_lease_local cfg d d' row :
  member_rows d' (l_id row) = member_rows d (l_id row) -> _evaluation_lease cfg d' row = _evaluation_lease cfg d row.
Proof. intros E. unfold _evaluation_lease. by rewrite E. Qed.

Lemma claimed_members_active lid ms rid :
  rid ∈ reservation_id <$> ms -> existsb (is_active_member rid) (claimed_members lid ms) = true.
Proof.
  intros (x & -> & Hx)%list_elem_of_fmap. rewrite <- (claimed_members_values lid ms) in Hx.
  apply list_elem_of_fmap in Hx as (m & -> & Hm). apply existsb_exists. exists m. split; [by apply list_elem_of_In|].
  unfold is_active_member. destruct (claimed_members_elem _ _ _ Hm) as (_ & -> & _). cbn. apply String.eqb_refl.
Qed.

Lemma queue_state_spec d lease :
  queue_state_ok d lease = true <->
  forall m, m ∈ members lease -> exists r, reservations d !! reservation_id m = Some r /\ r_status r = prior_status m.
Proof.
  unfold queue_state_ok. rewrite forallb_forall. split; intros H m Hm.
  - apply list_elem_of_In, H in Hm. destruct (reservations d !! _) as [r|]; [|done].
    apply bool_decide_eq_true in Hm. eauto.
  - apply list_elem_of_In, H in Hm as (r & -> & E). by apply bool_decide_eq_true.
Qed.

(** An installation records its lease. *)
Lemma installed_leased cfg lid gen st own ms b e s s' lease :
  lease_inv (db s) -> install_lease cfg lid gen st own ms b e s = (s', Ok lease) ->
  (forall m, m ∈ ms -> exists r, reservations (db s) !! reservation_id m = Some r /\ r_status r = prior_status m) ->
  lease = mkLease lid gen st own ms b e e /\ leased cfg (db s') lease.
Proof.
  intros Hi H Hms. apply install_lease_ok in H as (Hfree & _ & _ & _ & ev & rs & es & Hl & _ & _ & _ & _ & ->).
  pose proof Hl as [El _]%evaluation_lease_Ok.
  assert (Erows : member_rows (with_members (lease_members (db s) ++ claimed_members lid ms)
             (with_leases (<[lid := installed_row cfg lid gen st own b e]> (leases (db s))) (db s))) lid = claimed_members lid ms)
    by by apply (member_rows_installed (db s)).
  cbn [installed_row l_id l_generation l_stage l_owner l_claimed l_initial l_expires] in El.
  rewrite Erows, claimed_members_values in El. subst lease. split; [done|]. split.
  - apply lookup_insert_eq.
  - intros rid Hin. unfold has_active_member. cbn. rewrite existsb_app, claimed_members_active by done. by rewrite orb_true_r.
  - by apply queue_state_spec.
  - intros row. cbn. rewrite lookup_insert_eq. intros [= <-]. rewrite <- Hl. by apply evaluation_lease_local.
Qed.

(** ** Expiry *)

Lemma joined_leases_elem p d l :
  l ∈ joined_leases p d <->
  p l = true /\ (exists lid, leases d !! lid = Some l) /\ is_Some (first_member d (l_id l)).
Proof.
  unfold joined_leases. split.
  - intros ([k l'] & -> & Hin)%list_elem_of_fmap. apply sorted_by_elem, list_elem_of_omap in Hin as (x & Hx & Ex).
    apply list_elem_of_filter in Hx as [Hp Hx]. apply list_elem_of_fmap in Hx as ([lid y] & -> & Hy). cbn in *.
    apply elem_of_map_to_list in Hy. destruct (first_member d (l_id y)) as [r|] eqn:E; [|done].
    injection Ex as <- <-. cbn. rewrite E. eauto.
  - intros (Hp & (lid & Hl) & (r & Hr)). apply list_elem_of_fmap. exists ((arrival_key r, l_id l), l). split; [done|].
    apply sorted_by_elem, list_elem_of_omap. exists l. split; [|by rewrite Hr].
    apply list_elem_of_filter. split; [done|]. apply list_elem_of_fmap. exists (lid, l). split; [done|].
    by apply elem_of_map_to_list.
Qed.

(** An active lease has its first member in the queue. *)
Lemma active_first_member d lid l :
  lease_inv d -> leases d !! lid = Some l -> l_state l = active -> is_Some (first_member d lid).
Proof.
  intros Hi Hl Hst. unfold first_member.
  destruct (filter (fun m => String.eqb (m_lease m) lid && (m_position m =? 0) = true) (lease_members d)) as [|m ms] eqn:E.
  - exfalso. destruct (inv_first _ Hi _ _ Hl Hst) as (m & Hm & El & Hp).
    assert (Hin : m ∈ []); [|by apply elem_of_nil in Hin]. rewrite <- E. apply list_elem_of_filter.
    by rewrite El, Hp, String.eqb_refl.
  - assert (Hin : m ∈ m :: ms) by left. rewrite <- E in Hin. apply list_elem_of_filter in Hin as [Hm Hin].
    apply andb_true_iff in Hm as [El%String.eqb_eq _].
    destruct (inv_frozen _ Hi m Hin) as (r & -> & _); [|by eauto]. apply (inv_whole _ Hi m Hin).
    unfold lease_is_active. rewrite El, Hl. by apply bool_decide_eq_true_2.
Qed.

Definition expired_row (b : Z) (l : lease_row) : lease_row :=
  finish lease_expired b (l_result l) "evaluation_lease_expired" l.

(** The members of the expired leases are free. *)
Definition close_all (ids : list string) (m : member_row) : member_row :=
  if decide (m_lease m ∈ ids) then deactivate (m_lease m) m else m.

Lemma close_all_cons lid ids m : close_all ids (deactivate lid m) = close_all (lid :: ids) m.
Proof.
  unfold close_all, deactivate, is_open_of. destruct m as [k p r q a]. destruct a; cbn; repeat (case_decide || case_match);
    cbn in *; repeat match goal with H : String.eqb _ _ = true |- _ => apply String.eqb_eq in H; subst
      | H : String.eqb _ _ = false |- _ => apply String.eqb_neq in H end; set_solver.
Qed.

Lemma close_all_nil (ms : list member_row) : close_all [] <$> ms = ms.
Proof. transitivity (id <$> ms); [|apply list_fmap_id]. apply list_fmap_ext. intros i m _. unfold close_all. by rewrite decide_False by (by intros ?%elem_of_nil). Qed.

(** Leases expired between two databases: their rows, their members, one event each, and nothing else. *)
Definition expired_between (d d' : database) (ids : list string) : Prop :=
  exists es, d' = with_events (lease_events d ++ es) (with_members (close_all ids <$> lease_members d) (with_leases (leases d') d)) /\
    ev_lease_id <$> es = ids /\ Forall (fun e => event_type e = ev_expired) es.

(** Expiring a list of rows expires each of them, and nothing else. *)
Lemma expire_all_ok cfg b rows s s' ls :
  collect (expire_one cfg b) rows s = (s', Ok ls) ->
  lease_id <$> ls = l_id <$> rows /\ expired_between (db s) (db s') (l_id <$> rows) /\
  (forall lid, lid ∉ l_id <$> rows -> leases (db s') !! lid = leases (db s) !! lid) /\
  (forall lid, lid ∈ l_id <$> rows -> exists l, leases (db s) !! lid = Some l /\ l_state l = active /\
     leases (db s') !! lid = Some (expired_row b l)).
Proof.
  revert s ls. induction rows as [|row rows IH]; intros s ls H; simpl in H; inv_m.
  { split_and!; try done; [|by intros lid ?%elem_of_nil]. exists []. cbn [fmap list_fmap]. rewrite app_nil_r, close_all_nil.
    split_and!; [by destruct (db s)|done|constructor]. }
  match goal with H : expire_one _ _ _ _ = _ |- _ => apply expire_one_ok in H as (Hl & l & e & El & Hst & _ & _ & _ & Ht & Hid & ->) end.
  match goal with H : collect _ _ _ = _ |- _ => apply IH in H as (E1 & (es & Ed & Eids & Ety) & E3 & E4) end. cbn in *.
  apply evaluation_lease_Ok in Hl as [Hl _].
  assert (Eid : lease_id a = l_id row) by by rewrite Hl. rewrite Eid in *.
  assert (Hnin : l_id row ∉ l_id <$> rows).
  { intros Hin. destruct (E4 _ Hin) as (l' & Hl' & Hact & _). rewrite lookup_insert_eq in Hl'. by injection Hl' as <-. }
  split_and!.
  - by rewrite E1.
  - exists (e :: es). rewrite Ed. cbn. split_and!; [|congruence|by constructor].
    assert (Em : close_all (l_id <$> rows) <$> (deactivate (l_id row) <$> lease_members (db s)) =
                 close_all (l_id row :: (l_id <$> rows)) <$> lease_members (db s)).
    { rewrite <- list_fmap_compose. apply list_fmap_ext. intros i m _. apply close_all_cons. }
    unfold with_events, with_members, with_leases. cbn. by rewrite Em, <- app_assoc.
  - intros lid Hn. rewrite E3 by set_solver. rewrite lookup_insert_ne by set_solver. done.
  - intros lid [->|Hin]%elem_of_cons.
    + exists l. split_and!; try done. rewrite E3 by done. by rewrite lookup_insert_eq.
    + destruct (E4 _ Hin) as (l' & Hl' & Hact & E). exists l'. split_and!; try done.
      rewrite lookup_insert_ne in Hl' by congruence. done.
Qed.

Lemma expire_leases_exact cfg b s s' ls :
  good s -> _expire_evaluation_leases cfg b s = (s', Ok ls) ->
  expired_between (db s) (db s') (lease_id <$> ls) /\
  (forall lid, lid ∈ lease_id <$> ls <-> exists row, leases (db s) !! lid = Some row /\ due cfg b row = true) /\
  (forall lid, leases (db s') !! lid = (fun row => if due cfg b row then expired_row b row else row) <$> (leases (db s) !! lid)).
Proof.
  intros (Hi & _). unfold _expire_evaluation_leases. intros H. inv_m.
  match goal with H : (if recovery_enabled cfg then _ else _) s = (?x, _) |- _ => assert (x = s) as -> end.
  { destruct (recovery_enabled cfg); [by eapply orphan_check_ok|by inv_m]. }
  apply expire_all_ok in H as (E1 & Hb & E3 & E4). rewrite E1.
  assert (Hin : forall lid, lid ∈ l_id <$> joined_leases (due cfg b) (db s) <->
            exists row, leases (db s) !! lid = Some row /\ due cfg b row = true).
  { intros lid. split.
    - intros (l & -> & (Hd & (k & Hk) & _)%joined_leases_elem)%list_elem_of_fmap.
      rewrite (inv_id _ Hi _ _ Hk). eauto.
    - intros (l & Hl & Hd). pose proof (inv_id _ Hi _ _ Hl) as <-. apply list_elem_of_fmap_2, joined_leases_elem.
      split_and!; [done|by eauto|]. eapply active_first_member; [done..|].
      unfold due in Hd. by repeat (apply andb_true_iff in Hd as [Hd _]); apply bool_decide_eq_true in Hd. }
  split; [done|]. split; [done|]. intros lid. destruct (leases (db s) !! lid) as [row|] eqn:Hl.
  - cbn. destruct (due cfg b row) eqn:Hd.
    + destruct (E4 lid) as (l & El & _ & E); [apply Hin; by eauto|]. rewrite E. by assert (l = row) as -> by congruence.
    + rewrite E3; [done|]. rewrite Hin. intros (l & El & Hd'). congruence.
  - rewrite E3; [done|]. rewrite Hin. intros (l & El & _). congruence.
Qed.

(** A lease the expiry owns: active, without a recovery of its own, its deadline not after [b]. *)
Definition overdue (cfg : config) (b : Z) (row : lease_row) : Prop :=
  l_state row = active /\ (recovery_enabled cfg = true -> l_stage row <> "qualification") /\ l_expires row <= b.

Lemma due_overdue cfg b row : due cfg b row = true <-> overdue cfg b row.
Proof.
  unfold due, overdue. rewrite !andb_true_iff, bool_decide_eq_true, negb_true_iff, andb_false_iff, Z.leb_le.
  destruct (String.eqb_spec (l_stage row) "qualification"), (recovery_enabled cfg); naive_solver.
Qed.

(** What an installation does to the database: one lease, its members, one event, and its recovery. *)
Definition installed (cfg : config) (d d' : database) (lease : EvaluationLease) : Prop :=
  leases d !! lease_id lease = None /\ exists e rs rv,
    d' = with_recoveries rs rv (with_events (lease_events d ++ [e])
           (with_members (lease_members d ++ claimed_members (lease_id lease) (members lease))
              (with_leases (<[lease_id lease := installed_row cfg (lease_id lease) (generation lease) (stage lease)
                 (owner lease) (claimed_block lease) (expires_block lease)]> (leases d)) d))) /\
    event_type e = ev_claimed /\ ev_lease_id e = lease_id lease /\ finalized_block e = claimed_block lease /\
    if recovery_enabled cfg
    then exists r e', rs = <[lease_id lease := recovery_row_of r]> (recoveries d) /\ rv = recovery_events d ++ [e'] /\
           event_of r EV_CLAIMED e' /\ phase r = CLAIMED /\ resolution r = UNRESOLVED /\ revision r = 0 /\ rec_lease r = lease
    else rs = recoveries d /\ rv = recovery_events d.

(** What a claim does to the database [d] it started from; [mid] is [d] once the overdue leases are expired. *)
Record claim_effect (cfg : config) (b : Z) (d mid d' : database) (lease : EvaluationLease) : Prop := {
  ce_rows rid r : reservations d !! rid = Some r ->
    (overaged cfg b mid r -> reservations d' !! rid = Some (set_status expired "NO_DECISION" _AUTOMATIC_EXPIRY_REASON r)) /\
    (~ overaged cfg b mid r -> reservations d' !! rid = Some r);
  ce_no_row rid : reservations d !! rid = None -> reservations d' !! rid = None;
  ce_leases lid row : leases d !! lid = Some row -> lid <> lease_id lease /\
    (overdue cfg b row -> leases d' !! lid = Some (expired_row b row)) /\ (~ overdue cfg b row -> leases d' !! lid = Some row);
  ce_no_lease lid : lid <> lease_id lease -> leases d !! lid = None -> leases d' !! lid = None;
  ce_tables : exists ids es e rs rv,
    (forall lid, lid ∈ ids <-> exists row, leases d !! lid = Some row /\ overdue cfg b row) /\
    d' = with_recoveries rs rv (with_events (lease_events d ++ es ++ [e])
           (with_members ((close_all ids <$> lease_members d) ++ claimed_members (lease_id lease) (members lease))
              (with_leases (leases d') (with_reservations (reservations d') d)))) /\
    ev_lease_id <$> es = ids /\ Forall (fun x => event_type x = ev_expired) es /\
    event_type e = ev_claimed /\ ev_lease_id e = lease_id lease /\ finalized_block e = b /\
    if recovery_enabled cfg
    then exists r e', rs = <[lease_id lease := recovery_row_of r]> (recoveries d) /\ rv = recovery_events d ++ [e'] /\
           event_of r EV_CLAIMED e' /\ phase r = CLAIMED /\ resolution r = UNRESOLVED /\ revision r = 0 /\ rec_lease r = lease
    else rs = recoveries d /\ rv = recovery_events d;
}.

Lemma expiry_then_install cfg b s mid before ls stale d' lease :
  good s -> _expire_evaluation_leases cfg b s = (mid, Ok ls) -> _expire_stale_rows cfg b mid = (before, Ok stale) ->
  claimed_block lease = b -> installed cfg (db before) d' lease -> claim_effect cfg b (db s) (db mid) d' lease.
Proof.
  intros Hs Hexp Hst Hb (Hfree & e & rs & rv & Ed & Ht & Hid & Hf & Hrec).
  pose proof (expire_leases_good _ _ _ _ _ Hs Hexp) as [Hi _].
  apply expire_leases_exact in Hexp as ((es & Emid & Eids & Hty) & Hin & Hl); [|done].
  apply expire_stale_rows_exact in Hst as ((rs' & ->) & _ & Hup); [|done]. cbn in Hfree, Hup, Ed, Hrec.
  assert (Er : reservations d' = rs') by by rewrite Ed.
  assert (Erow : reservations (db mid) = reservations (db s)) by by rewrite Emid.
  assert (El : forall lid, lid <> lease_id lease -> leases d' !! lid = leases (db mid) !! lid).
  { intros lid Hne. rewrite Ed. cbn. by rewrite lookup_insert_ne by done. }
  split.
  - intros rid r Hr. rewrite Er, Hup, Erow, Hr. cbn. rewrite <- stale_overaged.
    by destruct (stale_at cfg b (db mid) r).
  - intros rid Hr. by rewrite Er, Hup, Erow, Hr.
  - intros lid row Hrow. assert (Hne : lid <> lease_id lease) by (intros ->; by rewrite Hl, Hrow in Hfree).
    split; [done|]. rewrite (El _ Hne), Hl, Hrow. cbn. rewrite <- due_overdue. by destruct (due cfg b row).
  - intros lid Hne Hn. by rewrite (El _ Hne), Hl, Hn.
  - exists (lease_id <$> ls), es, e, rs, rv. setoid_rewrite <- due_overdue.
    assert (Emem : lease_members (db mid) = close_all (lease_id <$> ls) <$> lease_members (db s)) by by rewrite Emid.
    assert (Eev : lease_events (db mid) = lease_events (db s) ++ es) by by rewrite Emid.
    clear Hup Er Erow El Hl Hfree. destruct mid as [[] ma ra]. cbn in *. injection Emid; intros; subst.
    rewrite <- app_assoc. by split_and!.
Qed.

(** Generations grow over every lease of the store that the claim started from. *)
Lemma generation_grows cfg b s mid before ls stale ids m row :
  good s -> _expire_evaluation_leases cfg b s = (mid, Ok ls) -> _expire_stale_rows cfg b mid = (before, Ok stale) ->
  m ∈ lease_members (db s) -> m_reservation m ∈ ids -> leases (db s) !! m_lease m = Some row ->
  l_generation row < next_generation (db before) ids.
Proof.
  intros Hs Hexp Hst Hm Hin Hl. pose proof (expire_leases_good _ _ _ _ _ Hs Hexp) as [Hi _].
  apply expire_leases_exact in Hexp as ((es & Emid & _) & _ & Hrow); [|done].
  apply expire_stale_rows_exact in Hst as ((rs' & ->) & _ & _); [|done].
  assert (Hf : m_lease (close_all (lease_id <$> ls) m) = m_lease m /\ m_reservation (close_all (lease_id <$> ls) m) = m_reservation m).
  { unfold close_all. case_decide; [|done]. destruct (deactivate_fields (m_lease m) m) as (? & ? & _). done. }
  destruct Hf as [El Er].
  assert (E : l_generation row = l_generation (if due cfg b row then expired_row b row else row)) by by case_match.
  rewrite E. eapply next_generation_above with (m := close_all (lease_id <$> ls) m); cbn.
  - rewrite Emid. cbn. by apply list_elem_of_fmap_2.
  - by rewrite Er.
  - by rewrite El, Hrow, Hl.
Qed.

(** C3: a claim that returns a lease: it ran at the durable finalized block; it expired the overdue leases and
    the stale rows of the store it started from and nothing else, and then bound exactly the rows that the
    selection yields, in order and with their statuses. The deadline is the claim block plus the requested
    length, the generation is above every earlier lease of its reservations, and the lease is active in the
    store with all its members. Against the store before the call: only stale rows changed, and only to
    expired; only overdue leases changed, and only to expired, their members freed; the lease, its members,
    one claimed event and, when recoveries are enabled, one claimed recovery with its event were added; every
    other table is the same. *)
Theorem claim_contract (cfg : config) (stg : string) (own : pyval) (b n : Z) (mm ma : option Z) (s s' : store)
    (lease : EvaluationLease) :
  good s -> claim_evaluation_lease cfg stg own b n mm ma s = (s', Ok (Some lease)) ->
  exists mid before ls stale rows,
    (exists h, cursor (db s) = Some (b, h)) /\
    _expire_evaluation_leases cfg b s = (mid, Ok ls) /\ _expire_stale_rows cfg b mid = (before, Ok stale) /\
    _select_evaluation_rows cfg (db before) stg (claim_bound cfg mm) (Some (owner lease)) ma = Ok rows /\ rows <> [] /\
    members lease = (fun r => mkMember (r_id r) (r_status r)) <$> rows /\
    stage lease = stg /\ claimed_block lease = b /\ expires_block lease = b + n /\
    (forall m row, m ∈ lease_members (db s) -> m_reservation m ∈ reservation_ids lease ->
       leases (db s) !! m_lease m = Some row -> l_generation row < generation lease) /\
    leased cfg (db s') lease /\ claim_effect cfg b (db s) (db mid) (db s') lease.
Proof.
  intros Hs H.
  apply claim_ok_some in H as (o & h & s0 & ls & s1 & stale & rows & ms & lid & _ & Hc & Hn & Hb & Hexp & Hst & Hsel & Hne & Hms & Hlid & Hins).
  pose proof (expire_leases_good _ _ _ _ _ Hs Hexp) as Hs0.
  pose proof (keeps_good_ok _ _ _ _ (expire_stale_rows_good cfg b) Hs0 Hst) as (Hi1 & Ha1 & Hr1).
  apply with_authority_ok in Hins as (x & y & Ed & Ea & Hok & Ed' & _); [|done].
  pose proof Hok as (Hfree & _ & _ & _ & e & rs & es & _ & Het & Hel & Hfb & Hrec & Ey)%install_lease_ok.
  apply installed_leased in Hok as [El Hleased]; [|by rewrite Ed|].
  2:{ subst ms. intros m (r & -> & Hr)%list_elem_of_fmap. exists r. split; [|done].
      eapply selected_eligible in Hr as [Hr _]; [|exact Hsel]. rewrite Ed. by apply all_rows_elem. }
  rewrite <- Ed' in Hleased. assert (Hdb : installed cfg (db s1) (db s') lease).
  { rewrite Ed in *. subst lease. split; [done|]. exists e, rs, es. rewrite Ed', Ey. by split_and!. }
  exists s0, s1, ls, stale, rows. subst lease. split_and!; try done; [by eauto| |by eapply expiry_then_install].
  intros m row Hm Hin. eapply generation_grows; [exact Hs|exact Hexp|exact Hst|exact Hm|].
  subst ms. unfold reservation_ids in Hin. cbn in Hin. by rewrite <- list_fmap_compose in Hin.
Qed.

Lemma claim_contract_witness :
  match claim_evaluation_lease (example_config true) "qualification" (VStr "worker") 5 30 None (Some 1) example_store with
  | (s', Ok (Some lease)) => expires_block lease = 35 /\ leased (example_config true) (db s') lease
  | _ => False
  end.
Proof.
  destruct (claim_evaluation_lease _ _ _ _ _ _ _ _) as [s' [[lease|]|e]] eqn:E.
  - apply (claim_contract _ _ _ _ _ _ _ _ _ _ (fresh_good _ example_fresh)) in E.
    destruct E as (mid & before & ls & stale & rows & _ & _ & _ & _ & _ & _ & _ & _ & Hx & _ & Hl & _). split; [exact Hx|exact Hl].
  - vm_compute in E. discriminate E.
  - vm_compute in E. discriminate E.
Defined.

(** ** Accepted results *)

Lemma settled_members cfg d row lease rid ms' :
  lease_inv d -> leases d !! lease_id lease = Some row -> l_state row = active ->
  _evaluation_lease cfg d row = Ok lease -> rid ∈ reservation_ids lease ->
  ms' = deactivate (lease_id lease) <$> lease_members d -> existsb (is_active_member rid) ms' = false.
Proof.
  intros Hi Hrow Hst Hl Hin ->. apply not_true_iff_false. intros (m' & Hm' & Ha)%existsb_exists.
  apply list_elem_of_In, list_elem_of_fmap in Hm' as (m & -> & Hm). unfold is_active_member in Ha.
  destruct (deactivate_fields (lease_id lease) m) as (_ & Er & _ & Hact). rewrite Er in Ha.
  apply andb_true_iff in Ha as [Ha E%String.eqb_eq]. apply Hact in Ha as [Ha Hne].
  apply (lease_owned _ _ _ _ Hi Hrow Hst Hl m Hm Ha Hne). by rewrite E.
Qed.

(** Dispositions are only ever appended. *)
Lemma run_body_appends p s s' u :
  run_body p s = (s', Ok u) -> exists new, dispositions (db s') = dispositions (db s) ++ new.
Proof.
  revert s s' u. induction p as [|e|k IH|rid f k IH|rid k IH|qs rs gs k IH|p IHp k IH]; intros s s' u H; cbn [run_body] in H; inv_m.
  - exists []. by rewrite app_nil_r.
  - by eapply IH.
  - apply IH in H as (new & ->). exists new. by apply update_reservation_ok in Hm as [[_ ->]|(? & _ & _ & ->)].
  - apply IH in H as (new & ->). exists ([rid] ++ new). cbn. by rewrite <- app_assoc.
  - by apply IH in H.
  - unfold transaction in H. destruct (run_body p s) as [s1 [v|e]] eqn:E; [|by eapply IH].
    apply IHp in E as (n1 & E). apply IH in H as (n2 & ->). exists (n1 ++ n2). by rewrite E, app_assoc.
Qed.

(** The cohort is disposed of once: the new dispositions are its members, in some order. *)
Lemma cohort_once d d' lease new :
  NoDup (reservation_ids lease) -> cohort_disposed d d' lease = true -> dispositions d' = dispositions d ++ new ->
  new ≡ₚ reservation_ids lease /\
  forall rid, rid ∈ reservation_ids lease -> exists r, reservations d' !! rid = Some r /\ r_status r <> qualifying.
Proof.
  intros Hnd Hdisp E. unfold cohort_disposed in Hdisp. apply andb_true_iff in Hdisp as [Hall Hlen%Nat.eqb_eq].
  rewrite E, length_app in Hlen. rewrite forallb_forall in Hall.
  assert (Hm : forall rid, rid ∈ reservation_ids lease -> rid ∈ new /\ exists r, reservations d' !! rid = Some r /\ r_status r <> qualifying).
  { intros rid (m & -> & Hin)%list_elem_of_fmap. apply list_elem_of_In, Hall, andb_true_iff in Hin as [Hc Hq].
    apply Nat.eqb_eq in Hc. unfold disposition_count in Hc. rewrite E, filter_app, length_app in Hc. split.
    - destruct (filter (fun r => r = reservation_id m) new) as [|x l] eqn:Ef; [simpl in Hc; lia|].
      assert (Hx : x ∈ filter (fun r => r = reservation_id m) new) by (rewrite Ef; by left).
      by apply list_elem_of_filter in Hx as [-> Hx].
    - destruct (reservations d' !! _) as [r|]; [|done]. apply negb_true_iff, bool_decide_eq_false in Hq. eauto. }
  split; [|intros rid Hr; by apply Hm]. symmetry. apply submseteq_length_Permutation.
  - apply NoDup_submseteq; [done|]. intros x Hx. by apply Hm.
  - unfold reservation_ids. rewrite length_fmap. lia.
Qed.

(** What acceptance leaves in the lease and recovery tables: its lease completed, its members free, one event,
    and its recovery committed when recoveries are enabled; every other row as it was. *)
Record completes (cfg : config) (lease : EvaluationLease) (b : Z) (digest : string) (row : lease_row) (d d' : database) : Prop := {
  cp_leases : leases d' = <[lease_id lease := finish completed b digest "" row]> (leases d);
  cp_members : lease_members d' = deactivate (lease_id lease) <$> lease_members d;
  cp_event : exists e, lease_events d' = lease_events d ++ [e] /\ event_type e = ev_completed /\
    ev_lease_id e = lease_id lease /\ result_digest e = digest /\ finalized_block e = b;
  cp_recovery : if recovery_enabled cfg
    then exists r r' e', _active_qualification_recovery cfg d lease = Ok r /\ phase r = EVIDENCE_IMPORTED /\
      resolution r' = COMMITTED /\ rec_lease r' = lease /\ event_of r' EV_COMMITTED e' /\
      recoveries d' = <[lease_id lease := recovery_row_of r']> (recoveries d) /\ recovery_events d' = recovery_events d ++ [e']
    else recoveries d' = recoveries d /\ recovery_events d' = recovery_events d;
  cp_rest : stacks d' = stacks d /\ cursor d' = cursor d /\ cost_payments d' = cost_payments d /\ cost_credits d' = cost_credits d;
}.

Lemma closed_result_completes cfg lease b digest rec row s s1 s' :
  lease_inv (db s) -> leases (db s) !! lease_id lease = Some row -> body_frame (reservation_ids lease) s s1 ->
  closed_result cfg lease b digest rec s1 s' ->
  match rec with
  | Some r => recovery_enabled cfg = true /\ _active_qualification_recovery cfg (db s) lease = Ok r /\ phase r = EVIDENCE_IMPORTED
  | None => recovery_enabled cfg = false
  end -> completes cfg lease b digest row (db s) (db s').
Proof.
  intros Hi Hrow Hf (l & e & rs & es & Hl & _ & Het & Hel & Hfb & Hdg & Ed & _ & _ & Hrec) Hen.
  pose proof (bf_leases _ _ _ Hf) as El. pose proof (bf_members _ _ _ Hf) as Em. pose proof (bf_rest _ _ _ Hf) as Erest.
  assert (l = row) as -> by congruence. split; rewrite Ed; cbn; try congruence.
  - exists e. by rewrite (bf_events _ _ _ Hf).
  - destruct rec as [r|].
    + destruct Hen as (-> & Hact & Hph). destruct (active_recovery_ok _ _ _ _ Hi Hact) as (Elr & _).
      destruct Hrec as (s2 & r' & e' & _ & _ & Er' & Hres & He' & -> & ->). rewrite Elr in *. exists r, r', e'.
      rewrite (bf_recoveries _ _ _ Hf), (bf_recovery_events _ _ _ Hf). by split_and!.
    + rewrite Hen. destruct Hrec as [-> ->]. split; [apply (bf_recoveries _ _ _ Hf)|apply (bf_recovery_events _ _ _ Hf)].
Qed.

(** C2: an accepted result came strictly before the deadline, at the durable finalized block, for a lease that
    was active with its exact queue state. The caller's transition ran on the cohort's rows; it disposed of
    every member exactly once and of nothing else, left no member qualifying, and changed no other
    reservation. The lease alone is completed, with the result's digest and one completed event, and its
    members alone are freed; its recovery, when recoveries are enabled, goes from its imported-evidence
    phase to committed, and no other recovery changes. Nothing else changes: the retained qualifications,
    the resets and the bindings are as the transition left them, every other table is as it was. *)
Theorem accept_contract (cfg : config) (lease : EvaluationLease) (b : Z) (digest : string)
    (body : list reservation -> body_program) (s s' : store) :
  good s -> accept_evaluation_result cfg lease b digest body s = (s', Ok tt) ->
  b < expires_block lease /\ (exists h, cursor (db s) = Some (b, h)) /\ queue_state_ok (db s) lease = true /\
  exists row rows s1 new,
    leases (db s) !! lease_id lease = Some row /\ l_state row = active /\
    Forall2 (fun rid r => reservations (db s) !! rid = Some r) (reservation_ids lease) rows /\
    authorized (reservation_ids lease) (run_body (body rows)) s = (s1, Ok tt) /\
    dispositions (db s') = dispositions (db s) ++ new /\ new ≡ₚ reservation_ids lease /\
    (forall rid, rid ∈ reservation_ids lease -> has_active_member rid (db s') = false /\
       exists r, reservations (db s') !! rid = Some r /\ r_status r <> qualifying) /\
    (forall rid, rid ∉ reservation_ids lease -> reservations (db s') !! rid = reservations (db s) !! rid) /\
    reservations (db s') = reservations (db s1) /\ completes cfg lease b digest row (db s) (db s') /\
    qualifications (db s') = qualifications (db s1) /\ sla_resets (db s') = sla_resets (db s1) /\
    segments (db s') = segments (db s1).
Proof.
  intros Hs H. apply accept_ok in H as (Hlt & Hc & Hq & row & rows & s1 & rec & Hrow & Hst & Hl & Hrows & Hauth & Hf & _ & Hdisp & Hclose & Hen);
    [|done]. split; [done|]. split; [done|]. split; [done|].
  pose proof (closed_result_completes _ _ _ _ _ _ _ _ _ (proj1 Hs) Hrow Hf Hclose Hen) as Hcomp.
  destruct Hclose as (l & e & rs & es & _ & _ & _ & _ & _ & _ & Ed & _).
  assert (Hnew : exists new, dispositions (db s1) = dispositions (db s) ++ new).
  { pose proof Hauth as (_ & s2 & Hb & ->)%authorized_ok. by apply run_body_appends in Hb. }
  destruct Hnew as (new & Enew). pose proof Hl as [_ (_ & _ & Hnd & _)%make_lease_Ok]%evaluation_lease_Ok.
  destruct (cohort_once _ _ _ _ Hnd Hdisp Enew) as [Hperm Hstat].
  exists row, rows, s1, new. split_and!; try done; try by rewrite Ed.
  - intros rid Hin. split; [|rewrite Ed; by apply Hstat]. unfold has_active_member.
    eapply settled_members; [exact (proj1 Hs)|done..|exact (cp_members _ _ _ _ _ _ _ Hcomp)].
  - intros rid Hin. rewrite Ed. cbn. by apply (bf_others _ _ _ Hf).
Qed.

(** A claim of the example store, completed with one disposition. *)
Definition claimed_run (recovery : bool) : store * option EvaluationLease :=
  match claim_evaluation_lease (example_config recovery) "qualification" (VStr "worker") 5 30 None (Some 1) example_store with
  | (s, Ok l) => (s, l)
  | (s, Raise _) => (s, None)
  end.

Definition example_body (rows : list reservation) : body_program :=
  Read (fun d => Update (hex 98) (fun r => set_evidence (hex 101) (set_status qualified "PASS" "" r)) (Dispose (hex 98) Return)).

Lemma claimed_run_good recovery : good (claimed_run recovery).1.
Proof.
  unfold claimed_run. pose proof (claim_good (example_config recovery) "qualification" (VStr "worker") 5 30 None (Some 1)
    example_store (fresh_good _ example_fresh)) as H.
  by destruct (claim_evaluation_lease _ _ _ _ _ _ _ _) as [s [l|e]].
Qed.

Lemma accept_contract_witness :
  match (claimed_run false).2 with
  | Some lease =>
      match accept_evaluation_result (example_config false) lease 5 (hex 97) example_body (claimed_run false).1 with
      | (s', Ok tt) => dispositions (db s') = [hex 98] /\ forall rid, rid ∈ reservation_ids lease -> has_active_member rid (db s') = false
      | _ => False
      end
  | None => False
  end.
Proof.
  assert (E : match (claimed_run false).2 with
    | Some lease => match accept_evaluation_result (example_config false) lease 5 (hex 97) example_body (claimed_run false).1 with
                    | (s', Ok tt) => dispositions (db s') = [hex 98] | _ => False end
    | None => False end) by (vm_compute; reflexivity).
  destruct (claimed_run false).2 as [lease|]; [|exact E].
  destruct (accept_evaluation_result _ _ _ _ _ _) as [s' [[]|e]] eqn:H; [|exact E].
  split; [exact E|]. intros rid Hr.
  destruct (accept_contract _ _ _ _ _ _ _ (claimed_run_good false) H) as (_ & _ & _ & row & rows & s1 & new & _ & _ & _ & _ & _ & _ & Hfree & _).
  apply Hfree. exact Hr.
Defined.

(** ** Expired and refused results *)

(** Expiring at a finalized block expires exactly the overdue leases, those that are active, not owned by a
    recovery, and whose deadline has come: it returns them, leaves every other lease as it was, and
    changes no reservation and no disposition, so their members can be claimed again in the status they had. *)
Theorem expire_contract (cfg : config) (b : Z) (s s' : store) (ls : list EvaluationLease) :
  good s -> expire_evaluation_leases cfg b s = (s', Ok ls) ->
  reservations (db s') = reservations (db s) /\ dispositions (db s') = dispositions (db s) /\
  (forall lid, lid ∈ lease_id <$> ls <-> exists row, leases (db s) !! lid = Some row /\ overdue cfg b row) /\
  (forall lid row, leases (db s) !! lid = Some row ->
     (overdue cfg b row -> leases (db s') !! lid = Some (expired_row b row)) /\
     (~ overdue cfg b row -> leases (db s') !! lid = Some row)).
Proof.
  intros Hs H. unfold expire_evaluation_leases in H. inv_m.
  match goal with H : _require_evaluation_clock _ _ = _ |- _ => apply clock_ok in H as (-> & _) end.
  apply expire_leases_exact in H as ((es & Ed & _) & Hin & Hl); [|done]. setoid_rewrite <- due_overdue.
  split_and!; [by rewrite Ed..|done|]. intros lid row Hrow. rewrite Hl, Hrow. cbn. by destruct (due cfg b row).
Qed.

Lemma expire_contract_witness :
  match expire_evaluation_leases (example_config false) 40 (at_block 40 (claimed_run false).1) with
  | (s', Ok ls) => length ls = 1%nat /\ reservations (db s') = reservations (db (claimed_run false).1)
  | _ => False
  end.
Proof.
  assert (E : match expire_evaluation_leases (example_config false) 40 (at_block 40 (claimed_run false).1) with
    | (s', Ok ls) => length ls = 1%nat | _ => False end) by (vm_compute; reflexivity).
  destruct (expire_evaluation_leases _ _ _) as [s' [ls|e]] eqn:H; [|exact E].
  split; [exact E|]. apply (expire_contract _ _ _ _ _ (at_block_good 40 _ (claimed_run_good false)) H).
Defined.

(** C32: a refused result leaves the store exactly as it was, except that without recoveries a result that
    arrives at or after the deadline expires the due leases, its own among them, and records nothing of
    the result. *)
Theorem accept_refused (cfg : config) (lease : EvaluationLease) (b : Z) (digest : string) (body : list reservation -> body_program)
    (s s' : store) (e : exn) :
  good s -> accept_evaluation_result cfg lease b digest body s = (s', Raise e) ->
  s' = s \/
  (recovery_enabled cfg = false /\ expires_block lease <= b /\ reservations (db s') = reservations (db s) /\
   dispositions (db s') = dispositions (db s) /\
   exists row, leases (db s) !! lease_id lease = Some row /\ leases (db s') !! lease_id lease = Some (expired_row b row)).
Proof.
  intros Hs [->|[Een H]]%accept_raise; [by left|right]. split; [done|].
  unfold _durably_expire_exact_evaluation_lease_if_due in H. rewrite Een in H. inv_m.
  destruct (b <? expires_block lease) eqn:Hlt; inv_m; [done|]. apply Z.ltb_ge in Hlt. split; [done|].
  match goal with H : _active_evaluation_lease_row _ _ _ = _ |- _ => apply active_row_ok in H as (-> & _) end.
  match goal with H : _expire_evaluation_leases _ _ _ = _ |- _ => apply expire_leases_exact in H as ((es & Ed & _) & E3 & E4); [|done] end.
  match goal with H : negb (bool_decide _) = false |- _ => apply negb_false_iff, bool_decide_eq_true in H as Hin end.
  split; [by rewrite Ed|]. split; [by rewrite Ed|]. apply (list_elem_of_fmap_2 lease_id) in Hin.
  apply E3 in Hin as (row & Hrow & Hd). exists row. split; [done|]. by rewrite E4, Hrow; cbn; rewrite Hd.
Qed.

Lemma accept_refused_witness :
  match (claimed_run false).2 with
  | Some lease =>
      match accept_evaluation_result (example_config false) lease 40 (hex 97) example_body (at_block 40 (claimed_run false).1) with
      | (s', Raise e) => e = IntakeError "evaluation result arrived after lease expiry" /\
          (s' = at_block 40 (claimed_run false).1 \/ expires_block lease <= 40)
      | _ => False
      end
  | None => False
  end.
Proof.
  assert (E : match (claimed_run false).2 with
    | Some lease => match accept_evaluation_result (example_config false) lease 40 (hex 97) example_body
                            (at_block 40 (claimed_run false).1) with
                    | (s', Raise e) => e = IntakeError "evaluation result arrived after lease expiry" | _ => False end
    | None => False end) by (vm_compute; reflexivity).
  destruct (claimed_run false).2 as [lease|]; [|exact E].
  destruct (accept_evaluation_result _ _ _ _ _ _) as [s' [u|e]] eqn:H; [exact E|]. split; [exact E|].
  destruct (accept_refused _ _ _ _ _ _ _ _ (at_block_good 40 _ (claimed_run_good false)) H) as [Hs|(_ & Hx & _)].
  - left. exact Hs.
  - right. exact Hx.
Defined.

(** ** The preview *)

(** The read-only preview names exactly the reservations that a claim on the same store binds, when the
    claim has nothing to expire first. *)
Theorem preview_agrees (cfg : config) (stg owner_name : string) (b n : Z) (mm ma : option Z) (s s' : store)
    (claimed : option EvaluationLease) :
  good s ->
  _expire_evaluation_leases cfg b s = (s, Ok []) -> _expire_stale_rows cfg b s = (s, Ok []) ->
  claim_evaluation_lease cfg stg (VStr owner_name) b n mm ma s = (s', Ok claimed) ->
  preview_evaluation_claim cfg stg mm (Some owner_name) ma s =
    (s, Ok match claimed with Some lease => reservation_ids lease | None => [] end).
Proof.
  intros Hs He Hst H. unfold claim_evaluation_lease in H. inv_m.
  match goal with H : rethrow _ _ _ = Ok _ |- _ => apply rethrow_Ok in H as Ho; clear H end.
  unfold require_evaluation_owner in Ho. step_guard Ho. assert (a = owner_name) as -> by congruence. clear Ho.
  match goal with H : _require_evaluation_clock _ _ = _ |- _ => apply clock_ok in H as (-> & _) end.
  match goal with H : _expire_evaluation_leases _ _ _ = _ |- _ => rewrite He in H; injection H as <- <- end.
  match goal with H : _expire_stale_rows _ _ _ = _ |- _ => rewrite Hst in H; injection H as <- <- end.
  repeat match goal with H : _ || _ = false |- _ => apply orb_false_iff in H as [? ?] end.
  match goal with H : _select_evaluation_rows _ _ _ _ _ _ = Ok ?r |- _ => rename r into rows, H into Hsel end.
  unfold preview_evaluation_claim, mbind, M_bind, gets, lift.
  repeat match goal with H : ?x = false |- context [?x] => rewrite H end. cbn [orb]. rewrite Hsel.
  match goal with H : members_of_rows _ = Ok _ |- _ => apply members_of_rows_ok in H as Hms end.
  destruct rows as [|r rows]; inv_m; [done|].
  match goal with H : with_authority _ _ _ _ = _ |- _ => apply with_authority_ok in H as (x & y & Ed & _ & Hok & _) end;
    [|by destruct Hs as (? & ? & ?)].
  apply installed_leased in Hok as [-> _]; [|rewrite Ed; by destruct Hs|].
  - subst. unfold reservation_ids. cbn [members]. by rewrite <- list_fmap_compose.
  - subst. intros m (k & -> & Hk)%list_elem_of_fmap. exists k. split; [|done]. rewrite Ed.
    eapply selected_eligible in Hk as [Hk _]; [|exact Hsel]. apply all_rows_elem; [by destruct Hs|done].
Qed.

Lemma preview_agrees_witness :
  preview_evaluation_claim (example_config true) "qualification" None (Some "worker") (Some 1) example_store =
    (example_store, Ok [hex 98]).
Proof.
  destruct (claim_evaluation_lease (example_config true) "qualification" (VStr "worker") 5 30 None (Some 1) example_store)
    as [s' [claimed|e]] eqn:E; [|vm_compute in E; discriminate E].
  assert (Hc : match claimed with Some lease => reservation_ids lease | None => [] end = [hex 98]).
  { transitivity (match (claim_evaluation_lease (example_config true) "qualification" (VStr "worker") 5 30 None (Some 1)
      example_store).2 with Ok (Some l) => reservation_ids l | _ => [] end); [by rewrite E|]. clear E. vm_compute. reflexivity. }
  rewrite <- Hc. apply (preview_agrees (example_config true) "qualification" "worker" 5 30 None (Some 1) example_store s').
  - apply (fresh_good _ example_fresh).
  - vm_compute. reflexivity.
  - vm_compute. reflexivity.
  - exact E.
Defined.

(** ** The cap on infrastructure releases *)

(** What the cap does to one member's reservation. *)
Definition capped (d : database) (m : EvaluationLeaseMember) (r : reservation) : reservation :=
  if (_SYSTEMIC_RELEASE_CAP <=? counted_releases d (reservation_id m)) && bool_decide (r_status r = prior_status m)
  then set_status held "" (string_app "systemic_release_cap:" (dec_of_Z (counted_releases d (reservation_id m)))) r
  else r.

(** One member: its row becomes [capped], every other row and the tables that are counted stay. *)
Definition cap_step (m : EvaluationLeaseMember) (s s' : store) : Prop :=
  reservations (db s') !! reservation_id m = capped (db s) m <$> (reservations (db s) !! reservation_id m) /\
  (forall rid, rid <> reservation_id m -> reservations (db s') !! rid = reservations (db s) !! rid) /\
  lease_events (db s') = lease_events (db s) /\ lease_members (db s') = lease_members (db s).

Lemma counted_releases_local d d' rid :
  lease_events d' = lease_events d -> lease_members d' = lease_members d ->
  counted_releases d' rid = counted_releases d rid.
Proof. intros E1 E2. unfold counted_releases, last_completion, held_by. by rewrite E1, E2. Qed.

Lemma cap_members_ok ms s s' u :
  each (fun m =>
    count ← gets (fun d => counted_releases d (reservation_id m));
    if count <? _SYSTEMIC_RELEASE_CAP then mret tt
    else
      row ← gets (fun d => reservations d !! reservation_id m);
      match row with
      | Some r =>
          if decide (r_status r = prior_status m) then
            update_reservation (reservation_id m)
              (set_status held "" (string_app "systemic_release_cap:" (dec_of_Z count)))
          else mret tt
      | None => mret tt
      end) ms s = (s', Ok u) ->
  NoDup (reservation_id <$> ms) ->
  (forall m, m ∈ ms ->
     reservations (db s') !! reservation_id m = capped (db s) m <$> (reservations (db s) !! reservation_id m)) /\
  (forall rid, rid ∉ reservation_id <$> ms -> reservations (db s') !! rid = reservations (db s) !! rid).
Proof.
  revert s. induction ms as [|m ms IH]; intros s H Hnd; simpl in H.
  { inv_m. split; [by intros m ?%elem_of_nil|done]. }
  apply bind_ok in H as ([] & s1 & Hm & H). apply NoDup_cons in Hnd as [Hnin Hnd].
  assert (Hstep : cap_step m s s1).
  { clear H IH. inv_m. unfold cap_step, capped. rewrite Z.leb_antisym.
    destruct (_ <? _); cbn [negb andb].
    { inv_m. split_and!; try done. by rewrite option_fmap_id. }
    inv_m. destruct (reservations (db s) !! reservation_id m) as [r|] eqn:Er.
    - destruct (decide (r_status r = prior_status m)) as [E|E].
      + apply update_reservation_ok in Hm as [[? _]|(r' & Er' & _ & ->)]; [congruence|]. cbn.
        assert (r' = r) as -> by congruence. rewrite lookup_insert_eq, bool_decide_eq_true_2 by done.
        split_and!; try done. intros rid Hne. by rewrite lookup_insert_ne.
      + inv_m. rewrite Er. cbn. by rewrite bool_decide_eq_false_2.
    - inv_m. by rewrite Er. }
  destruct Hstep as (E1 & E2 & E3 & E4). apply IH in H as [H1 H2]; [|done]. split.
  - intros k [->|Hk]%elem_of_cons; [by rewrite H2, E1 by done|].
    assert (Hne : reservation_id k <> reservation_id m).
    { intros E. apply Hnin. rewrite <- E. by apply list_elem_of_fmap_2. }
    rewrite H1, E2 by done. unfold capped. by rewrite (counted_releases_local _ _ _ E3 E4).
  - intros rid Hrid. rewrite fmap_cons, not_elem_of_cons in Hrid. destruct Hrid as [Hn1 Hn2]. by rewrite H2, E2.
Qed.

(** The cap parks exactly the members of a released lease that have reached three counted releases since
    their last completion and are still in the status they were claimed in: those are held with the count
    as the reason; every other reservation stays as it is. Exempt reasons are not counted. *)
Theorem cap_contract (lease : EvaluationLease) (s s' : store) :
  NoDup (reservation_ids lease) -> _cap_infrastructure_releases lease s = (s', Ok tt) ->
  (forall m, m ∈ members lease ->
     reservations (db s') !! reservation_id m = capped (db s) m <$> (reservations (db s) !! reservation_id m)) /\
  (forall rid, rid ∉ reservation_ids lease -> reservations (db s') !! rid = reservations (db s) !! rid).
Proof. intros Hn H. by eapply cap_members_ok. Qed.

Definition release_event (seq : Z) (why : string) : EvaluationLeaseEvent :=
  mkEvent seq "" "l" 1 seq ev_released "qualification" "w" [mkMember (hex 98) published] 5 35 "" why.

(** Three counted releases, and one that is exempt. *)
Definition capped_store : store :=
  on_db example_store (with_members [mkMemberRow "l" 0 (hex 98) published false]
    (with_events [release_event 1 "boom"; release_event 2 "boom"; release_event 3 "OPERATOR:x"; release_event 4 "boom"]
       (db example_store))).

Lemma cap_contract_witness :
  match _cap_infrastructure_releases (mkLease "l" 1 "qualification" "w" [mkMember (hex 98) published] 5 35 35) capped_store with
  | (s', Ok tt) => (r_reason <$> (reservations (db s') !! hex 98)) = Some "systemic_release_cap:3" /\
      reservations (db s') !! hex 99 = None
  | _ => False
  end.
Proof.
  destruct (_cap_infrastructure_releases _ _) as [s' [[]|e]] eqn:H; [|vm_compute in H; discriminate H].
  split.
  - transitivity (r_reason <$> (reservations (db (_cap_infrastructure_releases
      (mkLease "l" 1 "qualification" "w" [mkMember (hex 98) published] 5 35 35) capped_store).1) !! hex 98)).
    + rewrite H. reflexivity.
    + vm_compute. reflexivity.
  - transitivity (reservations (db capped_store) !! hex 99); [|vm_compute; reflexivity].
    apply (cap_contract (mkLease "l" 1 "qualification" "w" [mkMember (hex 98) published] 5 35 35) capped_store s').
    + apply NoDup_singleton.
    + exact H.
    + cbn. intros Hin. apply list_elem_of_singleton in Hin. vm_compute in Hin. discriminate Hin.
Defined.
