(* ===== verification/RecoveryContracts.v ===== *)
(** * What the recovery operations leave in the event history

    Every transition of a recovery appends one immutable event. The audit of a
    history ([evaluation_recovery_events]) accepts what the transitions write,
    with the exceptions proved at the end of this file. *)

From S2P Require Import Prelude PyVal Identity Leases Recovery Store Queue LeaseRows LeaseStore RecoveryStore LeaseInvariant LeaseSafety LeaseMachine LeaseContracts.

Open Scope Z_scope.

(** [sequence INTEGER PRIMARY KEY AUTOINCREMENT] of an append-only table. *)
Definition numbered (d : database) : Prop :=
  forall i e, recovery_events d !! i = Some e -> re_sequence e = Z.of_nat i + 1.

(** The history of a recovery, as its audit accepts it. *)
Definition audited (d : database) (r : EvaluationRecovery) : Prop :=
  exists claim rest,
    recovery_events_of (recovery_id r) (recovery_events d) = claim :: rest /\ claim_matches r claim = true /\
    chain_ok (lease_id (rec_lease r)) claim rest = true /\ head_matches r (List.last rest claim) = true.

Lemma recovery_event_id e e' : _evaluation_recovery_event e = Ok e' -> e' = e.
Proof. unfold _evaluation_recovery_event. intros H%rethrow_Ok. by apply make_recovery_event_Ok. Qed.

Lemma map_recovery_event es es' : map_result _evaluation_recovery_event es = Ok es' -> es' = es.
Proof.
  intros H%map_result_Forall2. induction H as [|x y es es' Hx _ IH]; [done|].
  by rewrite (recovery_event_id _ _ Hx), IH.
Qed.

Lemma audit_of_events cfg d r events :
  evaluation_recovery_events cfg d r = Ok events ->
  exists cur claim rest, _reopen_evaluation_recovery_for_lease cfg d (rec_lease r) = Ok cur /\
    recovery_events_of (recovery_id r) (recovery_events d) = claim :: rest /\ claim_matches cur claim = true /\
    chain_ok (lease_id (rec_lease cur)) claim rest = true /\ head_matches cur (List.last rest claim) = true.
Proof.
  unfold evaluation_recovery_events. intros H. apply bind_Ok in H as (cur & Hcur & H). apply bind_Ok in H as (es & Hes & H).
  apply map_recovery_event in Hes. subst es. destruct (recovery_events_of _ _) as [|claim rest]; [done|].
  step_guard H. step_guard H. step_guard H. step_guard H.
  repeat match goal with H : negb _ = false |- _ => apply negb_false_iff in H end. eauto 10.
Qed.

Lemma recovery_row_wf cfg d c r : _evaluation_recovery cfg d c = Ok r -> recovery_wf r.
Proof.
  unfold _evaluation_recovery. destruct (leases d !! c_lease c); [|done]. intros H. apply bind_Ok in H as (x & Hx & H).
  step_guard H. apply rethrow_Ok, bind_Ok in Hx as (le & _ & Hx). apply make_recovery_Ok in Hx as [E Hwf].
  assert (x = r) as -> by congruence. by rewrite E.
Qed.

Lemma active_audited cfg d lease r :
  _active_qualification_recovery cfg d lease = Ok r -> audited d r /\ rec_lease r = lease /\ resolution r = UNRESOLVED /\ recovery_wf r.
Proof.
  intros H. unfold _active_qualification_recovery in H. step_guard H. apply bind_Ok in H as (x & Hx & H). step_guard H.
  apply bind_Ok in H as (es & Hes & H). assert (x = r) as -> by congruence. clear H.
  apply negb_false_iff, is_resolution_true in Eg0. pose proof Hx as Hl.
  unfold _reopen_evaluation_recovery_for_lease in Hl. destruct (recoveries d !! lease_id lease); [|done].
  apply bind_Ok in Hl as (y & Hy & Hl). step_guard Hl. apply negb_false_iff, bool_decide_eq_true in Eg1.
  assert (y = r) as -> by congruence. apply recovery_row_wf in Hy. split; [|done].
  apply audit_of_events in Hes as (cur & claim & rest & Hcur & ? & ? & ? & ?). rewrite Eg1, Hx in Hcur.
  injection Hcur as <-. by exists claim, rest.
Qed.

(** ** What the audit reads *)

(** [decode_recovery_request_plan] compares the retained plan with the lease up to a later deadline. *)
Class PlanCodec (cfg : config) : Prop :=
  decode_later payload lease digest request epoch e :
    reopen_plan cfg payload lease digest request = Some epoch -> expires_block lease <= e ->
    reopen_plan cfg payload (extended lease e) digest request = Some epoch.

#[export] Instance example_codec recovery : PlanCodec (example_config recovery).
Proof. by intros payload lease digest request epoch e [= <-] _. Qed.

Definition plan_opens (cfg : config) (r : EvaluationRecovery) : Prop :=
  truthy (request_plan r) = true -> is_Some (reopen_plan cfg (request_plan r) (rec_lease r) (plan_digest r) (request_id r)).

(** The lease of a recovery is stored as the recovery says. *)
Definition lease_stored (cfg : config) (d : database) (lease : EvaluationLease) : Prop :=
  exists row, leases d !! lease_id lease = Some row /\ _evaluation_lease cfg d row = Ok lease.

Definition events_open (d : database) (rid : string) : Prop :=
  forall e, e ∈ recovery_events d -> re_recovery_id e = rid -> _evaluation_recovery_event e = Ok e.

(** The audit of a recovery accepts its stored history, and returns it. *)
Definition audit_accepts (cfg : config) (d : database) (r : EvaluationRecovery) : Prop :=
  evaluation_recovery_events cfg d r = Ok (recovery_events_of (recovery_id r) (recovery_events d)).

Lemma reopen_stored cfg d r :
  recoveries d !! lease_id (rec_lease r) = Some (recovery_row_of r) -> lease_stored cfg d (rec_lease r) ->
  make_recovery r = Ok r -> plan_opens cfg r -> _reopen_evaluation_recovery_for_lease cfg d (rec_lease r) = Ok r.
Proof.
  intros Hrow (row & Hl & El) Hm Hp. unfold _reopen_evaluation_recovery_for_lease, _evaluation_recovery.
  rewrite Hrow. cbn [recovery_row_of c_lease c_recovery c_revision c_phase c_resolution c_created c_updated c_plan c_plan_digest c_request c_reason].
  rewrite Hl, El. cbn [mbind result_bind].
  assert (E : mkRecovery (recovery_id r) (rec_lease r) (revision r) (phase r) (resolution r) (created_block r) (updated_block r)
     (plan_digest r) (request_id r) (request_plan r) (rec_reason r) = r) by by destruct r.
  rewrite E, Hm. cbn [rethrow mbind result_bind]. unfold plan_opens in Hp.
  destruct (truthy (request_plan r)); cbn [andb]; [destruct (Hp eq_refl) as [? ->]|];
    cbn [mbind result_bind]; by rewrite bool_decide_eq_true_2.
Qed.

Lemma map_readable d rid es :
  events_open d rid -> (forall e, e ∈ es -> e ∈ recovery_events d /\ re_recovery_id e = rid) ->
  map_result _evaluation_recovery_event es = Ok es.
Proof.
  intros Hr Hin. apply map_result_Forall2, Forall2_same_length_lookup. split; [done|]. intros i x y Hx Hy.
  assert (y = x) as -> by congruence. apply list_elem_of_lookup_2, Hin in Hx as [? ?]. by apply Hr.
Qed.

Lemma claim_type e : claim_ok e = true -> re_type e = EV_CLAIMED.
Proof. unfold claim_ok. intros H. repeat (apply andb_true_iff in H as [H _]). by apply bool_decide_eq_true in H. Qed.

Lemma audit_intro cfg d r :
  audited d r -> _reopen_evaluation_recovery_for_lease cfg d (rec_lease r) = Ok r -> events_open d (recovery_id r) ->
  audit_accepts cfg d r.
Proof.
  intros (claim & rest & Hev & Hcl & Hch & Hh) Hre Hr. unfold audit_accepts, evaluation_recovery_events.
  rewrite Hre. cbn [mbind result_bind]. rewrite (map_readable d (recovery_id r)); [|done|].
  2:{ intros e He. unfold recovery_events_of in He. rewrite sorted_by_elem, list_elem_of_filter in He. tauto. }
  cbn [mbind result_bind]. rewrite Hev, Hcl, Hch, Hh. cbn [negb]. apply andb_true_iff in Hcl as [Hcl _].
  do 2 apply andb_true_iff in Hcl as [Hcl _]. by rewrite (bool_decide_eq_true_2 _ (claim_type _ Hcl)).
Qed.

(** What the audit of an active recovery has checked. *)
Lemma active_opens cfg d lease r :
  lease_inv d -> _active_qualification_recovery cfg d lease = Ok r ->
  lease_stored cfg d lease /\ plan_opens cfg r /\ events_open d (recovery_id r).
Proof.
  intros Hi H. destruct (active_recovery_ok _ _ _ _ Hi H) as (<- & _ & Hst & events & Ha). split; [exact Hst|].
  unfold evaluation_recovery_events in Ha. apply bind_Ok in Ha as (cur & Hcur & Ha). apply bind_Ok in Ha as (es & Hes & _).
  assert (cur = r) as ->.
  { unfold _active_qualification_recovery in H. step_guard H. apply bind_Ok in H as (y & Hy & H). step_guard H.
    apply bind_Ok in H as (? & _ & H). congruence. }
  split.
  - unfold _reopen_evaluation_recovery_for_lease in Hcur. destruct (recoveries d !! lease_id (rec_lease r)) as [c|]; [|done]. apply bind_Ok in Hcur as (y & Hy & Hcur).
    step_guard Hcur. assert (y = r) as -> by congruence. unfold _evaluation_recovery in Hy. destruct (leases d !! c_lease c); [|done].
    apply bind_Ok in Hy as (z & _ & Hy). step_guard Hy.
    assert (z = r) as -> by congruence. intros Ht. rewrite Ht in Eg0. cbn [andb] in Eg0.
    destruct (reopen_plan _ _ _ _ _); [by eexists|done].
  - pose proof (map_recovery_event _ _ Hes) as ->. intros e He Hid. apply map_result_Forall2 in Hes.
    assert (Hin : e ∈ recovery_events_of (recovery_id r) (recovery_events d))
      by (unfold recovery_events_of; by rewrite sorted_by_elem, list_elem_of_filter).
    apply list_elem_of_lookup in Hin as [i Hi']. pose proof (Forall2_lookup_lr _ _ _ _ _ _ Hes Hi' Hi') as Hx. exact Hx.
Qed.

(** ** Leases that stay stored *)

Lemma sorted_by_fmap {A K} `{Cmp K} (key : A -> K) (g : A -> A) l :
  (forall x, key (g x) = key x) -> sorted_by key (g <$> l) = g <$> sorted_by key l.
Proof.
  intros Hg. induction l as [|x l IH]; [done|]. rewrite fmap_cons. cbn [sorted_by foldr].
  change (insert_by key (g x) (sorted_by key (g <$> l)) = g <$> insert_by key x (sorted_by key l)). rewrite IH.
  generalize (sorted_by key l) as ys. induction ys as [|y ys IHy]; [done|]. rewrite fmap_cons. cbn [insert_by]. rewrite !Hg.
  case_match; [done|]. by rewrite IHy.
Qed.

Lemma deactivated_rows lid k ms :
  sorted_by m_position (filter (fun m => m_lease m = k) (deactivate lid <$> ms)) =
  deactivate lid <$> sorted_by m_position (filter (fun m => m_lease m = k) ms).
Proof.
  assert (Hp : forall m, m_position (deactivate lid m) = m_position m /\ m_lease (deactivate lid m) = m_lease m).
  { intros m. unfold deactivate. by case_match. }
  rewrite <- sorted_by_fmap by (intros; apply Hp). f_equal. induction ms as [|m ms IH]; [done|].
  rewrite fmap_cons, !filter_cons, (proj2 (Hp m)), IH. by case_decide.
Qed.

Lemma finished_lease cfg d d' lid row st b digest why :
  lease_members d' = deactivate lid <$> lease_members d ->
  _evaluation_lease cfg d' (finish st b digest why row) = _evaluation_lease cfg d row.
Proof.
  intros Em. unfold _evaluation_lease. cbn [finish l_id l_generation l_stage l_owner l_claimed l_initial l_expires].
  assert (E : map_result (fun m => make_member (m_reservation m) (m_prior m)) (member_rows d' (l_id row)) =
              map_result (fun m => make_member (m_reservation m) (m_prior m)) (member_rows d (l_id row))); [|by rewrite E].
  unfold member_rows. rewrite Em, deactivated_rows. generalize (sorted_by m_position (filter (fun m => m_lease m = l_id row) (lease_members d))).
  intros ms. induction ms as [|m ms IH]; [done|]. cbn [fmap list_fmap map_result].
  destruct (deactivate_fields lid m) as (_ & -> & -> & _). destruct (make_member _ _); [|done]. cbn [mbind result_bind].
  change (list_fmap _ _ (deactivate lid) ms) with (deactivate lid <$> ms). by rewrite IH.
Qed.

Lemma stored_local cfg d d' lease :
  leases d' = leases d -> lease_members d' = lease_members d -> lease_stored cfg d lease -> lease_stored cfg d' lease.
Proof.
  intros El Em (row & Hl & Hr). exists row. split; [by rewrite El|]. rewrite <- Hr. apply evaluation_lease_local.
  unfold member_rows. by rewrite Em.
Qed.

Lemma stored_finished cfg d d' lease row st b digest why :
  _evaluation_lease cfg d row = Ok lease -> leases d' !! lease_id lease = Some (finish st b digest why row) ->
  lease_members d' = deactivate (lease_id lease) <$> lease_members d -> lease_stored cfg d' lease.
Proof. intros Hr Hl Em. eexists. split; [exact Hl|]. by rewrite (finished_lease _ _ _ _ _ _ _ _ _ Em). Qed.

Lemma stored_extended cfg d d' lease row e :
  _evaluation_lease cfg d row = Ok lease -> make_lease (extended lease e) = Ok (extended lease e) ->
  leases d' !! lease_id lease = Some (extend e row) -> lease_members d' = lease_members d ->
  lease_stored cfg d' (extended lease e).
Proof.
  intros Hr Hm Hl Em. exists (extend e row). split; [exact Hl|]. unfold _evaluation_lease in *.
  cbn [extend l_id l_generation l_stage l_owner l_claimed l_initial l_expires].
  assert (E : member_rows d' (l_id row) = member_rows d (l_id row)) by (unfold member_rows; by rewrite Em). rewrite E.
  apply bind_Ok in Hr as ([l x] & Hx & Hr). apply rethrow_Ok, bind_Ok in Hx as (ms & Hms & Hx). rewrite Hms. cbn [mbind result_bind].
  apply bind_Ok in Hx as (l0 & Hl0 & Hx). apply bind_Ok in Hx as (x0 & Hx0 & Hx). apply make_lease_Ok in Hl0 as [-> _].
  injection Hx as <- <-. cbn [fst snd] in Hr. destruct (negb _) eqn:En in Hr; [done|]. injection Hr as <-.
  unfold extended in *. cbn [lease_id generation stage owner members claimed_block initial_expires_block] in *.
  rewrite Hm. cbn [mbind result_bind generation stage owner claimed_block initial_expires_block].
  rewrite Hx0. cbn [mbind result_bind rethrow fst snd lease_id] in *. by rewrite En.
Qed.

(** ** Extending a history *)

Lemma last_snoc {A} (l : list A) x d : List.last (l ++ [x]) d = x.
Proof. by rewrite List.last_last. Qed.

Lemma chain_ok_snoc lease claim rest e :
  chain_ok lease claim (rest ++ [e]) = true <->
  chain_ok lease claim rest = true /\ re_lease_id e = lease /\ re_sequence (List.last rest claim) < re_sequence e /\
  follows (List.last rest claim) e.
Proof.
  revert claim. induction rest as [|f rest IH]; intros claim.
  - cbn [app chain_ok List.last]. rewrite andb_true_r, negb_true_iff, !orb_false_iff, !negb_false_iff, Z.leb_gt, String.eqb_eq.
    rewrite <- valid_transition_equiv. tauto.
  - cbn [app chain_ok]. rewrite andb_true_iff, IH, andb_true_iff.
    replace (List.last (f :: rest) claim) with (List.last rest f); [tauto|]. clear. revert f.
    induction rest as [|g rest IH]; intros f; [done|]. cbn. destruct rest; [done|]. apply IH.
Qed.

Lemma claim_matches_ok r e :
  claim_matches r e = true <->
  claim_ok e = true /\ re_lease_id e = lease_id (rec_lease r) /\ re_finalized e = created_block r /\
  re_expires e = initial_expires_block (rec_lease r).
Proof. unfold claim_matches. rewrite !andb_true_iff, String.eqb_eq, !Z.eqb_eq. tauto. Qed.

Lemma head_matches_ok r e :
  head_matches r e = true <->
  re_revision e = revision r /\ re_phase e = phase r /\ re_resolution e = resolution r /\
  re_expires e = expires_block (rec_lease r) /\ re_finalized e = updated_block r /\ re_plan_digest e = plan_digest r /\
  re_request_id e = request_id r /\ re_reason e = rec_reason r.
Proof. unfold head_matches. autorewrite with phases. tauto. Qed.

Lemma last_elem {A} (l : list A) d : List.last l d ∈ d :: l.
Proof.
  revert d. induction l as [|x l IH]; intros d; [by left|]. right. destruct l as [|y l]; [by left|].
  change (List.last (x :: y :: l) d) with (List.last (y :: l) d).
  replace (List.last (y :: l) d) with (List.last (y :: l) x); [apply IH|]. clear. revert y.
  induction l as [|z l IH]; intros y; [done|]. apply IH.
Qed.

(** The last event of a history has its greatest revision. *)
Lemma chain_last lease claim rest f :
  chain_ok lease claim rest = true -> f ∈ claim :: rest -> re_revision f <= re_revision (List.last rest claim).
Proof.
  revert claim. induction rest as [|e rest IH]; intros claim H Hf.
  - by apply list_elem_of_singleton in Hf as ->.
  - pose proof (chain_before _ _ _ H) as Hs. cbn [chain_ok] in H. apply andb_true_iff in H as [_ H].
    replace (List.last (e :: rest) claim) with (List.last rest e).
    2:{ clear. revert e. induction rest as [|g rest IH]; intros e; [done|]. cbn. destruct rest; [done|]. apply IH. }
    apply elem_of_cons in Hf as [->|Hf]; [|by apply IH].
    inversion Hs as [|?? _ Hall]; subst. rewrite Forall_forall in Hall.
    destruct (Hall _ (last_elem rest e)). lia.
Qed.

Lemma recovery_events_of_elem rid es f : f ∈ recovery_events_of rid es <-> re_recovery_id f = rid /\ f ∈ es.
Proof. unfold recovery_events_of. by rewrite sorted_by_elem, list_elem_of_filter. Qed.

Lemma recovery_events_snoc rid es e :
  re_recovery_id e = rid -> (forall f, f ∈ recovery_events_of rid es -> re_revision f <= re_revision e) ->
  recovery_events_of rid (es ++ [e]) = recovery_events_of rid es ++ [e].
Proof.
  intros Hid Hle. unfold recovery_events_of. rewrite filter_app.
  assert (E : filter (fun e0 => re_recovery_id e0 = rid) [e] = [e]) by (by rewrite filter_cons, decide_True).
  rewrite E. apply sorted_by_snoc. intros f Hf. unfold key_le. rewrite cmp_leb_Z. apply Z.leb_le, Hle.
  by apply sorted_by_elem.
Qed.

(** The history after one more event: the old one, and the event. *)
Lemma history_snoc d d' r e :
  audited d r -> re_recovery_id e = recovery_id r -> re_revision e = revision r + 1 ->
  recovery_events d' = recovery_events d ++ [e] ->
  exists claim rest, recovery_events_of (recovery_id r) (recovery_events d) = claim :: rest /\
    claim_matches r claim = true /\ chain_ok (lease_id (rec_lease r)) claim rest = true /\
    head_matches r (List.last rest claim) = true /\
    recovery_events_of (recovery_id r) (recovery_events d') = claim :: (rest ++ [e]).
Proof.
  intros (claim & rest & Hev & Hcl & Hch & Hh) Hid Hrev E. exists claim, rest. split_and!; try done.
  rewrite E, recovery_events_snoc, Hev; try done. intros f Hf. rewrite Hev in Hf.
  pose proof (chain_last _ _ _ _ Hch Hf). apply head_matches_ok in Hh as (Hr & _). lia.
Qed.

Lemma history_extends d d' r r' t e :
  audited d r -> numbered d -> event_of r' t e -> recovery_events d' = recovery_events d ++ [e] ->
  re_sequence e = Z.of_nat (length (recovery_events d)) + 1 ->
  recovery_id r' = recovery_id r -> revision r' = revision r + 1 -> created_block r' = created_block r ->
  lease_id (rec_lease r') = lease_id (rec_lease r) ->
  initial_expires_block (rec_lease r') = initial_expires_block (rec_lease r) ->
  (forall prev, head_matches r prev = true -> follows prev e) -> audited d' r' /\ numbered d'.
Proof.
  intros Ha Hn (E1 & E2 & E3 & E4 & E5 & E6 & E7 & E8 & E9 & E10 & E11) Ed Hseq Hid Hrev Hcr Hlid Hini Hf.
  destruct (history_snoc d d' r e) as (claim & rest & Hev & Hcl & Hch & Hh & Hev'); [done|congruence|congruence|done|].
  split.
  - exists claim, (rest ++ [e]). rewrite Hid, Hev', Hlid. split_and!; [done| | |].
    + apply claim_matches_ok. apply claim_matches_ok in Hcl. by rewrite Hlid, Hcr, Hini.
    + apply chain_ok_snoc. split_and!; [done|congruence| |by apply Hf].
      assert (Hin : List.last rest claim ∈ recovery_events d).
      { apply (recovery_events_of_elem (recovery_id r)). rewrite Hev. apply last_elem. }
      apply list_elem_of_lookup in Hin as [i Hi]. pose proof (Hn _ _ Hi). apply lookup_lt_Some in Hi. lia.
    + rewrite last_snoc. by apply head_matches_ok.
  - intros i f. rewrite Ed. intros [Hi|[Hi Hx]]%lookup_app_Some; [by apply Hn|].
    apply list_lookup_singleton_Some in Hx as [Hx <-]. lia.
Qed.

(** A transition whose move is declared extends the audited history. *)
Lemma transition_audited cfg r ph res t b why lease plan s s' r' :
  _transition_evaluation_recovery_locked cfg r ph res t b why lease plan s = (s', Ok r') ->
  numbered (db s) -> updated_block r <= b ->
  lease_id (default (rec_lease r) lease) = lease_id (rec_lease r) ->
  initial_expires_block (default (rec_lease r) lease) = initial_expires_block (rec_lease r) ->
  expires_block (rec_lease r) <= expires_block (default (rec_lease r) lease) ->
  (forall prev e, head_matches r prev = true -> resolution r = UNRESOLVED -> recovery_wf r -> recovery_wf r' ->
     event_of r' t e -> prepares prev e \/ (keeps_plan prev e /\ moves prev e)) ->
  audited (db s') r' /\ numbered (db s').
Proof.
  intros H Hn Hb Hlid Hini Hexp Hmv. pose proof (transition_ok _ _ _ _ _ _ _ _ _ _ _ _ H) as Ht. cbv zeta in Ht.
  destruct Ht as (Er & Hwf' & (Haud & _ & Hres & Hwf)%active_audited & e & rs & He & Hseq & _ & _ & ->).
  eapply (history_extends (db s) _ r r' t e Haud Hn He); try done; try (by subst r').
  intros prev Hh. split; [|by apply Hmv].
  apply head_matches_ok in Hh as (? & ? & ? & ? & ? & _). destruct He as (_ & _ & ? & _ & _ & _ & ? & ? & _).
  subst r'. cbn in *. split; (lia || congruence).
Qed.

(** What the event of a transition that keeps the lease and the plan shares with its predecessor. *)
Lemma same_carrier r prev e t ph res b why :
  head_matches r prev = true ->
  event_of (mkRecovery (recovery_id r) (rec_lease r) (revision r + 1) ph res (created_block r) b (plan_digest r)
              (request_id r) (request_plan r) why) t e ->
  keeps_plan prev e /\ re_type e = t /\ re_phase prev = phase r /\ re_phase e = ph /\ re_resolution e = res /\
  re_reason e = why /\ re_reason prev = rec_reason r /\ re_expires e = re_expires prev.
Proof.
  intros (? & ? & ? & ? & ? & ? & ? & ?)%head_matches_ok (? & ? & ? & ? & ? & ? & ? & ? & ? & ? & ?). cbn in *.
  unfold keeps_plan. split_and!; congruence.
Qed.

(** What a call keeps: the history that is stored for the recovery it leaves is one that the audit accepts, and
    it extends the stored history. *)
Record history_kept (cfg : config) (d d' : database) (r : EvaluationRecovery) : Prop := {
  hk_accepts : audit_accepts cfg d' r;
  hk_audited : audited d' r;
  hk_numbered : numbered d';
  hk_extends : recovery_events d `prefix_of` recovery_events d';
}.

(** A declared transition whose lease stays stored keeps the history. *)
Lemma transition_kept cfg r ph res t b why lease plan s s1 r' d' :
  _transition_evaluation_recovery_locked cfg r ph res t b why lease plan s = (s1, Ok r') ->
  lease_inv (db s) -> numbered (db s) -> updated_block r <= b ->
  lease_id (default (rec_lease r) lease) = lease_id (rec_lease r) ->
  initial_expires_block (default (rec_lease r) lease) = initial_expires_block (rec_lease r) ->
  expires_block (rec_lease r) <= expires_block (default (rec_lease r) lease) ->
  (forall prev e, head_matches r prev = true -> resolution r = UNRESOLVED -> recovery_wf r -> recovery_wf r' ->
     event_of r' t e -> prepares prev e \/ (keeps_plan prev e /\ moves prev e)) ->
  (plan_opens cfg r -> plan_opens cfg r') ->
  (lease_stored cfg (db s) (rec_lease r) -> lease_stored cfg d' (rec_lease r')) ->
  recoveries d' = recoveries (db s1) -> recovery_events d' = recovery_events (db s1) -> history_kept cfg (db s) d' r'.
Proof.
  intros H Hi Hn Hb Hlid Hini Hexp Hmv Hplan Hst Er Ee.
  destruct (transition_audited _ _ _ _ _ _ _ _ _ _ _ _ H Hn Hb Hlid Hini Hexp Hmv) as [Haud Hn'].
  destruct (transition_reads _ _ _ _ _ _ _ _ _ _ _ _ H) as (Hmake & e & Eev & Hopen).
  pose proof (transition_ok _ _ _ _ _ _ _ _ _ _ _ _ H) as (Er' & _ & Hact & e' & rs & _ & _ & _ & -> & Es1).
  destruct (active_opens _ _ _ _ Hi Hact) as (Hls & Hpo & Heo).
  assert (Hid : recovery_id r' = recovery_id r) by by rewrite Er'.
  assert (Hl : lease_id (rec_lease r') = lease_id (rec_lease r)) by by rewrite Er'.
  assert (Haud' : audited d' r') by (unfold audited; by rewrite Ee).
  split; [|done|unfold numbered; by rewrite Ee|rewrite Ee, Eev; by apply prefix_app_r].
  apply audit_intro; [done| |].
  - apply reopen_stored; [|by apply Hst|done|by apply Hplan]. rewrite Er, Es1, Hl. apply lookup_insert_eq.
  - intros x. rewrite Ee, Eev, Hid. intros [Hx|Hx]%elem_of_app Hidx; [by apply Heo|].
    apply list_elem_of_singleton in Hx as ->. exact Hopen.
Qed.

Lemma recovery_frame_tables s s' : recovery_frame s s' -> leases (db s') = leases (db s) /\ lease_members (db s') = lease_members (db s).
Proof. by intros (rs & es & ->). Qed.

(** A transition that leaves the lease alone, in the store that it leaves. *)
Lemma transition_kept_here cfg r ph res t b why s s1 r' :
  _transition_evaluation_recovery_locked cfg r ph res t b why None None s = (s1, Ok r') ->
  lease_inv (db s) -> numbered (db s) -> updated_block r <= b ->
  (forall prev e, head_matches r prev = true -> resolution r = UNRESOLVED -> recovery_wf r -> recovery_wf r' ->
     event_of r' t e -> moves prev e) -> history_kept cfg (db s) (db s1) r'.
Proof.
  intros H Hi Hn Hb Hmv. pose proof (transition_ok _ _ _ _ _ _ _ _ _ _ _ _ H) as (Er & _).
  pose proof H as Hf. apply transition_recovery_frame, recovery_frame_tables in Hf as [El Em].
  eapply transition_kept; [exact H|done..| | | |done|done].
  - intros prev e Hh Hres Hwf Hwf' He. right. split; [|by eapply Hmv].
    rewrite Er in He. by eapply same_carrier in He as (? & _).
  - by rewrite Er.
  - rewrite Er. by apply stored_local.
Qed.

Lemma advance_run cfg r expected ph t b enc s s' r' :
  _advance_recovery_phase cfg r expected ph t b enc s = (s', Ok r') ->
  phase r ∈ expected /\ resolution r = UNRESOLVED /\ exists plan s0 s1, db s0 = db s /\ db s1 = db s' /\
    (is_phase ph PREPARED = false -> plan = None) /\ (forall x, plan = Some x -> enc = Some (Ok x)) /\
    _transition_evaluation_recovery_locked cfg r ph UNRESOLVED t b "" None plan s0 = (s1, Ok r').
Proof.
  unfold _advance_recovery_phase. intros H. inv_m.
  match goal with H : _require_evaluation_clock _ _ = _ |- _ => apply clock_ok in H as (-> & _) end.
  repeat match goal with H : _ || _ = false |- _ => apply orb_false_iff in H as [? ?] end.
  match goal with H : negb (is_resolution _ _) = false |- _ => apply negb_false_iff, is_resolution_true in H end.
  match goal with H : negb (bool_decide _) = false |- _ => apply negb_false_iff, bool_decide_eq_true in H end.
  split; [done|]. split; [done|].
  match goal with H : (if is_phase ph PREPARED then _ else _) s = (?x, Ok ?p) |- _ =>
    assert (x = s /\ (is_phase ph PREPARED = false -> p = None) /\ (forall y, p = Some y -> enc = Some (Ok y))) as (-> & Hp & Henc) end.
  { destruct (is_phase ph PREPARED); destruct enc as [enc|]; inv_m; try done. split_and!; try done.
    match goal with H : rethrow _ _ _ = Ok _ |- _ => apply rethrow_Ok in H as -> end. naive_solver. }
  apply recovery_mutation_ok in H as (_ & s1 & H & ->). eexists _, _, s1. split_and!; [| |exact Hp|exact Henc|exact H]; done.
Qed.

Lemma advance_kept cfg r expected ph t b enc s s' r' :
  (forall p, p ∈ expected -> advances t p ph) -> ph <> PREPARED ->
  _advance_recovery_phase cfg r expected ph t b enc s = (s', Ok r') -> lease_inv (db s) -> numbered (db s) ->
  updated_block r <= b -> history_kept cfg (db s) (db s') r'.
Proof.
  intros Hadv Hph (Hin & Hres & plan & s0 & s1 & E0 & <- & Hp & _ & H)%advance_run Hi Hn Hb. rewrite <- E0 in *.
  rewrite Hp in H by (by apply is_phase_false). pose proof (transition_ok _ _ _ _ _ _ _ _ _ _ _ _ H) as (Er & _).
  eapply transition_kept_here; [exact H|done..|]. rewrite Er. intros prev e Hh _ _ _ He.
  eapply same_carrier in He as (? & ? & Ep & Ee & ? & ? & ? & ?); [|exact Hh].
  apply mv_advance; try done. rewrite Ep, Ee. replace (re_type e) with t by done. by apply Hadv.
Qed.

Lemma prepare_prepares r r' prev e t payload digest request b :
  r' = mkRecovery (recovery_id r) (rec_lease r) (revision r + 1) PREPARED UNRESOLVED (created_block r) b digest request payload "" ->
  phase r = CLAIMED -> t = EV_PREPARED -> head_matches r prev = true -> recovery_wf r -> recovery_wf r' -> event_of r' t e ->
  prepares prev e.
Proof.
  intros -> Hin -> Hh Hwf Hwf' He. apply head_matches_ok in Hh as (? & ? & ? & ? & ? & ? & ? & ?).
  destruct He as (_ & _ & _ & ? & ? & ? & _ & ? & ? & ? & ?). cbn in *.
  assert (Hp' : truthy payload = true) by by apply truthy_true, (wf_planned _ Hwf').
  pose proof (wf_digest _ Hwf) as Hd. rewrite (wf_claimed _ Hwf Hin) in Hd. apply truthy_false in Hd.
  pose proof (wf_digest _ Hwf') as Hd'. pose proof (wf_request _ Hwf') as Hq'. cbn in Hd', Hq'. rewrite Hp' in Hd', Hq'.
  apply truthy_true in Hd', Hq'. unfold prepares. split_and!; congruence.
Qed.

Lemma prepare_kept cfg r plan b s s' r' :
  prepare_qualification_recovery cfg r plan b s = (s', Ok r') ->
  (forall payload digest request, plan = Ok (payload, digest, request) -> is_Some (reopen_plan cfg payload (rec_lease r) digest request)) ->
  lease_inv (db s) -> numbered (db s) -> updated_block r <= b -> history_kept cfg (db s) (db s') r'.
Proof.
  intros (Hin & Hres & binding & s0 & s1 & E0 & <- & _ & Henc & H)%advance_run Hopen Hi Hn Hb. rewrite <- E0 in *.
  apply list_elem_of_singleton in Hin. pose proof (transition_ok _ _ _ _ _ _ _ _ _ _ _ _ H) as (Er & _).
  pose proof H as Hf. apply transition_recovery_frame, recovery_frame_tables in Hf as [El Em].
  eapply transition_kept; [exact H|done..| | | |done|done].
  - intros prev e Hh _ Hwf Hwf' He. left. eapply prepare_prepares; [exact Er|done..].
  - intros Hp. rewrite Er. unfold plan_opens in *. destruct binding as [[[p dg] rq]|]; cbn in *; [|exact Hp].
    intros _. apply Hopen. by injection (Henc _ eq_refl).
  - rewrite Er. by apply stored_local.
Qed.

Lemma renew_moves r r' e prev ev lease t :
  r' = mkRecovery (recovery_id r) lease (revision r + 1) (phase r) UNRESOLVED (created_block r) e (plan_digest r)
         (request_id r) (request_plan r) "" ->
  phase r <> HELD -> resolution r = UNRESOLVED -> t = EV_RENEWED -> expires_block (rec_lease r) < expires_block lease ->
  head_matches r prev = true -> recovery_wf r -> event_of r' t ev -> keeps_plan prev ev /\ moves prev ev.
Proof.
  intros -> Hph Hres -> Hlt Hh Hwf He. apply head_matches_ok in Hh as (? & ? & ? & Hex & ? & ? & ? & ?).
  destruct He as (_ & _ & _ & ? & ? & ? & _ & Hee & ? & ? & ?). cbn in *.
  assert (rec_reason r = "").
  { apply truthy_false, not_true_iff_false. rewrite (wf_reason _ Hwf). intros [?|?]; congruence. }
  split; [split; congruence|]. apply mv_renew; (congruence || lia).
Qed.

Lemma renew_locked_makes cfg r b e why s s' r' :
  renew_locked cfg r b e why s = (s', Ok r') -> make_lease (extended (rec_lease r) e) = Ok (extended (rec_lease r) e).
Proof.
  unfold renew_locked. intros H. inv_m.
  match goal with H : make_lease _ = Ok _ |- _ => pose proof H as Hml; apply make_lease_Ok in H as [-> _]; exact Hml end.
Qed.

(** The renewal writes the event and the lease row: a store in which one of them is missing does not reopen. *)
Lemma renew_locked_kept `{PlanCodec cfg} r b e why s s' r' :
  renew_locked cfg r b e why s = (s', Ok r') -> lease_inv (db s) -> numbered (db s) -> updated_block r <= b ->
  phase r <> HELD -> expires_block (rec_lease r) < e -> history_kept cfg (db s) (db s') r'.
Proof.
  intros Hrun Hi Hn Hb Hph Hlt. pose proof (renew_locked_makes _ _ _ _ _ _ _ _ Hrun) as Hml.
  apply renew_locked_ok in Hrun as (s2 & l & Hf & Hl & _ & _ & _ & Ht & _ & ->).
  pose proof (transition_ok _ _ _ _ _ _ _ _ _ _ _ _ Ht) as (Er & _ & Hact & _).
  apply active_audited in Hact as (_ & _ & Hres & _). apply recovery_frame_tables in Hf as [El Em].
  eapply transition_kept; [exact Ht|done..|cbn; lia| | | |done|done].
  - intros prev ev Hh _ Hwf _ He. right. eapply renew_moves; [exact Er|done..].
  - rewrite Er. unfold plan_opens. cbn. intros Hp Htr. destruct (Hp Htr) as [ep Hep]. exists ep. apply decode_later; [done|lia].
  - rewrite Er. cbn. intros (row & Hrow & Hev). rewrite El in Hl. assert (l = row) as -> by congruence.
    eapply stored_extended; [exact Hev|exact Hml| |done]. apply lookup_insert_eq.
Qed.

Lemma renew_kept `{PlanCodec cfg} r b n s s' r' lease :
  renew_recovery_lease cfg r b n s = (s', Ok (r', lease)) -> lease_inv (db s) -> numbered (db s) -> updated_block r <= b ->
  history_kept cfg (db s) (db s') r'.
Proof.
  unfold renew_recovery_lease. intros Hrun Hi Hn Hb. inv_m.
  match goal with H : _require_evaluation_clock _ _ = _ |- _ => apply clock_ok in H as (-> & _) end.
  repeat match goal with H : _ || _ = false |- _ => apply orb_false_iff in H as [? ?] end.
  match goal with H : is_phase _ HELD = false |- _ => apply is_phase_false in H end.
  match goal with H : (_ <=? expires_block _) = false |- _ => apply Z.leb_gt in H as Hlt end.
  match goal with H : recovery_mutation _ _ _ = _ |- _ => apply recovery_mutation_ok in H as (_ & st1 & Hr & ->) end.
  match goal with H : (r', lease) = (?x, _) |- _ => assert (x = r') as -> by congruence end.
  by eapply renew_locked_kept in Hr.
Qed.

Lemma hold_kept cfg r b why s s' r' :
  hold_recovery cfg r b why s = (s', Ok r') -> lease_inv (db s) -> numbered (db s) -> updated_block r <= b ->
  history_kept cfg (db s) (db s') r'.
Proof.
  unfold hold_recovery. intros H Hi Hn Hb. inv_m.
  match goal with H : _require_evaluation_clock _ _ = _ |- _ => apply clock_ok in H as (-> & _) end.
  repeat match goal with H : _ || _ = false |- _ => apply orb_false_iff in H as [? ?] end.
  match goal with H : is_phase _ HELD = false |- _ => apply is_phase_false in H end.
  match goal with H : negb (hold_reason_ok _) = false |- _ => apply negb_false_iff in H as Hwhy end.
  unfold hold_reason_ok in Hwhy. do 3 apply andb_true_iff in Hwhy as [Hwhy _]. apply truthy_true in Hwhy.
  apply recovery_mutation_ok in H as (_ & s1 & H & ->). cbn [db].
  pose proof (transition_ok _ _ _ _ _ _ _ _ _ _ _ _ H) as (Er & _).
  eapply transition_kept_here in H; [exact H|done..|]. rewrite Er. intros prev e Hh _ _ _ He.
  eapply same_carrier in He as (? & ? & ? & ? & ? & ? & ? & ?); [|exact Hh]. apply mv_hold; congruence.
Qed.

(** ** Releases *)

Lemma cap_frame lease s s' u :
  _cap_infrastructure_releases lease s = (s', Ok u) ->
  recoveries (db s') = recoveries (db s) /\ recovery_events (db s') = recovery_events (db s) /\
  leases (db s') = leases (db s) /\ lease_events (db s') = lease_events (db s) /\ lease_members (db s') = lease_members (db s).
Proof.
  intros H. refine (each_invariant (fun x => recoveries (db x) = recoveries (db s) /\
    recovery_events (db x) = recovery_events (db s) /\ leases (db x) = leases (db s) /\
    lease_events (db x) = lease_events (db s) /\ lease_members (db x) = lease_members (db s)) _ _ _ _ _ _ _ H); [|done].
  intros m x y v _ Hx Hm. inv_m. destruct (_ <? _); inv_m; [done|]. destruct (_ !! _); [|by inv_m].
  destruct (decide _); [|by inv_m].
  apply update_reservation_ok in Hm as [[_ ->]|(? & _ & _ & ->)]; done.
Qed.

Lemma recovery_row_inj r1 r2 : recovery_row_of r1 = recovery_row_of r2 -> rec_lease r1 = rec_lease r2 -> r1 = r2.
Proof. destruct r1, r2. cbn. intros [=] ->. by subst. Qed.

(** A release and the recovery it resolves. *)
Lemma release_run cfg r b why ph allow s s' lease :
  _release_recovery cfg r b why ph allow s = (s', Ok lease) -> good s ->
  lease = rec_lease r /\ resolution r = UNRESOLVED /\ exists r' s1,
    _transition_evaluation_recovery_locked cfg r (default (phase r) ph) PRE_RESIDENT_RELEASED EV_PRE_RESIDENT_RELEASED
      b why None None (mkStore (db s) ∅ {[ lease_id lease ]}) = (s1, Ok r') /\
    recovery_events (db s') = recovery_events (db s1) /\ recoveries (db s') !! lease_id lease = Some (recovery_row_of r').
Proof.
  intros H Hs. apply release_ok in H as (-> & _ & Hres & _ & _ & row & s1 & r' & e & _ & _ & _ & Ht & _ & _ & _ & _ & _ & _ & _ & ->); [|done].
  split; [done|]. split; [done|]. exists r', s1. split; [done|]. split; [done|].
  apply transition_ok in Ht as (_ & _ & _ & e' & rs & _ & _ & _ & -> & ->). apply lookup_insert_eq.
Qed.

Lemma release_kept cfg r b why ph allow s s1 s' lease r' :
  good s -> numbered (db s) -> updated_block r <= b ->
  _release_recovery cfg r b why ph allow s = (s1, Ok lease) -> releases why (phase r) (default (phase r) ph) ->
  recovery_events (db s') = recovery_events (db s1) -> recoveries (db s') = recoveries (db s1) ->
  leases (db s') = leases (db s1) -> lease_members (db s') = lease_members (db s1) ->
  recoveries (db s') !! lease_id lease = Some (recovery_row_of r') -> rec_lease r' = lease -> history_kept cfg (db s) (db s') r'.
Proof.
  intros Hs Hn Hb H Hrel Ee Er El Em Hrow Hl.
  apply release_ok in H as (-> & _ & Hres & _ & _ & row & s2 & r0 & e & Hrow0 & _ & Hlease & Ht & _ & _ & _ & _ & _ & _ & _ & ->); [|done].
  pose proof (transition_ok _ _ _ _ _ _ _ _ _ _ _ _ Ht) as (Er0 & _ & _ & e2 & rs & _ & _ & _ & Ers & Es2). cbn in *.
  assert (r' = r0) as ->.
  { apply recovery_row_inj; [|by rewrite Hl, Er0]. rewrite Er, Es2, Ers in Hrow. cbn in Hrow. rewrite lookup_insert_eq in Hrow. congruence. }
  pose proof Ht as Hf. apply transition_recovery_frame, recovery_frame_tables in Hf as [El2 Em2].
  eapply (transition_kept _ _ _ _ _ _ _ _ _ _ _ _ _ Ht); try done; [by destruct Hs| | |].
  - rewrite Er0. intros prev x Hh _ _ _ He.
    eapply same_carrier in He as (? & ? & Ep & Eq & ? & Ew & ? & ?); [|exact Hh]. right. split; [done|].
    apply mv_release; try done. by rewrite Ep, Eq, Ew.
  - by rewrite Er0.
  - intros _. rewrite Er0. cbn. eapply stored_finished; [exact Hlease| |].
    + rewrite El. apply lookup_insert_eq.
    + cbn in *. by rewrite Em, Em2.
Qed.

(** ** Results *)

Lemma inv_recoveries_back d rs es : lease_inv (with_recoveries rs es d) -> lease_inv d.
Proof. intros []. by split. Qed.

Lemma kept_from cfg d0 d d' r :
  recovery_events d0 `prefix_of` recovery_events d -> history_kept cfg d d' r -> history_kept cfg d0 d' r.
Proof. intros Hp []. split; try done. by etrans. Qed.

Lemma complete_kept cfg r b s s' r' :
  _complete_evaluation_recovery_locked cfg r b s = (s', Ok r') -> lease_inv (db s') -> numbered (db s) ->
  updated_block r <= b -> history_kept cfg (db s) (db s') r'.
Proof.
  unfold _complete_evaluation_recovery_locked. intros H Hi Hn Hb. inv_m.
  match goal with H : is_phase _ HELD = false |- _ => apply is_phase_false in H as Hph end.
  pose proof H as (rs & es & Ef)%transition_recovery_frame. rewrite Ef in Hi. apply inv_recoveries_back in Hi. clear Ef.
  pose proof (transition_ok _ _ _ _ _ _ _ _ _ _ _ _ H) as (Er & _).
  eapply transition_kept_here in H; [exact H|done..|]. rewrite Er. intros prev e Hh _ _ _ He.
  eapply same_carrier in He as (? & ? & ? & ? & ? & ? & ? & ?); [|exact Hh]. apply mv_commit; congruence.
Qed.

Lemma complete_row cfg r b s s' r' :
  _complete_evaluation_recovery_locked cfg r b s = (s', Ok r') ->
  recoveries (db s') !! lease_id (rec_lease r) = Some (recovery_row_of r') /\ rec_lease r' = rec_lease r.
Proof.
  unfold _complete_evaluation_recovery_locked. intros H. inv_m.
  apply transition_ok in H as (Er & _ & _ & e & rs & _ & _ & _ & -> & ->). split; [apply lookup_insert_eq|by rewrite Er].
Qed.

Lemma accept_kept cfg lease b digest body s s' r r' :
  good s -> numbered (db s) -> updated_block r <= b -> recovery_enabled cfg = true ->
  _active_qualification_recovery cfg (db s) lease = Ok r -> accept_evaluation_result cfg lease b digest body s = (s', Ok tt) ->
  recoveries (db s') !! lease_id lease = Some (recovery_row_of r') -> rec_lease r' = lease -> history_kept cfg (db s) (db s') r'.
Proof.
  intros Hs Hn Hb Hen Hact H Hrow Hl. pose proof (accept_success_good _ _ _ _ _ _ _ _ Hs H) as [Hi' _].
  apply accept_ok in H as (_ & _ & _ & row & rows & s1 & rec & _ & _ & _ & _ & _ & Hf & _ & _ & Hclose & Hrec); [|done].
  destruct rec as [r0|]; [|congruence]. destruct Hrec as (_ & Hact0 & _). assert (r0 = r) as -> by congruence.
  destruct Hclose as (l & e & rs & es & _ & _ & _ & _ & _ & _ & Ed & _ & _ & s2 & r1 & e' & Es2 & Hcomp & El1 & _ & _ & Ers & _).
  destruct (active_recovery_ok _ _ _ _ (proj1 Hs) Hact) as (El & _).
  assert (r' = r1) as ->.
  { apply recovery_row_inj; [|congruence]. rewrite Ed, Ers, <- El in Hrow. cbn in Hrow. rewrite lookup_insert_eq in Hrow. congruence. }
  assert (Ee : recovery_events (db s2) = recovery_events (db s)) by (rewrite Es2; exact (bf_recovery_events _ _ _ Hf)).
  eapply kept_from; [by rewrite <- Ee|]. eapply (complete_kept _ _ _ _ _ _ Hcomp); [exact Hi'|unfold numbered; by rewrite Ee|done].
Qed.

(** ** Remote holds *)

(** A recovery that a remote hold may complete. *)
Record ready (s : store) (r : EvaluationRecovery) (b : Z) : Prop := {
  rd_inv : lease_inv (db s);
  rd_numbered : numbered (db s);
  rd_block : updated_block r <= b;
  rd_phase : phase r <> HELD;
}.

Lemma reopen_ready cfg r b s s1 r1 :
  (if is_phase (phase r) HELD
   then _transition_evaluation_recovery_locked cfg r RESULT_READY UNRESOLVED EV_RESULT_READY b "" None None
   else mret r) s = (s1, Ok r1) ->
  lease_inv (db s) -> numbered (db s) -> updated_block r <= b -> (phase r = HELD -> reopenable (rec_reason r)) ->
  ready s1 r1 b /\ recovery_events (db s) `prefix_of` recovery_events (db s1).
Proof.
  destruct (is_phase (phase r) HELD) eqn:Ep; intros H Hi Hn Hb Hre.
  - apply is_phase_true in Ep. pose proof (transition_ok _ _ _ _ _ _ _ _ _ _ _ _ H) as (Er & _).
    pose proof H as Hf%transition_recovery_frame. eapply transition_kept_here in H as []; [|done..|].
    + split; [|done]. split; [by eapply frame_inv|done|by rewrite Er|by rewrite Er].
    + rewrite Er. intros prev e Hh _ _ _ He.
      eapply same_carrier in He as (? & ? & ? & ? & ? & ? & Ew & ?); [|exact Hh].
      apply mv_reopen; try congruence. rewrite Ew. by apply Hre.
  - apply is_phase_false in Ep. inv_m. by split.
Qed.

Lemma renew_ready `{PlanCodec cfg} r b n why s s1 r1 :
  (if expires_block (rec_lease r) <=? b then renew_locked cfg r b (b + n) why else mret r) s = (s1, Ok r1) -> 0 < n ->
  ready s r b -> ready s1 r1 b /\ recovery_events (db s) `prefix_of` recovery_events (db s1).
Proof.
  destruct (_ <=? _) eqn:Ele; intros Hrun Hpos []; [|inv_m; by split]. apply Z.leb_le in Ele.
  pose proof Hrun as Hk. eapply renew_locked_kept in Hk as []; [|done..|lia]. split; [|done].
  pose proof Hrun as (s2 & l & _ & _ & _ & _ & _ & Ht & _ & _)%renew_locked_ok. apply transition_ok in Ht as (Er & _).
  apply renew_locked_inv in Hrun as (? & _); [|done]. split; try done; by rewrite Er.
Qed.

Lemma hold_members_keep why digest ms s s' u :
  authorized (reservation_id <$> ms) (each (hold_member why digest) ms) s = (s', Ok u) ->
  recovery_events (db s') = recovery_events (db s).
Proof.
  intros (_ & s1 & H & ->)%authorized_ok. cbn.
  refine (each_invariant (fun x => recovery_events (db x) = recovery_events (db s)) _ _ _ _ _ _ _ H); [|done].
  intros m x y v _ E Hm. unfold hold_member in Hm. inv_m. by apply update_reservation_ok in Hm as [[_ ->]|(? & _ & _ & ->)].
Qed.

Lemma commit_hold_kept `{PlanCodec cfg} r b digest why rids n s s' lease r' :
  good s -> numbered (db s) -> updated_block r <= b ->
  commit_remote_qualification_hold cfg r b digest why rids n s = (s', Ok lease) ->
  recoveries (db s') !! lease_id lease = Some (recovery_row_of r') -> rec_lease r' = lease -> history_kept cfg (db s) (db s') r'.
Proof.
  intros Hs Hn Hb Hrun Hrow Hl. pose proof (keeps_good_ok _ _ _ _ (commit_hold_good cfg r b digest why rids n) Hs Hrun) as [Hi' _].
  unfold commit_remote_qualification_hold in Hrun. inv_m.
  match goal with H : _require_evaluation_clock _ _ = _ |- _ => apply clock_ok in H as (-> & _) end.
  match goal with H : collect get _ _ = _ |- _ => apply collect_get_ok in H; subst end.
  repeat match goal with H : _ || _ = false |- _ => apply orb_false_iff in H as [? ?] end.
  match goal with H : negb (bool_decide (?x = r)) = false |- _ => apply negb_false_iff, bool_decide_eq_true in H; subst x end.
  match goal with H : negb (starts_with _ why) = false |- _ => apply negb_false_iff in H as Hwhy end.
  match goal with H : (n <=? 0) = false |- _ => apply Z.leb_gt in H as Hpos end.
  match goal with H : is_phase (phase r) HELD && _ = false |- _ => rename H into Hheld end.
  match goal with H : recovery_mutation _ _ _ = _ |- _ => apply recovery_mutation_ok in H as (_ & st1 & H & ->) end. inv_m. cbn [db] in *.
  match goal with H : (if is_phase _ _ then _ else _) _ = _ |- _ => apply reopen_ready with (b := b) in H as [Hready1 Hp1]; [|apply Hs|done|done|] end.
  2:{ intros Eph. rewrite Eph in Hheld. apply negb_false_iff, bool_decide_eq_true in Hheld.
      apply elem_of_cons in Hheld as [->|Hx%list_elem_of_singleton]; [by left|right]. rewrite Hx. set_solver. }
  match goal with H : (if _ <=? _ then _ else _) _ = _ |- _ => apply renew_ready in H as [[Hi2 Hn2 Hb2 _] Hp2]; [|done..] end.
  match goal with H : authorized _ _ _ = _ |- _ => apply hold_members_keep in H as Ee end.
  match goal with H : update_lease _ _ _ _ _ = _ |- _ => apply update_lease_ok in H as [[-> ->]|(-> & l & _ & _ & _ & _ & ->)] end; [done|].
  match goal with H : deactivate_members _ _ _ = _ |- _ => apply deactivate_members_ok in H as [_ ->] end.
  match goal with H : _append_evaluation_lease_event _ _ _ _ _ _ _ = _ |- _ =>
    apply append_lease_event_ok in H as (_ & _ & _ & _ & _ & _ & _ & _ & ->) end.
  match goal with H : _complete_evaluation_recovery_locked _ _ _ ?x = (_, Ok ?q) |- _ => rename H into Hcomp; rename q into r3; set (pre := x) in * end.
  assert (Epre : recovery_events (db pre) = _) by exact Ee.
  pose proof (complete_row _ _ _ _ _ _ Hcomp) as [Hrow' Hl']. assert (r' = r3) as -> by (apply recovery_row_inj; congruence).
  eapply kept_from; [|eapply (complete_kept _ _ _ _ _ _ Hcomp); [exact Hi'|unfold numbered; by rewrite Epre|done]].
  rewrite Epre. by etrans.
Qed.

Lemma worker_reasons_not_stale why :
  why ∈ WORKER_PRE_RESIDENT_RELEASE_REASONS -> stale_incumbent_release_reason_digests why = None.
Proof. intros [->|[->|Hw%elem_of_nil]%elem_of_cons]%elem_of_cons; [vm_compute; reflexivity..|done]. Qed.

Ltac by_advance :=
  unfold commit_recovery_publication, observe_recovery_request_ready, record_recovery_result, record_recovery_import in *;
  eapply advance_kept; [| |eassumption|eassumption|eassumption|eassumption]; [|discriminate].

(** The calls that move one recovery, other than the infrastructure release, with the recovery they leave. A
    prepared plan is one that was encoded for the lease, so it decodes for it. A call that returns the lease
    leaves the recovery in its row. *)
Inductive recovery_call (cfg : config) (r : EvaluationRecovery) (b : Z) (s s' : store) : EvaluationRecovery -> Prop :=
  | call_prepare plan r' : prepare_qualification_recovery cfg r plan b s = (s', Ok r') ->
      (forall payload digest request, plan = Ok (payload, digest, request) ->
         is_Some (reopen_plan cfg payload (rec_lease r) digest request)) -> recovery_call cfg r b s s' r'
  | call_publish r' : commit_recovery_publication cfg r b s = (s', Ok r') -> recovery_call cfg r b s s' r'
  | call_request r' : observe_recovery_request_ready cfg r b s = (s', Ok r') -> recovery_call cfg r b s s' r'
  | call_result r' : record_recovery_result cfg r b s = (s', Ok r') -> recovery_call cfg r b s s' r'
  | call_import r' : record_recovery_import cfg r b s = (s', Ok r') -> recovery_call cfg r b s s' r'
  | call_renew n r' lease : renew_recovery_lease cfg r b n s = (s', Ok (r', lease)) -> recovery_call cfg r b s s' r'
  | call_hold why r' : hold_recovery cfg r b why s = (s', Ok r') -> recovery_call cfg r b s s' r'
  | call_accept lease digest body r' :
      recovery_enabled cfg = true -> _active_qualification_recovery cfg (db s) lease = Ok r ->
      accept_evaluation_result cfg lease b digest body s = (s', Ok tt) ->
      recoveries (db s') !! lease_id lease = Some (recovery_row_of r') -> rec_lease r' = lease -> recovery_call cfg r b s s' r'
  | call_commit_hold digest why rids n lease r' :
      commit_remote_qualification_hold cfg r b digest why rids n s = (s', Ok lease) ->
      recoveries (db s') !! lease_id lease = Some (recovery_row_of r') -> rec_lease r' = lease -> recovery_call cfg r b s s' r'
  | call_refuse q code lease r' :
      release_worker_pre_resident_recovery cfg r q code b s = (s', Ok lease) ->
      recoveries (db s') !! lease_id lease = Some (recovery_row_of r') -> rec_lease r' = lease ->
      recovery_call cfg r b s s' r'
  | call_stale product live tree lease r' :
      release_stale_incumbent_qualification_recovery cfg r product live tree b s = (s', Ok lease) ->
      recoveries (db s') !! lease_id lease = Some (recovery_row_of r') -> rec_lease r' = lease ->
      recovery_call cfg r b s s' r'.

(** C29: whatever a worker, the renewal, a hold, a completed remote hold, an accepted result, a refusal or a
    stale-incumbent release does to a recovery, the audit of the code ([evaluation_recovery_events]) accepts
    the recovery it leaves: its row, its lease row and its plan reopen as that recovery, every stored event
    reopens, the events are the claim followed by legal moves, and the last one is equal to the recovery;
    and the history of the store only grew. Provided that finalized blocks do not go back
    ([updated_block r <= b]), that the table's sequence is its row number, and that a plan that decodes for a
    lease decodes for its later deadlines. The infrastructure release is the exception, and has its own theorem. *)
Theorem history_stays_audited `{PlanCodec cfg} (r : EvaluationRecovery) (b : Z) (s s' : store) (r' : EvaluationRecovery) :
  good s -> numbered (db s) -> updated_block r <= b -> recovery_call cfg r b s s' r' ->
  evaluation_recovery_events cfg (db s') r' = Ok (recovery_events_of (recovery_id r') (recovery_events (db s'))) /\
  audited (db s') r' /\ numbered (db s') /\ recovery_events (db s) `prefix_of` recovery_events (db s').
Proof.
  intros Hs Hn Hb Hc. pose proof Hs as [Hi _]. enough (history_kept cfg (db s) (db s') r') as [] by by split_and!. destruct Hc.
  - by eapply prepare_kept.
  - by_advance. by intros p ->%list_elem_of_singleton; constructor.
  - by_advance. by intros p ->%list_elem_of_singleton; constructor.
  - by_advance. intros p Hp. constructor. set_solver.
  - by_advance. by intros p ->%list_elem_of_singleton; constructor.
  - by eapply renew_kept.
  - by eapply hold_kept.
  - by eapply accept_kept.
  - by eapply commit_hold_kept.
  - unfold release_worker_pre_resident_recovery in *. inv_m.
    repeat match goal with H : _ || _ = false |- _ => apply orb_false_iff in H as [? ?] end.
    repeat match goal with H : negb _ = false |- _ => apply negb_false_iff in H end.
    match goal with H : is_phase _ _ = true |- _ => apply is_phase_true in H as Hp end.
    match goal with H : bool_decide _ = true |- _ => apply bool_decide_eq_true in H as Hw end.
    eapply release_kept; try eassumption; try done. cbn. rewrite Hp.
    apply rel_worker; [by apply worker_reasons_not_stale|done].
  - unfold release_stale_incumbent_qualification_recovery in *. inv_m.
    match goal with H : _cap_infrastructure_releases _ _ = _ |- _ => apply cap_frame in H as (? & ? & ? & _ & ?) end.
    match goal with H : stale_incumbent_release_reason _ _ _ _ _ = Ok _ |- _ => apply stale_reason_equiv in H as Hst end.
    match goal with H : negb (is_phase _ _ || _ || _) = false |- _ => apply negb_false_iff in H as Hp end.
    rewrite !orb_true_iff, !is_phase_true in Hp.
    eapply release_kept; try eassumption; try done. cbn. apply rel_stale; [by rewrite Hst|tauto].
Qed.

(** ** The histories that the audit refuses *)

Lemma map_lease_event cfg d es es' : map_result (_evaluation_lease_event cfg d) es = Ok es' -> es' = es.
Proof.
  intros H%map_result_Forall2. induction H as [|x y es es' Hx _ IH]; [done|]. rewrite IH. f_equal.
  by eapply lease_event_same.
Qed.

Lemma infrastructure_reason_not_legal code p q :
  p <> CLAIMED -> p <> PREPARED -> ~ releases (string_app "systemic:worker_infrastructure:" code) p q.
Proof.
  intros Hp Hq H. inversion H as [? Hs| |]; subst; [|by set_solver|by tauto].
  destruct Hs as [x Hs]. unfold stale_incumbent_release_reason_digests in Hs. cbn in Hs. done.
Qed.

(** An audited history cannot be extended by a release that is not a legal move. *)
Lemma illegal_release_refused cfg r b why ph allow s s1 s' lease events :
  good s -> _release_recovery cfg r b why ph allow s = (s1, Ok lease) ->
  recovery_events (db s') = recovery_events (db s1) -> ~ releases why (phase r) (default (phase r) ph) ->
  evaluation_recovery_events cfg (db s') r <> Ok events.
Proof.
  intros Hs H Ee Hill Ha. apply release_run in H as (-> & Hres & r' & s2 & Ht & Ee' & _); [|done].
  apply transition_ok in Ht as (Er & _ & (Haud & _ & _ & Hwf)%active_audited & e & rs & He & _ & _ & _ & ->).
  assert (Ed : recovery_events (db s') = recovery_events (db s) ++ [e]) by (rewrite Ee, Ee'; done).
  assert (Hid : re_recovery_id e = recovery_id r) by (rewrite (proj1 He); by rewrite Er).
  assert (Hrev : re_revision e = revision r + 1) by (destruct He as (_ & _ & -> & _); by rewrite Er).
  destruct (history_snoc _ _ r e Haud Hid Hrev Ed) as (claim & rest & _ & _ & _ & Hh & Hev).
  apply audit_of_events in Ha as (cur & claim' & rest' & _ & Hev' & _ & Hch & _). rewrite Hev in Hev'.
  injection Hev' as <- <-. apply chain_ok_snoc in Hch as (_ & _ & _ & Hf).
  rewrite Er in He. eapply same_carrier in He as (_ & Et & Ep & Eq & _ & Ew & _ & _); [|exact Hh].
  destruct Hf as [_ [(Ht & _)|[_ Hm]]]; [congruence|].
  inversion Hm as [Ht| Hadv | Ht | Ht | _ Hrel | Ht]; try congruence.
  rewrite Et in Hadv. inversion Hadv.
Qed.

(** C31: the infrastructure release records a resolution that its own history forbids: its reason is legal only
    from the claimed and prepared phases while it runs from a ready request or a hold, so after it the
    audit of the recovery's history never accepts it again. *)
Theorem infrastructure_release_unauditable (cfg : config) (r : EvaluationRecovery) (code epoch : string) (b : Z)
    (s s' : store) (lease : EvaluationLease) (events : list recovery_event) :
  good s -> release_worker_infrastructure_recovery cfg r code b epoch s = (s', Ok lease) ->
  evaluation_recovery_events cfg (db s') r <> Ok events.
Proof.
  unfold release_worker_infrastructure_recovery. intros Hs H. apply bind_ok in H as (retired & s0 & H0 & H).
  assert (s0 = s) as ->.
  { destruct (_ && _) in H0; inv_m; [|done].
    match goal with H : reopen_recovery_request_plan _ _ s = _ |- _ => pose proof (reopen_plan_reads cfg r s) as E; rewrite H in E end.
    done. }
  clear H0. revert H. set (held := is_phase (phase r) HELD && _). intros H. inv_m.
  repeat match goal with H : _ || _ = false |- _ => apply orb_false_iff in H as [? ?] end.
  match goal with H : negb (_ || held) = false |- _ => apply negb_false_iff, orb_true_iff in H as Hph end.
  match goal with H : _release_recovery _ _ _ _ _ _ _ = (?x, _) |- _ => rename x into st1; rename H into Hrel end.
  eapply illegal_release_refused; [exact Hs|exact Hrel| |].
  - match goal with H : (if bool_decide _ then _ else _) st1 = _ |- _ => destruct (bool_decide _) in H; inv_m; [done|];
      by apply cap_frame in H as (_ & ? & _) end.
  - assert (Hp : phase r = REQUEST_READY \/ phase r = HELD).
    { destruct Hph as [?%is_phase_true|Hheld]; [by left|right]. unfold held in Hheld.
      apply andb_true_iff in Hheld as [Hheld _]. by apply is_phase_true. }
    apply infrastructure_reason_not_legal; destruct Hp as [->| ->]; discriminate.
Qed.

(** A ready request of the example store, whose worker infrastructure then fails. *)
Definition ready_program : M (option EvaluationRecovery) :=
  r ← claim_recoverable_qualification (example_config true) (VStr "worker") 5 30 None 1;
  match r with
  | None => mret None
  | Some r =>
      r ← prepare_qualification_recovery (example_config true) r (Ok ("plan", hex 100, hex 101)) 5;
      r ← commit_recovery_publication (example_config true) r 5;
      r ← observe_recovery_request_ready (example_config true) r 5;
      mret (Some r)
  end.

Definition outcome {A} (m : M (option A)) (s : store) : store * option A :=
  match m s with
  | (s', Ok r) => (s', r)
  | (s', Raise _) => (s', None)
  end.

Definition ready_run : store * option EvaluationRecovery := Eval vm_compute in outcome ready_program example_store.

Lemma ready_run_run : ready_run = outcome ready_program example_store.
Proof. vm_compute. reflexivity. Qed.

Lemma ready_run_good : good ready_run.1.
Proof.
  assert (H : keeps_good ready_program).
  { apply bind_good; [apply claim_recoverable_good|]. intros [r|]; [|auto with good].
    repeat (apply bind_good; [apply advance_good|intros ?]). auto with good. }
  rewrite ready_run_run. unfold outcome. specialize (H example_store (fresh_good _ example_fresh)).
  by destruct (ready_program example_store) as [s [r|e]].
Qed.

Lemma infrastructure_release_unauditable_witness :
  match ready_run.2 with
  | Some r =>
      match release_worker_infrastructure_recovery (example_config true) r "boom" 5 "" ready_run.1 with
      | (s', Ok lease) => reservation_ids lease = [hex 98] /\
          forall events, evaluation_recovery_events (example_config true) (db s') r <> Ok events
      | _ => False
      end
  | None => False
  end.
Proof.
  assert (E : match ready_run.2 with
    | Some r => match release_worker_infrastructure_recovery (example_config true) r "boom" 5 "" ready_run.1 with
                | (s', Ok lease) => reservation_ids lease = [hex 98] | _ => False end
    | None => False end) by (vm_compute; reflexivity).
  destruct ready_run.2 as [r|]; [|exact E].
  destruct (release_worker_infrastructure_recovery _ _ _ _ _ _) as [s' [lease|e]] eqn:H; [|exact E]. split; [exact E|].
  intros events. apply (infrastructure_release_unauditable _ _ _ _ _ _ _ _ _ ready_run_good H).
Defined.

Lemma history_stays_audited_witness :
  match ready_run.2 with
  | Some r =>
      match renew_recovery_lease (example_config true) r 5 100 ready_run.1 with
      | (s', Ok (r', lease)) => expires_block lease = 105 /\
          evaluation_recovery_events (example_config true) (db s') r' =
            Ok (recovery_events_of (recovery_id r') (recovery_events (db s')))
      | _ => False
      end
  | None => False
  end.
Proof.
  assert (E : match ready_run.2 with
    | Some r => updated_block r <= 5 /\
        match renew_recovery_lease (example_config true) r 5 100 ready_run.1 with
        | (s', Ok (r', lease)) => expires_block lease = 105 | _ => False end
    | None => False end) by (vm_compute; split; [discriminate|reflexivity]).
  assert (Hn : numbered (db ready_run.1)).
  { assert (Hs : re_sequence <$> recovery_events (db ready_run.1) = [1; 2; 3; 4]) by (vm_compute; reflexivity).
    intros i e Hi. apply (f_equal (fun l => l !! i)) in Hs. rewrite list_lookup_fmap, Hi in Hs.
    destruct i as [|[|[|[|i]]]]; simpl in Hs; [injection Hs as ->; reflexivity..|discriminate Hs]. }
  destruct ready_run.2 as [r|]; [|exact E]. destruct E as [Hb E].
  destruct (renew_recovery_lease _ _ _ _ _) as [s' [[r' lease]|e]] eqn:H; [|exact E]. split; [exact E|].
  apply (history_stays_audited (cfg := example_config true) r 5 ready_run.1 s' r' ready_run_good Hn Hb).
  apply (call_renew _ _ _ _ _ 100 r' lease H).
Defined.

(** ** A release after the deadline *)

Lemma events_of_snoc lid es e :
  ev_lease_id e = lid -> events_of lid (es ++ [e]) = events_of lid es ++ [e].
Proof.
  intros He. unfold events_of. rewrite filter_app. f_equal. by rewrite filter_cons, decide_True.
Qed.

Lemma events_of_idem lid es : events_of lid (events_of lid es) = events_of lid es.
Proof. apply filter_all. intros e He. by apply list_elem_of_filter in He as [? _]. Qed.

Lemma stream_steps_snoc previous index es e :
  stream_steps_ok previous index (es ++ [e]) = true -> exists p i, event_step_ok p e i = true.
Proof.
  revert previous index. induction es as [|f es IH]; intros p i; simpl; intros [H1 H2]%andb_true_iff; [by eauto|].
  by eapply IH.
Qed.

(** The audit of one lease's stream, when it accepts. *)
Lemma audited_stream cfg d lid events :
  evaluation_lease_events cfg d (Some lid) = Ok events -> events <> [] ->
  events = events_of lid (lease_events d) /\ check_stream cfg d events = Ok tt.
Proof.
  unfold evaluation_lease_events. intros H Hne. apply bind_Ok in H as (es & Hes & H). apply map_lease_event in Hes as ->.
  apply bind_Ok in H as (us & Hus & H). assert (E : events_of lid (lease_events d) = events) by congruence.
  split; [done|]. rewrite E in Hus.
  assert (Hin : lid ∈ remove_dups (ev_lease_id <$> events)).
  { apply elem_of_remove_dups. destruct events as [|e es]; [done|]. apply list_elem_of_fmap. exists e. split; [|by left].
    assert (He : e ∈ events_of lid (lease_events d)) by (rewrite E; by left). by apply list_elem_of_filter in He as [-> _]. }
  apply map_result_Forall2 in Hus. apply list_elem_of_lookup in Hin as [i Hi].
  destruct (Forall2_lookup_l _ _ _ _ _ Hus Hi) as ([] & _ & Hc). rewrite <- E in Hc.
  by rewrite events_of_idem, E in Hc.
Qed.

Lemma late_release_refused cfg r b why ph allow s s1 s' lease events :
  good s -> _release_recovery cfg r b why ph allow s = (s1, Ok lease) -> lease_events (db s') = lease_events (db s1) ->
  expires_block lease <= b -> evaluation_lease_events cfg (db s') (Some (lease_id lease)) <> Ok events.
Proof.
  intros Hs H Ee Hlate Ha. apply release_ok in H as (-> & _ & _ & _ & _ & row & s2 & r' & e & _ & _ & _ & Ht & _ & Hty & Hid & Hfb & Hex & _ & _ & ->); [|done].
  apply transition_recovery_frame in Ht as (rs & es & ->). cbn in Ee.
  pose proof (events_of_snoc _ (lease_events (db s)) _ Hid) as Hsn. rewrite <- Ee in Hsn.
  assert (Hev : events = events_of (lease_id (rec_lease r)) (lease_events (db s'))).
  { unfold evaluation_lease_events in Ha. apply bind_Ok in Ha as (xs & Hxs & Ha). apply map_lease_event in Hxs as ->.
    apply bind_Ok in Ha as (? & _ & Ha). congruence. }
  rewrite Hsn in Hev. apply audited_stream in Ha as [_ Hc].
  2:{ rewrite Hev. intros [_ ?]%app_nil. done. }
  rewrite Hev in Hc. destruct (events_of (lease_id (rec_lease r)) (lease_events (db s))) as [|first rest]; cbn [app check_stream] in Hc.
  - destruct (leases _ !! _); [|done]. apply bind_Ok in Hc as (x & _ & Hc). step_guard Hc.
    apply negb_false_iff in Eg. do 2 apply andb_true_iff in Eg as [Eg _]. apply andb_true_iff in Eg as [_ Eg].
    apply bool_decide_eq_true in Eg. congruence.
  - destruct (leases _ !! _); [|done]. apply bind_Ok in Hc as (x & _ & Hc). step_guard Hc. step_guard Hc.
    apply negb_false_iff in Eg0. apply stream_steps_snoc in Eg0 as (p & i & Hstep). unfold event_step_ok in Hstep.
    apply negb_true_iff in Hstep. apply orb_false_iff in Hstep as [Hstep _]. apply orb_false_iff in Hstep as [_ Hstep].
    rewrite Hty, bool_decide_eq_true_2 in Hstep by done. cbn in Hstep. apply Z.leb_gt in Hstep. lia.
Qed.

(** A stale-incumbent release is allowed at or after the lease's deadline, but the audit of the lease
    events then refuses the stream of that lease: it forbids a released event at or after the deadline. *)
Theorem late_stale_release_unauditable (cfg : config) (r : EvaluationRecovery) (product : product_identity)
    (live : stack_identity) (tree : pyval) (b : Z) (s s' : store) (lease : EvaluationLease)
    (events : list EvaluationLeaseEvent) :
  good s -> release_stale_incumbent_qualification_recovery cfg r product live tree b s = (s', Ok lease) ->
  expires_block lease <= b -> evaluation_lease_events cfg (db s') (Some (lease_id lease)) <> Ok events.
Proof.
  unfold release_stale_incumbent_qualification_recovery. intros Hs H. inv_m. intros Hb.
  match goal with H : _cap_infrastructure_releases _ _ = _ |- _ => apply cap_frame in H as (_ & _ & _ & Ee & _) end.
  by eapply late_release_refused.
Qed.

Lemma late_stale_release_unauditable_witness :
  match ready_run.2 with
  | Some r =>
      match release_stale_incumbent_qualification_recovery (example_config true) r
              (mkProduct (hex 97) (hex 98) (hex 99) (hex 100) (hex 101) (hex 101)) (mkStack (hex 102) (hex 100) (hex 101))
              (VStr (hex 99)) 40 (at_block 40 ready_run.1) with
      | (s', Ok lease) => expires_block lease <= 40 /\
          forall events, evaluation_lease_events (example_config true) (db s') (Some (lease_id lease)) <> Ok events
      | _ => False
      end
  | None => False
  end.
Proof.
  assert (E : match ready_run.2 with
    | Some r => match release_stale_incumbent_qualification_recovery (example_config true) r
              (mkProduct (hex 97) (hex 98) (hex 99) (hex 100) (hex 101) (hex 101)) (mkStack (hex 102) (hex 100) (hex 101))
              (VStr (hex 99)) 40 (at_block 40 ready_run.1) with
                | (s', Ok lease) => expires_block lease <= 40 | _ => False end
    | None => False end) by (vm_compute; discriminate).
  destruct ready_run.2 as [r|]; [|exact E].
  destruct (release_stale_incumbent_qualification_recovery _ _ _ _ _ _ _) as [s' [lease|e]] eqn:H; [|exact E].
  split; [exact E|]. intros events.
  apply (late_stale_release_unauditable _ _ _ _ _ _ _ _ _ _ (at_block_good 40 _ ready_run_good) H E).
Defined.
