(* ===== verification/Publication.v ===== *)
(** * Weight publication records

    The immutable journal event of [cacheon/chain/weight_publication_record.py]
    and the projection it publishes ([cacheon/chain/weight_projection.py]). *)

From S2P Require Import Prelude PyVal Dict Sha256 Identity Strict EvidenceRef.

Open Scope Z_scope.

Definition WeightPublicationError (m : string) : exn := Exn "WeightPublicationError" m.

(** [type(value) is not int or value < 0] *)
Definition natural (value : pyval) (e : exn) : result Z :=
  match value with VInt z => raise_if z <? 0 with e; Ok z | _ => Raise e end.

(** ** The record *)

Inductive publication_status := p_intent | p_pending | p_held | p_confirmed | p_released.

#[export] Instance publication_status_eq_dec : EqDecision publication_status.
Proof. solve_decision. Defined.

Definition PUBLICATION_STATUSES : list (string * publication_status) :=
  [("intent", p_intent); ("pending", p_pending); ("held", p_held); ("confirmed", p_confirmed);
   ("released", p_released)].

Definition status_name (s : publication_status) : string :=
  match s with
  | p_intent => "intent" | p_pending => "pending" | p_held => "held"
  | p_confirmed => "confirmed" | p_released => "released"
  end.

(** [status in PUBLICATION_STATUSES]: an unhashable status is a [TypeError]. *)
Fixpoint hashable (v : pyval) : bool :=
  match v with VList _ | VDict _ => false | VTuple l => forallb hashable l | _ => true end.

Definition read_status (v : pyval) : result publication_status :=
  raise_if negb (hashable v) with (Exn "TypeError" "unhashable type");
  match v with
  | VStr s => match dict_get s PUBLICATION_STATUSES with
              | Some st => Ok st
              | None => Raise (WeightPublicationError "publication status is unsupported")
              end
  | _ => Raise (WeightPublicationError "publication status is unsupported")
  end.

Record WeightPublicationRecord := mkRecord {
  w_projection : string;
  w_status : publication_status;
  w_prior : option string;
  submit_block : Z;
  retry_after_block : Z;
  reveal_round : Z;
  confirmed_block : Z;
  confirmed_last_update : Z;
  w_reason : string;
}.

#[export] Instance weight_record_eq_dec : EqDecision WeightPublicationRecord.
Proof. solve_decision. Defined.

Definition in_flight (s : publication_status) : bool := bool_decide (s ∈ [p_intent; p_pending]).

(** [any(char in reason for char in "\x00\r\n")] *)
Definition has_break (s : string) : bool := any_char (fun c => bool_decide (ord c ∈ [0; 13; 10]%N)) s.

Definition reason_ok (s : string) : bool := (py_len s <=? 2048) && negb (has_break s).

(** The chronology checks of [__post_init__], in its order. *)
Definition check_record (r : WeightPublicationRecord) : result WeightPublicationRecord :=
  raise_if in_flight (w_status r) && ((submit_block r <=? 0) || (retry_after_block r <? submit_block r))
    with (WeightPublicationError "in-flight publication bounds are malformed");
  raise_if bool_decide (w_status r = p_held)
           && negb (((submit_block r =? 0) && (retry_after_block r =? 0))
                    || ((0 <? submit_block r) && (submit_block r <=? retry_after_block r)))
    with (WeightPublicationError "held publication bounds are malformed");
  raise_if bool_decide (w_status r = p_confirmed)
           && ((confirmed_block r <? confirmed_last_update r) || (confirmed_block r <? submit_block r)
               || ((0 <? submit_block r) && negb (String.eqb (w_reason r) "block_inclusion")
                   && (confirmed_last_update r <? submit_block r)))
    with (WeightPublicationError "confirmation chronology is malformed");
  raise_if bool_decide (w_status r = p_released) && String.eqb (w_reason r) ""
    with (WeightPublicationError "publication release requires an audit reason");
  Ok r.

Definition read_reason (v : pyval) : result string :=
  match v with
  | VStr s => raise_if negb (reason_ok s) with (WeightPublicationError "publication reason is malformed"); Ok s
  | _ => Raise (WeightPublicationError "publication reason is malformed")
  end.

Definition make_weight_record (projection status prior submit retry reveal cblock clast reason : pyval) :
    result WeightPublicationRecord :=
  projection ← require_sha256_hex projection "projection_digest";
  prior ← match prior with
          | VNone => Ok None
          | _ => Some <$> require_sha256_hex prior "prior_record_digest"
          end;
  status ← read_status status;
  submit ← natural submit (WeightPublicationError "publication submit_block is malformed");
  retry ← natural retry (WeightPublicationError "publication retry_after_block is malformed");
  reveal ← natural reveal (WeightPublicationError "publication reveal_round is malformed");
  cblock ← natural cblock (WeightPublicationError "publication confirmed_block is malformed");
  clast ← natural clast (WeightPublicationError "publication confirmed_last_update is malformed");
  reason ← read_reason reason;
  check_record (mkRecord projection status prior submit retry reveal cblock clast reason).

Definition prior_value (o : option string) : pyval := match o with Some s => VStr s | None => VNone end.

(** The constructor applied to the typed values that the publication code passes. *)
Definition rebuild_record (r : WeightPublicationRecord) : result WeightPublicationRecord :=
  make_weight_record (VStr (w_projection r)) (VStr (status_name (w_status r))) (prior_value (w_prior r))
    (VInt (submit_block r)) (VInt (retry_after_block r)) (VInt (reveal_round r)) (VInt (confirmed_block r))
    (VInt (confirmed_last_update r)) (VStr (w_reason r)).

Definition record_to_dict (r : WeightPublicationRecord) : pyval :=
  str_dict [("confirmed_block", VInt (confirmed_block r));
            ("confirmed_last_update", VInt (confirmed_last_update r));
            ("prior_record_digest", prior_value (w_prior r));
            ("projection_digest", VStr (w_projection r));
            ("reason", VStr (w_reason r));
            ("retry_after_block", VInt (retry_after_block r));
            ("reveal_round", VInt (reveal_round r));
            ("status", VStr (status_name (w_status r)));
            ("submit_block", VInt (submit_block r))].

Definition record_fields : list string :=
  ["projection_digest"; "status"; "prior_record_digest"; "submit_block"; "retry_after_block"; "reveal_round";
   "confirmed_block"; "confirmed_last_update"; "reason"].

Definition record_from_dict (value : pyval) : result WeightPublicationRecord :=
  row ← exact_dict value record_fields (WeightPublicationError "publication record fields do not match");
  make_weight_record (argument row "projection_digest") (argument row "status") (argument row "prior_record_digest")
    (argument row "submit_block") (argument row "retry_after_block") (argument row "reveal_round")
    (argument row "confirmed_block") (argument row "confirmed_last_update") (argument row "reason").

Definition record_digest (r : WeightPublicationRecord) : result string :=
  canonical_digest "cacheon.chain.weight-publication" (record_to_dict r) 1.

(** ** The projection *)

Definition WEIGHT_PARTS : Z := 1000000.

Record WeightProjection := mkProjection {
  p_scope : string;
  netuid : Z;
  p_validator : string;
  p_policy : string;
  p_settlement_state : string;
  p_evaluation_state : string;
  p_metagraph_digest : string;
  arena_state_digests : list string;
  stack_generation : Z;
  effective_block : Z;
  crown_count : Z;
  evidence_digests : list string;
  weights_ppm : list (string * Z);
  allocation_evidence : option EvidenceArtifactRef;
  rewarded_evidence : option (list string);
}.

#[export] Instance weight_projection_eq_dec : EqDecision WeightProjection.
Proof. solve_decision. Defined.

(** [isinstance(v, str) and v and v.strip() == v and len(v) <= 256] *)
Definition hotkey_text (s : string) : bool := truthy s && is_stripped s && (py_len s <=? 256).

(** [rows == tuple(sorted(set(rows)))] *)
Definition canonical_set (l : list string) : bool := bool_decide (l = sorted_set l).

Definition read_digests (l : list string) (field : string) : result () :=
  _ ← map_result (fun s => require_sha256_hex (VStr s) field) l; Ok tt.

Definition inventory_error : exn := WeightPublicationError "projection evidence inventory is malformed".

Definition check_inventory (crowns : Z) (evidence arenas : list string) : result () :=
  raise_if negb (canonical_set evidence) with inventory_error;
  _ ← read_digests evidence "evidence_digest";
  raise_if (Z.of_nat (length evidence) <? crowns) || bool_decide (arenas = []) || negb (canonical_set arenas)
    with inventory_error;
  read_digests arenas "arena_state_digest".

Definition check_allocation (evidence : list string) (allocation : option EvidenceArtifactRef)
    (rewarded : option (list string)) : result () :=
  match allocation, rewarded with
  | None, None => Ok tt
  | None, Some _ => Raise (WeightPublicationError "earning inventory requires allocation evidence")
  | Some ref, Some rows =>
      raise_if negb (bool_decide (ref_sha256 ref ∈ evidence)) || negb (canonical_set rows)
               || negb (forallb (fun r => bool_decide (r ∈ evidence)) rows)
        with (WeightPublicationError "allocation evidence or earning inventory is malformed");
      Ok tt
  | Some _, None => Raise (WeightPublicationError "allocation evidence or earning inventory is malformed")
  end.

Definition weights_ok (rows : list (string * Z)) : bool :=
  negb (bool_decide (rows = [])) && canonical_set rows.*1
  && forallb (fun r => hotkey_text r.1 && (0 <? r.2)) rows && (sum_Z rows.*2 =? WEIGHT_PARTS).

(** An array argument. The code refuses a non-string element too; which error it raises depends on
    the comparison that fails first, and the model raises the field's own. *)
Definition string_items (l : list pyval) (e : exn) : result (list string) :=
  map_result (fun v => match v with VStr s => Ok s | _ => Raise e end) l.

Definition weight_rows (l : list (pyval * pyval)) : result (list (string * Z)) :=
  map_result (fun row => match row with
                         | (VStr h, VInt z) => Ok (h, z)
                         | _ => Raise (WeightPublicationError "projection weights are not canonical ppm")
                         end) l.

Definition read_signer (netuid validator : pyval) : result (Z * string) :=
  match netuid, validator with
  | VInt n, VStr s => Ok (n, s)
  | _, _ => Raise (WeightPublicationError "projection chain/signer identity is malformed")
  end.

(** [WeightProjection(...)]: the five digests, the signer, the counters, the inventories and the rows. *)
Definition make_projection (scope netuid validator policy settlement evaluation metagraph generation block crowns : pyval)
    (arenas evidence : list pyval) (rows : list (pyval * pyval)) (allocation : option EvidenceArtifactRef)
    (rewarded : option (list pyval)) : result WeightProjection :=
  scope ← require_sha256_hex scope "chain_scope_digest";
  policy ← require_sha256_hex policy "policy_digest";
  settlement ← require_sha256_hex settlement "settlement_state_digest";
  evaluation ← require_sha256_hex evaluation "evaluation_state_digest";
  metagraph ← require_sha256_hex metagraph "metagraph_digest";
  signer ← read_signer netuid validator;
  raise_if (signer.1 <? 0) || negb (hotkey_text signer.2)
    with (WeightPublicationError "projection chain/signer identity is malformed");
  generation ← natural generation (WeightPublicationError "projection stack_generation is malformed");
  block ← natural block (WeightPublicationError "projection effective_block is malformed");
  crowns ← natural crowns (WeightPublicationError "projection crown_count is malformed");
  evidence ← string_items evidence inventory_error;
  arenas ← string_items arenas inventory_error;
  _ ← check_inventory crowns evidence arenas;
  rewarded ← match rewarded with
             | None => Ok None
             | Some l => Some <$> string_items l
                 (WeightPublicationError "allocation evidence or earning inventory is malformed")
             end;
  _ ← check_allocation evidence allocation rewarded;
  rows ← weight_rows rows;
  raise_if negb (weights_ok rows) with (WeightPublicationError "projection weights are not canonical ppm");
  Ok (mkProjection scope signer.1 signer.2 policy settlement evaluation metagraph arenas generation block crowns
        evidence rows allocation rewarded).

(** The constructor on typed fields, as [replace] and the projecting code call it. *)
Definition rebuild_projection (p : WeightProjection) : result WeightProjection :=
  make_projection (VStr (p_scope p)) (VInt (netuid p)) (VStr (p_validator p)) (VStr (p_policy p))
    (VStr (p_settlement_state p)) (VStr (p_evaluation_state p)) (VStr (p_metagraph_digest p))
    (VInt (stack_generation p)) (VInt (effective_block p)) (VInt (crown_count p))
    (VStr <$> arena_state_digests p) (VStr <$> evidence_digests p)
    ((fun r => (VStr r.1, VInt r.2)) <$> weights_ppm p) (allocation_evidence p)
    ((fun l : list string => VStr <$> l) <$> rewarded_evidence p).

Definition base_rows (p : WeightProjection) : list (string * pyval) :=
  [("chain_scope_digest", VStr (p_scope p));
   ("arena_state_digests", VList (VStr <$> arena_state_digests p));
   ("crown_count", VInt (crown_count p));
   ("effective_block", VInt (effective_block p));
   ("evaluation_state_digest", VStr (p_evaluation_state p));
   ("evidence_digests", VList (VStr <$> evidence_digests p));
   ("netuid", VInt (netuid p));
   ("metagraph_digest", VStr (p_metagraph_digest p));
   ("policy_digest", VStr (p_policy p));
   ("settlement_state_digest", VStr (p_settlement_state p));
   ("stack_generation", VInt (stack_generation p));
   ("validator_hotkey", VStr (p_validator p));
   ("weights_ppm", VList ((fun r => VList [VStr r.1; VInt r.2]) <$> weights_ppm p))].

Definition projection_to_dict (p : WeightProjection) : pyval :=
  str_dict (base_rows p ++
    match allocation_evidence p with
    | None => []
    | Some ref => [("allocation_evidence", ref_to_dict ref);
                   ("rewarded_evidence_digests", VList (VStr <$> default [] (rewarded_evidence p)))]
    end).

Definition projection_fields : list string :=
  ["chain_scope_digest"; "netuid"; "validator_hotkey"; "policy_digest"; "settlement_state_digest";
   "evaluation_state_digest"; "metagraph_digest"; "arena_state_digests"; "stack_generation"; "effective_block";
   "crown_count"; "evidence_digests"; "weights_ppm"].
Definition optional_fields : list string := ["allocation_evidence"; "rewarded_evidence_digests"].

(** [optional.intersection(value)] *)
Definition names_optional (value : pyval) : bool :=
  match value with
  | VDict items => existsb (fun k => match items_get k items with Some _ => true | None => false end) optional_fields
  | _ => false
  end.

Definition array (v : pyval) (e : exn) : result (list pyval) := match v with VList l => Ok l | _ => Raise e end.

Definition pair_row (v : pyval) : result (pyval * pyval) :=
  match v with
  | VList [a; b] => Ok (a, b)
  | _ => Raise (WeightPublicationError "weight projection rows are malformed")
  end.

Definition projection_from_dict (value : pyval) : result WeightProjection :=
  row ← exact_dict value (projection_fields ++ if names_optional value then optional_fields else [])
          (WeightPublicationError "weight projection fields do not match");
  let arrays := WeightPublicationError "weight projection arrays are malformed" in
  evidence ← array (argument row "evidence_digests") arrays;
  arenas ← array (argument row "arena_state_digests") arrays;
  weights ← array (argument row "weights_ppm") arrays;
  earning ← (if names_optional value then
               rewarded ← array (argument row "rewarded_evidence_digests")
                            (WeightPublicationError "earning inventory is malformed");
               ref ← ref_from_dict (argument row "allocation_evidence");
               Ok (Some ref, Some rewarded)
             else Ok (None, None));
  rows ← map_result pair_row weights;
  make_projection (argument row "chain_scope_digest") (argument row "netuid") (argument row "validator_hotkey")
    (argument row "policy_digest") (argument row "settlement_state_digest") (argument row "evaluation_state_digest")
    (argument row "metagraph_digest") (argument row "stack_generation") (argument row "effective_block")
    (argument row "crown_count") arenas evidence rows earning.1 earning.2.

Definition projection_digest (p : WeightProjection) : result string :=
  canonical_digest "cacheon.chain.weight-projection" (projection_to_dict p) 1.

(** ** Records and projections reopen unchanged *)

Lemma natural_value v e z : natural v e = Ok z -> v = VInt z /\ 0 <= z.
Proof.
  unfold natural. destruct v; try done. destruct (Z.ltb_spec z0 0); [done|]. by intros [= <-].
Qed.

Lemma reason_value v s : read_reason v = Ok s -> v = VStr s.
Proof. unfold read_reason. destruct v; try done. destruct (negb _); [done|]. by intros [= <-]. Qed.

Lemma status_value v st : read_status v = Ok st -> v = VStr (status_name st).
Proof.
  unfold read_status. destruct (negb (hashable v)); [done|]. destruct v; try done.
  destruct (dict_get s PUBLICATION_STATUSES) as [st'|] eqn:E; [|done]. intros [= <-].
  apply dict_get_elem in E. unfold PUBLICATION_STATUSES in E. rewrite !elem_of_cons, elem_of_nil in E. naive_solver.
Qed.

Lemma check_record_ok r r' : check_record r = Ok r' -> r' = r.
Proof. unfold check_record. intros H. repeat (step_guard H). by injection H as <-. Qed.

Lemma prior_read prior x :
  match prior with VNone => Ok None | _ => Some <$> require_sha256_hex prior "prior_record_digest" end = Ok x ->
  prior = prior_value x.
Proof.
  destruct prior; first [by intros [= <-] | by intros (? & (-> & _)%sha_value & <-)%fmap_Ok].
Qed.

(** What the constructor accepted it accepts again, field by field. *)
Lemma make_weight_record_again p s pr a b c d e w r :
  make_weight_record p s pr a b c d e w = Ok r -> rebuild_record r = Ok r.
Proof.
  intros H. rewrite <- H. unfold make_weight_record in H. inv_ok.
  repeat match goal with
  | H : require_sha256_hex _ _ = Ok _ |- _ => apply sha_value in H as (-> & _)
  | H : natural _ _ = Ok _ |- _ => apply natural_value in H as (-> & _)
  | H : read_reason _ = Ok _ |- _ => apply reason_value in H as ->
  | H : read_status _ = Ok _ |- _ => apply status_value in H as ->
  | H : match pr with _ => _ end = Ok _ |- _ => apply prior_read in H as ->
  end.
  by apply check_record_ok in H as ->.
Qed.

Lemma status_name_inj s t : status_name s = status_name t -> s = t.
Proof. by destruct s, t. Qed.

(** The chronology of an accepted confirmation that is not a bare inclusion. *)
Lemma rebuilt_confirmed r r' :
  rebuild_record r = Ok r' -> w_status r = p_confirmed -> w_reason r <> "block_inclusion" ->
  submit_block r <= confirmed_last_update r <= confirmed_block r.
Proof.
  unfold rebuild_record, make_weight_record. intros H Hst Hwhy. inv_ok.
  repeat match goal with
  | H : natural (VInt _) _ = Ok _ |- _ => apply natural_value in H as ([= <-] & ?)
  | H : read_reason (VStr _) = Ok _ |- _ => apply reason_value in H as [= <-]
  | H : read_status (VStr _) = Ok ?x |- _ =>
      assert (x = p_confirmed) as -> by (apply status_value in H as [= E]; rewrite Hst in E; by destruct x); clear H
  end.
  unfold check_record in H. apply String.eqb_neq in Hwhy.
  cbn [w_status submit_block w_reason confirmed_last_update confirmed_block retry_after_block] in H.
  do 3 step_guard H. clear H. rewrite Hwhy in Eg1.
  change (negb false) with true in Eg1. rewrite bool_decide_true, andb_true_l in Eg1 by done.
  rewrite !orb_false_iff, andb_true_r, andb_false_iff, !Z.ltb_ge in Eg1. lia.
Qed.

Lemma prior_value_inj o o' : prior_value o = prior_value o' -> o = o'.
Proof. destruct o, o'; naive_solver. Qed.

(** The typed constructor returns the record it was given. *)
Lemma rebuild_same r r' : rebuild_record r = Ok r' -> r' = r.
Proof.
  unfold rebuild_record, make_weight_record. intros H. inv_ok.
  repeat match goal with
  | H : require_sha256_hex (VStr _) _ = Ok _ |- _ => apply sha_value in H as ([= <-] & _)
  | H : natural (VInt _) _ = Ok _ |- _ => apply natural_value in H as ([= <-] & _)
  | H : read_reason (VStr _) = Ok _ |- _ => apply reason_value in H as [= <-]
  | H : read_status (VStr _) = Ok _ |- _ => apply status_value in H as [= E%status_name_inj]; subst
  | H : match prior_value _ with _ => _ end = Ok _ |- _ => apply prior_read in H as E%prior_value_inj; subst
  end.
  apply check_record_ok in H as ->. by destruct r.
Qed.

Lemma string_items_again l e ss : string_items l e = Ok ss -> l = VStr <$> ss.
Proof.
  intros H%map_result_Forall2. induction H as [|v s l ss Hv _ IH]; [done|].
  rewrite fmap_cons, IH. destruct v; try done. congruence.
Qed.

Lemma string_items_strings ss e : string_items (VStr <$> ss) e = Ok ss.
Proof. apply map_result_Forall2. induction ss; constructor; done. Qed.

Lemma weight_rows_again l rows : weight_rows l = Ok rows -> l = (fun r => (VStr r.1, VInt r.2)) <$> rows.
Proof.
  intros H%map_result_Forall2. induction H as [|[v w] r l rows Hv _ IH]; [done|].
  rewrite fmap_cons, IH. destruct v, w; try done. by injection Hv as <-.
Qed.

Lemma pair_rows_again rows :
  map_result pair_row ((fun r : string * Z => VList [VStr r.1; VInt r.2]) <$> rows) =
  Ok ((fun r => (VStr r.1, VInt r.2)) <$> rows).
Proof. apply map_result_Forall2. induction rows; constructor; done. Qed.

Lemma make_projection_again sc n v po se ev me ge bl cr ar evs rows al rw p :
  make_projection sc n v po se ev me ge bl cr ar evs rows al rw = Ok p -> rebuild_projection p = Ok p.
Proof.
  intros H. rewrite <- H. unfold make_projection in H. inv_ok.
  repeat match goal with
  | H : require_sha256_hex _ _ = Ok _ |- _ => apply sha_value in H as (-> & _)
  | H : natural _ _ = Ok _ |- _ => apply natural_value in H as (-> & _)
  | H : string_items _ _ = Ok _ |- _ => apply string_items_again in H as ->
  | H : weight_rows _ = Ok _ |- _ => apply weight_rows_again in H as ->
  | H : read_signer n v = Ok _ |- _ => destruct n, v; try discriminate H; injection H as <-
  end.
  step_guard H. inv_ok.
  repeat match goal with
  | H : natural _ _ = Ok _ |- _ => apply natural_value in H as (-> & _)
  | H : string_items _ _ = Ok _ |- _ => apply string_items_again in H as ->
  | H : weight_rows _ = Ok _ |- _ => apply weight_rows_again in H as ->
  end.
  step_guard H. injection H as <-. unfold rebuild_projection; cbn [p_scope netuid p_validator p_policy
    p_settlement_state p_evaluation_state p_metagraph_digest stack_generation effective_block crown_count
    arena_state_digests evidence_digests weights_ppm allocation_evidence rewarded_evidence fst snd].
  match goal with H : match rw with _ => _ end = Ok _ |- _ => rename H into Hrw end.
  f_equal. destruct rw as [l|]; [|by injection Hrw as <-].
  apply fmap_Ok in Hrw as (ss & Hss & <-). by apply string_items_again in Hss as ->.
Qed.

Lemma record_from_to_dict r : record_from_dict (record_to_dict r) = rebuild_record r.
Proof. reflexivity. Qed.

Lemma record_reload v r : record_from_dict v = Ok r -> record_from_dict (record_to_dict r) = Ok r.
Proof. unfold record_from_dict at 1. intros H. inv_ok. rewrite record_from_to_dict. by eapply make_weight_record_again. Qed.

Lemma make_projection_allocation sc n v po se ev me ge bl cr ar evs rows al rw p :
  make_projection sc n v po se ev me ge bl cr ar evs rows al rw = Ok p ->
  check_allocation (evidence_digests p) (allocation_evidence p) (rewarded_evidence p) = Ok tt.
Proof.
  unfold make_projection. intros H. inv_ok. step_guard H. inv_ok. step_guard H. injection H as <-.
  match goal with H : check_allocation _ _ _ = Ok ?u |- _ => by destruct u end.
Qed.

Lemma check_allocation_shape ev al rw :
  check_allocation ev al rw = Ok tt -> (al = None /\ rw = None) \/ exists ref rows, al = Some ref /\ rw = Some rows.
Proof. destruct al, rw; naive_solver. Qed.

(** Reading an object that was written with exactly the expected keys. *)
Lemma exact_dict_str rows fields e :
  forallb (fun k => bool_decide (k ∈ fields)) rows.*1 && forallb (fun k => bool_decide (k ∈ rows.*1)) fields = true ->
  exact_dict (str_dict rows) fields e = Ok rows.
Proof.
  rewrite andb_true_iff, !forallb_forall. setoid_rewrite bool_decide_eq_true. setoid_rewrite <- list_elem_of_In.
  intros [H1 H2]. unfold exact_dict, str_dict.
  rewrite (proj2 (keys_are_str_dict fields rows)) by (split; auto). cbn [negb]. by rewrite str_items_str_dict.
Qed.

Definition allocation_rows (p : WeightProjection) : list (string * pyval) :=
  match allocation_evidence p with
  | None => []
  | Some ref => [("allocation_evidence", ref_to_dict ref);
                 ("rewarded_evidence_digests", VList (VStr <$> default [] (rewarded_evidence p)))]
  end.

Lemma names_optional_rows p :
  names_optional (projection_to_dict p) = match allocation_evidence p with Some _ => true | None => false end.
Proof. unfold projection_to_dict. by destruct (allocation_evidence p). Qed.

Lemma projection_from_to_dict p :
  rebuild_projection p = Ok p ->
  (forall ref, allocation_evidence p = Some ref -> ref_from_dict (ref_to_dict ref) = Ok ref) ->
  projection_from_dict (projection_to_dict p) = Ok p.
Proof.
  intros H Hr. rewrite <- H. apply make_projection_allocation, check_allocation_shape in H.
  unfold projection_from_dict, rebuild_projection. rewrite names_optional_rows.
  change (projection_to_dict p) with (str_dict (base_rows p ++ allocation_rows p)). unfold allocation_rows.
  pose proof (pair_rows_again (weights_ppm p)) as Hw. unfold base_rows.
  set (W := (fun r : string * Z => VList [VStr r.1; VInt r.2]) <$> weights_ppm p) in *. clearbody W.
  destruct H as [[E ->]|(ref & rows & E & ->)]; rewrite E; cbv zeta; cbn [default].
  - rewrite exact_dict_str by reflexivity. cbn -[make_projection map_result]. by rewrite Hw.
  - rewrite exact_dict_str by reflexivity. specialize (Hr _ E).
    cbn -[make_projection map_result ref_from_dict ref_to_dict]. rewrite Hr.
    cbn -[make_projection map_result]. by rewrite Hw.
Qed.

Lemma projection_reload v p :
  projection_from_dict v = Ok p ->
  rebuild_projection p = Ok p /\ projection_from_dict (projection_to_dict p) = Ok p.
Proof.
  unfold projection_from_dict at 1. cbv zeta. intros H. inv_ok.
  pose proof (make_projection_again _ _ _ _ _ _ _ _ _ _ _ _ _ _ _ _ H) as Hp. split; [done|].
  apply projection_from_to_dict; [done|]. intros ref Href.
  assert (Hal : allocation_evidence p = x3.1).
  { clear Hp. unfold make_projection in H. inv_ok. step_guard H. inv_ok. step_guard H. by injection H as <-. }
  destruct (names_optional v); inv_ok; [|by rewrite Hal in Href]. rewrite Hal in Href.
  simplify_eq/=. by eapply ref_reload.
Qed.

(** ** The digest of a record binds the record *)

Lemma digest_same_json d p p' h :
  canonical_digest d p 1 = Ok h -> canonical_digest d p' 1 = Ok h -> to_json p = to_json p' \/ clash d p 1 d p' 1.
Proof. intros H H'. destruct (digest_binds _ _ _ _ _ _ _ H H') as [(_ & _ & ?)|]; auto. Qed.

Lemma record_json_inj r r' : to_json (record_to_dict r) = to_json (record_to_dict r') -> r = r'.
Proof.
  destruct r as [p s [pr|] a b c d e w], r' as [p' s' [pr'|] a' b' c' d' e' w']; cbn;
    intros [=]; subst; f_equal; by apply status_name_inj.
Qed.

Lemma record_digest_binds r r' h : record_digest r = Ok h -> record_digest r' = Ok h ->
  r = r' \/ clash "cacheon.chain.weight-publication" (record_to_dict r) 1 "cacheon.chain.weight-publication" (record_to_dict r') 1.
Proof. intros H H'. destruct (digest_same_json _ _ _ _ H H') as [E|]; [left; by apply record_json_inj|by right]. Qed.

Lemma to_json_list l js : Forall2 (fun v j => to_json v = Ok j) l js -> to_json (VList l) = Ok (JArr js).
Proof.
  intros H. cbn [to_json]. match goal with |- _ <$> ?m = _ => enough (m = Ok js) as ->; [done|] end.
  induction H as [|v j l js Hv _ IH]; [done|]. by rewrite Hv, IH.
Qed.

Lemma to_json_strings l : to_json (VList (VStr <$> l)) = Ok (JArr (JStr <$> l)).
Proof. apply to_json_list. induction l; constructor; done. Qed.

Lemma to_json_weights (l : list (string * Z)) :
  to_json (VList ((fun r => VList [VStr r.1; VInt r.2]) <$> l)) =
  Ok (JArr ((fun r => JArr [JStr r.1; JInt r.2]) <$> l)).
Proof. apply to_json_list. induction l; constructor; done. Qed.

Definition base_json (p : WeightProjection) : list (string * json) :=
  [("chain_scope_digest", JStr (p_scope p));
   ("arena_state_digests", JArr (JStr <$> arena_state_digests p));
   ("crown_count", JInt (crown_count p));
   ("effective_block", JInt (effective_block p));
   ("evaluation_state_digest", JStr (p_evaluation_state p));
   ("evidence_digests", JArr (JStr <$> evidence_digests p));
   ("netuid", JInt (netuid p));
   ("metagraph_digest", JStr (p_metagraph_digest p));
   ("policy_digest", JStr (p_policy p));
   ("settlement_state_digest", JStr (p_settlement_state p));
   ("stack_generation", JInt (stack_generation p));
   ("validator_hotkey", JStr (p_validator p));
   ("weights_ppm", JArr ((fun r => JArr [JStr r.1; JInt r.2]) <$> weights_ppm p))].

Definition ref_json (r : EvidenceArtifactRef) : json :=
  JObj [("domain", JStr (ref_domain r)); ("media_type", JStr (ref_media_type r)); ("schema", JStr (ref_schema r));
        ("sha256", JStr (ref_sha256 r)); ("size", JInt (ref_size r))].

Definition allocation_json (p : WeightProjection) : list (string * json) :=
  match allocation_evidence p with
  | None => []
  | Some ref => [("allocation_evidence", ref_json ref);
                 ("rewarded_evidence_digests", JArr (JStr <$> default [] (rewarded_evidence p)))]
  end.

Lemma projection_json p :
  to_json (projection_to_dict p) = Ok (JObj (sorted_by fst (base_json p ++ allocation_json p))).
Proof.
  change (projection_to_dict p) with (str_dict (base_rows p ++ allocation_rows p)). rewrite to_json_str_dict.
  enough (map_result member_json (base_rows p ++ allocation_rows p) = Ok (base_json p ++ allocation_json p)) as ->; [done|].
  apply map_result_Forall2. unfold member_json, base_rows, allocation_rows, base_json, allocation_json.
  destruct (allocation_evidence p) as [ref|];
    repeat (apply Forall2_cons; split;
      [cbn [fst snd]; rewrite ?to_json_strings, ?to_json_weights; reflexivity|]); by apply Forall2_nil.
Qed.

Lemma JStr_list_inj (l k : list string) : JStr <$> l = JStr <$> k -> l = k.
Proof. apply list_fmap_eq_inj. by intros ?? [=]. Qed.

Lemma weights_json_inj (l k : list (string * Z)) :
  (fun r : string * Z => JArr [JStr r.1; JInt r.2]) <$> l = (fun r => JArr [JStr r.1; JInt r.2]) <$> k -> l = k.
Proof. apply list_fmap_eq_inj. intros [] [] [=]; simpl in *; congruence. Qed.

(** Allocation evidence comes with its earning inventory; a checked projection always does. *)
Definition earning_matched (p : WeightProjection) : Prop :=
  is_Some (allocation_evidence p) <-> is_Some (rewarded_evidence p).

Lemma ref_json_inj r r' : ref_json r = ref_json r' -> r = r'.
Proof. destruct r, r'. by intros [= -> -> -> -> ->]. Qed.

Lemma projection_json_inj p q :
  earning_matched p -> earning_matched q -> to_json (projection_to_dict p) = to_json (projection_to_dict q) -> p = q.
Proof.
  unfold earning_matched. rewrite !projection_json. intros Hp Hq [=H]. unfold allocation_json, base_json in H.
  destruct p as [? ? ? ? ? ? ? ar ? ? ? ev wp [rp|] rwp], q as [? ? ? ? ? ? ? ar' ? ? ? ev' wq [rq|] rwq];
    cbn -[fmap ref_json] in H, Hp, Hq; try discriminate H.
  - destruct rwp as [rwp|]; [|by destruct (proj1 Hp (ex_intro _ _ eq_refl))].
    destruct rwq as [rwq|]; [|by destruct (proj1 Hq (ex_intro _ _ eq_refl))].
    destruct rp, rq. injection H; clear H; intros.
    repeat match goal with
    | H : JStr <$> _ = JStr <$> _ |- _ => apply JStr_list_inj in H
    | H : _ <$> _ = _ <$> _ |- _ => apply weights_json_inj in H
    end. cbn in *; by subst.
  - destruct rwp as [rwp|]; [by destruct (proj2 Hp (ex_intro _ _ eq_refl))|].
    destruct rwq as [rwq|]; [by destruct (proj2 Hq (ex_intro _ _ eq_refl))|].
    injection H; clear H; intros.
    repeat match goal with
    | H : JStr <$> _ = JStr <$> _ |- _ => apply JStr_list_inj in H
    | H : _ <$> _ = _ <$> _ |- _ => apply weights_json_inj in H
    end. by subst.
Qed.

Lemma projection_digest_binds p q h :
  earning_matched p -> earning_matched q ->
  projection_digest p = Ok h -> projection_digest q = Ok h ->
  p = q \/ clash "cacheon.chain.weight-projection" (projection_to_dict p) 1 "cacheon.chain.weight-projection" (projection_to_dict q) 1.
Proof.
  intros Hp Hq H H'. destruct (digest_same_json _ _ _ _ H H') as [E|]; [left; by apply projection_json_inj|by right].
Qed.

Lemma rebuilt_matched p : rebuild_projection p = Ok p -> earning_matched p.
Proof.
  intros H%make_projection_allocation. unfold earning_matched.
  destruct (allocation_evidence p), (rewarded_evidence p); try done; split; by intros []; eauto.
Qed.

(** What an accepted projection pays: positive parts of a million, each hotkey once. *)
Lemma projection_weights p :
  rebuild_projection p = Ok p ->
  weights_ppm p <> [] /\ NoDup (weights_ppm p).*1 /\ Forall (fun r => 0 < r.2) (weights_ppm p) /\
  sum_Z (weights_ppm p).*2 = WEIGHT_PARTS.
Proof.
  intros H. assert (Hw : weights_ok (weights_ppm p) = true).
  { unfold rebuild_projection, make_projection in H. inv_ok. step_guard H. inv_ok.
    destruct (weights_ok _) eqn:E in H; [|discriminate H]. injection H as <-. exact E. }
  unfold weights_ok in Hw. rewrite !andb_true_iff in Hw. destruct Hw as [[[Hn Hs] Hf] Hsum].
  rewrite negb_true_iff, bool_decide_eq_false in Hn. apply bool_decide_eq_true in Hs. apply Z.eqb_eq in Hsum.
  split_and!; [done| | |done].
  - rewrite Hs. unfold sorted_set, sorted_id. rewrite sorted_by_perm. apply NoDup_remove_dups.
  - apply Forall_forall. intros r Hr. rewrite forallb_forall in Hf. apply list_elem_of_In, Hf in Hr.
    apply andb_true_iff in Hr as [_ Hr]. by apply Z.ltb_lt.
Qed.

(** Publication records and projections reopen unchanged: what [from_dict] accepted is read back from
    its own [to_dict] as the same value. *)
Theorem publication_reload (v v' : pyval) (r : WeightPublicationRecord) (p : WeightProjection) :
  record_from_dict v = Ok r -> projection_from_dict v' = Ok p ->
  record_from_dict (record_to_dict r) = Ok r /\ projection_from_dict (projection_to_dict p) = Ok p.
Proof. intros Hr Hp. split; [by eapply record_reload|by eapply projection_reload]. Qed.

(** ** An example *)

Definition sample_digest (c : N) : string := string_of_bytes (repeat c 64).

Definition sample_projection : WeightProjection :=
  mkProjection (sample_digest 97) 3 "5Validator" (sample_digest 98) (sample_digest 99) (sample_digest 100)
    (sample_digest 101) [sample_digest 102] 4 90 1 [sample_digest 48]
    [("5Miner", 600000); ("5Owner", 400000)]
    (Some (mkRef "cacheon.allocation" (sample_digest 48) 12 "application/json" "allocation.v1")) (Some [sample_digest 48]).

Definition sample_record : WeightPublicationRecord :=
  mkRecord (sample_digest 97) p_pending (Some (sample_digest 98)) 100 460 7 0 0 "sdk_result_unconfirmed".

Lemma publication_reload_witness :
  record_from_dict (record_to_dict sample_record) = Ok sample_record /\
  projection_from_dict (projection_to_dict sample_projection) = Ok sample_projection.
Proof.
  apply (publication_reload (record_to_dict sample_record) (projection_to_dict sample_projection));
    vm_compute; reflexivity.
Defined.
