(* ===== verification/Effects.v ===== *)
(** * A state and error monad

    The programs that talk to the chain and to a journal thread a state through
    calls that may raise: [ST S A] is such a program. [wp] is its weakest
    precondition, by which the contracts of long bodies are proved step by step. *)

From S2P Require Import Prelude.

Definition ST (S A : Type) : Type := S -> S * result A.

#[export] Instance ST_ret {S} : MRet (ST S) := fun A a s => (s, Ok a).
#[export] Instance ST_bind {S} : MBind (ST S) := fun A B f m s =>
  match m s with (s', Ok a) => f a s' | (s', Raise e) => (s', Raise e) end.
#[export] Instance ST_fmap {S} : FMap (ST S) := fun A B f m s =>
  match m s with (s', Ok a) => (s', Ok (f a)) | (s', Raise e) => (s', Raise e) end.

Section Programs.
Context {S : Type}.

Definition raise {A} (e : exn) : ST S A := fun s => (s, Raise e).
Definition of_result {A} (r : result A) : ST S A := fun s => (s, r).
Definition asks {A} (f : S -> A) : ST S A := fun s => (s, Ok (f s)).
Definition update (f : S -> S) : ST S () := fun s => (f s, Ok tt).

(** [try: m except: ...]: the handler sees the state the failing call left. *)
Definition catch {A} (h : exn -> option (ST S A)) (m : ST S A) : ST S A := fun s =>
  match m s with
  | (s', Raise e) => match h e with Some k => k s' | None => (s', Raise e) end
  | done => done
  end.

(** Classes of an [except] clause, each with what it is re-raised as. *)
Definition reraise {A} (classes : list string) (e' : exn) (m : ST S A) : ST S A :=
  catch (fun e => if bool_decide (exn_class e ∈ classes) then Some (raise e') else None) m.
End Programs.

(** [if bad: raise e] *)
Notation "'stop_if' b 'with' e ; k" :=
  (if b then raise e else k)
  (at level 10, b at level 99, e at level 10, k at level 200,
   format "'stop_if'  b  'with'  e ; '//' k") : py_scope.

(** A program over a part of the state. *)
Definition zoom {S T A} (get : S -> T) (put : T -> S -> S) (m : ST T A) : ST S A := fun s =>
  let '(t, r) := m (get s) in (put t s, r).

(** ** Weakest preconditions *)

Definition wp {S A} (m : ST S A) (Q : S -> result A -> Prop) (s : S) : Prop := Q (m s).1 (m s).2.

Section Wp.
Context {S : Type}.

Lemma wp_run {A} (m : ST S A) (Q : S -> result A -> Prop) s s' r : wp m Q s -> m s = (s', r) -> Q s' r.
Proof. unfold wp. intros H E. by rewrite E in H. Qed.

Lemma wp_mono {A} (m : ST S A) (P Q : S -> result A -> Prop) s :
  (forall s' r, P s' r -> Q s' r) -> wp m P s -> wp m Q s.
Proof. unfold wp. auto. Qed.

Lemma wp_and {A} (m : ST S A) (P Q : S -> result A -> Prop) s :
  wp m P s -> wp m Q s -> wp m (fun s' r => P s' r /\ Q s' r) s.
Proof. by split. Qed.

Lemma wp_ret {A} (a : A) (Q : S -> result A -> Prop) s : Q s (Ok a) -> wp (mret a) Q s.
Proof. done. Qed.

Lemma wp_raise {A} e (Q : S -> result A -> Prop) s : Q s (Raise e) -> wp (raise e) Q s.
Proof. done. Qed.

Lemma wp_of_result {A} (x : result A) (Q : S -> result A -> Prop) s : Q s x -> wp (of_result x) Q s.
Proof. done. Qed.

Lemma wp_asks {A} (f : S -> A) (Q : S -> result A -> Prop) s : Q s (Ok (f s)) -> wp (asks f) Q s.
Proof. done. Qed.

Lemma wp_update f (Q : S -> result () -> Prop) s : Q (f s) (Ok tt) -> wp (update f) Q s.
Proof. done. Qed.

Lemma wp_bind {A B} (m : ST S A) (f : A -> ST S B) (Q : S -> result B -> Prop) s :
  wp m (fun s' r => match r with Ok a => wp (f a) Q s' | Raise e => Q s' (Raise e) end) s -> wp (m ≫= f) Q s.
Proof. unfold wp, mbind, ST_bind. by destruct (m s) as [s' [a|e]]. Qed.

Lemma wp_fmap {A B} (f : A -> B) (m : ST S A) (Q : S -> result B -> Prop) s :
  wp m (fun s' r => Q s' (f <$> r)) s -> wp (f <$> m) Q s.
Proof. unfold wp, fmap, ST_fmap. by destruct (m s) as [s' [a|e]]. Qed.

Lemma wp_if {A} (b : bool) (m k : ST S A) (Q : S -> result A -> Prop) s :
  (b = true -> wp m Q s) -> (b = false -> wp k Q s) -> wp (if b then m else k) Q s.
Proof. destruct b; auto. Qed.

Lemma wp_catch {A} (h : exn -> option (ST S A)) (m : ST S A) (Q : S -> result A -> Prop) s :
  wp m (fun s' r => match r with
                    | Ok a => Q s' (Ok a)
                    | Raise e => match h e with Some k => wp k Q s' | None => Q s' (Raise e) end
                    end) s -> wp (catch h m) Q s.
Proof.
  unfold wp, catch. destruct (m s) as [s' [a|e]]; [done|]. cbn [fst snd]. by destruct (h e).
Qed.
End Wp.

(** One step of symbolic execution. *)
Ltac wp_step :=
  first
    [ apply wp_ret | apply wp_raise | apply wp_of_result | apply wp_asks | apply wp_update
    | apply wp_if; intros ? | apply wp_bind | apply wp_fmap | apply wp_catch ].

(** ** Successful runs *)

Section Runs.
Context {S : Type}.

Lemma bind_run {A B} (m : ST S A) (f : A -> ST S B) s s' b :
  (m ≫= f) s = (s', Ok b) -> exists s1 a, m s = (s1, Ok a) /\ f a s1 = (s', Ok b).
Proof. unfold mbind, ST_bind. destruct (m s) as [s1 [a|e]]; [eauto|done]. Qed.

Lemma fmap_run {A B} (f : A -> B) (m : ST S A) s s' b :
  (f <$> m) s = (s', Ok b) -> exists a, m s = (s', Ok a) /\ f a = b.
Proof. unfold fmap, ST_fmap. destruct (m s) as [s1 [a|e]]; naive_solver. Qed.

Lemma catch_run {A} (h : exn -> option (ST S A)) (m : ST S A) s s' a :
  catch h m s = (s', Ok a) ->
  m s = (s', Ok a) \/ exists s1 e k, m s = (s1, Raise e) /\ h e = Some k /\ k s1 = (s', Ok a).
Proof. unfold catch. destruct (m s) as [s1 [b|e]]; [by left|]. destruct (h e) eqn:E; [|done]. right. eauto 6. Qed.
End Runs.

(** Decompose a hypothesis about a run that returned. *)
Ltac inv_run :=
  repeat match goal with
  | H : (_ ≫= _) _ = (_, Ok _) |- _ =>
      let s := fresh "mid" in let a := fresh "x" in let Hx := fresh "Hx" in
      apply bind_run in H as (s & a & Hx & H); cbv beta in H
  | H : (_ <$> _) _ = (_, Ok _) |- _ => let a := fresh "x" in apply fmap_run in H as (a & H & ?)
  | H : (if ?b then _ else _) _ = (_, Ok _) |- _ =>
      let E := fresh "Eb" in destruct b eqn:E
  | H : mret _ _ = (_, Ok _) |- _ => unfold mret, ST_ret in H; first [discriminate H | injection H as ? ?; try subst]
  | H : raise _ _ = (_, Ok _) |- _ => discriminate H
  | H : of_result _ _ = (_, Ok _) |- _ => unfold of_result in H; first [discriminate H | injection H as ? ?; try subst]
  end.
