(* ===== verification/Floats.v ===== *)
(** * Double-precision floats

    Python's [float] arithmetic on IEEE 754 binary64, computed by the Standard
    Library's [SpecFloat]: the operations of [normalize] and [math.isclose] that
    [cacheon/chain/__init__.py] and [cacheon/chain/weights.py] use. *)

From Stdlib Require Export SpecFloat.
From S2P Require Import Prelude PyVal Dict.

Open Scope Z_scope.

Abbreviation float := spec_float.

(** [float(z)] for an [int] within the exact range. *)
Definition float_of_Z (z : Z) : float := binary_normalize 53 1024 z 0 false.
Definition f_add : float -> float -> float := SFadd 53 1024.
Definition f_sub : float -> float -> float := SFsub 53 1024.
Definition f_mul : float -> float -> float := SFmul 53 1024.
Definition f_div : float -> float -> float := SFdiv 53 1024.

Definition f_cmp (p : comparison -> bool) (x y : float) : bool :=
  match SFcompare x y with Some c => p c | None => false end.
Definition f_eqb : float -> float -> bool := f_cmp (fun c => match c with Eq => true | _ => false end).
Definition f_ltb : float -> float -> bool := f_cmp (fun c => match c with Lt => true | _ => false end).
Definition f_leb : float -> float -> bool := f_cmp (fun c => match c with Gt => false | _ => true end).

Definition is_inf (x : float) : bool := match x with S754_infinity _ => true | _ => false end.
Definition is_finite (x : float) : bool := match x with S754_zero _ | S754_finite _ _ _ => true | _ => false end.

(** [math.isclose(a, b, rel_tol=rel, abs_tol=abs)] *)
Definition isclose (rel abs a b : float) : bool :=
  f_eqb a b
  || (negb (is_inf a || is_inf b)
      && (let diff := SFabs (f_sub b a) in
          f_leb diff (SFabs (f_mul rel b)) || f_leb diff (SFabs (f_mul rel a)) || f_leb diff abs)).

(** The float literal [n / 10^k]: the correctly rounded quotient. *)
Definition literal (n : Z) (k : Z) : float := f_div (float_of_Z n) (float_of_Z (10 ^ k)).

(** [sum(values)] over floats: CPython 3.12 carries the rounding errors along (Neumaier). *)
Definition sum_step (acc : float * float) (x : float) : float * float :=
  let '(f, c) := acc in
  let t := f_add f x in
  (t, f_add c (if f_leb (SFabs x) (SFabs f) then f_add (f_sub f t) x else f_add (f_sub x t) f)).

Definition float_sum (l : list float) : float :=
  match l with
  | [] => float_of_Z 0
  | x :: l =>
      let '(f, c) := foldl sum_step (f_add (float_of_Z 0) x, float_of_Z 0) l in
      if negb (f_eqb c (float_of_Z 0)) && is_finite c then f_add f c else f
  end.

(** [normalize(weights)] *)
Definition normalize (weights : dict float) : dict float :=
  let pos := filter (fun kv => f_ltb (float_of_Z 0) kv.2 = true) weights in
  let total := float_sum pos.*2 in
  if f_leb total (float_of_Z 0) then [] else (fun kv => (kv.1, f_div kv.2 total)) <$> pos.

Example isclose_two_parts :
  isclose (literal 2 5) (literal 2 5) (literal 6 1) (literal 600011 6) = true /\
  isclose (literal 2 5) (literal 2 5) (literal 6 1) (literal 60004 5) = false.
Proof. split; vm_compute; reflexivity. Qed.
