(* ===== verification/Chain.v ===== *)
(** * Finalized chain reads and the submission of weights

    [cacheon/chain/__init__.py]: a metagraph snapshot bound to one finalized
    height and hash, a validator's sparse weight row at that height, and the
    submission of a weight vector. The Bittensor SDK client [subtensor] is a
    parameter: its calls may answer or raise anything, and may change what later
    calls answer. *)

From S2P Require Import Prelude PyVal Dict Effects Floats.

Open Scope Z_scope.

Definition ChainWeightStateError (m : string) : exn := Exn "ChainWeightStateError" m.
Definition ChainWeightStateRetryableError (m : string) : exn := Exn "ChainWeightStateRetryableError" m.
Definition ChainRevealHistoryError (m : string) : exn := Exn "ChainRevealHistoryError" m.

(** [except ChainWeightStateError], its subclass included. *)
Definition is_weight_state (e : exn) : bool :=
  bool_decide (exn_class e ∈ ["ChainWeightStateError"; "ChainWeightStateRetryableError"]).
Definition is_history (e : exn) : bool := bool_decide (exn_class e = "ChainRevealHistoryError").

(** ** Records *)

Record MetagraphView := mkView {
  mv_netuid : Z;
  mv_block : Z;
  mv_block_hash : string;
  mv_uids : list Z;
  mv_hotkeys : list string;
  mv_validator_permit : list bool;
  mv_last_update : list Z;
}.

Record ValidatorWeightSnapshot := mkSnapshot { snap_weights : dict float; last_update_block : Z }.

(** [l.index(x)] *)
Fixpoint index_of (x : string) (l : list string) : option nat :=
  match l with
  | [] => None
  | y :: l => if String.eqb y x then Some O else S <$> index_of x l
  end.

(** [self.uids[self.hotkeys.index(hotkey)]]; the columns of a fetched view have one width. *)
Definition uid_of (v : MetagraphView) (hotkey : string) : option Z := index_of hotkey (mv_hotkeys v) ≫= (mv_uids v !!.).

(** What the SDK's metagraph object carries. *)
Record sdk_metagraph := mkSdkMetagraph {
  mg_block : pyval;
  mg_uids : list pyval;
  mg_hotkeys : list pyval;
  mg_validator_permit : list pyval;
  mg_last_update : list pyval;
}.

(** An extrinsic's result: an old SDK's tuple, a dict, or an object with its optional [success] and [data]. *)
Inductive sdk_outcome :=
  | OutTuple (items : list pyval)
  | OutDict (items : list (pyval * pyval))
  | OutObject (success data : option pyval).

(** What [set_weights] returns: [None] stands for the result of a call that submitted nothing. *)
Record submission := mkSubmission { submitted : bool; sdk_result : option sdk_outcome }.

Record Subtensor (W : Type) := mkSubtensor {
  get_finalized_block_number : option (ST W pyval);
  substrate : option (ST W string * option (string -> ST W pyval));
  get_block_hash : Z -> ST W string;
  metagraph : Z -> Z -> ST W sdk_metagraph;
  weights : Z -> Z -> ST W (list pyval);
  get_hyperparameter : string -> Z -> option Z -> ST W (option Z);
  get_timelocked_weight_commits : Z -> Z -> ST W (list string);
  sdk_set_weights : Z -> list Z -> list float -> Z -> ST W sdk_outcome;
}.
Arguments get_finalized_block_number {W}.
Arguments substrate {W}.
Arguments get_block_hash {W}.
Arguments metagraph {W}.
Arguments weights {W}.
Arguments get_hyperparameter {W}.
Arguments get_timelocked_weight_commits {W}.
Arguments sdk_set_weights {W}.

(** ** Checks *)

(** [operator.index] of a value that is not a [bool], within bounds. *)
Definition _weight_uint (raw : pyval) (field : string) (maximum : option Z) : result Z :=
  match raw with
  | VInt z =>
      if (z <? 0) || match maximum with Some m => m <? z | None => false end
      then Raise (ChainWeightStateError (string_app "invalid " field)) else Ok z
  | _ => Raise (ChainWeightStateError (string_app "invalid " field))
  end.

Definition _chain_uint (value : pyval) (field : string) : result Z :=
  match value with
  | VInt z => if z <? 0 then Raise (ChainRevealHistoryError (string_app field " is invalid")) else Ok z
  | _ => Raise (ChainRevealHistoryError (string_app field " is invalid"))
  end.

Definition is_hex_any (c : chr) : bool := is_lower_hex c || in_range 65 70 c.

(** [0x[0-9a-fA-F]{64}] *)
Definition _BLOCK_HASH_RE (s : string) : bool :=
  starts_with "0x" s && (String.length s =? 66)%nat && all_chars is_hex_any (drop_prefix "0x" s).

(** [needle in s] *)
Fixpoint contains (needle s : string) : bool :=
  starts_with needle s || match s with EmptyString => false | String _ s => contains needle s end.

Section Reads.
Context {W : Type} (subtensor : Subtensor W).

(** One retry loop over historical throttling: at most [attempts] reads. The sleeps do not matter here. *)
Fixpoint patiently {A} (attempts : nat) (read : ST W A) : ST W A :=
  match attempts with
  | O => raise (Exn "AssertionError" "unreachable")
  | S rest =>
      catch (fun e =>
        if is_history e then None
        else if negb (contains "rate limit" (ascii_lower (exn_message e))) then None
        else match rest with O => None | S _ => Some (patiently rest read) end) read
  end.

Definition _HISTORICAL_THROTTLE_ATTEMPTS : nat := 8.
Definition _with_historical_patience {A} (read : ST W A) : ST W A := patiently _HISTORICAL_THROTTLE_ATTEMPTS read.

Definition _block_hash (block : Z) : ST W string :=
  value ← catch (fun _ => Some (raise (ChainRevealHistoryError "cannot resolve canonical hash for block")))
            (_with_historical_patience (get_block_hash subtensor block));
  stop_if negb (_BLOCK_HASH_RE value) with (ChainRevealHistoryError "chain returned an invalid hash for block");
  mret (ascii_lower value).

Definition _finalized_head : ST W (Z * string) :=
  match get_finalized_block_number subtensor with
  | Some direct =>
      block ← catch (fun e => if is_history e then None
                              else Some (raise (ChainRevealHistoryError "cannot read finalized block number")))
                (value ← direct; of_result (_chain_uint value "finalized block"));
      hash ← _block_hash block;
      mret (block, hash)
  | None =>
    match substrate subtensor with
    | None => raise (ChainRevealHistoryError "subtensor exposes no finalized-chain API")
    | Some (get_chain_finalised_head, get_block_number) =>
      head ← catch (fun e => if is_history e then None
                             else Some (raise (ChainRevealHistoryError "cannot resolve finalized chain head")))
               (raw ← get_chain_finalised_head;
                let head_hash := ascii_lower raw in
                stop_if negb (_BLOCK_HASH_RE head_hash) with (Exn "ValueError" "invalid finalized hash");
                match get_block_number with
                | None => raise (Exn "ValueError" "missing finalized block-number resolver")
                | Some number_reader =>
                    value ← number_reader head_hash;
                    block ← of_result (_chain_uint value "finalized block");
                    mret (block, head_hash)
                end);
      hash ← _block_hash head.1;
      stop_if negb (String.eqb hash head.2) with (ChainRevealHistoryError "finalized height/hash pair is inconsistent");
      mret head
    end
  end.

Definition _weight_finalized_point (block : option Z) : ST W (Z * string) :=
  reraise ["ChainRevealHistoryError"] (ChainWeightStateError "cannot resolve finalized weight authority")
    (head ← _finalized_head;
     match block with
     | None => mret head
     | Some b =>
         requested ← of_result (_weight_uint (VInt b) "metagraph block" None);
         stop_if head.1 <? requested
           with (ChainWeightStateError "requested metagraph block is newer than the finalized head");
         hash ← _block_hash requested;
         mret (requested, hash)
     end).

Definition py_bool (v : pyval) : bool :=
  match v with
  | VNone => false
  | VBool b => b
  | VInt z => negb (z =? 0)
  | VFloat f => negb (f_eqb f (float_of_Z 0))
  | VStr s => truthy s
  | VList l | VTuple l => negb (bool_decide (length l = O))
  | VDict l => negb (bool_decide (length l = O))
  | VOther _ => true
  end.

Definition named_hotkeys (l : list pyval) : result (list string) :=
  map_result (fun v => match v with
                       | VStr s => raise_if negb (truthy s)
                           with (ChainWeightStateError "metagraph contains invalid or duplicate UID/hotkey membership"); Ok s
                       | _ => Raise (ChainWeightStateError "metagraph contains invalid or duplicate UID/hotkey membership")
                       end) l.

Definition same_length {A B} (l : list A) (k : list B) : bool := (length l =? length k)%nat.

Definition _finalized_metagraph_view (netuid resolved_block : Z) (block_hash : string) : ST W MetagraphView :=
  mg ← metagraph subtensor netuid resolved_block;
  reported ← of_result (_weight_uint (mg_block mg) "returned metagraph block" None);
  stop_if negb (reported =? resolved_block)
    with (ChainWeightStateError "metagraph response does not match the requested finalized block");
  uids ← of_result (map_result (fun v => _weight_uint v "metagraph UID" None) (mg_uids mg));
  last_update ← of_result (map_result (fun v => _weight_uint v "metagraph last-update block" None) (mg_last_update mg));
  stop_if negb (same_length uids (mg_hotkeys mg) && same_length (mg_hotkeys mg) (mg_validator_permit mg)
                && same_length (mg_validator_permit mg) last_update)
    with (ChainWeightStateError "metagraph UID/hotkey/permit/last-update widths differ");
  hotkeys ← of_result (named_hotkeys (mg_hotkeys mg));
  stop_if negb (distinct uids) || negb (distinct hotkeys)
    with (ChainWeightStateError "metagraph contains invalid or duplicate UID/hotkey membership");
  mret (mkView netuid resolved_block block_hash uids hotkeys (py_bool <$> mg_validator_permit mg) last_update).

Definition fetch_metagraph (netuid : Z) (block : option Z) : ST W MetagraphView :=
  stop_if netuid <? 0 with (ChainWeightStateError "netuid must be a non-negative integer");
  point ← _weight_finalized_point block;
  catch (fun e => if is_weight_state e then None
                  else Some (raise (ChainWeightStateError "cannot fetch finalized metagraph")))
    (view ← _finalized_metagraph_view netuid point.1 point.2;
     again ← _block_hash point.1;
     stop_if negb (String.eqb again point.2)
       with (ChainWeightStateError "finalized metagraph height/hash changed while it was read");
     mret view).

Definition _reopen_metagraph_view (netuid : Z) (supplied : MetagraphView) : ST W MetagraphView :=
  stop_if negb (mv_netuid supplied =? netuid)
    with (ChainWeightStateError "supplied metagraph view is not authoritative");
  stop_if negb (_BLOCK_HASH_RE (mv_block_hash supplied))
    with (ChainWeightStateError "supplied metagraph view has an invalid block hash");
  reopened ← fetch_metagraph netuid (Some (mv_block supplied));
  stop_if negb (String.eqb (mv_block_hash reopened) (ascii_lower (mv_block_hash supplied)))
          || negb (bool_decide (mv_uids reopened = mv_uids supplied))
          || negb (bool_decide (mv_hotkeys reopened = mv_hotkeys supplied))
    with (ChainWeightStateError "supplied metagraph view differs from finalized chain membership");
  mret reopened.

(** ** A validator's sparse row *)

Definition items_of (v : pyval) : option (list pyval) :=
  match v with VList l | VTuple l => Some l | _ => None end.

Definition pair_of (v : pyval) (message : string) : result (pyval * pyval) :=
  match items_of v with
  | Some [a; b] => Ok (a, b)
  | _ => Raise (ChainWeightStateError message)
  end.

Definition target_step (uids : list Z) (targets : list (Z * Z)) (raw : pyval) : result (list (Z * Z)) :=
  row ← pair_of raw "chain weight state contains a malformed target row";
  target ← _weight_uint row.1 "chain weight target UID" None;
  raise_if negb (bool_decide (target ∈ uids))
    with (ChainWeightStateError "chain weight state contains a target UID absent from the metagraph");
  raise_if bool_decide (target ∈ targets.*1)
    with (ChainWeightStateError "chain weight state contains duplicate target UIDs");
  weight ← _weight_uint row.2 "uint16 weight" (Some 65535);
  Ok (targets ++ [(target, weight)]).

Definition row_step (uids : list Z) (rows : list (Z * list (Z * Z))) (raw : pyval) :
    result (list (Z * list (Z * Z))) :=
  row ← pair_of raw "chain weight state contains a malformed row";
  source ← _weight_uint row.1 "chain weight source UID" None;
  raise_if negb (bool_decide (source ∈ uids))
    with (ChainWeightStateError "chain weight state contains a source UID absent from the metagraph");
  raise_if bool_decide (source ∈ rows.*1)
    with (ChainWeightStateError "chain weight state contains duplicate source rows");
  match items_of row.2 with
  | None => Raise (ChainWeightStateError "chain weight state contains malformed targets")
  | Some raw_targets =>
      targets ← fold_result (target_step uids) raw_targets [];
      Ok (rows ++ [(source, targets)])
  end.

(** The hotkey of a uid in a view whose columns are aligned. *)
Definition hotkey_of (v : MetagraphView) (uid : Z) : option string :=
  snd <$> find (fun row => row.1 =? uid) (zip (mv_uids v) (mv_hotkeys v)).

Definition positive_targets (v : MetagraphView) (targets : list (Z * Z)) : dict float :=
  omap (fun tw => if 0 <? tw.2 then (fun h => (h, float_of_Z tw.2)) <$> hotkey_of v tw.1 else None) targets.

Definition read_validator_weight_snapshot (netuid : Z) (validator_hotkey : string) (supplied : MetagraphView) :
    ST W ValidatorWeightSnapshot :=
  stop_if netuid <? 0 with (ChainWeightStateError "netuid must be a non-negative integer");
  stop_if negb (truthy validator_hotkey) with (ChainWeightStateError "validator hotkey must be non-empty");
  view ← _reopen_metagraph_view netuid supplied;
  match index_of validator_hotkey (mv_hotkeys view) with
  | None => mret (mkSnapshot [] 0)
  | Some i =>
      raw_rows ← catch (fun _ => Some (raise (ChainWeightStateError "cannot fetch validator on-chain weights")))
                   (weights subtensor netuid (mv_block view));
      hash ← reraise ["ChainRevealHistoryError"]
               (ChainWeightStateError "cannot verify finalized sparse-weight provenance") (_block_hash (mv_block view));
      stop_if negb (String.eqb hash (mv_block_hash view))
        with (ChainWeightStateError "finalized sparse weights height/hash changed while it was read");
      rows ← of_result (fold_result (row_step (mv_uids view)) raw_rows []);
      let uid := default 0 (mv_uids view !! i) in
      let targets := default [] (snd <$> find (fun row => row.1 =? uid) rows) in
      mret (mkSnapshot (normalize (positive_targets view targets)) (default 0 (mv_last_update view !! i)))
  end.

(** ** Submission *)

Definition weight_entry_ok (kv : string * float) : bool :=
  truthy kv.1 && is_finite kv.2 && f_leb (float_of_Z 0) kv.2.

Definition missing_uid (v : MetagraphView) (hotkey : string) : bool :=
  match uid_of v hotkey with Some _ => false | None => true end.

Definition weights_to_uid_vector (weights_by_hotkey : dict float) (v : MetagraphView) :
    result (list Z * list float) :=
  raise_if negb (forallb weight_entry_ok weights_by_hotkey)
    with (ChainWeightStateError "weight projection contains an invalid entry");
  let positive := filter (fun kv => f_ltb (float_of_Z 0) kv.2 = true) weights_by_hotkey in
  raise_if existsb (missing_uid v) positive.*1
    with (ChainWeightStateError "positive-weight hotkeys are absent from the live metagraph");
  let norm := normalize positive in
  let uids := omap (uid_of v) norm.*1 in
  raise_if existsb (fun u => u <? 0) uids || negb (distinct uids)
    with (ChainWeightStateError "live metagraph maps weight recipients to invalid or duplicate UIDs");
  Ok (uids, norm.*2).

Definition WEIGHTS_VERSION_KEY : Z := 1.

Definition resolve_weights_version_key (netuid floor : Z) : ST W Z :=
  raw ← get_hyperparameter subtensor "WeightsVersionKey" netuid None;
  match raw with
  | None => raise (ChainWeightStateError "cannot read WeightsVersionKey hyperparameter for netuid")
  | Some v => mret (Z.max floor v)
  end.

Definition _extrinsic_outcome (r : sdk_outcome) : result bool :=
  match r with
  | OutTuple (ok :: _) => Ok (py_bool ok)
  | OutTuple [] => Raise (Exn "IndexError" "tuple index out of range")
  | OutDict items => Ok (py_bool (VDict items))
  | OutObject success _ => Ok (match success with Some v => py_bool v | None => true end)
  end.
End Reads.
