(* ===== verification/Journal.v ===== *)
(** * The publication journal as its client sees it

    The protocols [WeightPublicationJournal] and
    [ReopenableWeightPublicationJournal] of [cacheon/chain/weights.py] as type
    classes, and what an implementation promises: an append-only log whose last
    record is the head, extended only by a replacement that names that head. *)

From S2P Require Import Prelude PyVal Identity Publication.

Class WeightPublicationJournal (J : Type) := {
  load : J -> result (option WeightPublicationRecord);
  compare_and_swap : option string -> WeightPublicationRecord -> J -> J * result ();
}.

Class ReopenableWeightPublicationJournal (J : Type) `{WeightPublicationJournal J} := {
  retained_projection : J -> string -> result WeightProjection;
}.

(** The digest a record must name to follow the log. *)
Definition head_digest (log : list WeightPublicationRecord) : result (option string) :=
  match last log with None => Ok None | Some r => Some <$> record_digest r end.

(** [journal_abs j log]: the stored state [j] holds exactly [log]. *)
Class JournalLaws (J : Type) `{WeightPublicationJournal J} := {
  journal_abs : J -> list WeightPublicationRecord -> Prop;
  load_last j log o : journal_abs j log -> load j = Ok o -> o = last log;
  swap_appends e r j j' u log : journal_abs j log -> compare_and_swap e r j = (j', Ok u) ->
    journal_abs j' (log ++ [r]) /\ head_digest log = Ok e /\ w_prior r = e;
  swap_refused e r j j' x : compare_and_swap e r j = (j', Raise x) -> j' = j;
}.

(** Every record names the digest of its predecessor, the first one none. *)
Fixpoint chained_from (prior : result (option string)) (log : list WeightPublicationRecord) : Prop :=
  match log with
  | [] => True
  | r :: rest => prior = Ok (w_prior r) /\ chained_from (Some <$> record_digest r) rest
  end.
Definition chained : list WeightPublicationRecord -> Prop := chained_from (Ok None).

Lemma chained_from_snoc prior log r :
  chained_from prior (log ++ [r]) <->
  chained_from prior log /\ match last log with None => prior | Some l => Some <$> record_digest l end = Ok (w_prior r).
Proof.
  revert prior. induction log as [|x log IH]; intros prior; [cbn; tauto|]. cbn [app chained_from].
  rewrite IH, last_cons. destruct (last log); tauto.
Qed.

Lemma chained_snoc log r : chained (log ++ [r]) <-> chained log /\ head_digest log = Ok (w_prior r).
Proof. unfold chained. by rewrite chained_from_snoc. Qed.

(** A swap keeps the log a chain: the laws are enough. *)
Lemma swap_chained `{JournalLaws J} e r (j j' : J) u log :
  journal_abs j log -> compare_and_swap e r j = (j', Ok u) -> chained log -> chained (log ++ [r]).
Proof. intros Hj (_ & Hd & <-)%(swap_appends _ _ _ _ _ _ Hj) Hc. by apply chained_snoc. Qed.
