(* ===== verification/Reconcile.v ===== *)
(** * Reconciling and publishing one weight vector

    [cacheon/chain/weights.py] and [cacheon/chain/weight_commit.py]: the state
    machine that journals an attempt, submits a vector, and confirms it by
    finalized readback; and the follower's commit-only variant. The state is the
    chain client's, the journal's, and the sequence of effects so far: what was
    observed, journaled and handed to the signer, in order. *)

From S2P Require Import Prelude PyVal Dict Identity Effects Floats Publication Chain Journal.

Open Scope Z_scope.

Definition StaleWeightProjectionError (m : string) : exn := Exn "StaleWeightProjectionError" m.

Inductive effect :=
  | Observed (view : MetagraphView) (snapshot : ValidatorWeightSnapshot)
  | Journaled (r : WeightPublicationRecord)
  | Signed (block : Z) (uids : list Z) (vector : list float).

Record env (W J : Type) := mkEnv { world : W; journal : J; effects : list effect }.
Arguments mkEnv {W J}.
Arguments world {W J}.
Arguments journal {W J}.
Arguments effects {W J}.

(** ** Comparing a projection with the chain *)

(** [self.weights] *)
Definition projection_weights (p : WeightProjection) : dict float :=
  (fun row => (row.1, f_div (float_of_Z row.2) (float_of_Z WEIGHT_PARTS))) <$> weights_ppm p.

Definition tolerance : float := literal 2 5.

Definition _matches (snapshot : ValidatorWeightSnapshot) (p : WeightProjection) : bool :=
  let expected := projection_weights p in
  bool_decide (list_to_set (snap_weights snapshot).*1 =@{gset string} list_to_set expected.*1)
  && forallb (fun kv => match dict_get kv.1 (snap_weights snapshot) with
                        | Some w => isclose tolerance tolerance w kv.2
                        | None => false
                        end) expected.

Definition member_row (row : Z * string) : pyval := str_dict [("hotkey", VStr row.2); ("uid", VInt row.1)].

Definition _metagraph_digest (p : WeightProjection) (v : MetagraphView) : result string :=
  canonical_digest "cacheon.economics.metagraph-membership"
    (str_dict [("block", VInt (mv_block v)); ("block_hash", VStr (ascii_lower (mv_block_hash v)));
               ("chain_scope_digest", VStr (p_scope p));
               ("members", VList (member_row <$> sorted_by id (zip (mv_uids v) (mv_hotkeys v))))]) 1.

Definition _authority_uids_unchanged (p : WeightProjection) (bound observed : MetagraphView) : bool :=
  forallb (fun hotkey => match uid_of bound hotkey with
                         | Some uid => bool_decide (uid_of observed hotkey = Some uid)
                         | None => false
                         end) (p_validator p :: (weights_ppm p).*1).

(** [data.get("reveal_round")] when the submission's result carries data. *)
Definition reveal_of (data : option pyval) : Z :=
  match data with
  | Some (VDict items) => match items_get "reveal_round" items with
                          | Some (VInt z) => if 0 <=? z then z else 0
                          | _ => 0
                          end
  | _ => 0
  end.

Definition _reveal_round (response : option submission) : Z :=
  match response ≫= sdk_result with
  | Some (OutDict items) => reveal_of (items_get "data" items)
  | Some (OutObject _ data) => reveal_of data
  | _ => 0
  end.

(** ** Results *)

Inductive result_status := Published (s : publication_status) | DryRun.

Record WeightPublicationResult := mkResult {
  o_projection : string;
  o_status : result_status;
  o_record : option WeightPublicationRecord;
  chain_matches : bool;
  o_submitted : bool;
  dry_run : bool;
  observed_block : Z;
  refresh_due : bool;
}.

#[export] Instance result_status_eq_dec : EqDecision result_status.
Proof. solve_decision. Defined.

Definition make_result (r : WeightPublicationResult) : result WeightPublicationResult :=
  _ ← require_sha256_hex (VStr (o_projection r)) "projection_digest";
  raise_if (observed_block r <? 0)
           || negb (Bool.eqb (dry_run r) (bool_decide (o_status r = DryRun)))
           || negb (Bool.eqb (bool_decide (o_status r = DryRun)) (bool_decide (o_record r = None)))
           || match o_record r with Some rec => negb (bool_decide (o_status r = Published (w_status rec))) | None => false end
           || (refresh_due r && (negb (bool_decide (o_status r = Published p_confirmed)) || negb (chain_matches r)))
    with (WeightPublicationError "publication result status is unsupported");
  Ok r.

Section Reconcile.
Context {W J : Type} `{WeightPublicationJournal J} (subtensor : Subtensor W).

Abbreviation program := (ST (env W J)).

Definition on_chain {A} (m : ST W A) : program A :=
  zoom world (fun w s => mkEnv w (journal s) (effects s)) m.
Definition emit (x : effect) : program () := update (fun s => mkEnv (world s) (journal s) (effects s ++ [x])).

Definition observe (p : WeightProjection) (view : MetagraphView) : program ValidatorWeightSnapshot :=
  snapshot ← on_chain (read_validator_weight_snapshot subtensor (netuid p) (p_validator p) view);
  _ ← emit (Observed view snapshot);
  mret snapshot.

Definition load_head : program (option WeightPublicationRecord) := fun s => (s, load (journal s)).

Definition swap (expected : option string) (r : WeightPublicationRecord) : program () := fun s =>
  let '(j, outcome) := compare_and_swap expected r (journal s) in
  match outcome with
  | Ok _ => (mkEnv (world s) j (effects s ++ [Journaled r]), Ok tt)
  | Raise e => (mkEnv (world s) j (effects s), Raise e)
  end.

Definition new_record (r : WeightPublicationRecord) : program WeightPublicationRecord := of_result (rebuild_record r).
Definition new_result (r : WeightPublicationResult) : program WeightPublicationResult := of_result (make_result r).

(** ** Journal steps *)

Definition with_prior (o : option string) (r : WeightPublicationRecord) : WeightPublicationRecord :=
  mkRecord (w_projection r) (w_status r) o (submit_block r) (retry_after_block r) (reveal_round r)
    (confirmed_block r) (confirmed_last_update r) (w_reason r).

Definition _advance (current : option WeightPublicationRecord) (replacement : WeightPublicationRecord) :
    program WeightPublicationRecord :=
  expected ← of_result (match current with Some c => Some <$> record_digest c | None => Ok None end);
  replacement ← (if decide (w_prior replacement = expected) then mret replacement
                 else new_record (with_prior expected replacement));
  _ ← swap expected replacement;
  mret replacement.

(** The bounds and confirmation of [r] under another status and reason. *)
Definition carried (r : WeightPublicationRecord) (st : publication_status) (why : string) : WeightPublicationRecord :=
  mkRecord (w_projection r) st None (submit_block r) (retry_after_block r) (reveal_round r)
    (confirmed_block r) (confirmed_last_update r) why.

Definition _held (current : WeightPublicationRecord) (why : string) : program WeightPublicationRecord :=
  r ← new_record (carried current p_held why); _advance (Some current) r.

Definition release_weight_publication_hold (why : string) : program WeightPublicationRecord :=
  stop_if negb (truthy why) || negb (reason_ok why)
    with (WeightPublicationError "publication release reason is malformed");
  current ← load_head;
  match current with
  | Some c =>
      stop_if negb (bool_decide (w_status c = p_held))
        with (WeightPublicationError "only a retained publication hold may be released");
      r ← new_record (carried c p_released why);
      _advance (Some c) r
  | None => raise (WeightPublicationError "only a retained publication hold may be released")
  end.

Definition _attempt_absent_from_chain (p : WeightProjection) (held : WeightPublicationRecord)
    (pre : ValidatorWeightSnapshot) (observed : Z) : program bool :=
  if negb (confirmed_block held =? 0) || (submit_block held =? 0) || (observed <? retry_after_block held)
     || (submit_block held <=? last_update_block pre)
  then mret false
  else
    commits ← on_chain (get_timelocked_weight_commits subtensor (netuid p) observed);
    mret (forallb (fun who => negb (String.eqb who (p_validator p))) commits).

(** [record.projection_digest == projection.digest] *)
Definition same_projection (p : WeightProjection) (r : WeightPublicationRecord) : program bool :=
  digest ← of_result (projection_digest p); mret (String.eqb (w_projection r) digest).

(** A record of this projection confirmed by a readback. *)
Definition confirmed_record (digest : string) (attempt : option WeightPublicationRecord) (block last_update : Z)
    (why : string) : WeightPublicationRecord :=
  mkRecord digest p_confirmed None (match attempt with Some r => submit_block r | None => 0 end)
    (match attempt with Some r => retry_after_block r | None => 0 end)
    (match attempt with Some r => reveal_round r | None => 0 end) block last_update why.

(** [current = _advance(journal, current, WeightPublicationRecord(projection.digest, "confirmed", ...))] *)
Definition confirm (p : WeightProjection) (current attempt : option WeightPublicationRecord) (block last_update : Z)
    (why : string) : program WeightPublicationRecord :=
  digest ← of_result (projection_digest p);
  r ← new_record (confirmed_record digest attempt block last_update why);
  _advance current r.

(** [return WeightPublicationResult(projection.digest, status, record, ...)] *)
Definition finish_with (p : WeightProjection) (status : publication_status) (r : WeightPublicationRecord)
    (matches was_submitted : bool) (block : Z) (due : bool) : program WeightPublicationResult :=
  digest ← of_result (projection_digest p);
  new_result (mkResult digest (Published status) (Some r) matches was_submitted false block due).

(** ** Reading the authority *)

Record options := mkOptions {
  refresh_blocks : Z;
  is_dry_run : bool;
  reconcile_only : bool;
  allow_stale_initial : bool;
  max_stale_initial_blocks : option Z;
  require_current_crown : bool;
}.

Definition check_options (o : options) (signer : option string) : program () :=
  stop_if refresh_blocks o <=? 0 with (WeightPublicationError "weight refresh cadence is malformed");
  stop_if match max_stale_initial_blocks o with Some n => n <=? 0 | None => false end
    with (WeightPublicationError "stale-initial block limit is malformed");
  stop_if match max_stale_initial_blocks o with Some _ => negb (allow_stale_initial o) | None => false end
    with (WeightPublicationError "stale-initial block limit requires stale-initial authority");
  stop_if reconcile_only o && is_dry_run o
    with (WeightPublicationError "reconcile-only cannot be combined with dry-run");
  stop_if reconcile_only o && match signer with Some _ => true | None => false end
    with (WeightPublicationError "reconcile-only forbids a signer wallet");
  mret tt.

(** [record if record has one of the statuses and names this projection else None] *)
Definition retained_if (p : WeightProjection) (statuses : list publication_status)
    (current : option WeightPublicationRecord) : program (option WeightPublicationRecord) :=
  match current with
  | Some c => if bool_decide (w_status c ∈ statuses)
              then same ← same_projection p c; mret (if (same : bool) then Some c else None) else mret None
  | None => mret None
  end.

Record authority := mkAuthority {
  a_current : option WeightPublicationRecord;
  a_retained : option WeightPublicationRecord;
  a_live : MetagraphView;
  a_bound : MetagraphView;
  a_pre : ValidatorWeightSnapshot;
}.

Definition check_initial_freshness (p : WeightProjection) (o : options) (bound live : MetagraphView) : program () :=
  stop_if negb (allow_stale_initial o)
    with (WeightPublicationError "weight projection is stale for the immediately refreshed metagraph");
  stop_if match max_stale_initial_blocks o with Some n => n <? mv_block live - effective_block p | None => false end
    with (StaleWeightProjectionError "shared weight projection exceeds the initial freshness window");
  stop_if negb (_authority_uids_unchanged p bound live)
    with (WeightPublicationError "stale weight projection recipient UID mapping changed");
  mret tt.

Definition bound_view (p : WeightProjection) (live : MetagraphView) : program MetagraphView :=
  bound ← (if mv_block live =? effective_block p then mret live
           else on_chain (fetch_metagraph subtensor (netuid p) (Some (effective_block p))));
  digest ← of_result (_metagraph_digest p bound);
  stop_if negb (String.eqb digest (p_metagraph_digest p))
    with (WeightPublicationError "weight projection metagraph binding cannot be reopened");
  mret bound.

Definition open_authority (p : WeightProjection) (o : options) : program authority :=
  current ← ((if is_dry_run o then mret None else load_head) : program (option WeightPublicationRecord));
  flight ← retained_if p [p_intent; p_pending] current;
  head ← ((if reconcile_only o then retained_if p [p_pending; p_released; p_confirmed] current else mret None) : program _);
  let retained := match flight with Some _ => flight | None => head end in
  live ← on_chain (fetch_metagraph subtensor (netuid p) None);
  bound ← bound_view p live;
  _ ← (if bool_decide (retained = None) && negb (mv_block live =? effective_block p)
       then check_initial_freshness p o bound live else mret tt);
  stop_if match flight with
          | Some r => (submit_block r <? effective_block p) || (mv_block live <? submit_block r)
          | None => false
          end
    with (WeightPublicationError "in-flight publication chronology differs from retained authority");
  pre ← observe p live;
  stop_if (mv_block live <? last_update_block pre) || (mv_block live <? effective_block p)
    with (ChainWeightStateError "weight authority chronology is inconsistent");
  mret (mkAuthority current retained live bound pre).

(** ** Submitting *)

Definition sign (netuid : Z) (block : Z) (uids : list Z) (vector : list float) (version : Z) : program sdk_outcome :=
  _ ← emit (Signed block uids vector);
  on_chain (sdk_set_weights subtensor netuid uids vector version).

(** [chain.set_weights]; the payload is only printed on a dry run. *)
Definition set_weights (netuid : Z) (weights_by_hotkey : dict float) (dry : bool) (supplied : MetagraphView) :
    program submission :=
  version ← on_chain (resolve_weights_version_key subtensor netuid WEIGHTS_VERSION_KEY);
  view ← on_chain (_reopen_metagraph_view subtensor netuid supplied);
  vector ← of_result (weights_to_uid_vector weights_by_hotkey view);
  match vector.1 with
  | [] => mret (mkSubmission false None)
  | _ =>
      if dry then mret (mkSubmission false None)
      else
        outcome ← sign netuid (mv_block view) vector.1 vector.2 version;
        ok ← of_result (_extrinsic_outcome outcome);
        mret (mkSubmission ok (Some outcome))
  end.

(** ** The branches of [reconcile_weight_publication] *)

(** [observed_block - pre.last_update_block >= refresh_blocks] *)
Definition due (o : options) (block : Z) (snapshot : ValidatorWeightSnapshot) : bool :=
  refresh_blocks o <=? block - last_update_block snapshot.

Definition status_in (r : WeightPublicationRecord) (l : list publication_status) : bool := bool_decide (w_status r ∈ l).

Definition reconcile_readback (p : WeightProjection) (o : options) (a : authority) : program WeightPublicationResult :=
  let observed := mv_block (a_live a) in
  let pre := a_pre a in
  let matches := _matches pre p in
  match a_current a with
  | None => raise (WeightPublicationError "reconcile-only requires a pending, released, or confirmed journal head")
  | Some c =>
      stop_if negb (status_in c [p_pending; p_released; p_confirmed])
        with (WeightPublicationError "reconcile-only requires a pending, released, or confirmed journal head");
      stop_if negb (bool_decide (a_retained a = None)) && negb (_authority_uids_unchanged p (a_bound a) (a_live a))
        with (WeightPublicationError "reconcile-only recipient UID mapping changed");
      if status_in c [p_pending] then
        same ← same_projection p c;
        stop_if negb same
          with (WeightPublicationError "reconcile-only pending projection differs from retained authority");
        stop_if negb matches || (last_update_block pre <? submit_block c)
          with (WeightPublicationError "reconcile-only pending publication lacks exact authoritative readback");
        r ← confirm p (Some c) (Some c) observed (last_update_block pre) "authoritative_readback";
        finish_with p p_confirmed r true false observed (due o observed pre)
      else
        stop_if negb matches
          with (WeightPublicationError "reconcile-only authoritative row differs; a submission is required");
        stop_if status_in c [p_released] && (last_update_block pre <? submit_block c)
          with (WeightPublicationError "reconcile-only released publication lacks post-submit authoritative readback");
        stop_if due o observed pre
          with (WeightPublicationError "reconcile-only confirmed row is refresh-due; a submission is required");
        same ← same_projection p c;
        if status_in c [p_confirmed] && same
        then finish_with p p_confirmed c true false observed false
        else
          r ← confirm p (Some c) (Some c) observed (last_update_block pre) "preexisting_authoritative_readback";
          finish_with p p_confirmed r true false observed false
  end.

(** A hold over an attempt that the chain never saw releases itself. *)
Definition release_absent (p : WeightProjection) (a : authority) : program (option WeightPublicationRecord) :=
  match a_current a with
  | Some c =>
      if status_in c [p_held] then
        gone ← _attempt_absent_from_chain p c (a_pre a) (mv_block (a_live a));
        if (gone : bool) then r ← release_weight_publication_hold "attempt_absent_from_finalized_chain"; mret (Some r)
        else mret (Some c)
      else mret (Some c)
  | None => mret None
  end.

(** The head is an intent, pending or held record. *)
Definition settle_unresolved (p : WeightProjection) (o : options) (a : authority) (c : WeightPublicationRecord) :
    program WeightPublicationResult :=
  let observed := mv_block (a_live a) in
  let pre := a_pre a in
  let matches := _matches pre p in
  same ← same_projection p c;
  if negb same then
    r ← _held c "projection_changed_while_unresolved"; finish_with p p_held r matches false observed false
  else if status_in c [p_held] then finish_with p p_held c matches false observed false
  else if negb (_authority_uids_unchanged p (a_bound a) (a_live a)) then
    r ← _held c "metagraph_uid_mapping_changed"; finish_with p p_held r false false observed false
  else if matches && (submit_block c <=? last_update_block pre) then
    r ← confirm p (Some c) (Some c) observed (last_update_block pre) "authoritative_readback";
    finish_with p p_confirmed r true false observed (due o observed pre)
  else if observed <? retry_after_block c then finish_with p (w_status c) c false false observed false
  else r ← _held c "publication_readback_deadline_expired"; finish_with p p_held r false false observed false.

(** The head is resolved: what already settles this projection without a signature. *)
Definition settle_resolved (p : WeightProjection) (o : options) (a : authority) (current : option WeightPublicationRecord) :
    program (option WeightPublicationResult) :=
  let observed := mv_block (a_live a) in
  let pre := a_pre a in
  let matches := _matches pre p in
  let fresh := matches && negb (due o observed pre) in
  let readback := "preexisting_authoritative_readback" in
  match current with
  | None =>
      if fresh then
        r ← confirm p None None observed (last_update_block pre) readback;
        Some <$> finish_with p p_confirmed r true false observed false
      else mret None
  | Some c =>
      if status_in c [p_confirmed] then
        same ← same_projection p c;
        if same && negb matches then
          r ← _held c "confirmed_vector_changed_on_chain"; Some <$> finish_with p p_held r false false observed false
        else if fresh then
          r ← (if same then mret c else confirm p (Some c) None observed (last_update_block pre) readback);
          Some <$> finish_with p p_confirmed r true false observed false
        else mret None
      else if status_in c [p_released] && fresh && (submit_block c <=? last_update_block pre) then
        r ← confirm p (Some c) (Some c) observed (last_update_block pre) readback;
        Some <$> finish_with p p_confirmed r true false observed false
      else mret None
  end.

(** ** Signing *)

Definition check_signer (p : WeightProjection) (o : options) (signer : option string) (observed : Z) : program () :=
  stop_if require_current_crown o && (crown_count p <=? 0)
    with (WeightPublicationError "real weight submission requires a current crown");
  match signer with
  | None => raise (WeightPublicationError "real weight submission requires a signer wallet")
  | Some hotkey =>
      stop_if negb (String.eqb hotkey (p_validator p))
        with (WeightPublicationError "signer wallet differs from projection authority");
      stop_if observed <=? 0 with (ChainWeightStateError "real publication requires a positive chain block");
      mret tt
  end.

(** The finalized authority handed to the signer, reopened just before the intent. *)
Definition signing_view (p : WeightProjection) (a : authority) : program MetagraphView :=
  view ← on_chain (fetch_metagraph subtensor (netuid p) None);
  stop_if mv_block view <? mv_block (a_live a)
    with (ChainWeightStateError "finalized weight authority regressed before signing");
  changed ← (if mv_block view =? effective_block p then
               digest ← of_result (_metagraph_digest p view); mret (negb (String.eqb digest (p_metagraph_digest p)))
             else mret false);
  stop_if (changed : bool) with (ChainWeightStateError "finalized weight authority changed at the projection block");
  stop_if negb (_authority_uids_unchanged p (a_bound a) view)
    with (WeightPublicationError "weight recipient UID mapping changed before signing");
  mret view.

(** The newer row read when finality advanced meanwhile: it may settle the projection after all. *)
Definition recheck (p : WeightProjection) (o : options) (a : authority) (view : MetagraphView)
    (current : option WeightPublicationRecord) :
    program (option WeightPublicationRecord * option WeightPublicationResult) :=
  if mv_block view <=? mv_block (a_live a) then mret (current, None)
  else
    let readback := "preexisting_authoritative_readback" in
    pre ← observe p view;
    stop_if mv_block view <? last_update_block pre
      with (ChainWeightStateError "pre-sign weight authority chronology is inconsistent");
    if _matches pre p && negb (due o (mv_block view) pre) then
      current ← (match current with
                | None => Some <$> confirm p None None (mv_block view) (last_update_block pre) readback
                | Some c =>
                    same ← same_projection p c;
                    if status_in c [p_confirmed] && negb same then
                      Some <$> confirm p (Some c) None (mv_block view) (last_update_block pre) readback
                    else if status_in c [p_released] && (submit_block c <=? last_update_block pre) then
                      Some <$> confirm p (Some c) (Some c) (mv_block view) (last_update_block pre) readback
                    else mret (Some c)
                end : program (option WeightPublicationRecord));
      match current with
      | Some c =>
          same ← same_projection p c;
          if status_in c [p_confirmed] && same then
            r ← finish_with p p_confirmed c true false (mv_block view) false; mret (current, Some r)
          else mret (current, None)
      | None => mret (current, None)
      end
    else mret (current, None).

(** [signing_metagraph.last_update[signing_metagraph.hotkeys.index(validator)]] *)
Definition check_rate_limit (p : WeightProjection) (view : MetagraphView) : program () :=
  match index_of (p_validator p) (mv_hotkeys view) with
  | None => raise (Exn "ValueError" "is not in list")
  | Some i =>
      let last_update := default 0 (mv_last_update view !! i) in
      limit ← on_chain (get_hyperparameter subtensor "WeightsSetRateLimit" (netuid p) (Some (mv_block view)));
      match limit with
      | None => raise (Exn "TypeError" "int() argument must be a number")
      | Some limit =>
          stop_if negb (last_update =? 0) && (mv_block view <=? last_update + limit)
            with (ChainWeightStateRetryableError "weight submission rate limit");
          mret tt
      end
  end.

Definition in_flight_record (digest : string) (st : publication_status) (o : options) (block reveal : Z) (why : string) :
    WeightPublicationRecord :=
  mkRecord digest st None block (block + refresh_blocks o) reveal 0 0 why.

(** [try: response = chain.set_weights(...) except Exception]: the response, and the pending record's reason. *)
Definition attempt (p : WeightProjection) (view : MetagraphView) : program (option submission * string) :=
  catch (fun e => Some (mret (None, string_app "sdk_exception:" (exn_class e))))
    (response ← set_weights (netuid p) (projection_weights p) false view;
     mret (Some response, "sdk_result_unconfirmed")).

(** The body of the [try] after the attempt: held at once when a uid mapping changed, or the row read back. *)
Definition post_readback (p : WeightProjection) (view : MetagraphView) (pending : WeightPublicationRecord)
    (was_submitted : bool) : program (WeightPublicationResult + MetagraphView * ValidatorWeightSnapshot) :=
  post ← on_chain (fetch_metagraph subtensor (netuid p) None);
  changed ← (if mv_block post =? mv_block view then
               after ← of_result (_metagraph_digest p post);
               before ← of_result (_metagraph_digest p view);
               mret (negb (String.eqb after before))
             else mret false);
  stop_if (changed : bool) with (ChainWeightStateError "post-submit authority changed at the signing block");
  if negb (_authority_uids_unchanged p view post) then
    r ← _held pending "post_submit_uid_mapping_changed";
    inl <$> finish_with p p_held r false was_submitted (mv_block post) false
  else
    snapshot ← observe p post;
    stop_if (mv_block post <? last_update_block snapshot) || (mv_block post <? mv_block view)
      with (ChainWeightStateError "post-submit chronology is inconsistent");
    mret (inr (post, snapshot)).

(** [None] when the finalized state could not be read; other failures escape. *)
Definition try_readback (p : WeightProjection) (view : MetagraphView) (pending : WeightPublicationRecord)
    (was_submitted : bool) : program (option (WeightPublicationResult + MetagraphView * ValidatorWeightSnapshot)) :=
  catch (fun e => if is_weight_state e then Some (mret None) else None)
    (Some <$> post_readback p view pending was_submitted).

Definition after_submission (p : WeightProjection) (o : options) (view : MetagraphView)
    (pending : WeightPublicationRecord) (was_submitted : bool) : program WeightPublicationResult :=
  let block := mv_block view in
  readback ← try_readback p view pending was_submitted;
  match readback with
  | None =>
      r ← _held pending "post_submit_authority_unavailable"; finish_with p p_held r false was_submitted block false
  | Some (inl held) => mret held
  | Some (inr (post, snapshot)) =>
      if _matches snapshot p && (block <=? last_update_block snapshot) then
        r ← confirm p (Some pending) (Some pending) (mv_block post) (last_update_block snapshot)
              "post_submit_authoritative_readback";
        finish_with p p_confirmed r true was_submitted (mv_block post) false
      else finish_with p p_pending pending false was_submitted (mv_block post) false
  end.

(** Intent, attempt, pending: the only path that reaches the signer. *)
Definition sign_and_submit (p : WeightProjection) (o : options) (view : MetagraphView)
    (current : option WeightPublicationRecord) : program WeightPublicationResult :=
  let block := mv_block view in
  digest ← of_result (projection_digest p);
  r ← new_record (in_flight_record digest p_intent o block 0 "before_sdk_submission");
  intent ← _advance current r;
  tried ← attempt p view;
  r ← new_record (in_flight_record digest p_pending o block (_reveal_round tried.1) tried.2);
  pending ← _advance (Some intent) r;
  after_submission p o view pending (match tried.1 with Some s => submitted s | None => false end).

Definition publish (p : WeightProjection) (o : options) (signer : option string) (a : authority)
    (current : option WeightPublicationRecord) : program WeightPublicationResult :=
  _ ← check_signer p o signer (mv_block (a_live a));
  view ← signing_view p a;
  settled ← recheck p o a view current;
  match settled.2 with
  | Some r => mret r
  | None => _ ← check_rate_limit p view; sign_and_submit p o view settled.1
  end.

Definition reconcile_weight_publication (signer : option string) (p : WeightProjection) (o : options) :
    program WeightPublicationResult :=
  _ ← check_options o signer;
  a ← open_authority p o;
  if is_dry_run o then
    _ ← set_weights (netuid p) (projection_weights p) true (a_live a);
    digest ← of_result (projection_digest p);
    new_result (mkResult digest DryRun None (_matches (a_pre a) p) false true (mv_block (a_live a)) false)
  else if reconcile_only o then reconcile_readback p o a
  else
    current ← release_absent p a;
    match current with
    | Some c =>
        if status_in c [p_intent; p_pending; p_held] then settle_unresolved p o a c
        else
          settled ← settle_resolved p o a current;
          match settled with Some r => mret r | None => publish p o signer a current end
    | None =>
        settled ← settle_resolved p o a current;
        match settled with Some r => mret r | None => publish p o signer a current end
    end.

(** ** The follower's commit-only publication *)

Context `{!ReopenableWeightPublicationJournal J}.

Definition retained (digest : string) : program WeightProjection := fun s =>
  (s, retained_projection (journal s) digest).

Definition resume_weight_projection (proposed : WeightProjection) : program WeightProjection :=
  current ← load_head;
  match current with
  | None => mret proposed
  | Some c =>
      if negb (in_flight (w_status c)) then mret proposed
      else
        kept ← retained (w_projection c);
        digest ← of_result (projection_digest kept);
        stop_if negb (String.eqb digest (w_projection c))
          with (WeightPublicationError "journal returned an invalid retained projection");
        stop_if negb (String.eqb (p_scope kept) (p_scope proposed)) || negb (netuid kept =? netuid proposed)
                || negb (String.eqb (p_validator kept) (p_validator proposed))
          with (WeightPublicationError "in-flight publication differs from the current chain authority");
        mret kept
  end.

(** Whether the confirmed head already paces this vector. *)
Definition paced (p previous : WeightProjection) (c : WeightPublicationRecord) (block refresh : Z) : bool :=
  status_in c [p_confirmed] && bool_decide (weights_ppm previous = weights_ppm p)
  && (block <? confirmed_block c + refresh).

Definition commit_attempt (p : WeightProjection) (live : MetagraphView) : program (option submission) :=
  catch (fun _ => Some (mret None))
    (Some <$> set_weights (netuid p) (projection_weights p) false live).

Definition commit_record (digest : string) (block reveal : Z) (accepted : bool) : WeightPublicationRecord :=
  mkRecord digest (if accepted then p_confirmed else p_released) None block block reveal
    (if accepted then block else 0) 0 (if accepted then "block_inclusion" else "commit_failed_retry_next_pass").

Definition commit_weight_publication (signer_hotkey : string) (p : WeightProjection) (refresh : Z) (dry : bool) :
    program WeightPublicationResult :=
  stop_if refresh <=? 0 with (WeightPublicationError "weight refresh cadence is malformed");
  stop_if negb (String.eqb signer_hotkey (p_validator p))
    with (WeightPublicationError "signer wallet differs from projection authority");
  live ← on_chain (fetch_metagraph subtensor (netuid p) None);
  let age := mv_block live - effective_block p in
  stop_if (age <? 0) || (refresh <? age)
    with (StaleWeightProjectionError "shared projection exceeds the initial freshness window");
  bound ← bound_view p live;
  stop_if negb (_authority_uids_unchanged p bound live)
    with (WeightPublicationError "weight recipient UID mapping changed before signing");
  if dry then
    _ ← set_weights (netuid p) (projection_weights p) true live;
    digest ← of_result (projection_digest p);
    new_result (mkResult digest DryRun None false false true (mv_block live) false)
  else
    current ← load_head;
    previous ← match current with
               | None => mret None
               | Some c =>
                   previous ← retained (w_projection c);
                   stop_if negb (String.eqb (p_validator previous) (p_validator p))
                           || negb (String.eqb (p_scope previous) (p_scope p)) || negb (netuid previous =? netuid p)
                     with (WeightPublicationError "follower journal belongs to another authority");
                   mret (if paced p previous c (mv_block live) refresh then Some (previous, c) else None)
               end;
    match previous with
    | Some (kept, c) =>
        digest ← of_result (projection_digest kept);
        new_result (mkResult digest (Published p_confirmed) (Some c) false false false (mv_block live) false)
    | None =>
        digest ← of_result (projection_digest p);
        r ← new_record (mkRecord digest p_intent None (mv_block live) (mv_block live) 0 0 0 "before_sdk_submission");
        intent ← _advance current r;
        response ← commit_attempt p live;
        let accepted := match response with Some s => submitted s | None => false end in
        r ← new_record (commit_record digest (mv_block live) (_reveal_round response) accepted);
        record ← _advance (Some intent) r;
        new_result (mkResult digest (Published (w_status record)) (Some record) false accepted false (mv_block live) false)
    end.
End Reconcile.
