(* ===== verification/ReconcileTrace.v ===== *)
(** * What publication programs leave behind

    Every program of [Reconcile] only appends effects, and its journal records
    are exactly the growth of the journal's log. Each fact is a preorder on
    states that the primitive steps respect; [keeps] lifts it to programs. *)

From S2P Require Import Prelude PyVal Dict Identity Effects Floats Publication Chain Journal Reconcile.

Open Scope Z_scope.

(** ** Programs that respect a preorder *)

Section Keeps.
Context {S : Type} (R : S -> S -> Prop) `{!PreOrder R}.

Definition keeps {A} (m : ST S A) : Prop := forall s, R s (m s).1.

Lemma keeps_ret {A} (a : A) : keeps (mret a).
Proof. intros s. reflexivity. Qed.
Lemma keeps_raise {A} e : keeps (raise e : ST S A).
Proof. intros s. reflexivity. Qed.
Lemma keeps_of_result {A} (r : result A) : keeps (of_result r).
Proof. intros s. reflexivity. Qed.
Lemma keeps_bind {A B} (m : ST S A) (f : A -> ST S B) : keeps m -> (forall a, keeps (f a)) -> keeps (m ≫= f).
Proof.
  intros Hm Hf s. specialize (Hm s). unfold mbind, ST_bind. destruct (m s) as [s' [a|e]]; [|done].
  etransitivity; [exact Hm|apply Hf].
Qed.
Lemma keeps_fmap {A B} (f : A -> B) (m : ST S A) : keeps m -> keeps (f <$> m).
Proof. intros Hm s. specialize (Hm s). unfold fmap, ST_fmap. by destruct (m s) as [s' [a|e]]. Qed.
Lemma keeps_catch {A} (h : exn -> option (ST S A)) (m : ST S A) :
  (forall e k, h e = Some k -> keeps k) -> keeps m -> keeps (catch h m).
Proof.
  intros Hh Hm s. specialize (Hm s). unfold catch. destruct (m s) as [s' [a|e]]; [done|].
  destruct (h e) as [k|] eqn:E; [|done]. etransitivity; [exact Hm|by apply (Hh e)].
Qed.
End Keeps.

Create HintDb keeps.

(** Follow the structure of a program down to its primitive steps. *)
Ltac solve_keeps :=
  repeat first
    [ solve [auto with keeps]
    | apply keeps_ret; typeclasses eauto | apply keeps_raise; typeclasses eauto
    | apply keeps_of_result; typeclasses eauto
    | apply keeps_bind; [typeclasses eauto| |intros ?]
    | apply keeps_fmap
    | apply keeps_catch; [typeclasses eauto|intros ? ? ?; repeat case_match; simplify_eq|]
    | progress cbv zeta
    | match goal with |- keeps _ (match ?x with _ => _ end) => destruct x end ].

(** A relation that the primitive steps other than the signer's respect. *)
Class StepRelation {W J : Type} `{WeightPublicationJournal J} (R : env W J -> env W J -> Prop) := {
  step_preorder :: PreOrder R;
  step_chain w s : R s (mkEnv w (journal s) (effects s));
  step_observed v x s : R s (mkEnv (world s) (journal s) (effects s ++ [Observed v x]));
  step_swap e r s : R s (swap e r s).1;
}.

Section Programs.
Context {W J : Type} `{WeightPublicationJournal J} (subtensor : Subtensor W).
Context (R : env W J -> env W J -> Prop) `{!StepRelation R}.
Implicit Types (p : WeightProjection).

Lemma on_chain_keeps {A} (m : ST W A) : keeps R (on_chain m).
Proof. intros s. unfold on_chain, zoom. destruct (m (world s)). apply step_chain. Qed.
Lemma observed_keeps v x : keeps R (emit (Observed v x)).
Proof. intros s. apply step_observed. Qed.
Lemma load_keeps : keeps R load_head.
Proof. intros s. unfold load_head. reflexivity. Qed.
Lemma swap_keeps e r : keeps R (swap e r).
Proof. intros s. apply step_swap. Qed.
Hint Resolve on_chain_keeps observed_keeps load_keeps swap_keeps : keeps.

Lemma observe_keeps p v : keeps R (observe subtensor p v).
Proof. unfold observe. solve_keeps. Qed.
Lemma advance_keeps c r : keeps R (_advance c r).
Proof. unfold _advance, new_record. solve_keeps. Qed.
Hint Resolve observe_keeps advance_keeps : keeps.
Lemma held_keeps c why : keeps R (_held c why).
Proof. unfold _held, new_record. solve_keeps. Qed.
Lemma release_keeps why : keeps R (release_weight_publication_hold why).
Proof. unfold release_weight_publication_hold, new_record. solve_keeps. Qed.
Lemma confirm_keeps p c a b l why : keeps R (confirm p c a b l why).
Proof. unfold confirm, new_record. solve_keeps. Qed.
Lemma finish_keeps p st r m sub b d : keeps R (finish_with p st r m sub b d).
Proof. unfold finish_with, new_result. solve_keeps. Qed.
Lemma same_keeps p r : keeps R (same_projection p r).
Proof. unfold same_projection. solve_keeps. Qed.
Hint Resolve held_keeps release_keeps confirm_keeps finish_keeps same_keeps : keeps.

Lemma retained_if_keeps p sts c : keeps R (retained_if p sts c).
Proof. unfold retained_if. solve_keeps. Qed.
Lemma bound_view_keeps p v : keeps R (bound_view subtensor p v).
Proof. unfold bound_view. solve_keeps. Qed.
Lemma freshness_keeps p o b l : keeps R (check_initial_freshness p o b l).
Proof. unfold check_initial_freshness. solve_keeps. Qed.
Lemma options_keeps o signer : keeps R (check_options o signer).
Proof. unfold check_options. solve_keeps. Qed.
Hint Resolve retained_if_keeps bound_view_keeps freshness_keeps options_keeps : keeps.
Lemma open_authority_keeps p o : keeps R (open_authority subtensor p o).
Proof. unfold open_authority. solve_keeps. Qed.

Lemma readback_keeps p o a : keeps R (reconcile_readback p o a).
Proof. unfold reconcile_readback. solve_keeps. Qed.
Lemma absent_keeps p h x b : keeps R (_attempt_absent_from_chain subtensor p h x b).
Proof. unfold _attempt_absent_from_chain. solve_keeps. Qed.
Hint Resolve absent_keeps : keeps.
Lemma release_absent_keeps p a : keeps R (release_absent subtensor p a).
Proof. unfold release_absent. solve_keeps. Qed.
Lemma unresolved_keeps p o a c : keeps R (settle_unresolved p o a c).
Proof. unfold settle_unresolved. solve_keeps. Qed.
Lemma resolved_keeps p o a c : keeps R (settle_resolved p o a c).
Proof. unfold settle_resolved. solve_keeps. Qed.
Lemma check_signer_keeps p o w b : keeps R (check_signer p o w b).
Proof. unfold check_signer. solve_keeps. Qed.
Lemma signing_view_keeps p a : keeps R (signing_view subtensor p a).
Proof. unfold signing_view. solve_keeps. Qed.
Lemma recheck_keeps p o a v c : keeps R (recheck subtensor p o a v c).
Proof. unfold recheck. solve_keeps. Qed.
Lemma rate_limit_keeps p v : keeps R (check_rate_limit subtensor p v).
Proof. unfold check_rate_limit. solve_keeps. Qed.
Lemma dry_set_weights_keeps n ws v : keeps R (set_weights subtensor n ws true v).
Proof. unfold set_weights. solve_keeps. Qed.
Lemma post_readback_keeps p v r b : keeps R (post_readback subtensor p v r b).
Proof. unfold post_readback. solve_keeps. Qed.
Hint Resolve post_readback_keeps : keeps.
Lemma try_readback_keeps p v r b : keeps R (try_readback subtensor p v r b).
Proof. unfold try_readback. solve_keeps. Qed.
Hint Resolve try_readback_keeps : keeps.
Lemma after_submission_keeps p o v r b : keeps R (after_submission subtensor p o v r b).
Proof. unfold after_submission. solve_keeps. Qed.
End Programs.

#[export] Hint Extern 1 (keeps _ (on_chain _)) => (apply on_chain_keeps; typeclasses eauto) : keeps.
#[export] Hint Extern 1 (keeps _ (load_head)) => (apply load_keeps; typeclasses eauto) : keeps.
#[export] Hint Extern 1 (keeps _ (observe _ _ _)) => (apply observe_keeps; typeclasses eauto) : keeps.
#[export] Hint Extern 1 (keeps _ (_advance _ _)) => (apply advance_keeps; typeclasses eauto) : keeps.
#[export] Hint Extern 1 (keeps _ (_held _ _)) => (apply held_keeps; typeclasses eauto) : keeps.
#[export] Hint Extern 1 (keeps _ (confirm _ _ _ _ _ _)) => (apply confirm_keeps; typeclasses eauto) : keeps.
#[export] Hint Extern 1 (keeps _ (finish_with _ _ _ _ _ _ _)) => (apply finish_keeps; typeclasses eauto) : keeps.
#[export] Hint Extern 1 (keeps _ (same_projection _ _)) => (apply same_keeps; typeclasses eauto) : keeps.
#[export] Hint Extern 1 (keeps _ (bound_view _ _ _)) => (apply bound_view_keeps; typeclasses eauto) : keeps.
#[export] Hint Extern 1 (keeps _ (set_weights _ _ _ true _)) => (apply dry_set_weights_keeps; typeclasses eauto) : keeps.
#[export] Hint Extern 1 (keeps _ (after_submission _ _ _ _ _ _)) => (apply after_submission_keeps; typeclasses eauto) : keeps.

#[export] Hint Extern 1 (keeps _ (retained_if _ _ _)) => (apply retained_if_keeps; typeclasses eauto) : keeps.
#[export] Hint Extern 1 (keeps _ (check_initial_freshness _ _ _ _)) => (apply freshness_keeps; typeclasses eauto) : keeps.
#[export] Hint Extern 1 (keeps _ (check_options _ _)) => (apply options_keeps; typeclasses eauto) : keeps.
#[export] Hint Extern 1 (keeps _ (open_authority _ _ _)) => (apply open_authority_keeps; typeclasses eauto) : keeps.
#[export] Hint Extern 1 (keeps _ (reconcile_readback _ _ _)) => (apply readback_keeps; typeclasses eauto) : keeps.
#[export] Hint Extern 1 (keeps _ (release_absent _ _ _)) => (apply release_absent_keeps; typeclasses eauto) : keeps.
#[export] Hint Extern 1 (keeps _ (settle_unresolved _ _ _ _)) => (apply unresolved_keeps; typeclasses eauto) : keeps.
#[export] Hint Extern 1 (keeps _ (settle_resolved _ _ _ _)) => (apply resolved_keeps; typeclasses eauto) : keeps.
#[export] Hint Extern 1 (keeps _ (check_signer _ _ _ _)) => (apply check_signer_keeps; typeclasses eauto) : keeps.
#[export] Hint Extern 1 (keeps _ (signing_view _ _ _)) => (apply signing_view_keeps; typeclasses eauto) : keeps.
#[export] Hint Extern 1 (keeps _ (recheck _ _ _ _ _ _)) => (apply recheck_keeps; typeclasses eauto) : keeps.
#[export] Hint Extern 1 (keeps _ (check_rate_limit _ _ _)) => (apply rate_limit_keeps; typeclasses eauto) : keeps.

(** Relations that also allow the signer's step are kept by whole runs. *)
Section Runs.
Context {W J : Type} `{ReopenableWeightPublicationJournal J} (subtensor : Subtensor W).
Context (R : env W J -> env W J -> Prop) `{!StepRelation R}.
Hypothesis step_signed : forall b u v s, R s (mkEnv (world s) (journal s) (effects s ++ [Signed b u v])).
Implicit Types (p : WeightProjection).

Lemma set_weights_keeps n ws dry v : keeps R (set_weights subtensor n ws dry v).
Proof.
  unfold set_weights, sign. solve_keeps. intros s. apply step_signed.
Qed.
Hint Resolve set_weights_keeps : keeps.

Lemma attempt_keeps p v : keeps R (attempt subtensor p v).
Proof. unfold attempt. solve_keeps. Qed.
Hint Resolve attempt_keeps : keeps.

Lemma sign_and_submit_keeps p o v c : keeps R (sign_and_submit subtensor p o v c).
Proof. unfold sign_and_submit, new_record. solve_keeps. Qed.
Hint Resolve sign_and_submit_keeps : keeps.

Lemma publish_keeps p o signer a c : keeps R (publish subtensor p o signer a c).
Proof.
  unfold publish. solve_keeps.
Qed.
Hint Resolve publish_keeps : keeps.

Lemma reconcile_keeps p o signer : keeps R (reconcile_weight_publication subtensor signer p o).
Proof.
  unfold reconcile_weight_publication, new_result. solve_keeps.
Qed.

Lemma commit_attempt_keeps p v : keeps R (commit_attempt subtensor p v).
Proof. unfold commit_attempt. solve_keeps. Qed.
Hint Resolve commit_attempt_keeps : keeps.

Lemma retained_keeps d : keeps R (retained d : ST (env W J) _).
Proof. intros s. unfold retained. reflexivity. Qed.
Hint Resolve retained_keeps : keeps.

Lemma commit_keeps who p n dry : keeps R (commit_weight_publication subtensor who p n dry).
Proof. unfold commit_weight_publication, new_record, new_result. solve_keeps. Qed.
End Runs.

(** ** Effects without a signature *)

Definition is_signed (x : effect) : bool := match x with Signed _ _ _ => true | _ => false end.
Definition unsigned (l : list effect) : Prop := Forall (fun x => is_signed x = false) l.

Definition quiet {W J : Type} (s s' : env W J) : Prop := exists new, effects s' = effects s ++ new /\ unsigned new.

#[export] Instance quiet_steps {W J : Type} `{WeightPublicationJournal J} : StepRelation (@quiet W J).
Proof.
  split.
  - split; [intros s; exists []; rewrite app_nil_r; by repeat constructor|].
    intros s1 s2 s3 (a & Ea & Ha) (b & Eb & Hb). exists (a ++ b). rewrite Eb, Ea, app_assoc.
    split; [done|by apply Forall_app].
  - intros w s. exists []. rewrite app_nil_r. by repeat constructor.
  - intros v x s. exists [Observed v x]. by repeat constructor.
  - intros e r s. unfold swap. destruct (compare_and_swap e r (journal s)) as [j [u|x]].
    + exists [Journaled r]. by repeat constructor.
    + exists []. rewrite app_nil_r. by repeat constructor.
Qed.

(** ** The journal's growth *)

Definition journaled (l : list effect) : list WeightPublicationRecord :=
  omap (fun x => match x with Journaled r => Some r | _ => None end) l.

(** The log grew by exactly the journaled records, and is still a chain. *)
Definition logged {W J : Type} `{JournalLaws J} (s s' : env W J) : Prop :=
  exists new, effects s' = effects s ++ new /\
    forall log, journal_abs (journal s) log ->
      journal_abs (journal s') (log ++ journaled new) /\ (chained log -> chained (log ++ journaled new)).

#[export] Instance logged_steps {W J : Type} `{JournalLaws J} : StepRelation (@logged W J _ _).
Proof.
  assert (Hnone : forall s s' : env W J, effects s' = effects s -> journal s' = journal s -> logged s s').
  { intros s s' E Ej. exists []. rewrite app_nil_r, Ej. split; [done|]. intros log Hlog. by rewrite app_nil_r. }
  split.
  - split; [intros s; by apply Hnone|].
    intros s1 s2 s3 (a & Ea & La) (b & Eb & Lb). exists (a ++ b).
    split; [by rewrite Eb, Ea, app_assoc|]. intros log [Ha Ca]%La. apply Lb in Ha as [Hb Cb].
    unfold journaled in *. rewrite omap_app, app_assoc. split; [done|auto].
  - intros w s. by apply Hnone.
  - intros v x s. exists [Observed v x]. split; [done|]. intros log Hlog. by rewrite app_nil_r.
  - intros e r s. unfold swap. destruct (compare_and_swap e r (journal s)) as [j [u|x]] eqn:E.
    + exists [Journaled r]. split; [done|]. intros log Hlog. pose proof (swap_appends _ _ _ _ _ _ Hlog E) as (L & _).
      split; [done|]. by apply (swap_chained _ _ _ _ _ _ Hlog E).
    + apply swap_refused in E as ->. by apply Hnone.
Qed.
