(* ===== verification/ReconcileContracts.v ===== *)
(** * Contracts of the publication programs

    When the signer is called and what is journaled around the call; what a
    confirmation rests on; and that the journal stays one chain of records,
    whatever the chain client answers. *)

From S2P Require Import Prelude PyVal Dict Identity Effects Floats Publication Chain Journal Reconcile ReconcileTrace.

Open Scope Z_scope.

(** ** Views and vectors *)

Section Views.
Context {W : Type} (subtensor : Subtensor W).

Lemma point_block b w w' point :
  _weight_finalized_point subtensor (Some b) w = (w', Ok point) -> point.1 = b.
Proof.
  unfold _weight_finalized_point, reraise. intros [H|(? & e & k & _ & Hk & H)]%catch_run.
  - inv_run. unfold _weight_uint in *. repeat case_match; by simplify_eq.
  - case_bool_decide; by simplify_eq.
Qed.

Lemma view_block n b hash w w' v :
  _finalized_metagraph_view subtensor n b hash w = (w', Ok v) -> mv_block v = b /\ mv_netuid v = n.
Proof. unfold _finalized_metagraph_view. intros H. by inv_run. Qed.

Lemma fetch_block n b w w' v : fetch_metagraph subtensor n (Some b) w = (w', Ok v) -> mv_block v = b.
Proof.
  unfold fetch_metagraph. intros H. inv_run.
  match goal with H : _weight_finalized_point _ _ _ = _ |- _ => apply point_block in H as <- end.
  apply catch_run in H as [H|(? & e & k & _ & Hk & H)]; [|by repeat case_match; simplify_eq].
  inv_run. by match goal with H : _finalized_metagraph_view _ _ _ _ _ = _ |- _ => apply view_block in H as [? _] end.
Qed.

Lemma reopen_block n v w w' v' : _reopen_metagraph_view subtensor n v w = (w', Ok v') -> mv_block v' = mv_block v.
Proof.
  unfold _reopen_metagraph_view. intros H. inv_run.
  by match goal with H : fetch_metagraph _ _ _ _ = _ |- _ => apply fetch_block in H end.
Qed.
End Views.

(** ** One signature at most, after its intent *)

Section Signing.
Context {W J : Type} `{WeightPublicationJournal J} (subtensor : Subtensor W).
Implicit Types (s : env W J) (p : WeightProjection).

Lemma wp_on_chain {A} (m : ST W A) (Q : env W J -> result A -> Prop) s :
  (forall w r, m (world s) = (w, r) -> Q (mkEnv w (journal s) (effects s)) r) -> wp (on_chain m) Q s.
Proof. intros HQ. unfold wp, on_chain, zoom. destruct (m (world s)) as [w r] eqn:E. by apply HQ. Qed.

(** The vector that [p] gives on a finalized view at [block]. *)
Definition vector_at p (block : Z) (uids : list Z) (vector : list float) : Prop :=
  exists view, mv_block view = block /\ weights_to_uid_vector (projection_weights p) view = Ok (uids, vector).

Lemma set_weights_trace p v :
  forall s, wp (set_weights subtensor (netuid p) (projection_weights p) false v)
    (fun s' r => journal s' = journal s /\ (effects s' = effects s /\ (forall x, r = Ok x -> submitted x = false) \/
       exists uids vector, effects s' = effects s ++ [Signed (mv_block v) uids vector] /\
         vector_at p (mv_block v) uids vector)) s.
Proof.
  intros s. unfold set_weights. wp_step. apply wp_on_chain. intros w1 [version|e] _; [|by split; [|left]].
  wp_step. apply wp_on_chain. intros w2 [view|e] Hv; [|by split; [|left]]. cbn in Hv. apply reopen_block in Hv as <-.
  wp_step. wp_step. destruct (weights_to_uid_vector _ view) as [[uids vector]|e] eqn:Hvec; [|by split; [|left]].
  destruct uids as [|u uids]; [wp_step; split; [done|left; split; [done|by intros x [= <-]]]|]. cbn [fst snd].
  wp_step. unfold sign. wp_step. wp_step. apply wp_on_chain. intros w3 [outcome|e] _; cbn.
  - wp_step. wp_step. destruct (_extrinsic_outcome outcome); [wp_step|]; cbn.
    all: split; [done|]; right; eexists _, _; split; [done|]; by exists view.
  - split; [done|]; right; eexists _, _; split; [done|]; by exists view.
Qed.

Lemma new_record_run r s s' r' : new_record r s = (s', Ok r') -> s' = s /\ r' = r.
Proof. unfold new_record, of_result. intros [= <- E%rebuild_same]. done. Qed.

Lemma swap_run e r s s' u : swap e r s = (s', Ok u) -> effects s' = effects s ++ [Journaled r].
Proof. unfold swap. destruct (compare_and_swap e r (journal s)) as [j [x|x]]; naive_solver. Qed.

(** An advance journals the replacement it returns, linked to the head it was given. *)
Lemma advance_journals c r s s' r' :
  _advance c r s = (s', Ok r') ->
  effects s' = effects s ++ [Journaled r'] /\ exists o, r' = with_prior o r.
Proof.
  unfold _advance. intros Hrun. inv_run.
  - match goal with H : swap _ _ _ = _ |- _ => apply swap_run in H end. split; [done|]. exists (w_prior r'). by destruct r'.
  - match goal with H : swap _ _ _ = _ |- _ => apply swap_run in H end.
    match goal with H : new_record _ _ = _ |- _ => apply new_record_run in H as [-> ->] end. by eauto.
Qed.

(** One call of the signer, immediately after the intent that names its block was journaled. *)
Definition signed_once p (allowed : Prop) (new : list effect) : Prop :=
  exists before intent uids vector after,
    new = before ++ [Journaled intent; Signed (submit_block intent) uids vector] ++ after /\
    unsigned before /\ unsigned after /\ w_status intent = p_intent /\
    projection_digest p = Ok (w_projection intent) /\ vector_at p (submit_block intent) uids vector /\ allowed.

Definition disciplined p (allowed : Prop) s s' : Prop :=
  exists new, effects s' = effects s ++ new /\ (unsigned new \/ signed_once p allowed new).

Lemma quiet_disciplined p allowed s s' : quiet s s' -> disciplined p allowed s s'.
Proof. intros (new & E & U). exists new. eauto. Qed.

Lemma quiet_then p allowed s1 s2 s3 : quiet s1 s2 -> disciplined p allowed s2 s3 -> disciplined p allowed s1 s3.
Proof.
  intros (a & Ea & Ua) (b & Eb & Hb). exists (a ++ b). rewrite Eb, Ea, app_assoc. split; [done|].
  destruct Hb as [Ub|(pre & i & u & v & post & -> & Upre & Hrest)]; [left; by apply Forall_app|].
  right. exists (a ++ pre), i, u, v, post. rewrite !app_assoc. split; [done|]. split; [by apply Forall_app|done].
Qed.

Lemma then_quiet p allowed s1 s2 s3 : disciplined p allowed s1 s2 -> quiet s2 s3 -> disciplined p allowed s1 s3.
Proof.
  intros (a & Ea & Ha) (b & Eb & Ub). exists (a ++ b). rewrite Eb, Ea, app_assoc. split; [done|].
  destruct Ha as [Ua|(pre & i & u & v & post & -> & Upre & Upost & Hrest)]; [left; by apply Forall_app|].
  right. exists pre, i, u, v, (post ++ b). rewrite <- !app_assoc. split; [done|]. split; [done|].
  split; [by apply Forall_app|done].
Qed.

(** Quiet steps first, then a disciplined rest that may use the state they reached. *)
Lemma disciplined_bind {A B} p allowed (m : ST (env W J) A) (f : A -> ST (env W J) B) s :
  keeps quiet m -> (forall s' a, m s = (s', Ok a) -> disciplined p allowed s' (f a s').1) ->
  disciplined p allowed s ((m ≫= f) s).1.
Proof.
  intros Hm Hf. specialize (Hm s). unfold mbind, ST_bind. destruct (m s) as [s' [a|e]] eqn:E.
  - eapply quiet_then; [exact Hm|by apply Hf].
  - by apply quiet_disciplined.
Qed.

Lemma attempt_trace p v s :
  wp (attempt subtensor p v) (fun s' r => effects s' = effects s \/
    exists uids vector, effects s' = effects s ++ [Signed (mv_block v) uids vector] /\ vector_at p (mv_block v) uids vector) s.
Proof.
  unfold attempt. apply wp_catch, wp_bind. eapply wp_mono; [|apply set_weights_trace].
  intros s' [x|e] [_ [[Hs _]|Hs]]; (by left) || by right.
Qed.

Lemma sign_and_submit_disciplined p o v c (allowed : Prop) s :
  allowed -> disciplined p allowed s (sign_and_submit subtensor p o v c s).1.
Proof.
  intros Hall. unfold sign_and_submit. cbv zeta.
  apply disciplined_bind; [apply keeps_of_result; typeclasses eauto|]. intros s1 digest [= <- Hdigest].
  apply disciplined_bind; [apply keeps_of_result; typeclasses eauto|]. intros s1 r [-> ->]%new_record_run.
  unfold mbind at 1, ST_bind at 1. set (r := in_flight_record _ _ _ _ _ _).
  destruct (_advance c r s) as [s1 [intent|e]] eqn:Ea.
  2: { apply quiet_disciplined. pose proof (advance_keeps quiet c r s) as Hq. by rewrite Ea in Hq. }
  apply advance_journals in Ea as (E1 & prior & ->).
  unfold mbind at 1, ST_bind at 1. pose proof (attempt_trace p v s1) as Ht. unfold wp in Ht.
  destruct (attempt subtensor p v s1) as [s2 tried] eqn:Et. cbn [fst snd] in Ht.
  assert (Hd : disciplined p allowed s s2).
  { destruct Ht as [E2|(uids & vector & E2 & Hv)].
    - apply quiet_disciplined. exists [Journaled (with_prior prior r)]. rewrite E2, E1. by repeat constructor.
    - exists [Journaled (with_prior prior r); Signed (mv_block v) uids vector]. rewrite E2, E1, <- app_assoc.
      split; [done|]. right. exists [], (with_prior prior r), uids, vector, []. by repeat constructor. }
  destruct tried as [tried|e]; [|exact Hd].
  eapply then_quiet; [exact Hd|]. apply keeps_bind; [typeclasses eauto|apply keeps_of_result; typeclasses eauto|intros ?].
  apply keeps_bind; [typeclasses eauto|by apply advance_keeps; typeclasses eauto|intros ?].
  apply after_submission_keeps; typeclasses eauto.
Qed.

(** ** What a signature rests on *)

(** A held attempt that finalized state shows never reached the chain: its wait is over, the validator's row
    is older than the attempt, and none of its commits is outstanding. *)
Definition abandoned p (c : WeightPublicationRecord) : Prop :=
  w_status c = p_held /\ confirmed_block c = 0 /\ submit_block c <> 0 /\
  exists block snapshot w w' commits,
    retry_after_block c <= block /\ last_update_block snapshot < submit_block c /\
    get_timelocked_weight_commits subtensor (netuid p) block w = (w', Ok commits) /\ p_validator p ∉ commits.

Definition head_resolved p s : Prop :=
  load (journal s) = Ok None \/
  exists c, load (journal s) = Ok (Some c) /\ (w_status c = p_confirmed \/ w_status c = p_released \/ abandoned p c).

Definition may_sign p o (signer : option string) s : Prop :=
  is_dry_run o = false /\ reconcile_only o = false /\ signer = Some (p_validator p) /\ head_resolved p s.

Lemma check_options_run o signer s s' u : check_options o signer s = (s', Ok u) -> s' = s.
Proof. unfold check_options. intros Hrun. by inv_run. Qed.

Lemma check_signer_run p o signer b s s' u : check_signer p o signer b s = (s', Ok u) -> signer = Some (p_validator p).
Proof.
  unfold check_signer. destruct signer as [hotkey|]; intros Hrun; inv_run.
  by match goal with H : negb (String.eqb _ _) = false |- _ => apply negb_false_iff, String.eqb_eq in H as -> end.
Qed.

Lemma open_authority_current p o s s' a :
  is_dry_run o = false -> open_authority subtensor p o s = (s', Ok a) -> load (journal s) = Ok (a_current a).
Proof.
  unfold open_authority. intros -> Hrun. apply bind_run in Hrun as (s1 & current & Hload & Hrun).
  unfold load_head in Hload. injection Hload as <- Hload. rewrite Hload. f_equal.
  inv_run; by subst.
Qed.

Lemma absent_abandoned p c x b s s' :
  w_status c = p_held -> _attempt_absent_from_chain subtensor p c x b s = (s', Ok true) -> abandoned p c.
Proof.
  unfold _attempt_absent_from_chain. intros Hst Hrun. inv_run.
  match goal with H : (_ || _) = false |- _ =>
    rewrite !orb_false_iff, negb_false_iff, Z.eqb_eq, Z.eqb_neq, Z.ltb_ge, Z.leb_gt in H; destruct H as [[[Hc Hs] Hw] Hl] end.
  match goal with H : on_chain (get_timelocked_weight_commits _ _ _) _ = _ |- _ => rename H into Hcommits end.
  match goal with H : forallb _ _ = true |- _ => rename H into Hnone end.
  unfold on_chain, zoom in Hcommits. destruct (get_timelocked_weight_commits _ _ _ _) as [w' r] eqn:Ec.
  injection Hcommits as _ ->. do 3 (split; [done|]). exists b, x, (world s), w'. eexists. do 3 (split; [done|]).
  intros Hin. rewrite forallb_forall in Hnone. apply list_elem_of_In, Hnone, negb_true_iff, String.eqb_neq in Hin. done.
Qed.

Lemma release_hold_run why s s' r : release_weight_publication_hold why s = (s', Ok r) -> w_status r = p_released.
Proof.
  unfold release_weight_publication_hold. intros Hrun. destruct (_ || _); [discriminate|].
  apply bind_run in Hrun as (s1 & [c|] & _ & Hrun); [|discriminate]. destruct (negb _); [discriminate|].
  apply bind_run in Hrun as (s2 & r0 & [-> ->]%new_record_run & (_ & prior & ->)%advance_journals). done.
Qed.

Lemma release_absent_run p a s s' current :
  release_absent subtensor p a s = (s', Ok current) ->
  current = a_current a \/
  exists c, a_current a = Some c /\ abandoned p c /\ exists c', current = Some c' /\ w_status c' = p_released.
Proof.
  unfold release_absent. destruct (a_current a) as [c|]; intros Hrun; inv_run; try by left.
  right. exists c. split; [done|]. split.
  - eapply absent_abandoned; [|done]. by apply bool_decide_eq_true, list_elem_of_singleton in Eb.
  - eexists. split; [done|]. by eapply release_hold_run.
Qed.

Lemma publish_disciplined p o signer a current (allowed : Prop) s :
  (signer = Some (p_validator p) -> allowed) -> disciplined p allowed s (publish subtensor p o signer a current s).1.
Proof.
  intros Hall. unfold publish.
  apply disciplined_bind; [apply check_signer_keeps; typeclasses eauto|]. intros s1 u Hs%check_signer_run.
  apply disciplined_bind; [apply signing_view_keeps; typeclasses eauto|]. intros s2 view _.
  apply disciplined_bind; [apply recheck_keeps; typeclasses eauto|]. intros s3 settled _.
  destruct settled.2; [by apply quiet_disciplined, (keeps_ret quiet)|].
  apply disciplined_bind; [apply rate_limit_keeps; typeclasses eauto|]. intros s4 v _.
  apply sign_and_submit_disciplined. auto.
Qed.

(** C5: reconciling never signs over an open question. Whatever the chain client answers and however the run
    ends, the signer is called at most once; it is called directly after an [intent] for this projection
    was journaled at the very block whose finalized uid mapping gives the signed vector; and only when
    neither dry-run nor reconcile-only was asked for, the wallet is the projection's validator, and the
    journal's head was absent, confirmed, released, or a held attempt that finalized state shows was
    never included. *)
Theorem signing_discipline (signer : option string) p o s s' r :
  reconcile_weight_publication subtensor signer p o s = (s', r) -> disciplined p (may_sign p o signer s) s s'.
Proof.
  intros Hrun. change s' with (s', r).1. rewrite <- Hrun. clear Hrun. unfold reconcile_weight_publication.
  apply disciplined_bind; [apply options_keeps; typeclasses eauto|]. intros s1 u ->%check_options_run.
  apply disciplined_bind; [apply open_authority_keeps; typeclasses eauto|]. intros s1 a Ha.
  destruct (is_dry_run o) eqn:Hdry.
  { apply quiet_disciplined. apply keeps_bind; [typeclasses eauto|apply dry_set_weights_keeps; typeclasses eauto|].
    intros _. unfold new_result. solve_keeps. }
  destruct (reconcile_only o) eqn:Hro; [apply quiet_disciplined, readback_keeps; typeclasses eauto|].
  apply open_authority_current in Ha; [|done].
  apply disciplined_bind; [apply release_absent_keeps; typeclasses eauto|]. intros s2 current Hcur%release_absent_run.
  assert (Hpub : match current with Some c => status_in c [p_intent; p_pending; p_held] = false | None => True end ->
    disciplined p (may_sign p o signer s) s2
      ((settled ← settle_resolved p o a current;
        match settled with Some r => mret r | None => publish subtensor p o signer a current end) s2).1).
  { intros Hst. apply disciplined_bind; [apply resolved_keeps; typeclasses eauto|]. intros s3 [settled|] _.
    - by apply quiet_disciplined, (keeps_ret quiet).
    - apply publish_disciplined. intros Hsigner. split_and!; [done..|]. unfold head_resolved. rewrite Ha.
      destruct Hcur as [<-|(c & -> & Hc & _)]; [|right; by eauto]. destruct current as [c|]; [right|by left].
      exists c. split; [done|]. unfold status_in in Hst. destruct (w_status c); (done || auto). }
  destruct current as [c|]; [|by apply Hpub].
  destruct (status_in c [p_intent; p_pending; p_held]) eqn:Hst; [|by apply Hpub].
  apply quiet_disciplined, unresolved_keeps; typeclasses eauto.
Qed.

(** ** What a confirmation rests on *)

(** A record of this projection, confirmed at the block of [view] by the row of [snapshot]. *)
Definition confirmed_at p (view : MetagraphView) (snapshot : ValidatorWeightSnapshot) (rec : WeightPublicationRecord) : Prop :=
  w_status rec = p_confirmed /\ projection_digest p = Ok (w_projection rec) /\
  confirmed_block rec = mv_block view /\ confirmed_last_update rec = last_update_block snapshot /\
  submit_block rec <= last_update_block snapshot <= mv_block view.

Definition not_inclusion (why : string) : bool := negb (String.eqb why "block_inclusion").

Lemma confirm_run p current att (view : MetagraphView) snapshot why s s' rec :
  confirm p current att (mv_block view) (last_update_block snapshot) why s = (s', Ok rec) -> not_inclusion why = true ->
  effects s' = effects s ++ [Journaled rec] /\ confirmed_at p view snapshot rec.
Proof.
  unfold confirm. intros Hrun Hwhy. inv_run.
  match goal with H : projection_digest p = Ok _ |- _ => rename H into Hd end.
  match goal with H : new_record _ _ = _ |- _ => rename H into Hr; pose proof Hr as [-> ->]%new_record_run end.
  apply advance_journals in Hrun as (E & prior & ->). split; [done|].
  unfold new_record, of_result in Hr. injection Hr as Hr. apply rebuilt_confirmed in Hr; [|done|].
  - unfold confirmed_at. cbn in *. naive_solver lia.
  - cbn. unfold not_inclusion in Hwhy. by apply negb_true_iff, String.eqb_neq in Hwhy.
Qed.

Lemma finish_run p st rec m sub b d s s' r :
  finish_with p st rec m sub b d s = (s', Ok r) ->
  s' = s /\ o_status r = Published st /\ o_record r = Some rec /\ observed_block r = b /\ projection_digest p = Ok (o_projection r).
Proof.
  unfold finish_with, new_result. intros Hrun. inv_run. unfold make_result in *.
  match goal with H : _ = Ok r |- _ => rename H into Hr end. apply bind_Ok in Hr as (u & _ & Hr). step_guard Hr.
  injection Hr as <-. done.
Qed.

(** A confirmed result: the row matched, and the record is the head or was confirmed by that row. *)
Definition settles p (head : option WeightPublicationRecord) (r : WeightPublicationResult) (view : MetagraphView)
    (snapshot : ValidatorWeightSnapshot) s s' : Prop :=
  o_status r = Published p_confirmed ->
  _matches snapshot p = true /\ observed_block r = mv_block view /\
  exists rec, o_record r = Some rec /\ w_status rec = p_confirmed /\ projection_digest p = Ok (w_projection rec) /\
    (head = Some rec \/ effects s' = effects s ++ [Journaled rec] /\ confirmed_at p view snapshot rec).

Lemma same_run p c s s' b :
  same_projection p c s = (s', Ok b) -> s' = s /\ (b = true -> projection_digest p = Ok (w_projection c)).
Proof. unfold same_projection. intros Hrun. inv_run. split; [done|]. by intros ->%String.eqb_eq. Qed.

(** Confirming and finishing settles by the row that was compared. *)
Lemma confirm_settles p head current att view snapshot why m sub d s s' r :
  (rec ← confirm p current att (mv_block view) (last_update_block snapshot) why;
   finish_with p p_confirmed rec m sub (mv_block view) d) s = (s', Ok r) ->
  not_inclusion why = true -> _matches snapshot p = true -> settles p head r view snapshot s s'.
Proof.
  intros Hrun Hwhy Hm _. inv_run.
  match goal with H : confirm _ _ _ _ _ _ _ = _ |- _ => apply confirm_run in H as [E Hc]; [|done] end.
  apply finish_run in Hrun as (-> & _ & Hrec & Hb & _). split_and!; [done..|].
  pose proof Hc as (Hst & Hd & _). eexists. split_and!; [done..|]. by right.
Qed.

Lemma finish_settles p c view snapshot m sub d s s' r :
  finish_with p p_confirmed c m sub (mv_block view) d s = (s', Ok r) ->
  w_status c = p_confirmed -> projection_digest p = Ok (w_projection c) -> _matches snapshot p = true ->
  settles p (Some c) r view snapshot s s'.
Proof.
  intros (-> & _ & Hrec & Hb & _)%finish_run Hst Hd Hm _. split_and!; [done..|]. exists c. split_and!; [done..|by left].
Qed.

Lemma finish_other p st head rec m sub b d view snapshot s0 s s' r :
  finish_with p st rec m sub b d s = (s', Ok r) -> st <> p_confirmed -> settles p head r view snapshot s0 s'.
Proof. intros (_ & E & _)%finish_run Hst Hr. congruence. Qed.

Lemma status_in_one c st : status_in c [st] = true -> w_status c = st.
Proof. unfold status_in. by intros Hst%bool_decide_eq_true%list_elem_of_singleton. Qed.

Lemma readback_settles p o a s s' r :
  reconcile_readback p o a s = (s', Ok r) -> settles p (a_current a) r (a_live a) (a_pre a) s s'.
Proof.
  unfold reconcile_readback. cbv zeta. destruct (a_current a) as [c|]; [|discriminate]. intros Hrun.
  destruct (negb (status_in c _)); [discriminate|]. destruct (_ && negb _); [discriminate|].
  destruct (status_in c [p_pending]).
  - apply bind_run in Hrun as (s1 & same & [-> Hsame]%same_run & Hrun). destruct (negb same); [discriminate|].
    destruct (_matches _ _) eqn:Hm; [|discriminate]. destruct (_ || _); [discriminate|].
    by eapply confirm_settles.
  - destruct (_matches _ _) eqn:Hm; [|discriminate]. cbn [negb] in Hrun.
    destruct (_ && _); [discriminate|]. destruct (due _ _ _); [discriminate|].
    apply bind_run in Hrun as (s1 & same & [-> Hsame]%same_run & Hrun).
    destruct (_ && same) eqn:Hc; [|by eapply confirm_settles].
    apply andb_true_iff in Hc as [Hc ->]. eapply finish_settles; [done|by apply status_in_one|by apply Hsame|done].
Qed.

Lemma unresolved_settles p o a c s s' r :
  w_status c <> p_confirmed ->
  settle_unresolved p o a c s = (s', Ok r) -> settles p (a_current a) r (a_live a) (a_pre a) s s'.
Proof.
  intros Hst. unfold settle_unresolved. cbv zeta. intros Hrun.
  apply bind_run in Hrun as (s1 & same & [-> Hsame]%same_run & Hrun).
  destruct (negb same); [apply bind_run in Hrun as (? & ? & _ & Hrun); by eapply finish_other|].
  destruct (status_in c _); [by eapply finish_other|].
  destruct (negb _); [apply bind_run in Hrun as (? & ? & _ & Hrun); by eapply finish_other|].
  destruct (_matches _ _ && _) eqn:Hm; [apply andb_true_iff in Hm as [Hm _]; by eapply confirm_settles|].
  destruct (_ <? _); [by eapply finish_other|]. apply bind_run in Hrun as (? & ? & _ & Hrun). by eapply finish_other.
Qed.

Lemma resolved_settles p o a current s s' r :
  settle_resolved p o a current s = (s', Ok (Some r)) -> settles p current r (a_live a) (a_pre a) s s'.
Proof.
  unfold settle_resolved. cbv zeta. intros Hrun. destruct (_matches (a_pre a) p) eqn:Hm; cbn [andb negb] in Hrun.
  - destruct current as [c|].
    + destruct (status_in c [p_confirmed]) eqn:Hst.
      * apply bind_run in Hrun as (s1 & same & [-> Hsame]%same_run & Hrun). rewrite andb_false_r in Hrun.
        destruct (negb _); [|by inv_run]. destruct same.
        -- apply bind_run in Hrun as (s1 & ? & [= <- <-] & Hrun). apply fmap_run in Hrun as (? & Hrun & [= ->]).
           eapply finish_settles; [done|by apply status_in_one|by apply Hsame|done].
        -- apply bind_run in Hrun as (s1 & rec & Hconf & Hrun). apply fmap_run in Hrun as (? & Hrun & [= ->]).
           eapply confirm_settles; [unfold mbind, ST_bind; by rewrite Hconf|done|done].
      * destruct (_ && _); [|by inv_run].
        apply bind_run in Hrun as (s1 & rec & Hconf & Hrun). apply fmap_run in Hrun as (? & Hrun & [= ->]).
        eapply confirm_settles; [unfold mbind, ST_bind; by rewrite Hconf|done|done].
    + destruct (negb _); [|by inv_run].
      apply bind_run in Hrun as (s1 & rec & Hconf & Hrun). apply fmap_run in Hrun as (? & Hrun & [= ->]).
      eapply confirm_settles; [unfold mbind, ST_bind; by rewrite Hconf|done|done].
  - destruct current as [c|]; [|by inv_run]. destruct (status_in c [p_confirmed]).
    + apply bind_run in Hrun as (s1 & same & _ & Hrun). rewrite andb_true_r in Hrun. destruct same; [|by inv_run].
      apply bind_run in Hrun as (? & ? & _ & Hrun). apply fmap_run in Hrun as (? & Hrun & [= ->]). by eapply finish_other.
    + rewrite andb_false_r in Hrun. by inv_run.
Qed.

(** A confirmed result together with the observation, within this run, that it rests on. *)
Definition backed p (head : option WeightPublicationRecord) (r : WeightPublicationResult) s s' : Prop :=
  o_status r = Published p_confirmed ->
  exists view snapshot rec new,
    effects s' = effects s ++ new /\ Observed view snapshot ∈ new /\ last_update_block snapshot <= mv_block view /\
    _matches snapshot p = true /\ observed_block r = mv_block view /\
    o_record r = Some rec /\ w_status rec = p_confirmed /\ projection_digest p = Ok (w_projection rec) /\
    (head = Some rec \/ Journaled rec ∈ new /\ confirmed_at p view snapshot rec).

Lemma settles_backed p head r view snapshot s s1 s' :
  (exists new, effects s1 = effects s ++ new /\ Observed view snapshot ∈ new) ->
  last_update_block snapshot <= mv_block view ->
  (exists new, effects s' = effects s1 ++ new) ->
  settles p head r view snapshot s1 s' -> backed p head r s s'.
Proof.
  intros (a & Ea & Hobs) Hle (b & Eb) Hset Hr. destruct (Hset Hr) as (Hm & Hb & rec & Hrec & Hst & Hd & Hhow).
  exists view, snapshot, rec, (a ++ b). rewrite Eb, Ea, app_assoc. split_and!; try done; [set_solver|].
  destruct Hhow as [Hh|[E Hc]]; [by left|right]. split; [|done].
  rewrite Eb in E. apply app_inv_head in E as ->. set_solver.
Qed.

Lemma backed_before p head r s s1 s' :
  (exists new, effects s1 = effects s ++ new) -> backed p head r s1 s' -> backed p head r s s'.
Proof.
  intros (a & Ea) Hb Hr. destruct (Hb Hr) as (view & snapshot & rec & new & E & Hobs & Hle & Hm & Hblk & Hrec & Hst & Hd & Hhow).
  exists view, snapshot, rec, (a ++ new). rewrite E, Ea, app_assoc. split_and!; try done; [set_solver|].
  destruct Hhow as [?|[? ?]]; [by left|right]. split; [set_solver|done].
Qed.

Lemma observe_run p v s s' x : observe subtensor p v s = (s', Ok x) -> effects s' = effects s ++ [Observed v x].
Proof.
  unfold observe. intros Hrun. inv_run. unfold emit, update in *.
  match goal with H : on_chain _ _ = _ |- _ => unfold on_chain, zoom in H; destruct (read_validator_weight_snapshot _ _ _ _ _); injection H as <- ? end.
  by match goal with H : (mkEnv _ _ _, Ok tt) = _ |- _ => injection H as <- end.
Qed.

Lemma quiet_grows s s' : quiet s s' -> exists new, effects s' = effects s ++ new.
Proof. intros (new & E & _). eauto. Qed.

Lemma keeps_run {A} (m : ST (env W J) A) s s' x : keeps quiet m -> m s = (s', x) -> exists new, effects s' = effects s ++ new.
Proof. intros Hm E. specialize (Hm s). rewrite E in Hm. by apply quiet_grows. Qed.

Lemma recheck_backed p o a v current s s' cur r :
  recheck subtensor p o a v current s = (s', Ok (cur, Some r)) -> backed p current r s s'.
Proof.
  unfold recheck. cbv zeta. destruct (_ <=? _); [by intros Hrun; inv_run|]. intros Hrun.
  apply bind_run in Hrun as (s1 & pre & Hobs%observe_run & Hrun).
  destruct (Z.ltb_spec (mv_block v) (last_update_block pre)) as [|Hle]; [discriminate|].
  destruct (_matches pre p) eqn:Hm; [|by inv_run]. destruct (negb _); [|by inv_run]. cbn [andb] in Hrun.
  apply bind_run in Hrun as (s2 & cur' & Hcur & Hrun). destruct cur' as [c|]; [|by inv_run].
  apply bind_run in Hrun as (s3 & same & [-> Hsame]%same_run & Hrun).
  destruct (_ && same) eqn:Hc; [|by inv_run]. apply andb_true_iff in Hc as [Hst%status_in_one ->].
  apply bind_run in Hrun as (s4 & r' & (-> & Hr & Hrec & Hb & _)%finish_run & Hrun). injection Hrun as <- <- <-.
  intros _.
  assert (Hhow : (effects s2 = effects s1 /\ current = Some c) \/ effects s2 = effects s1 ++ [Journaled c] /\ confirmed_at p v pre c).
  { destruct current as [c0|].
    - apply bind_run in Hcur as (s5 & same & [-> _]%same_run & Hcur).
      destruct (_ && negb same); [|destruct (_ && _); [|by (left; inv_run)]];
        apply fmap_run in Hcur as (? & Hconf & [= ->]); right; by eapply confirm_run.
    - apply fmap_run in Hcur as (? & Hconf & [= ->]). right. by eapply confirm_run. }
  destruct Hhow as [[E ->]|[E Hconf]].
  - exists v, pre, c, [Observed v pre]. rewrite E, Hobs. split_and!; try done; [set_solver|by apply Hsame|by left].
  - exists v, pre, c, [Observed v pre; Journaled c]. rewrite E, Hobs, <- app_assoc.
    split_and!; try done; [set_solver|by apply Hsame|]. right. split; [set_solver|done].
Qed.

Lemma post_readback_run p v pending sub s s' post x :
  post_readback subtensor p v pending sub s = (s', Ok (inr (post, x))) ->
  exists new, effects s' = effects s ++ new /\ Observed post x ∈ new /\ last_update_block x <= mv_block post.
Proof.
  unfold post_readback. intros Hrun.
  apply bind_run in Hrun as (s1 & post' & Hf & Hrun).
  apply (keeps_run _ _ _ _ (on_chain_keeps quiet _)) in Hf as (n1 & E1).
  apply bind_run in Hrun as (s2 & changed & Hc & Hrun).
  match type of Hc with ?m _ = _ => assert (Hq : keeps quiet m) by solve_keeps end.
  apply (keeps_run _ _ _ _ Hq) in Hc as (n2 & E2).
  destruct changed; [discriminate|]. destruct (negb _).
  { apply bind_run in Hrun as (? & ? & _ & Hrun). apply fmap_run in Hrun as (? & _ & Hrun). discriminate. }
  apply bind_run in Hrun as (s3 & y & Hobs%observe_run & Hrun).
  destruct (Z.ltb_spec (mv_block post') (last_update_block y)) as [|Hle]; [discriminate|]. cbn [orb] in Hrun.
  destruct (_ <? _); [discriminate|]. injection Hrun as <- <- <-.
  exists (n1 ++ n2 ++ [Observed post' y]). rewrite Hobs, E2, E1, <- !app_assoc. split_and!; [done|set_solver|done].
Qed.

Lemma post_readback_held p v pending sub s s' r :
  post_readback subtensor p v pending sub s = (s', Ok (inl r)) -> o_status r = Published p_held.
Proof.
  unfold post_readback. intros (s1 & post & _ & Hrun)%bind_run. apply bind_run in Hrun as (s2 & changed & _ & Hrun).
  destruct changed; [discriminate|]. destruct (negb _).
  - apply bind_run in Hrun as (s3 & rec & _ & Hrun). apply fmap_run in Hrun as (r' & (_ & E & _)%finish_run & [= ->]). done.
  - apply bind_run in Hrun as (s3 & y & _ & Hrun). destruct (_ || _); discriminate.
Qed.

(** The readback's answer came from the body of the [try]. *)
Lemma try_readback_run p v pending sub s s' x :
  try_readback subtensor p v pending sub s = (s', Ok (Some x)) -> post_readback subtensor p v pending sub s = (s', Ok x).
Proof.
  unfold try_readback. intros [Hback|(? & e & k & _ & Hk & Hback)]%catch_run; [|by repeat case_match; simplify_eq].
  by apply fmap_run in Hback as (? & Hback & [= ->]).
Qed.

Lemma after_submission_backed p o v pending sub s s' r :
  after_submission subtensor p o v pending sub s = (s', Ok r) -> backed p None r s s'.
Proof.
  unfold after_submission. cbv zeta. intros Hrun. apply bind_run in Hrun as (s1 & readback & Hback & Hrun).
  destruct readback as [[held|[post x]]|].
  - apply try_readback_run, post_readback_held in Hback. injection Hrun as <- <-. intros Hst. congruence.
  - apply try_readback_run, post_readback_run in Hback as (new & E & Hobs & Hle). eapply settles_backed; [by eauto|done|..].
    + eapply keeps_run; [|exact Hrun]. solve_keeps.
    + destruct (_matches x p) eqn:Hm; cbn [andb] in Hrun; [|by eapply finish_other].
      destruct (_ <=? _); [by eapply confirm_settles|by eapply finish_other].
  - intros Hst. apply bind_run in Hrun as (? & ? & _ & (_ & E & _)%finish_run). congruence.
Qed.

(** Running [m] first only adds effects. *)
Lemma backed_bind {A} p head (m : ST (env W J) A) s s1 x s' r :
  keeps quiet m -> m s = (s1, x) -> backed p head r s1 s' -> backed p head r s s'.
Proof. intros Hm E. by apply backed_before, (keeps_run m _ _ x). Qed.

Lemma backed_none p head r s s' : backed p None r s s' -> backed p head r s s'.
Proof.
  intros Hb Hr. destruct (Hb Hr) as (view & snapshot & rec & new & Hrest). exists view, snapshot, rec, new. naive_solver.
Qed.

Lemma sign_and_submit_backed p o v current head s s' r :
  sign_and_submit subtensor p o v current s = (s', Ok r) -> backed p head r s s'.
Proof.
  unfold sign_and_submit. cbv zeta. intros Hrun. apply backed_none.
  apply bind_run in Hrun as (s1 & digest & Hd & Hrun). injection Hd as <- Hd.
  apply bind_run in Hrun as (s1 & r1 & [-> ->]%new_record_run & Hrun).
  apply bind_run in Hrun as (s1 & intent & Hint & Hrun).
  eapply backed_bind; [|exact Hint|]; [by solve_keeps|]. clear Hint.
  apply bind_run in Hrun as (s2 & tried & Htried & Hrun).
  pose proof (attempt_trace p v s1) as Ht. unfold wp in Ht. rewrite Htried in Ht. cbn [fst snd] in Ht.
  apply (backed_before _ _ _ _ s2).
  { destruct Ht as [E|(u & vec & E & _)]; [exists []; by rewrite app_nil_r|eauto]. }
  apply bind_run in Hrun as (s3 & r2 & [-> ->]%new_record_run & Hrun).
  apply bind_run in Hrun as (s3 & pending & Hpend & Hrun).
  eapply backed_bind; [|exact Hpend|]; [by solve_keeps|]. by eapply after_submission_backed.
Qed.

Lemma publish_backed p o signer a current s s' r :
  publish subtensor p o signer a current s = (s', Ok r) -> backed p current r s s'.
Proof.
  unfold publish. intros Hrun. apply bind_run in Hrun as (s1 & u & E1 & Hrun).
  eapply backed_bind; [|exact E1|]; [by apply check_signer_keeps; typeclasses eauto|].
  apply bind_run in Hrun as (s2 & v & E2 & Hrun).
  eapply backed_bind; [|exact E2|]; [by apply signing_view_keeps; typeclasses eauto|].
  apply bind_run in Hrun as (s3 & [cur [r'|]] & E3 & Hrun); cbn [fst snd] in Hrun.
  - injection Hrun as <- <-. by eapply recheck_backed.
  - eapply backed_bind; [|exact E3|]; [by apply recheck_keeps; typeclasses eauto|].
    apply bind_run in Hrun as (s4 & ? & E4 & Hrun).
    eapply backed_bind; [|exact E4|]; [by apply rate_limit_keeps; typeclasses eauto|]. by eapply sign_and_submit_backed.
Qed.

(** What [open_authority] saw. *)
Lemma open_authority_observed p o s s' a :
  open_authority subtensor p o s = (s', Ok a) ->
  (exists new, effects s' = effects s ++ new /\ Observed (a_live a) (a_pre a) ∈ new) /\
  last_update_block (a_pre a) <= mv_block (a_live a).
Proof.
  unfold open_authority. intros Hrun.
  apply bind_run in Hrun as (s1 & current & E1 & Hrun).
  match type of E1 with ?m _ = _ => assert (K1 : keeps quiet m) by solve_keeps end. apply (keeps_run _ _ _ _ K1) in E1 as (n1 & E1).
  apply bind_run in Hrun as (s2 & flight & E2 & Hrun). apply (keeps_run _ _ _ _ (retained_if_keeps _ _ _ _)) in E2 as (n2 & E2).
  apply bind_run in Hrun as (s3 & head & E3 & Hrun).
  match type of E3 with ?m _ = _ => assert (K3 : keeps quiet m) end.
  { destruct (reconcile_only o); [apply retained_if_keeps|apply keeps_ret]; typeclasses eauto. }
  apply (keeps_run _ _ _ _ K3) in E3 as (n3 & E3). cbv zeta in Hrun.
  apply bind_run in Hrun as (s4 & live & E4 & Hrun). apply (keeps_run _ _ _ _ (on_chain_keeps _ _)) in E4 as (n4 & E4).
  apply bind_run in Hrun as (s5 & bound & E5 & Hrun). apply (keeps_run _ _ _ _ (bound_view_keeps _ _ _ _)) in E5 as (n5 & E5).
  apply bind_run in Hrun as (s6 & u & E6 & Hrun).
  match type of E6 with ?m _ = _ => assert (K6 : keeps quiet m) end.
  { destruct (_ && _); [apply freshness_keeps|apply keeps_ret]; typeclasses eauto. }
  apply (keeps_run _ _ _ _ K6) in E6 as (n6 & E6).
  match type of Hrun with (if ?b then _ else _) _ = _ => destruct b; [discriminate|] end.
  apply bind_run in Hrun as (s7 & pre & Hobs%observe_run & Hrun).
  destruct (Z.ltb_spec (mv_block live) (last_update_block pre)) as [|Hle]; [discriminate|]. cbn [orb] in Hrun.
  destruct (_ <? _); [discriminate|]. injection Hrun as <- <-. cbn [a_live a_pre]. split; [|done].
  exists (n1 ++ n2 ++ n3 ++ n4 ++ n5 ++ n6 ++ [Observed live pre]).
  rewrite Hobs, E6, E5, E4, E3, E2, E1, <- !app_assoc. split; [done|set_solver].
Qed.

(** C6: a confirmation is never taken on trust. When reconciling reports [confirmed], this very run read the
    validator's finalized row, the row matched the projection, and the reported block is that row's; the
    record is either the retained head, already confirmed, or was journaled now with that block and that
    row's last update, which is not older than the attempt it confirms. *)
Theorem confirmed_by_readback (signer : option string) p o s s' r :
  reconcile_weight_publication subtensor signer p o s = (s', Ok r) -> o_status r = Published p_confirmed ->
  exists view snapshot rec new,
    effects s' = effects s ++ new /\ Observed view snapshot ∈ new /\ last_update_block snapshot <= mv_block view /\
    _matches snapshot p = true /\ observed_block r = mv_block view /\
    o_record r = Some rec /\ w_status rec = p_confirmed /\ projection_digest p = Ok (w_projection rec) /\
    (load (journal s) = Ok (Some rec) \/ Journaled rec ∈ new /\ confirmed_at p view snapshot rec).
Proof.
  intros Hrun Hr. assert (Hdry : is_dry_run o = false -> exists head, (forall rec, w_status rec = p_confirmed ->
      head = Some rec -> load (journal s) = Ok (Some rec)) /\ backed p head r s s').
  2: { destruct (is_dry_run o) eqn:Ho.
    - exfalso. unfold reconcile_weight_publication in Hrun. rewrite Ho in Hrun.
      apply bind_run in Hrun as (s1 & u & _ & Hrun). apply bind_run in Hrun as (s2 & a & _ & Hrun).
      apply bind_run in Hrun as (s3 & x & _ & Hrun). apply bind_run in Hrun as (s4 & d & _ & Hrun).
      unfold new_result, of_result, make_result in Hrun. injection Hrun as _ Hres.
      apply bind_Ok in Hres as (? & _ & Hres). step_guard Hres. injection Hres as <-. discriminate.
    - destruct (Hdry eq_refl) as (head & Hhead & Hb). destruct (Hb Hr) as (view & x & rec & new & Hrest).
      exists view, x, rec, new. naive_solver. }
  intros Ho. unfold reconcile_weight_publication in Hrun. rewrite Ho in Hrun.
  apply bind_run in Hrun as (s1 & u & ->%check_options_run & Hrun).
  apply bind_run in Hrun as (s1 & a & Ha & Hrun).
  pose proof (open_authority_current _ _ _ _ _ Ho Ha) as Hcur. apply open_authority_observed in Ha as [Hobs Hle].
  assert (Hload : forall rec, w_status rec = p_confirmed -> a_current a = Some rec -> load (journal s) = Ok (Some rec)).
  { intros rec _ E. by rewrite Hcur, E. }
  destruct (reconcile_only o).
  { exists (a_current a). split; [done|]. eapply settles_backed; [exact Hobs|done| |eapply readback_settles; exact Hrun].
    eapply keeps_run; [apply readback_keeps; typeclasses eauto|exact Hrun]. }
  apply bind_run in Hrun as (s2 & current & Hrel & Hrun).
  assert (Hgrow : exists new, effects s2 = effects s1 ++ new) by
    (eapply keeps_run; [apply release_absent_keeps; typeclasses eauto|exact Hrel]).
  assert (Hobs2 : exists new, effects s2 = effects s ++ new /\ Observed (a_live a) (a_pre a) ∈ new).
  { destruct Hobs as (n1 & E1 & Hin), Hgrow as (n2 & E2). exists (n1 ++ n2). rewrite E2, E1, app_assoc. set_solver. }
  apply release_absent_run in Hrel.
  assert (Hheads : forall rec, w_status rec = p_confirmed -> current = Some rec -> load (journal s) = Ok (Some rec)).
  { intros rec Hst E. destruct Hrel as [E'|(c & _ & _ & c' & E' & Hrel)]; [apply Hload; [done|congruence]|congruence]. }
  assert (Hpub : (settled ← settle_resolved p o a current;
      match settled with Some r => mret r | None => publish subtensor p o signer a current end) s2 = (s', Ok r) ->
      backed p current r s s').
  { intros Hrun'. apply bind_run in Hrun' as (s3 & [settled|] & E3 & Hrun').
    - injection Hrun' as -> ->. eapply settles_backed; [exact Hobs2|done| |by eapply resolved_settles].
      eapply keeps_run; [apply resolved_keeps; typeclasses eauto|exact E3].
    - apply publish_backed in Hrun'. eapply backed_before; [|exact Hrun'].
      destruct Hobs2 as (n2 & E2 & _). eapply (keeps_run (settle_resolved p o a current)) in E3 as (n3 & E3);
        [|apply resolved_keeps; typeclasses eauto]. exists (n2 ++ n3). by rewrite E3, E2, app_assoc. }
  destruct current as [c|]; [|exists None; by split; [|apply Hpub]].
  destruct (status_in c [p_intent; p_pending; p_held]) eqn:Hst; [|exists (Some c); by split; [|apply Hpub]].
  exists (a_current a). split; [done|]. eapply settles_backed; [exact Hobs2|done| |eapply unresolved_settles; [|exact Hrun]].
  - eapply keeps_run; [apply unresolved_keeps; typeclasses eauto|exact Hrun].
  - intros E. unfold status_in in Hst. rewrite E in Hst. discriminate.
Qed.
End Signing.
