(* ===== verification/Offers.v ===== *)
(** * Shared weight offers

    [cacheon/chain/weight_share.py]: the offer that carries a projection to the
    followers, its storage envelope authenticated with a push credential, the
    rule that a stored offer only moves forward, and the rebinding of a
    projection to a follower's hotkey. Credentials are those of
    [cacheon/chain/weight_push_auth.py]. *)

From S2P Require Import Prelude PyVal Dict Sha256 Identity Strict EvidenceRef Publication.

Open Scope Z_scope.

Definition WeightShareError (m : string) : exn := Exn "WeightShareError" m.
Definition WeightPushAuthError (m : string) : exn := Exn "WeightPushAuthError" m.

Definition OFFER_SCHEMA_V1 : string := "cacheon.current-weight-offer.v1".
Definition OFFER_SCHEMA : string := "cacheon.current-weight-offer.v2".
Definition STORED_OFFER_SCHEMA : string := "cacheon.authenticated-weight-offer.v1".
Definition LANE_LEGACY_V1 : string := "legacy_v1".

(** ** The offer: a lane and a projection; [debt_binding] is always [None]. *)

Record CurrentWeightOffer := mkOffer { lane : string; offer_projection : WeightProjection }.

#[export] Instance offer_eq_dec : EqDecision CurrentWeightOffer.
Proof. solve_decision. Defined.

Definition make_offer (lane : string) (p : WeightProjection) : result CurrentWeightOffer :=
  raise_if negb (String.eqb lane LANE_LEGACY_V1) with (WeightShareError "current weight offer lane is unsupported");
  Ok (mkOffer lane p).

Definition from_legacy_projection (p : WeightProjection) : result CurrentWeightOffer := make_offer LANE_LEGACY_V1 p.

Definition offer_rows (o : CurrentWeightOffer) (digest : string) : list (string * pyval) :=
  [("lane", VStr (lane o)); ("projection", projection_to_dict (offer_projection o));
   ("projection_digest", VStr digest); ("schema", VStr OFFER_SCHEMA);
   ("debt_binding", VNone); ("debt_binding_digest", VNone)].

Definition offer_to_dict (o : CurrentWeightOffer) : result pyval :=
  digest ← projection_digest (offer_projection o); Ok (str_dict (offer_rows o digest)).

Definition offer_digest (o : CurrentWeightOffer) : result string :=
  payload ← offer_to_dict o; canonical_digest "cacheon.current-weight-offer" payload 1.

(** [value.get(key)] *)
Definition get_item (value : pyval) (key : string) : pyval :=
  match value with VDict items => default VNone (items_get key items) | _ => VNone end.

Definition is_string (v : pyval) (s : string) : bool := match v with VStr t => String.eqb t s | _ => false end.

(** [except WeightPublicationError: raise WeightShareError] *)
Definition read_projection (value : pyval) : result WeightProjection :=
  match projection_from_dict value with
  | Ok p => Ok p
  | Raise e => if bool_decide (exn_class e = "WeightPublicationError")
               then Raise (WeightShareError "current weight offer projection is malformed: ") else Raise e
  end.

Definition require_projection_digest (p : WeightProjection) (v : pyval) : result () :=
  digest ← require_sha256_hex v "projection_digest";
  actual ← projection_digest p;
  raise_if negb (String.eqb actual digest) with (WeightShareError "current weight offer projection digest does not match");
  Ok tt.

Definition offer_from_dict (value : pyval) : result CurrentWeightOffer :=
  match value with
  | VDict items =>
      let schema := get_item value "schema" in
      if is_string schema OFFER_SCHEMA_V1 then
        row ← exact_dict value ["projection"; "projection_digest"; "schema"]
                (WeightShareError "legacy weight offer fields do not match");
        p ← read_projection (argument row "projection");
        _ ← require_projection_digest p (argument row "projection_digest");
        make_offer LANE_LEGACY_V1 p
      else
        raise_if negb (is_string schema OFFER_SCHEMA) with (WeightShareError "current weight offer schema is unsupported");
        row ← exact_dict value ["debt_binding"; "debt_binding_digest"; "lane"; "projection"; "projection_digest"; "schema"]
                (WeightShareError "current weight offer fields do not match");
        p ← read_projection (argument row "projection");
        _ ← require_projection_digest p (argument row "projection_digest");
        match argument row "debt_binding", argument row "debt_binding_digest" with
        | VNone, VNone =>
            match argument row "lane" with
            | VStr lane => make_offer lane p
            | _ => Raise (WeightShareError "current weight offer lane is unsupported")
            end
        | _, _ => Raise (WeightShareError "debt-lane weight offers were retired with the V2 economics extraction")
        end
  | _ => Raise (WeightShareError "current weight offer fields do not match")
  end.

(** ** Push credentials *)

Inductive credential_status := cred_active | cred_retired.

#[export] Instance credential_status_eq_dec : EqDecision credential_status.
Proof. solve_decision. Defined.

Record PushCredential := mkCredential { credential_id : string; secret : string; cred_status : credential_status }.

#[export] Instance credential_eq_dec : EqDecision PushCredential.
Proof. solve_decision. Defined.

Definition has_char (codes : list N) (s : string) : bool := any_char (fun c => bool_decide (ord c ∈ codes)) s.

Definition make_credential (c : PushCredential) : result PushCredential :=
  raise_if negb (truthy (credential_id c)) || negb (is_stripped (credential_id c)) || (128 <? py_len (credential_id c))
           || has_char [47; 32; 9; 13; 10]%N (credential_id c)
    with (WeightPushAuthError "push credential id is malformed");
  raise_if (py_len (secret c) <? 32) || (512 <? py_len (secret c)) || has_break (secret c)
    with (WeightPushAuthError "push credential secret is malformed");
  Ok c.

Definition make_credential_set (rows : list PushCredential) : result (list PushCredential) :=
  raise_if bool_decide (rows = []) with (WeightPushAuthError "push credential set is empty");
  raise_if negb (distinct (credential_id <$> rows)) with (WeightPushAuthError "push credential ids must be unique");
  raise_if negb (existsb (fun r => bool_decide (cred_status r = cred_active)) rows)
    with (WeightPushAuthError "push credential set has no active secret");
  Ok rows.

Definition get_credential (rows : list PushCredential) (cid : string) : option PushCredential :=
  find (fun r => String.eqb (credential_id r) cid) rows.

(** ** Offers authenticated before they enter mutable storage *)

Definition STORAGE_AUTH_DOMAIN : string := "cacheon.weight-share.storage.v1".

Definition storage_auth_digest (cid digest : string) : result string :=
  raise_if negb (truthy cid) || negb (is_stripped cid)
    with (WeightShareError "stored offer credential id is malformed");
  digest ← require_sha256_hex (VStr digest) "offer_digest";
  canonical_digest STORAGE_AUTH_DOMAIN (str_dict [("credential_id", VStr cid); ("offer_digest", VStr digest)]) 1.

Definition nibble (c : chr) : N := if is_digit c then (ord c - 48)%N else (ord c - 87)%N.

(** [bytes.fromhex] of lowercase hexadecimal text *)
Fixpoint unhex (s : string) : list N :=
  match s with
  | String a (String b rest) => (16 * nibble a + nibble b)%N :: unhex rest
  | _ => []
  end.

Definition _storage_mac (c : PushCredential) (digest : string) : result string :=
  digest ← require_sha256_hex (VStr digest) "storage_auth_digest";
  Ok (hmac_sha256_hex (string_bytes (secret c)) (unhex digest)).

Record AuthenticatedWeightOffer := mkAuthenticated { auth_credential : string; auth_offer : CurrentWeightOffer; mac : string }.

#[export] Instance authenticated_eq_dec : EqDecision AuthenticatedWeightOffer.
Proof. solve_decision. Defined.

Definition make_authenticated (cid : string) (o : CurrentWeightOffer) (m : pyval) : result AuthenticatedWeightOffer :=
  digest ← offer_digest o;
  _ ← storage_auth_digest cid digest;
  m ← require_sha256_hex m "storage_mac";
  Ok (mkAuthenticated cid o m).

Definition authenticated_to_dict (a : AuthenticatedWeightOffer) : result pyval :=
  offer ← offer_to_dict (auth_offer a);
  digest ← offer_digest (auth_offer a);
  Ok (str_dict [("credential_id", VStr (auth_credential a)); ("mac", VStr (mac a)); ("offer", offer);
                ("offer_digest", VStr digest); ("schema", VStr STORED_OFFER_SCHEMA)]).

(** [str(value)] of a credential id that is text; another value has some text of its own. *)
Definition authenticated_from_dict (py_str : pyval -> string) (value : pyval) : result AuthenticatedWeightOffer :=
  row ← exact_dict value ["credential_id"; "mac"; "offer"; "offer_digest"; "schema"]
          (WeightShareError "authenticated weight offer fields do not match");
  raise_if negb (is_string (argument row "schema") STORED_OFFER_SCHEMA)
    with (WeightShareError "authenticated weight offer schema is unsupported");
  offer ← offer_from_dict (argument row "offer");
  digest ← require_sha256_hex (argument row "offer_digest") "offer_digest";
  actual ← offer_digest offer;
  raise_if negb (String.eqb actual digest) with (WeightShareError "authenticated weight offer digest does not match");
  m ← require_sha256_hex (argument row "mac") "storage_mac";
  make_authenticated (match argument row "credential_id" with VStr s => s | v => py_str v end) offer (VStr m).

Definition authenticate_weight_offer (o : CurrentWeightOffer) (c : PushCredential) : result AuthenticatedWeightOffer :=
  od ← offer_digest o;
  digest ← storage_auth_digest (credential_id c) od;
  m ← _storage_mac c digest;
  make_authenticated (credential_id c) o (VStr m).

Definition verify_authenticated_weight_offer (stored : AuthenticatedWeightOffer) (credentials : list PushCredential) :
    result CurrentWeightOffer :=
  match get_credential credentials (auth_credential stored) with
  | None => Raise (WeightShareError "stored weight offer names an unknown push credential")
  | Some c =>
      od ← offer_digest (auth_offer stored);
      digest ← storage_auth_digest (auth_credential stored) od;
      m ← _storage_mac c digest;
      raise_if negb (String.eqb (mac stored) m) with (WeightShareError "stored weight offer authentication failed");
      Ok (auth_offer stored)
  end.

(** ** The stored offer only moves forward *)

Inductive stored_offer := Raw (o : CurrentWeightOffer) | Authenticated (a : AuthenticatedWeightOffer).

#[export] Instance stored_offer_eq_dec : EqDecision stored_offer.
Proof. solve_decision. Defined.

Definition _offer_from_storage (s : stored_offer) : CurrentWeightOffer :=
  match s with Raw o => o | Authenticated a => auth_offer a end.

Definition stored_to_dict (s : stored_offer) : result pyval :=
  match s with Raw o => offer_to_dict o | Authenticated a => authenticated_to_dict a end.

(** The stored text, once read as JSON. *)
Definition _parse_offer_storage (py_str : pyval -> string) (value : pyval) : result stored_offer :=
  match value with
  | VDict _ => if is_string (get_item value "schema") STORED_OFFER_SCHEMA
               then Authenticated <$> authenticated_from_dict py_str value else Raw <$> offer_from_dict value
  | _ => Raise (WeightShareError "stored weight offer fields do not match")
  end.

Definition assert_monotonic_offer_update (current proposed : CurrentWeightOffer) : result () :=
  let c := offer_projection current in
  let p := offer_projection proposed in
  raise_if negb (String.eqb (p_scope p) (p_scope c)) || negb (netuid p =? netuid c)
    with (WeightShareError "weight offer update changed chain scope");
  raise_if effective_block p <? effective_block c with (WeightShareError "weight offer effective block regressed");
  raise_if (effective_block p =? effective_block c) && negb (bool_decide (proposed = current))
    with (WeightShareError "weight offer conflicts at the current effective block");
  Ok tt.

(** What every writer checks against the text it replaces. *)
Definition overwrite (py_str : pyval -> string) (current : pyval) (s : stored_offer) : result () :=
  current ← _parse_offer_storage py_str current;
  raise_if match current, s with Authenticated _, Raw _ => true | _, _ => false end
    with (WeightShareError "authenticated current offer cannot be overwritten unsigned");
  assert_monotonic_offer_update (_offer_from_storage current) (_offer_from_storage s).

(** A path: nothing, something that is not a regular file, or a file holding a text. *)
Inductive node := Missing | Irregular | File (content : pyval).

(** The bytes are written to a temporary file that then replaces the target: all of them or none. *)
Definition _write_offer_storage (py_str : pyval -> string) (target : node) (s : stored_offer) : result node :=
  match target with
  | Irregular => Raise (WeightShareError "weight offer path is not a regular file")
  | Missing => payload ← stored_to_dict s; _ ← canonical_json_bytes payload; Ok (File payload)
  | File current =>
      _ ← overwrite py_str current s;
      payload ← stored_to_dict s; _ ← canonical_json_bytes payload; Ok (File payload)
  end.

Definition read_offer_storage (py_str : pyval -> string) (target : node) : result stored_offer :=
  match target with
  | Missing => Raise (WeightShareError "current weight offer is missing")
  | Irregular => Raise (WeightShareError "current weight offer cannot be read: ")
  | File content => _parse_offer_storage py_str content
  end.

Definition read_current_weight_offer (py_str : pyval -> string) (target : node) : result CurrentWeightOffer :=
  stored ← read_offer_storage py_str target;
  match stored with
  | Raw o => Ok o
  | Authenticated _ => Raise (WeightShareError "current weight offer is authenticated storage, not a raw offer")
  end.

(** ** Rebinding to the follower's hotkey *)

Definition with_validator (p : WeightProjection) (hotkey : string) : WeightProjection :=
  mkProjection (p_scope p) (netuid p) hotkey (p_policy p) (p_settlement_state p) (p_evaluation_state p)
    (p_metagraph_digest p) (arena_state_digests p) (stack_generation p) (effective_block p) (crown_count p)
    (evidence_digests p) (weights_ppm p) (allocation_evidence p) (rewarded_evidence p).

Definition rebind_projection_signer (p : WeightProjection) (hotkey : string) : result WeightProjection :=
  raise_if negb (hotkey_text hotkey) with (WeightShareError "follower signer hotkey is malformed");
  if String.eqb hotkey (p_validator p) then Ok p else rebuild_projection (with_validator p hotkey).

Definition rebind_offer_signer (o : CurrentWeightOffer) (hotkey : string) : result CurrentWeightOffer :=
  p ← rebind_projection_signer (offer_projection o) hotkey; make_offer LANE_LEGACY_V1 p.

(** ** A stored offer reads back as what was written *)

(** What the constructors accept. *)
Definition valid_offer (o : CurrentWeightOffer) : Prop :=
  lane o = LANE_LEGACY_V1 /\ projection_from_dict (projection_to_dict (offer_projection o)) = Ok (offer_projection o).

Definition valid_stored (s : stored_offer) : Prop :=
  valid_offer (_offer_from_storage s) /\
  match s with Raw _ => True | Authenticated a => make_authenticated (auth_credential a) (auth_offer a) (VStr (mac a)) = Ok a end.

Lemma make_offer_ok l p o : make_offer l p = Ok o -> o = mkOffer LANE_LEGACY_V1 p.
Proof. unfold make_offer. destruct (String.eqb_spec l LANE_LEGACY_V1) as [->|]; [|done]. by intros [= <-]. Qed.

Lemma read_projection_ok v p : read_projection v = Ok p -> projection_from_dict v = Ok p.
Proof. unfold read_projection. destruct (projection_from_dict v); [done|]. by case_bool_decide. Qed.

Lemma projection_digest_shape p h : projection_digest p = Ok h -> is_sha256_hex h = true.
Proof. apply canonical_digest_shape. Qed.

Lemma offer_from_valid v o : offer_from_dict v = Ok o -> valid_offer o.
Proof.
  unfold offer_from_dict. destruct v; try done. cbv zeta.
  destruct (is_string _ OFFER_SCHEMA_V1); intros H.
  - inv_ok. apply make_offer_ok in H as ->. split; [done|]. by eapply projection_reload, read_projection_ok.
  - step_guard H. inv_ok. repeat case_match; try discriminate.
    apply make_offer_ok in H as ->. split; [done|]. by eapply projection_reload, read_projection_ok.
Qed.

Lemma offer_reload o d : valid_offer o -> offer_to_dict o = Ok d -> offer_from_dict d = Ok o.
Proof.
  destruct o as [l p]. intros [Hl Hp]. cbn [lane offer_projection] in *. subst l. unfold offer_to_dict.
  intros (h & Hh & [= <-])%bind_Ok. cbn -[exact_dict projection_to_dict] in *.
  change (exact_dict _ _ _) with (Ok (offer_rows (mkOffer LANE_LEGACY_V1 p) h)). cbn -[projection_to_dict].
  unfold read_projection. rewrite Hp. cbn -[projection_to_dict]. unfold require_projection_digest.
  rewrite (projection_digest_shape _ _ Hh). cbn. rewrite Hh. cbn. by rewrite String.eqb_refl.
Qed.

Lemma offer_digest_shape o h : offer_digest o = Ok h -> is_sha256_hex h = true.
Proof. unfold offer_digest. intros (d & _ & H)%bind_Ok. by eapply canonical_digest_shape. Qed.

Section Storage.
Variable py_str : pyval -> string.

Lemma stored_reload s d : valid_stored s -> stored_to_dict s = Ok d -> _parse_offer_storage py_str d = Ok s.
Proof.
  destruct s as [o|a]; intros [Hv Ha] Hd; cbn [_offer_from_storage stored_to_dict] in *.
  - pose proof (offer_reload _ _ Hv Hd) as Hr. unfold offer_to_dict in Hd. apply bind_Ok in Hd as (h & _ & [= <-]).
    unfold _parse_offer_storage. cbn -[offer_from_dict projection_to_dict] in *. by rewrite Hr.
  - unfold authenticated_to_dict in Hd. apply bind_Ok in Hd as (od & Hod & Hd).
    apply bind_Ok in Hd as (h & Hh & [= <-]). pose proof (offer_reload _ _ Hv Hod) as Hr.
    unfold _parse_offer_storage. cbn -[authenticated_from_dict]. unfold authenticated_from_dict.
    change (exact_dict _ _ _) with
      (Ok [("credential_id", VStr (auth_credential a)); ("mac", VStr (mac a)); ("offer", od);
           ("offer_digest", VStr h); ("schema", VStr STORED_OFFER_SCHEMA)]).
    cbn -[offer_from_dict make_authenticated]. rewrite Hr. cbn -[make_authenticated].
    rewrite (offer_digest_shape _ _ Hh). cbn -[make_authenticated]. rewrite Hh.
    cbn -[make_authenticated]. rewrite String.eqb_refl. cbn -[make_authenticated].
    pose proof Ha as Hm. unfold make_authenticated in Hm. inv_ok.
    match goal with H : require_sha256_hex (VStr (mac a)) _ = Ok _ |- _ => apply sha_value in H as ([= <-] & ->) end.
    cbn -[make_authenticated]. by rewrite Ha.
Qed.

Definition advances (old new : stored_offer) : Prop :=
  let o := offer_projection (_offer_from_storage old) in
  let n := offer_projection (_offer_from_storage new) in
  p_scope n = p_scope o /\ netuid n = netuid o /\ effective_block o <= effective_block n /\
  (effective_block o = effective_block n -> _offer_from_storage new = _offer_from_storage old) /\
  ((exists a, old = Authenticated a) -> exists a, new = Authenticated a).

#[export] Instance advances_preorder : PreOrder advances.
Proof.
  split; [intros s; unfold advances; naive_solver lia|].
  intros a b c (S1 & N1 & L1 & E1 & A1) (S2 & N2 & L2 & E2 & A2). unfold advances. split_and!; [congruence..|lia| |auto].
  intros E. rewrite E2, E1; [done|lia..].
Qed.

Lemma overwrite_advances current s u :
  overwrite py_str current s = Ok u -> exists old, _parse_offer_storage py_str current = Ok old /\ advances old s.
Proof.
  unfold overwrite. intros (old & Hold & H)%bind_Ok. exists old. split; [done|]. step_guard H.
  unfold assert_monotonic_offer_update in H. cbv zeta in H. repeat step_guard H.
  unfold advances. cbv zeta.
  repeat match goal with H : (_ || _) = false |- _ => apply orb_false_iff in H as [? ?] end.
  repeat match goal with H : negb _ = false |- _ => apply negb_false_iff in H end.
  rewrite ?String.eqb_eq, ?Z.eqb_eq, ?Z.ltb_ge in *. split_and!; [done..| |].
  - intros E. match goal with H : (_ && _) = false |- _ => rewrite E, Z.eqb_refl in H; cbn in H;
      apply negb_false_iff, bool_decide_eq_true in H; done end.
  - intros [a ->]. destruct s; [done|eauto].
Qed.

(** One accepted write. *)
Definition write_step (t t' : node) : Prop := exists s, valid_stored s /\ _write_offer_storage py_str t s = Ok t'.

Lemma write_step_advances t t' old :
  write_step t t' -> read_offer_storage py_str t = Ok old ->
  exists new, read_offer_storage py_str t' = Ok new /\ advances old new.
Proof.
  intros (s & Hs & Hw) Hr. destruct t as [| |current]; try done. cbn in Hw, Hr. inv_ok.
  exists s. cbn. split; [by apply stored_reload|]. match goal with H : overwrite _ _ _ = _ |- _ =>
    apply overwrite_advances in H as (old' & Ho & Ha) end. congruence.
Qed.

(** C28: a published offer only moves forward. Whatever sequence of offers and envelopes is written over a
    stored offer, the file always reads back, on the same chain and subnet, at an effective block that never
    regresses; while the block stays the same so does the offer; and an authenticated envelope is never
    replaced by an unsigned offer. *)
Theorem stored_offer_advances t t' old :
  rtc write_step t t' -> read_offer_storage py_str t = Ok old ->
  exists new, read_offer_storage py_str t' = Ok new /\ advances old new.
Proof.
  intros Hrun. revert old. induction Hrun as [t|t1 t2 t3 Hstep _ IH]; intros old Hr; [by exists old|].
  destruct (write_step_advances _ _ _ Hstep Hr) as (mid & Hm & Ha). destruct (IH _ Hm) as (new & Hn & Ha').
  exists new. split; [done|by etransitivity].
Qed.
End Storage.

(** A next offer, one block later, over the sample one. *)
Definition next_projection : WeightProjection :=
  mkProjection (sample_digest 97) 3 "5Validator" (sample_digest 98) (sample_digest 99) (sample_digest 100)
    (sample_digest 101) [sample_digest 102] 5 91 1 [sample_digest 48] [("5Miner", 700000); ("5Owner", 300000)] None None.

Definition offer_json (o : CurrentWeightOffer) : pyval := match offer_to_dict o with Ok d => d | Raise _ => VNone end.
Definition sample_offer : CurrentWeightOffer := mkOffer LANE_LEGACY_V1 sample_projection.
Definition next_offer : CurrentWeightOffer := mkOffer LANE_LEGACY_V1 next_projection.

Lemma stored_offer_advances_witness :
  exists new, read_offer_storage (fun _ => "") (File (offer_json next_offer)) = Ok new /\ advances (Raw sample_offer) new.
Proof.
  apply (stored_offer_advances _ (File (offer_json sample_offer))); [|vm_compute; reflexivity].
  apply rtc_once. exists (Raw next_offer).
  split; [split; [split; vm_compute; reflexivity|exact I]|vm_compute; reflexivity].
Defined.
