(* ===== verification/FollowerJournal.v ===== *)
(** * The follower's publication journal

    [SQLiteFollowerWeightPublicationJournal] of [cacheon/chain/intake.py]: the
    table of followed publications and the head in the metadata, the operations
    on them, and the proof that they implement the journal of [Journal.v]. *)

From S2P Require Import Prelude PyVal Dict Identity Strict Store Publication Journal Offers.

Open Scope Z_scope.

(** ** The table and the metadata entry; a JSON column holds the value its text encodes. *)

Record followed_row := mkFollowed {
  f_record_digest : string;
  f_sequence : Z;
  f_projection_digest : string;
  f_offer_digest : string;
  f_offer : pyval;
  f_record : pyval;
  f_status : string;
  f_updated : Z;
}.

Record FollowerJournal := mkFollower {
  followed : list followed_row;
  followed_head : option pyval;
  own_offer : CurrentWeightOffer;
}.

(** [SQLiteFollowerWeightPublicationJournal(store, offer)] over the store's scope. *)
Definition make_follower (scope : string) (net : Z) (rows : list followed_row) (head : option pyval)
    (offer : CurrentWeightOffer) : result FollowerJournal :=
  raise_if negb (String.eqb (p_scope (offer_projection offer)) scope) || negb (netuid (offer_projection offer) =? net)
    with (IntakeError "followed weight offer differs from the journal scope");
  Ok (mkFollower rows head offer).

(** [except (TypeError, ValueError, json.JSONDecodeError)] *)
Definition value_classes : list string :=
  ["TypeError"; "ValueError"; "UnicodeEncodeError"; "StackIdentityError"; "EvidenceStoreError"].
Definition rewrap {A} (classes : list string) (e' : exn) (r : result A) : result A :=
  match r with
  | Raise e => if bool_decide (exn_class e ∈ classes) then Raise e' else Raise e
  | _ => r
  end.

Definition _offer_from_json (v : pyval) : result CurrentWeightOffer :=
  rewrap ("WeightShareError" :: value_classes) (IntakeError "followed weight offer is corrupt: ") (offer_from_dict v).

Definition read_record (v : pyval) (message : string) : result WeightPublicationRecord :=
  rewrap value_classes (IntakeError message) (record_from_dict v).

Definition _read_head (stored : option pyval) : result (option (string * string)) :=
  match stored with
  | None => Ok None
  | Some value =>
      row ← exact_dict value ["projection_digest"; "record_digest"]
              (IntakeError "followed weight publication head is malformed");
      p ← require_sha256_hex (argument row "projection_digest") "projection_digest";
      r ← require_sha256_hex (argument row "record_digest") "record_digest";
      Ok (Some (p, r))
  end.

Definition head_value (p r : string) : pyval := str_dict [("projection_digest", VStr p); ("record_digest", VStr r)].

(** [WHERE record_digest=?] *)
Definition row_of (digest : string) (rows : list followed_row) : option followed_row :=
  find (fun r => String.eqb (f_record_digest r) digest) rows.

(** [WHERE projection_digest=? ORDER BY sequence DESC LIMIT 1] *)
Definition newest_row (digest : string) (rows : list followed_row) : option followed_row :=
  last (sorted_by f_sequence (filter (fun r => f_projection_digest r = digest) rows)).

(** ** load *)

(** [while True]: follow the predecessors to the first record. [None] is a run that needs more steps. *)
Fixpoint walk (fuel : nat) (rows : list followed_row) (seen : list string) (current : WeightPublicationRecord) :
    option (result ()) :=
  match fuel with
  | O => None
  | S fuel =>
      match record_digest current with
      | Raise e => Some (Raise e)
      | Ok digest =>
          if bool_decide (digest ∈ seen)
          then Some (Raise (IntakeError "followed weight publication journal contains a cycle"))
          else
            match w_prior current with
            | None => Some (Ok tt)
            | Some prior =>
                match row_of prior rows with
                | None => Some (Raise (IntakeError "followed weight publication predecessor is missing"))
                | Some row =>
                    match read_record (f_record row) "followed weight publication predecessor is corrupt: " with
                    | Raise e => Some (Raise e)
                    | Ok next =>
                        match record_digest next with
                        | Raise e => Some (Raise e)
                        | Ok d => if String.eqb d prior then walk fuel rows (digest :: seen) next
                                  else Some (Raise (IntakeError "followed weight publication predecessor digest differs"))
                        end
                    end
                end
            end
      end
  end.

(** The head's row, reopened and compared with the head. *)
Definition load_head_row (rows : list followed_row) (p r : string) : result WeightPublicationRecord :=
  match row_of r rows with
  | None => Raise (IntakeError "followed weight publication head has no retained record")
  | Some row =>
      record ← read_record (f_record row) "followed weight publication record is corrupt: ";
      offer ← _offer_from_json (f_offer row);
      digest ← record_digest record;
      offered ← projection_digest (offer_projection offer);
      od ← offer_digest offer;
      raise_if negb (String.eqb digest r) || negb (String.eqb (w_projection record) p)
               || negb (String.eqb (f_projection_digest row) p) || negb (String.eqb offered p)
               || negb (String.eqb od (f_offer_digest row))
        with (IntakeError "followed weight publication head differs from retained authority");
      Ok record
  end.

Definition load_within (fuel : nat) (j : FollowerJournal) : option (result (option WeightPublicationRecord)) :=
  match _read_head (followed_head j) with
  | Raise e => Some (Raise e)
  | Ok None => Some (Ok None)
  | Ok (Some (p, r)) =>
      match load_head_row (followed j) p r with
      | Raise e => Some (Raise e)
      | Ok record => (fun done => done ≫= fun _ => Ok (Some record)) <$> walk fuel (followed j) [] record
      end
  end.

(** One step per row and one more are enough. *)
Definition load_steps (j : FollowerJournal) : nat := S (length (followed j)).

Definition follower_load (j : FollowerJournal) : result (option WeightPublicationRecord) :=
  default (Raise (IntakeError "unreachable")) (load_within (load_steps j) j).

(** ** compare_and_swap *)

Definition _require_monotonic_offer (current proposed : CurrentWeightOffer) : result () :=
  let c := offer_projection current in
  let p := offer_projection proposed in
  raise_if negb (String.eqb (p_scope p) (p_scope c)) || negb (netuid p =? netuid c)
    with (IntakeError "followed weight offer changed chain scope");
  raise_if negb (String.eqb (p_validator p) (p_validator c))
    with (IntakeError "followed weight offer changed signer authority");
  raise_if effective_block p <? effective_block c with (IntakeError "followed weight offer effective block regressed");
  conflict ← (if effective_block p =? effective_block c then
                proposed_digest ← offer_digest proposed;
                current_digest ← offer_digest current;
                Ok (negb (String.eqb proposed_digest current_digest))
              else Ok false);
  raise_if (conflict : bool) with (IntakeError "followed weight offer conflicts at the retained effective block");
  raise_if negb (String.eqb (lane current) LANE_LEGACY_V1) && String.eqb (lane proposed) LANE_LEGACY_V1
    with (IntakeError "followed weight offer lane regressed to legacy V1");
  Ok tt.

(** The offer a record is stored with: the journal's own, which must not conflict with a retained one of the
    same projection, or a retained one. Offers are compared by [to_dict], which determines them. *)
Definition offer_for (j : FollowerJournal) (r : WeightPublicationRecord) : result CurrentWeightOffer :=
  own ← projection_digest (offer_projection (own_offer j));
  match newest_row (w_projection r) (followed j) with
  | Some previous =>
      kept ← _offer_from_json (f_offer previous);
      digest ← offer_digest kept;
      if String.eqb (w_projection r) own then
        raise_if negb (String.eqb digest (f_offer_digest previous)) || negb (bool_decide (kept = own_offer j))
          with (IntakeError "one followed projection has conflicting retained offers");
        Ok (own_offer j)
      else
        raise_if negb (String.eqb digest (f_offer_digest previous))
          with (IntakeError "retained followed weight offer digest differs");
        Ok kept
  | None =>
      raise_if negb (String.eqb (w_projection r) own)
        with (IntakeError "followed publication record has no retained offer");
      Ok (own_offer j)
  end.

(** Another projection than the head's must follow it. *)
Definition check_follows (j : FollowerJournal) (head : option (string * string)) (offer : CurrentWeightOffer) : result () :=
  match head with
  | None => Ok tt
  | Some (p, r) =>
      offered ← projection_digest (offer_projection offer);
      if String.eqb offered p then Ok tt
      else
        match row_of r (followed j) with
        | None => Raise (IntakeError "followed weight publication head has no retained offer")
        | Some row =>
            current ← _offer_from_json (f_offer row);
            digest ← offer_digest current;
            raise_if negb (String.eqb digest (f_offer_digest row))
              with (IntakeError "retained followed weight offer digest differs");
            _require_monotonic_offer current offer
        end
  end.

(** [COALESCE(MAX(sequence),0)+1] *)
Definition next_sequence (rows : list followed_row) : Z :=
  default 0 (last (sorted_by id (f_sequence <$> rows))) + 1.

Definition updated_block (r : WeightPublicationRecord) : Z :=
  (submit_block r `max` confirmed_block r) `max` confirmed_last_update r.

Definition max_integer : Z := Z.shiftl 1 63 - 1.

Definition append_row (j : FollowerJournal) (offer : CurrentWeightOffer) (r : WeightPublicationRecord) :
    result FollowerJournal :=
  dict ← offer_to_dict offer;
  digest ← record_digest r;
  od ← offer_digest offer;
  raise_if max_integer <? updated_block r with (Exn "OverflowError" "Python int too large to convert to SQLite INTEGER");
  raise_if bool_decide (digest ∈ f_record_digest <$> followed j)
    with (IntegrityError "UNIQUE constraint failed: followed_weight_publications.record_digest");
  let row := mkFollowed digest (next_sequence (followed j)) (w_projection r) od dict (record_to_dict r)
               (status_name (w_status r)) (updated_block r) in
  Ok (mkFollower (followed j ++ [row]) (Some (head_value (w_projection r) digest)) (own_offer j)).

Definition swap_rows (expected : option string) (r : WeightPublicationRecord) (j : FollowerJournal) :
    result FollowerJournal :=
  _ ← match expected with
      | Some e => _ ← require_sha256_hex (VStr e) "expected_record_digest"; Ok tt
      | None => Ok tt
      end;
  raise_if negb (bool_decide (w_prior r = expected))
    with (IntakeError "followed weight publication replacement does not bind the CAS head");
  head ← _read_head (followed_head j);
  raise_if negb (bool_decide (snd <$> head = expected))
    with (IntakeError "followed weight publication journal compare-and-swap failed");
  offer ← offer_for j r;
  _ ← check_follows j head offer;
  append_row j offer r.

(** In one transaction: a failure changes nothing. *)
Definition follower_swap (expected : option string) (r : WeightPublicationRecord) (j : FollowerJournal) :
    FollowerJournal * result () :=
  match swap_rows expected r j with Ok j' => (j', Ok tt) | Raise e => (j, Raise e) end.

Definition follower_retained (j : FollowerJournal) (digest : string) : result WeightProjection :=
  _ ← require_sha256_hex (VStr digest) "projection_digest";
  match newest_row digest (followed j) with
  | None => Raise (IntakeError "followed weight projection is not retained")
  | Some row =>
      offer ← _offer_from_json (f_offer row);
      od ← offer_digest offer;
      pd ← projection_digest (offer_projection offer);
      raise_if negb (String.eqb od (f_offer_digest row)) || negb (String.eqb pd digest)
        with (IntakeError "retained followed weight projection digest differs");
      Ok (offer_projection offer)
  end.

#[export] Instance follower_journal : WeightPublicationJournal FollowerJournal :=
  {| load := follower_load; compare_and_swap := follower_swap |}.
#[export] Instance follower_reopenable : ReopenableWeightPublicationJournal FollowerJournal :=
  {| retained_projection := follower_retained |}.

(** ** load returns: the walk visits no row twice *)

Lemma rewrap_ok {A} classes e (r : result A) a : rewrap classes e r = Ok a -> r = Ok a.
Proof. unfold rewrap. destruct r; [done|]. by case_bool_decide. Qed.

Lemma row_of_some digest rows row : row_of digest rows = Some row -> row ∈ rows /\ f_record_digest row = digest.
Proof. intros [Hin Heq]%find_some. split; [by apply list_elem_of_In|by apply String.eqb_eq]. Qed.

Lemma walk_total fuel rows : forall seen current digest,
  record_digest current = Ok digest -> digest ∈ f_record_digest <$> rows ->
  NoDup seen -> seen ⊆ f_record_digest <$> rows -> (length rows < length seen + fuel)%nat ->
  is_Some (walk fuel rows seen current).
Proof.
  induction fuel as [|fuel IH]; intros seen current digest Hd Hin Hnd Hsub Hlen.
  - exfalso. pose proof (submseteq_length _ _ (NoDup_submseteq _ _ Hnd Hsub)) as Hle. rewrite length_fmap in Hle. lia.
  - cbn [walk]. rewrite Hd. case_bool_decide as Hseen; [by eexists|].
    destruct (w_prior current) as [prior|]; [|by eexists].
    destruct (row_of prior rows) as [row|] eqn:Er; [|by eexists].
    destruct (read_record _ _) as [next|e]; [|by eexists]. destruct (record_digest next) as [d|e] eqn:Ed; [|by eexists].
    destruct (String.eqb_spec d prior) as [->|]; [|by eexists].
    apply (IH _ _ prior); [done| |by constructor| |cbn; lia].
    + apply row_of_some in Er as [Hr <-]. by apply list_elem_of_fmap_2.
    + intros x [->|Hx]%elem_of_cons; [done|by apply Hsub].
Qed.

Lemma load_head_digest rows p r record : load_head_row rows p r = Ok record ->
  record_digest record = Ok r /\ w_projection record = p /\ r ∈ f_record_digest <$> rows.
Proof.
  unfold load_head_row. destruct (row_of r rows) as [row|] eqn:Er; [|done]. intros H. inv_ok. step_guard H.
  injection H as <-. rewrite !orb_false_iff, !negb_false_iff, !String.eqb_eq in Eg. destruct Eg as [[[[-> <-] _] _] _].
  apply row_of_some in Er as [Hr <-]. split_and!; [done..|]. by apply list_elem_of_fmap_2.
Qed.

Lemma load_returns fuel j : (load_steps j <= fuel)%nat -> is_Some (load_within fuel j).
Proof.
  unfold load_within, load_steps. intros Hf. destruct (_read_head _) as [[[p r]|]|e]; [|by eexists..].
  destruct (load_head_row _ _ _) as [record|e] eqn:E; [|by eexists]. apply load_head_digest in E as (Hd & _ & Hin).
  apply fmap_is_Some. eapply walk_total; [exact Hd|exact Hin|constructor|apply list_subseteq_nil|cbn; lia].
Qed.

(** More fuel changes nothing. *)
Lemma walk_more fuel rows : forall seen current x, walk fuel rows seen current = Some x ->
  forall more, (fuel <= more)%nat -> walk more rows seen current = Some x.
Proof.
  induction fuel as [|fuel IH]; intros seen current x H more Hle; [done|]. destruct more as [|more]; [lia|].
  cbn [walk] in *. destruct (record_digest current) as [digest|]; [|done]. case_bool_decide; [done|].
  destruct (w_prior current) as [prior|]; [|done]. destruct (row_of prior rows) as [row|]; [|done].
  destruct (read_record _ _) as [next|e]; [|done]. destruct (record_digest next) as [d|e]; [|done].
  destruct (String.eqb d prior); [|done]. apply (IH _ _ _ H). lia.
Qed.

(** Loading the journal always returns. On any table and head, corrupt or cyclic ones included, the walk
    over the predecessors ends within one step per row and one more, and more steps change nothing. *)
Theorem load_terminates j fuel :
  (load_steps j <= fuel)%nat -> exists outcome, load_within fuel j = Some outcome /\ load j = outcome.
Proof.
  intros Hf. destruct (load_returns (load_steps j) j ltac:(done)) as [outcome E]. exists outcome.
  cbn [load follower_journal]. unfold follower_load. rewrite E. split; [|done].
  unfold load_within in *. destruct (_read_head _) as [[[p r]|]|e]; try done.
  destruct (load_head_row _ _ _); [|done]. apply fmap_Some in E as (x & Ex & ->).
  by rewrite (walk_more _ _ _ _ _ Ex _ Hf).
Qed.
