(* ===== verification/FollowerContracts.v ===== *)
(** * The follower's journal implements the publication journal

    The stored rows hold exactly the log of appended records; a refused swap
    changes nothing; the offers behind the rows only move forward; and what was
    appended last is what loads. *)

From S2P Require Import Prelude PyVal Dict Identity Strict Store Publication Journal Offers FollowerJournal.

Open Scope Z_scope.

(** ** The abstraction *)

(** The row's offer columns hold [o]. *)
Definition row_offer (row : followed_row) (o : CurrentWeightOffer) : Prop :=
  valid_offer o /\ offer_to_dict o = Ok (f_offer row) /\ offer_digest o = Ok (f_offer_digest row) /\
  projection_digest (offer_projection o) = Ok (f_projection_digest row).

(** The row's record columns hold [r]. *)
Definition row_record (row : followed_row) (r : WeightPublicationRecord) : Prop :=
  record_digest r = Ok (f_record_digest row) /\ f_record row = record_to_dict r /\ f_projection_digest row = w_projection r.

(** What a later offer of one signer may be. *)
Definition follows (old new : CurrentWeightOffer) : Prop :=
  let o := offer_projection old in let n := offer_projection new in
  p_scope n = p_scope o /\ netuid n = netuid o /\ p_validator n = p_validator o /\
  effective_block o <= effective_block n /\
  (effective_block o = effective_block n -> offer_digest new = offer_digest old).

#[export] Instance follows_preorder : PreOrder follows.
Proof.
  split; [intros s; unfold follows; naive_solver lia|].
  intros a b c (S1 & N1 & V1 & L1 & E1) (S2 & N2 & V2 & L2 & E2). unfold follows. split_and!; [congruence..|lia|].
  intros E. rewrite E2, E1; [done|lia..].
Qed.

Definition row_follows (a b : followed_row) : Prop := forall oa ob, row_offer a oa -> row_offer b ob -> follows oa ob.

Definition head_of (rows : list followed_row) : option pyval :=
  (fun row => head_value (f_projection_digest row) (f_record_digest row)) <$> last rows.

Record follower_abs (j : FollowerJournal) (log : list WeightPublicationRecord) : Prop := {
  abs_own : valid_offer (own_offer j);
  abs_records : Forall2 row_record (followed j) log;
  abs_offers : Forall (fun row => exists o, row_offer row o) (followed j);
  abs_distinct : NoDup (f_record_digest <$> followed j);
  abs_sequence : StronglySorted Z.lt (f_sequence <$> followed j);
  abs_follows : StronglySorted row_follows (followed j);
  abs_head : followed_head j = head_of (followed j);
}.

(** ** Rows *)

Lemma row_offer_reload row o : row_offer row o -> _offer_from_json (f_offer row) = Ok o.
Proof. intros (Hv & Hd & _). unfold _offer_from_json. by rewrite (offer_reload _ _ Hv Hd). Qed.

Lemma row_offer_fun row o o' : row_offer row o -> row_offer row o' -> o = o'.
Proof. intros H%row_offer_reload H'%row_offer_reload. congruence. Qed.

Lemma row_of_distinct rows row :
  NoDup (f_record_digest <$> rows) -> row ∈ rows -> row_of (f_record_digest row) rows = Some row.
Proof.
  intros Hnd Hin. unfold row_of. induction rows as [|r rows IH]; [by apply elem_of_nil in Hin|].
  cbn [find]. apply NoDup_cons in Hnd as [Hr Hnd]. destruct (String.eqb_spec (f_record_digest r) (f_record_digest row)) as [E|E].
  - apply elem_of_cons in Hin as [->|Hin]; [done|]. exfalso. apply Hr. rewrite E. by apply list_elem_of_fmap_2.
  - apply elem_of_cons in Hin as [->|Hin]; [done|]. by apply IH.
Qed.

Lemma sorted_le_of_lt l : StronglySorted Z.lt (f_sequence <$> l) -> StronglySorted (key_le f_sequence) l.
Proof.
  induction l as [|x l IH]; intros H; [constructor|]. rewrite fmap_cons in H. apply StronglySorted_inv in H as [Hs Hf].
  constructor; [by apply IH|]. rewrite Forall_fmap in Hf. eapply Forall_impl; [exact Hf|].
  intros y Hy. unfold key_le. rewrite cmp_leb_Z. cbn in Hy. lia.
Qed.

Lemma sublist_sorted {A} (R : A -> A -> Prop) (P : A -> Prop) `{forall x, Decision (P x)} l :
  StronglySorted R l -> StronglySorted R (filter P l).
Proof.
  induction 1 as [|x l Hs IH Hf]; [constructor|]. rewrite filter_cons. case_decide; [|done]. constructor; [done|].
  rewrite Forall_forall in *. intros y [_ Hy]%list_elem_of_filter. by apply Hf.
Qed.

Lemma newest_row_spec digest rows :
  StronglySorted Z.lt (f_sequence <$> rows) ->
  newest_row digest rows = last (filter (fun r => f_projection_digest r = digest) rows).
Proof. intros H. unfold newest_row. rewrite sorted_by_fix; [done|]. by apply sublist_sorted, sorted_le_of_lt. Qed.

Lemma newest_row_some digest rows row :
  StronglySorted Z.lt (f_sequence <$> rows) -> newest_row digest rows = Some row ->
  row ∈ rows /\ f_projection_digest row = digest.
Proof.
  intros Hs. rewrite newest_row_spec by done. intros [? Hl]%last_Some.
  assert (Hin : row ∈ filter (fun r => f_projection_digest r = digest) rows) by (rewrite Hl; set_solver).
  apply list_elem_of_filter in Hin. tauto.
Qed.

Lemma newest_row_last rows row :
  StronglySorted Z.lt (f_sequence <$> rows) -> last rows = Some row -> newest_row (f_projection_digest row) rows = Some row.
Proof.
  intros Hs Hl. rewrite newest_row_spec by done. apply last_Some in Hl as [l ->].
  by rewrite filter_app, filter_cons_True, filter_nil, last_snoc.
Qed.

Lemma sha_read s field : is_sha256_hex s = true -> require_sha256_hex (VStr s) field = Ok s.
Proof. unfold require_sha256_hex. by intros ->. Qed.

Lemma read_head_spec rows :
  (forall row, last rows = Some row -> is_sha256_hex (f_projection_digest row) = true /\ is_sha256_hex (f_record_digest row) = true) ->
  _read_head (head_of rows) = Ok ((fun row => (f_projection_digest row, f_record_digest row)) <$> last rows).
Proof.
  unfold head_of. destruct (last rows) as [row|]; [|done]. intros H. destruct (H row eq_refl) as [Hp Hr].
  unfold _read_head, head_value. cbn [fmap option_fmap option_map].
  change (exact_dict _ _ _) with (Ok [("projection_digest", VStr (f_projection_digest row)); ("record_digest", VStr (f_record_digest row))]).
  unfold require_sha256_hex. cbn -[is_sha256_hex]. rewrite Hp. cbn -[is_sha256_hex]. by rewrite Hr.
Qed.

Lemma record_digest_shape r h : record_digest r = Ok h -> is_sha256_hex h = true.
Proof. apply canonical_digest_shape. Qed.

Section Abs.
Context (j : FollowerJournal) (log : list WeightPublicationRecord) (Hj : follower_abs j log).

Lemma abs_row row : row ∈ followed j -> exists o, row_offer row o.
Proof. intros H. pose proof (abs_offers _ _ Hj) as Hf. rewrite Forall_forall in Hf. by apply Hf. Qed.

Lemma abs_last : last log = None /\ last (followed j) = None \/
  exists r row, last log = Some r /\ last (followed j) = Some row /\ row_record row r.
Proof.
  pose proof (abs_records _ _ Hj) as H2. destruct (last (followed j)) as [row|] eqn:El.
  - right. apply last_Some in El as [l El]. rewrite El in H2. apply Forall2_app_inv_l in H2 as (k & k' & _ & H2 & E).
    apply Forall2_cons_inv_l in H2 as (r & k'' & Hr & H2 & ->). apply Forall2_nil_inv_l in H2 as ->.
    exists r, row. by rewrite E, last_snoc.
  - left. apply last_None in El. rewrite El in H2. apply Forall2_nil_inv_l in H2. by rewrite H2.
Qed.

Lemma abs_read_head :
  _read_head (followed_head j) = Ok ((fun row => (f_projection_digest row, f_record_digest row)) <$> last (followed j)).
Proof.
  rewrite (abs_head _ _ Hj). apply read_head_spec. intros row Hl. destruct abs_last as [[_ E]|(r & row' & _ & E & Hr)]; [congruence|].
  assert (row' = row) as -> by congruence. destruct Hr as (Hd & _ & _). split; [|by eapply record_digest_shape].
  destruct (abs_row row) as (o & _ & _ & _ & Hp); [apply last_Some in Hl as [l ->]; set_solver|].
  by eapply projection_digest_shape.
Qed.
End Abs.

(** ** A swap appends *)

Lemma offer_for_spec j log r o :
  follower_abs j log -> offer_for j r = Ok o ->
  valid_offer o /\ projection_digest (offer_projection o) = Ok (w_projection r) /\
  forall previous, newest_row (w_projection r) (followed j) = Some previous -> row_offer previous o.
Proof.
  intros Hj. unfold offer_for. intros (own & Hown & H)%bind_Ok.
  destruct (newest_row _ _) as [previous|] eqn:En.
  - apply newest_row_some in En as [Hin Hp]; [|by apply (abs_sequence _ _ Hj)].
    destruct (abs_row _ _ Hj _ Hin) as (kept & Hk). rewrite (row_offer_reload _ _ Hk) in H. cbn [mbind result_bind] in H.
    apply bind_Ok in H as (digest & _ & H). assert (o = kept) as ->.
    { destruct (String.eqb _ _); step_guard H; injection H as <-; [|done].
      apply orb_false_iff in Eg as [_ E%negb_false_iff%bool_decide_eq_true]. done. }
    split_and!; [by apply Hk| |by intros ? [= <-]]. rewrite <- Hp. by apply Hk.
  - step_guard H. injection H as <-. apply negb_false_iff, String.eqb_eq in Eg. rewrite Eg.
    split_and!; [by apply (abs_own _ _ Hj)|done|done].
Qed.

Lemma monotonic_follows c p u : _require_monotonic_offer c p = Ok u -> follows c p.
Proof.
  unfold _require_monotonic_offer. cbv zeta. intros H. step_guard H. step_guard H. step_guard H.
  apply bind_Ok in H as (conflict & Hc & H). step_guard H. rename Eg2 into Ec. subst.
  rewrite orb_false_iff, !negb_false_iff, String.eqb_eq, Z.eqb_eq in Eg. rewrite negb_false_iff, String.eqb_eq in Eg0.
  apply Z.ltb_ge in Eg1. destruct Eg as [Hs Hn]. unfold follows. cbv zeta. split_and!; [done..|].
  intros E. rewrite E, Z.eqb_refl in Hc. inv_ok. apply negb_false_iff, String.eqb_eq in Hc. congruence.
Qed.

Lemma check_follows_spec j log r o u :
  follower_abs j log -> offer_for j r = Ok o ->
  check_follows j ((fun row => (f_projection_digest row, f_record_digest row)) <$> last (followed j)) o = Ok u ->
  forall row orow, last (followed j) = Some row -> row_offer row orow -> follows orow o.
Proof.
  intros Hj (Hv & Hp & Hprev)%(offer_for_spec _ _ _ _ Hj) H row orow Hl Ho. rewrite Hl in H. cbn in H.
  rewrite Hp in H. cbn in H. destruct (String.eqb_spec (w_projection r) (f_projection_digest row)) as [E|_].
  - assert (Hr : row_offer row o).
    { apply Hprev. rewrite E. by apply newest_row_last; [apply (abs_sequence _ _ Hj)|]. }
    by rewrite (row_offer_fun _ _ _ Ho Hr).
  - assert (Hin : row ∈ followed j) by (apply last_Some in Hl as [l ->]; set_solver).
    rewrite (row_of_distinct _ _ (abs_distinct _ _ Hj) Hin), (row_offer_reload _ _ Ho) in H. cbn in H.
    inv_ok. step_guard H. by eapply monotonic_follows.
Qed.

Lemma StronglySorted_snoc {A} (R : A -> A -> Prop) l x :
  StronglySorted R l -> (forall y, y ∈ l -> R y x) -> StronglySorted R (l ++ [x]).
Proof.
  induction 1 as [|y l Hs IH Hf]; intros Hx; [repeat constructor|]. cbn. constructor.
  - apply IH. intros z Hz. apply Hx. by right.
  - apply Forall_app. split; [done|]. constructor; [apply Hx; by left|constructor].
Qed.

Lemma next_sequence_above rows row : row ∈ rows -> f_sequence row < next_sequence rows.
Proof.
  intros Hin. unfold next_sequence. set (l := f_sequence <$> rows).
  assert (Hx : f_sequence row ∈ sorted_by id l) by (apply sorted_by_elem, list_elem_of_fmap_2, Hin).
  pose proof (sorted_by_sorted id l) as Hs. destruct (last (sorted_by id l)) as [m|] eqn:El; [|apply last_None in El; rewrite El in Hx; by apply elem_of_nil in Hx].
  apply last_Some in El as [k El]. rewrite El in *. cbn [default]. apply elem_of_app in Hx as [Hx|Hx%list_elem_of_singleton]; [|cbn in *; lia].
  assert (Hle : key_le id (f_sequence row) m).
  { eapply StronglySorted_app_le; [exact Hs|exact Hx|]. by apply list_elem_of_singleton. }
  unfold key_le in Hle. rewrite cmp_leb_Z in Hle. cbn in *. lia.
Qed.

Lemma append_abs j log r o j' :
  follower_abs j log -> valid_offer o -> projection_digest (offer_projection o) = Ok (w_projection r) ->
  (forall row orow, last (followed j) = Some row -> row_offer row orow -> follows orow o) ->
  append_row j o r = Ok j' -> follower_abs j' (log ++ [r]).
Proof.
  intros Hj Hv Hp Hf H. unfold append_row in H. inv_ok. step_guard H. step_guard H. injection H as <-.
  apply bool_decide_eq_false in Eg0.
  match goal with |- context [followed j ++ [?x]] => set (row := x) end.
  assert (Hrow : row_offer row o) by done.
  split; cbn [followed followed_head own_offer].
  - by apply (abs_own _ _ Hj).
  - apply Forall2_app; [by apply (abs_records _ _ Hj)|]. constructor; [done|constructor].
  - apply Forall_app. split; [by apply (abs_offers _ _ Hj)|]. constructor; [by exists o|constructor].
  - rewrite fmap_app. apply NoDup_app. split; [by apply (abs_distinct _ _ Hj)|]. split; [|apply NoDup_singleton].
    intros d Hd Hd'%list_elem_of_singleton. subst. done.
  - rewrite fmap_app. apply StronglySorted_snoc; [by apply (abs_sequence _ _ Hj)|].
    intros s (y & -> & Hy)%list_elem_of_fmap. by apply next_sequence_above.
  - apply StronglySorted_snoc; [by apply (abs_follows _ _ Hj)|]. intros y Hy oy ob Hoy Hob.
    rewrite (row_offer_fun _ _ _ Hob Hrow). destruct (last (followed j)) as [l|] eqn:El.
    + destruct (abs_row _ _ Hj l) as (ol & Hol); [apply last_Some in El as [k ->]; set_solver|].
      etransitivity; [|by apply (Hf l ol)].
      pose proof (abs_follows _ _ Hj) as Hs. apply last_Some in El as [k Ek]. rewrite Ek in Hs, Hy.
      apply elem_of_app in Hy as [Hy|Hy%list_elem_of_singleton].
      * eapply (StronglySorted_app_le row_follows k [l] y l Hs Hy); [by apply list_elem_of_singleton|done|done].
      * subst y. by rewrite (row_offer_fun _ _ _ Hoy Hol).
    + apply last_None in El. rewrite El in Hy. by apply elem_of_nil in Hy.
  - unfold head_of. by rewrite last_snoc.
Qed.

Lemma swap_abs j log e r j' :
  follower_abs j log -> swap_rows e r j = Ok j' ->
  follower_abs j' (log ++ [r]) /\ head_digest log = Ok e /\ w_prior r = e.
Proof.
  intros Hj H. unfold swap_rows in H. apply bind_Ok in H as (u & _ & H). step_guard H.
  rewrite (abs_read_head _ _ Hj) in H. cbn [mbind result_bind] in H. step_guard H.
  apply bind_Ok in H as (o & Ho & H). apply bind_Ok in H as (v & Hc & H).
  apply negb_false_iff, bool_decide_eq_true in Eg, Eg0. split; [|split; [|done]].
  - pose proof (offer_for_spec _ _ _ _ Hj Ho) as (Hv & Hp & _). eapply append_abs; [done|done|done| |exact H].
    by eapply check_follows_spec.
  - unfold head_digest. destruct (abs_last _ _ Hj) as [[-> El]|(l & row & -> & El & (Hd & _ & _))]; rewrite El in Eg0; cbn in Eg0.
    + by rewrite <- Eg0.
    + rewrite Hd. by rewrite <- Eg0.
Qed.

Lemma loaded_last j log o : follower_abs j log -> follower_load j = Ok o -> o = last log.
Proof.
  intros Hj. unfold follower_load, load_within. rewrite (abs_read_head _ _ Hj).
  destruct (abs_last _ _ Hj) as [[-> El]|(l & row & -> & El & (Hd & Hrec & Hpd))]; rewrite El; cbn [fmap option_fmap option_map].
  - cbn. by intros [= <-].
  - destruct (load_head_row _ _ _) as [record|] eqn:E; [|done].
    assert (record = l) as ->.
    { unfold load_head_row in E. rewrite row_of_distinct in E; [|by apply (abs_distinct _ _ Hj)|apply last_Some in El as [k ->]; set_solver].
      apply bind_Ok in E as (x & Hx%rewrap_ok & E). rewrite Hrec, record_from_to_dict in Hx. apply rebuild_same in Hx.
      inv_ok. step_guard E. by injection E as <-. }
    destruct (walk _ _ _ _) as [[u|e]|]; cbn; [by intros [= <-]|done|done].
Qed.

#[export] Instance follower_laws : JournalLaws FollowerJournal.
Proof.
  refine {| journal_abs := follower_abs |}.
  - intros j log o. apply loaded_last.
  - cbn. unfold follower_swap. intros e r j j' u log Hj H. destruct (swap_rows e r j) as [j2|] eqn:E; [|done].
    injection H as <- _. by apply (swap_abs j).
  - cbn. unfold follower_swap. intros e r j j' x H. by destruct (swap_rows e r j); simplify_eq.
Defined.

(** ** What was appended last loads *)

Definition valid_record (r : WeightPublicationRecord) : Prop := rebuild_record r = Ok r.

Lemma Forall2_split {A B} (R : A -> B -> Prop) rows pre (r : B) suf :
  Forall2 R rows (pre ++ r :: suf) ->
  exists rpre row rsuf, rows = rpre ++ row :: rsuf /\ Forall2 R rpre pre /\ R row r /\ Forall2 R rsuf suf.
Proof. intros (rpre & rsuf' & Hp & (row & rsuf & Hr & Hs & ->)%Forall2_cons_inv_r & ->)%Forall2_app_inv_r. by eexists _, _, _. Qed.

(** The walk from the record at the end of a prefix of a chain. *)
Lemma walk_chain rows log : Forall2 row_record rows log -> NoDup (f_record_digest <$> rows) ->
  Forall valid_record log -> chained log ->
  forall pre r rpre row rsuf seen fuel, Forall2 row_record rpre pre -> row_record row r ->
    chained (pre ++ [r]) -> Forall valid_record pre -> rows = rpre ++ row :: rsuf ->
    seen ⊆ f_record_digest <$> rsuf -> (length pre < fuel)%nat -> walk fuel rows seen r = Some (Ok tt).
Proof.
  intros Hrows Hnd _ _. induction pre as [|l pre IH] using rev_ind; intros r rpre row rsuf seen fuel Hpre Hr Hc Hv E Hseen Hlen;
    (destruct fuel as [|fuel]; [lia|]); cbn [walk]; rewrite (proj1 Hr).
  all: assert (Hnew : f_record_digest row ∉ seen) by
    (intros Hin%Hseen; rewrite E, fmap_app in Hnd; apply NoDup_app in Hnd as (_ & _ & Hnd);
     rewrite fmap_cons in Hnd; by apply NoDup_cons in Hnd as [? _]).
  all: rewrite bool_decide_false by done.
  all: apply chained_snoc in Hc as [Hc Hh].
  - cbn in Hh. injection Hh as <-. done.
  - unfold head_digest in Hh. rewrite last_snoc in Hh. apply Forall2_app_inv_r in Hpre as (rp & rl & Hrp & Hl & ->).
    apply Forall2_cons_inv_r in Hl as (lrow & nil & Hl & Hnil & ->). apply Forall2_nil_inv_r in Hnil as ->.
    apply Forall_app in Hv as [Hv Hvl%Forall_inv]. rewrite (proj1 Hl) in Hh. injection Hh as <-.
    assert (Hin : lrow ∈ rows) by (rewrite E; set_solver).
    pose proof Hl as (Hd & Hrec & _). unfold valid_record in Hvl.
    rewrite (row_of_distinct _ _ Hnd Hin). unfold read_record. rewrite Hrec, record_from_to_dict, Hvl. cbn [rewrap].
    rewrite Hd, String.eqb_refl. apply (IH l rp lrow (row :: rsuf)); [done|done|done|done| | |].
    + by rewrite E, <- app_assoc.
    + rewrite fmap_cons. intros x [->|Hx]%elem_of_cons; [by left|right; by apply Hseen].
    + rewrite length_app in Hlen. cbn in Hlen. lia.
Qed.

Lemma load_reopens j log :
  follower_abs j log -> Forall valid_record log -> chained log -> follower_load j = Ok (last log).
Proof.
  intros Hj Hv Hc. unfold follower_load, load_within, load_steps. rewrite (abs_read_head _ _ Hj).
  destruct (abs_last _ _ Hj) as [[-> El]|(l & row & Hl & El & Hr)]; rewrite El; [done|].
  cbn [fmap option_fmap option_map].
  assert (Hin : row ∈ followed j) by (apply last_Some in El as [k ->]; set_solver).
  destruct (abs_row _ _ Hj _ Hin) as (o & Ho). pose proof Ho as (_ & _ & Hod & Hpd).
  apply last_Some in Hl as [pre El']. rewrite El' in *. apply Forall_app in Hv as [Hv Hvl%Forall_inv].
  unfold load_head_row. rewrite (row_of_distinct _ _ (abs_distinct _ _ Hj) Hin).
  pose proof Hr as (Hd & Hrec & Hp). unfold read_record, valid_record in *. rewrite Hrec, record_from_to_dict, Hvl. cbn [rewrap mbind result_bind].
  rewrite (row_offer_reload _ _ Ho). cbn [mbind result_bind]. rewrite Hd. cbn [mbind result_bind]. rewrite Hpd. cbn [mbind result_bind].
  rewrite Hod. cbn [mbind result_bind]. rewrite Hp, !String.eqb_refl. cbn [negb orb].
  pose proof (abs_records _ _ Hj) as H2. destruct (Forall2_split _ _ _ _ _ H2) as (rpre & row' & rsuf & E & Hpre & Hrow & Hsuf).
  apply Forall2_nil_inv_r in Hsuf as ->. assert (row' = row) as ->.
  { rewrite E, last_snoc in El. by injection El. }
  rewrite (walk_chain _ _ H2 (abs_distinct _ _ Hj) ltac:(by apply Forall_app; split; [|apply Forall_singleton]) Hc pre l rpre row [] []);
    [|done|done|done|done|done|done|].
  - by rewrite last_snoc.
  - apply Forall2_length in H2. rewrite H2, length_app. cbn. lia.
Qed.

(** ** Histories of the store *)

(** A pass opens the journal over the same store with its own checked offer, and swaps once. *)
Inductive pass : FollowerJournal -> FollowerJournal -> Prop :=
  | swapped offer e r rows head own j u :
      valid_offer offer -> valid_record r ->
      follower_swap e r (mkFollower rows head offer) = (j, Ok u) -> pass (mkFollower rows head own) j.

Definition empty_follower (offer : CurrentWeightOffer) : FollowerJournal := mkFollower [] None offer.

Lemma with_own j log offer :
  follower_abs j log -> valid_offer offer -> follower_abs (mkFollower (followed j) (followed_head j) offer) log.
Proof. intros [] Hv. by split. Qed.

Lemma empty_abs offer : valid_offer offer -> follower_abs (empty_follower offer) [].
Proof. intros Hv. split; try done; constructor. Qed.

Lemma pass_abs j j' log :
  pass j j' -> follower_abs j log -> Forall valid_record log -> chained log ->
  exists r, follower_abs j' (log ++ [r]) /\ Forall valid_record (log ++ [r]) /\ chained (log ++ [r]).
Proof.
  intros Hpass Hj Hv Hc. destruct Hpass as [offer e r rows head own j u Ho Hr H].
  unfold follower_swap in H. destruct (swap_rows e r _) as [j2|] eqn:E; [|done]. injection H as -> _.
  pose proof (swap_abs _ _ _ _ _ (with_own _ _ offer Hj Ho) E) as (Habs & Hd & Hw). exists r. split_and!; [done| |].
  - apply Forall_app. split; [done|]. by constructor.
  - apply chained_snoc. split; [done|]. by rewrite Hw.
Qed.

Lemma history_abs offer j : valid_offer offer -> rtc pass (empty_follower offer) j ->
  exists log, follower_abs j log /\ Forall valid_record log /\ chained log.
Proof.
  intros Ho Hrun. remember (empty_follower offer) as j0.
  assert (H0 : exists log, follower_abs j0 log /\ Forall valid_record log /\ chained log).
  { exists []. subst. split; [by apply empty_abs|]. split; [constructor|done]. }
  clear Heqj0. induction Hrun as [|j0 j1 j2 Hp _ IH]; [done|]. apply IH.
  destruct H0 as (log & Hj & Hv & Hc). destruct (pass_abs _ _ _ Hp Hj Hv Hc) as (r & Hr). by exists (log ++ [r]).
Qed.

Lemma rows_offers rows : Forall (fun row => exists o, row_offer row o) rows -> StronglySorted row_follows rows ->
  exists offers, Forall2 row_offer rows offers /\ StronglySorted follows offers.
Proof.
  induction rows as [|row rows IH]; intros Hf Hs; [exists []; split; constructor|].
  apply Forall_cons in Hf as [(o & Ho) Hf]. apply StronglySorted_inv in Hs as [Hs Hrow].
  destruct (IH Hf Hs) as (offers & H2 & Hso). exists (o :: offers). split; [by constructor|]. constructor; [done|].
  apply Forall_forall. intros o' Ho'. rewrite Forall_forall in Hrow.
  apply list_elem_of_lookup in Ho' as (i & Hi). destruct (Forall2_lookup_r _ _ _ _ _ H2 Hi) as (row' & Hi' & Hr').
  by apply (Hrow row'); [eapply list_elem_of_lookup_2|..].
Qed.

(** C7: a follower's journal is a chain of publications over offers that only move forward. After any
    sequence of accepted swaps, by any checked offers and records, starting from an empty store: the rows are
    exactly a log in which every record names its predecessor's digest and no digest repeats; the offers behind
    the rows stay on one chain, subnet and signer, at effective blocks that never regress, one offer per
    block; and loading returns the record appended last. *)
Theorem follower_history offer j :
  valid_offer offer -> rtc pass (empty_follower offer) j ->
  exists log offers,
    Forall2 row_record (followed j) log /\ Forall2 row_offer (followed j) offers /\
    chained log /\ NoDup (f_record_digest <$> followed j) /\ StronglySorted follows offers /\ load j = Ok (last log).
Proof.
  intros Ho Hrun. destruct (history_abs _ _ Ho Hrun) as (log & Hj & Hv & Hc).
  destruct (rows_offers _ (abs_offers _ _ Hj) (abs_follows _ _ Hj)) as (offers & H2 & Hs). exists log, offers.
  split_and!; [by apply (abs_records _ _ Hj)|done|done|by apply (abs_distinct _ _ Hj)|done|by apply load_reopens].
Qed.

(** ** Examples *)

Definition digest_of {A} (d : A -> result string) (a : A) : string := match d a with Ok h => h | Raise _ => "" end.

(** The empty store takes the intent of the sample projection, then its confirmation. *)
Definition sample_intent : WeightPublicationRecord :=
  mkRecord (digest_of projection_digest sample_projection) p_intent None 95 455 0 0 0 "before_sdk_submission".
Definition sample_confirmed : WeightPublicationRecord :=
  mkRecord (digest_of projection_digest sample_projection) p_confirmed (Some (digest_of record_digest sample_intent))
    95 455 0 97 96 "post_submit_authoritative_readback".

Definition swap_of (e : option string) (r : WeightPublicationRecord) (j : FollowerJournal) : FollowerJournal :=
  (follower_swap e r j).1.
Definition journal0 : FollowerJournal := empty_follower sample_offer.
Definition journal1 : FollowerJournal := Eval vm_compute in swap_of None sample_intent journal0.
Definition journal2 : FollowerJournal :=
  Eval vm_compute in swap_of (Some (digest_of record_digest sample_intent)) sample_confirmed journal1.

Lemma sample_offer_valid : valid_offer sample_offer.
Proof. split; vm_compute; reflexivity. Qed.

Lemma sample_run : rtc pass journal0 journal2.
Proof.
  apply (rtc_l _ _ journal1).
  - apply (swapped sample_offer None sample_intent [] None sample_offer journal1 tt);
      [apply sample_offer_valid|vm_compute; reflexivity|vm_compute; reflexivity].
  - apply rtc_once. destruct journal1 as [rows head own] eqn:E.
    apply (swapped sample_offer (Some (digest_of record_digest sample_intent)) sample_confirmed rows head own journal2 tt);
      [apply sample_offer_valid|vm_compute; reflexivity|]. injection E as <- <- <-. vm_compute. reflexivity.
Qed.

Lemma follower_history_witness :
  exists log offers,
    Forall2 row_record (followed journal2) log /\ Forall2 row_offer (followed journal2) offers /\
    chained log /\ NoDup (f_record_digest <$> followed journal2) /\ StronglySorted follows offers /\
    load journal2 = Ok (last log).
Proof. apply (follower_history sample_offer); [apply sample_offer_valid|apply sample_run]. Defined.

(** [load_terminates] on the example, whose load needs two steps. *)
Lemma load_journal2 : load_within 3 journal2 = Some (Ok (Some sample_confirmed)) /\ load_steps journal2 = 3%nat.
Proof. split; vm_compute; reflexivity. Qed.
