(* ===== verification/CommitContracts.v ===== *)
(** * Contracts of the follower's commit, and of both runs on the journal

    [commit_weight_publication] journals one intent, calls the signer once and
    journals the outcome, unless a confirmed head still paces the same vector;
    and every run of [weights.py] and [weight_commit.py] extends a lawful
    journal by exactly the records it journaled. *)

From S2P Require Import Prelude PyVal Dict Identity Effects Floats Publication Chain Journal Reconcile ReconcileTrace ReconcileContracts.

Open Scope Z_scope.

Section Runs.
Context {W J : Type} `{JournalLaws J} (subtensor : Subtensor W).
Implicit Types (s : env W J) (p : WeightProjection).

Lemma signed_logged b u v s : logged s (mkEnv (world s) (journal s) (effects s ++ [Signed b u v])).
Proof. exists [Signed b u v]. split; [done|]. intros log Hlog. by rewrite app_nil_r. Qed.

(** Publishing never corrupts the journal. However a run of the publisher or of the follower ends, a
    lawful journal holds afterwards exactly what it held plus the records the run journaled, in order; and
    if every record named its predecessor's digest before, every record does after. *)
Lemma runs_extend_journal `{!ReopenableWeightPublicationJournal J} signer who p o refresh dry s log :
  journal_abs (journal s) log ->
  let extended s' := exists new, effects s' = effects s ++ new /\
    journal_abs (journal s') (log ++ journaled new) /\ (chained log -> chained (log ++ journaled new)) in
  extended (reconcile_weight_publication subtensor signer p o s).1 /\
  extended (commit_weight_publication subtensor who p refresh dry s).1.
Proof.
  intros Hlog extended. assert (Hkeep : forall s', logged s s' -> extended s').
  { intros s' (new & E & Hnew). exists new. split; [done|]. by apply Hnew. }
  split; apply Hkeep.
  - apply (reconcile_keeps subtensor logged). apply signed_logged.
  - apply (commit_keeps subtensor logged). apply signed_logged.
Qed.
End Runs.

(** ** One commit *)

Section Commit.
Context {W J : Type} `{ReopenableWeightPublicationJournal J} (subtensor : Subtensor W).
Implicit Types (s : env W J) (p : WeightProjection).

Lemma on_chain_run {A} (m : ST W A) s s' (r : result A) :
  on_chain m s = (s', r) -> journal s' = journal s /\ effects s' = effects s.
Proof. unfold on_chain, zoom. destruct (m (world s)). by intros [= <- _]. Qed.

Lemma bound_view_run p v s s' r :
  bound_view subtensor p v s = (s', r) -> journal s' = journal s /\ effects s' = effects s.
Proof.
  unfold bound_view. unfold mbind at 1, ST_bind at 1.
  destruct ((if mv_block v =? effective_block p then mret v
             else on_chain (fetch_metagraph subtensor (netuid p) (Some (effective_block p)))) s) as [s1 [b|e]] eqn:E.
  all: assert (H1 : journal s1 = journal s /\ effects s1 = effects s)
    by (destruct (_ =? _); [by injection E as <- _|by apply on_chain_run in E]).
  2: { by intros [= <- _]. }
  unfold mbind, ST_bind, of_result. destruct (_metagraph_digest p b); [|by intros [= <- _]].
  destruct (negb _); by intros [= <- _].
Qed.

(** The submission of the commit: what it says it did, it did. *)
Lemma commit_attempt_run p v s s' response :
  commit_attempt subtensor p v s = (s', Ok response) ->
  journal s' = journal s /\
  (effects s' = effects s /\ match response with Some x => submitted x = false | None => True end \/
   exists uids vector, effects s' = effects s ++ [Signed (mv_block v) uids vector] /\ vector_at p (mv_block v) uids vector).
Proof.
  intros Hrun. pose proof (set_weights_trace subtensor p v s) as Ht. unfold wp in Ht.
  unfold commit_attempt, catch, fmap, ST_fmap in Hrun.
  destruct (set_weights subtensor (netuid p) (projection_weights p) false v s) as [s1 [x|e]]; cbn [fst snd] in Ht;
    injection Hrun as <- <-; destruct Ht as [Hj [[E Hx]|E]]; split; auto.
Qed.

Lemma advance_prior c r s s' r' :
  _advance c r s = (s', Ok r') -> match c with Some c => Some <$> record_digest c | None => Ok None end = Ok (w_prior r').
Proof.
  unfold _advance. intros (s1 & expected & Hd & Hrun)%bind_run. unfold of_result in Hd. injection Hd as <- Hd. rewrite Hd.
  inv_run; [done|]. match goal with H : new_record _ _ = _ |- _ => apply new_record_run in H as [-> ->] end. done.
Qed.

Lemma retained_run d s s' q : retained d s = (s', Ok q) -> s' = s /\ retained_projection (journal s) d = Ok q.
Proof. by intros [= <- ?]. Qed.

(** What paces a commit: the confirmed head, when it already carries this vector and its refresh is not due. *)
Definition paced_by p (refresh block : Z) s (c : WeightPublicationRecord) : Prop :=
  load (journal s) = Ok (Some c) /\ w_status c = p_confirmed /\ block < confirmed_block c + refresh /\
  exists kept, retained_projection (journal s) (w_projection c) = Ok kept /\ weights_ppm kept = weights_ppm p.

(** An intent for [p] at [block], the attempt, and its outcome linked to the intent. *)
Definition committed p (block : Z) (sent : bool) (rec : WeightPublicationRecord) (new : list effect) : Prop :=
  exists intent, journaled new = [intent; rec] /\ w_status intent = p_intent /\ submit_block intent = block /\
    Some <$> record_digest intent = Ok (w_prior rec) /\
    projection_digest p = Ok (w_projection intent) /\ w_projection rec = w_projection intent /\
    if sent then w_status rec = p_confirmed /\ confirmed_block rec = block /\ signed_once p True new
    else w_status rec = p_released.

(** The tail of a commit that is not paced. *)
Definition commit_now p (live : MetagraphView) (current : option WeightPublicationRecord) :
    ST (env W J) WeightPublicationResult :=
  digest ← of_result (projection_digest p);
  r ← new_record (mkRecord digest p_intent None (mv_block live) (mv_block live) 0 0 0 "before_sdk_submission");
  intent ← _advance current r;
  response ← commit_attempt subtensor p live;
  let accepted := match response with Some s => submitted s | None => false end in
  r ← new_record (commit_record digest (mv_block live) (_reveal_round response) accepted);
  record ← _advance (Some intent) r;
  new_result (mkResult digest (Published (w_status record)) (Some record) false accepted false (mv_block live) false).

Lemma commit_now_run p live current s s' r :
  commit_now p live current s = (s', Ok r) ->
  exists new rec, effects s' = effects s ++ new /\ o_record r = Some rec /\ observed_block r = mv_block live /\
    committed p (mv_block live) (o_submitted r) rec new.
Proof.
  unfold commit_now. intros (s1 & digest & Hd & Hrun)%bind_run. unfold of_result in Hd. injection Hd as -> Hd.
  apply bind_run in Hrun as (s2 & r0 & [-> ->]%new_record_run & Hrun).
  apply bind_run in Hrun as (s3 & intent & (E3 & prior & ->)%advance_journals & Hrun).
  apply bind_run in Hrun as (s4 & response & [_ E4]%commit_attempt_run & Hrun). cbv zeta in Hrun.
  set (accepted := match response with Some s => submitted s | None => false end) in *.
  apply bind_run in Hrun as (s5 & r1 & [-> ->]%new_record_run & Hrun).
  apply bind_run in Hrun as (s6 & rec & Hadv & Hrun). pose proof (advance_prior _ _ _ _ _ Hadv) as Hprior.
  apply advance_journals in Hadv as (E6 & prior' & Erec). unfold new_result, of_result, make_result in Hrun.
  injection Hrun as <- Hres. apply bind_Ok in Hres as (d & _ & Hres). step_guard Hres. injection Hres as <-.
  cbn [o_record observed_block o_submitted]. set (intent := with_prior prior _) in *.
  assert (Hrest : forall new, journaled new = [intent; rec] -> (accepted = true -> signed_once p True new) ->
    committed p (mv_block live) accepted rec new).
  { intros new Hj Hs. exists intent. rewrite Erec. cbn. split_and!; [by rewrite Hj, Erec|done|done| |done|done|].
    - by rewrite Hprior, Erec.
    - destruct accepted; [|done]. split_and!; [done|done|by apply Hs]. }
  destruct E4 as [[E4 Hno]|(uids & vector & E4 & Hvec)].
  - exists [Journaled intent; Journaled rec], rec. split; [by rewrite E6, E4, E3, <- app_assoc|].
    split_and!; [done|done|]. apply Hrest; [done|]. unfold accepted. destruct response; [by rewrite Hno|done].
  - exists [Journaled intent; Signed (mv_block live) uids vector; Journaled rec], rec.
    split; [by rewrite E6, E4, E3, <- !app_assoc|]. split_and!; [done|done|]. apply Hrest; [done|]. intros _.
    exists [], intent, uids, vector, [Journaled rec]. split_and!; [done|constructor|by repeat constructor|done|done|done|done].
Qed.

(** C27: a commit is journaled around its only signature, or the head already paces it. When the follower's
    commit returns, either nothing was done, because the journal's confirmed head carries the same weights
    and its refresh is not due; or the run journaled an intent for this projection at the observed block and
    then one outcome naming that intent: confirmed at that block exactly when the submission was accepted,
    and then the vector of the projection was signed once, right after the intent; released otherwise. *)
Theorem commit_contract (who : string) p (refresh : Z) s s' r :
  commit_weight_publication subtensor who p refresh false s = (s', Ok r) ->
  who = p_validator p /\ effective_block p <= observed_block r <= effective_block p + refresh /\
  exists new rec, effects s' = effects s ++ new /\ o_record r = Some rec /\
    (paced_by p refresh (observed_block r) s rec /\ new = [] /\ o_submitted r = false \/
     committed p (observed_block r) (o_submitted r) rec new).
Proof.
  unfold commit_weight_publication. destruct (refresh <=? 0); [done|].
  destruct (String.eqb_spec who (p_validator p)) as [->|]; [cbn [negb]|done].
  intros (s1 & live & [J1 E1]%on_chain_run & Hrun)%bind_run. cbv zeta in Hrun.
  destruct (_ || _) eqn:Eage; [done|]. apply orb_false_iff in Eage as [Elo%Z.ltb_ge Ehi%Z.ltb_ge].
  apply bind_run in Hrun as (s2 & bound & [J2 E2]%bound_view_run & Hrun). destruct (negb _); [done|].
  apply bind_run in Hrun as (s3 & current & Hload & Hrun). unfold load_head in Hload. injection Hload as -> Hload.
  apply bind_run in Hrun as (s4 & previous & Hprev & Hrun).
  assert (Hs4 : s4 = s3 /\ match previous with
    | Some (kept, c) => retained_projection (journal s3) (w_projection c) = Ok kept /\ current = Some c /\
                        paced p kept c (mv_block live) refresh = true
    | None => True end).
  { destruct current as [c|]; [|by injection Hprev as <- <-].
    apply bind_run in Hprev as (s5 & kept & [-> Hkept]%retained_run & Hprev). destruct (_ || _); [done|].
    injection Hprev as <- <-. destruct (paced p kept c (mv_block live) refresh) eqn:Ep; by split. }
  destruct Hs4 as [-> Hpaced]. destruct previous as [[kept c]|].
  - destruct Hpaced as (Hkept & -> & Hp). apply bind_run in Hrun as (s5 & digest & Hd & Hrun). unfold of_result in Hd.
    injection Hd as -> Hd. unfold new_result, of_result, make_result in Hrun. injection Hrun as <- Hres.
    apply bind_Ok in Hres as (d & _ & Hres). step_guard Hres. injection Hres as <-. cbn [observed_block o_record o_submitted].
    split; [done|]. split; [lia|]. exists [], c. rewrite app_nil_r, <- E1, E2. split_and!; [done|done|]. left. split; [|done].
    unfold paced in Hp. rewrite !andb_true_iff, bool_decide_eq_true, Z.ltb_lt in Hp. destruct Hp as [[Hst Hw] Hlt].
    unfold paced_by. rewrite <- J1, <- J2. split_and!; [done|by apply status_in_one|done|by exists kept].
  - apply (commit_now_run p live current) in Hrun as (new & rec & E & Hrec & Hobs & Hcom). rewrite Hobs.
    split; [done|]. split; [lia|]. exists new, rec. rewrite E, E2, E1. split_and!; [done|done|]. by right.
Qed.
End Commit.
