(* ===== verification/PublicationExample.v ===== *)
(** * A publication, run

    A small chain on which the sample publisher and follower run to the end:
    the theorems about publication apply to these runs. *)

From S2P Require Import Prelude PyVal Dict Identity Effects Floats Publication Chain Journal Reconcile ReconcileTrace ReconcileContracts CommitContracts Offers FollowerJournal FollowerContracts.

Open Scope Z_scope.

(** The world is its finalized block. A submission is included in the next block and finalized one later. *)
Definition demo_hash : string := string_app "0x" (sample_digest 97).
Definition demo_members : list string := ["5Validator"; "5Miner"; "5Owner"].
Definition included (block : Z) : bool := 97 <=? block.

Definition demo_metagraph (block : Z) : sdk_metagraph :=
  mkSdkMetagraph (VInt block) [VInt 0; VInt 1; VInt 2] (VStr <$> demo_members) [VBool true; VBool false; VBool false]
    [VInt (if included block then 96 else 80); VInt 0; VInt 0].

Definition demo_rows (block : Z) : list pyval :=
  if included block
  then [VTuple [VInt 0; VList [VTuple [VInt 1; VInt 39321]; VTuple [VInt 2; VInt 26214]]]] else [].

Definition demo_hyperparameter (name : string) : option Z :=
  if String.eqb name "WeightsVersionKey" then Some 1 else if String.eqb name "WeightsSetRateLimit" then Some 10 else None.

Definition demo : Subtensor Z :=
  {| get_finalized_block_number := Some (asks VInt);
     substrate := None;
     get_block_hash := fun _ => mret demo_hash;
     metagraph := fun _ block => mret (demo_metagraph block);
     weights := fun _ block => mret (demo_rows block);
     get_hyperparameter := fun name _ _ => mret (demo_hyperparameter name);
     get_timelocked_weight_commits := fun _ _ => mret [];
     sdk_set_weights := fun _ _ _ _ => _ ← update (fun block => block + 2); mret (OutTuple [VBool true; VStr "ok"]) |}.

Definition demo_view (block : Z) : MetagraphView :=
  mkView 3 block demo_hash [0; 1; 2] demo_members [true; false; false] [80; 0; 0].

Definition demo_projection : WeightProjection := Eval vm_compute in
  let base := mkProjection (sample_digest 97) 3 "5Validator" (sample_digest 98) (sample_digest 99) (sample_digest 100)
    (sample_digest 101) [sample_digest 102] 4 95 1 [sample_digest 48] [("5Miner", 600000); ("5Owner", 400000)] None None in
  match _metagraph_digest base (demo_view 95) with
  | Ok d => mkProjection (p_scope base) 3 "5Validator" (p_policy base) (p_settlement_state base) (p_evaluation_state base)
      d (arena_state_digests base) 4 95 1 (evidence_digests base) (weights_ppm base) None None
  | Raise _ => base
  end.

Definition demo_offer : CurrentWeightOffer := mkOffer LANE_LEGACY_V1 demo_projection.
Definition demo_start : env Z FollowerJournal := mkEnv 95 (empty_follower demo_offer) [].
Definition demo_options : options := mkOptions 360 false false false None false.

Definition demo_outcome : env Z FollowerJournal * result WeightPublicationResult :=
  Eval vm_compute in reconcile_weight_publication demo (Some "5Validator") demo_projection demo_options demo_start.
Definition commit_result : env Z FollowerJournal * result WeightPublicationResult :=
  Eval vm_compute in commit_weight_publication demo "5Validator" demo_projection 360 false demo_start.

Definition result_of {A B} (default : B) (run : A * result B) : B := match run.2 with Ok b => b | Raise _ => default end.
Definition no_result : WeightPublicationResult := mkResult "" DryRun None false false true 0 false.
Definition demo_result : WeightPublicationResult := Eval vm_compute in result_of no_result demo_outcome.

Lemma demo_runs :
  reconcile_weight_publication demo (Some "5Validator") demo_projection demo_options demo_start =
  (demo_outcome.1, Ok demo_result).
Proof. vm_compute. reflexivity. Qed.

Lemma signing_discipline_witness :
  disciplined demo_projection (may_sign demo demo_projection demo_options (Some "5Validator") demo_start) demo_start demo_outcome.1 /\
  existsb is_signed (effects demo_outcome.1) = true.
Proof.
  split; [|vm_compute; reflexivity].
  apply (signing_discipline demo (Some "5Validator") demo_projection demo_options demo_start demo_outcome.1 (Ok demo_result)).
  apply demo_runs.
Defined.

Lemma confirmed_by_readback_witness :
  exists view snapshot rec new,
    effects demo_outcome.1 = effects demo_start ++ new /\ Observed view snapshot ∈ new /\
    last_update_block snapshot <= mv_block view /\
    _matches snapshot demo_projection = true /\ observed_block demo_result = mv_block view /\
    o_record demo_result = Some rec /\ w_status rec = p_confirmed /\ projection_digest demo_projection = Ok (w_projection rec) /\
    (load (journal demo_start) = Ok (Some rec) \/ Journaled rec ∈ new /\ confirmed_at demo_projection view snapshot rec).
Proof.
  apply (confirmed_by_readback demo (Some "5Validator") demo_projection demo_options); [apply demo_runs|].
  vm_compute. reflexivity.
Defined.

Definition demo_commit : WeightPublicationResult := Eval vm_compute in result_of no_result commit_result.

Lemma commit_contract_witness :
  o_submitted demo_commit = true /\
  ("5Validator" = p_validator demo_projection /\
   effective_block demo_projection <= observed_block demo_commit <= effective_block demo_projection + 360 /\
   exists new rec, effects commit_result.1 = effects demo_start ++ new /\ o_record demo_commit = Some rec /\
     (paced_by demo_projection 360 (observed_block demo_commit) demo_start rec /\ new = [] /\ o_submitted demo_commit = false \/
      committed demo_projection (observed_block demo_commit) (o_submitted demo_commit) rec new)).
Proof.
  split; [vm_compute; reflexivity|].
  apply (commit_contract demo "5Validator" demo_projection 360 demo_start commit_result.1 demo_commit).
  vm_compute. reflexivity.
Defined.

(** The example journal of two records needs no more than its three steps. *)
Lemma load_terminates_witness :
  exists outcome, load_within 3 journal2 = Some outcome /\ load journal2 = outcome.
Proof. apply (load_terminates journal2 3). vm_compute. reflexivity. Defined.
