(* ===== verification/StackContracts.v ===== *)
(** * Evaluation stacks: what the operations guarantee

    A stored manifest or contribution is one that its constructor accepts again
    with its own fields. Every accepted one is stored, reopens from its own
    [to_dict], and a replacement changes one target and nothing else. *)

From S2P Require Import Prelude PyVal Dict Identity Strict Stack.

Open Scope Z_scope.

(** ** Values that canonical text encodes *)

(** Object keys in order, at every depth. *)
Inductive sorted_json : json -> Prop :=
| sorted_null : sorted_json JNull
| sorted_bool b : sorted_json (JBool b)
| sorted_int z : sorted_json (JInt z)
| sorted_str s : sorted_json (JStr s)
| sorted_arr l : Forall sorted_json l -> sorted_json (JArr l)
| sorted_obj l : StronglySorted (key_le fst) l -> Forall (fun kv => sorted_json kv.2) l -> sorted_json (JObj l).

#[export] Hint Constructors sorted_json : py.

Lemma to_json_sorted v j : to_json v = Ok j -> sorted_json j.
Proof.
  revert j. induction v as [|b|z|f|s|l IH|l IH|l IH|t] using pyval_ind'; intros j H; simpl in H;
    try (injection H as <-; constructor); try discriminate.
  1, 2: apply fmap_Ok in H as (js & H & <-); constructor; revert js H;
    induction IH as [|v l Hv _ IHl]; intros js H; [by injection H as <-|];
    inv_ok; constructor; eauto.
  inv_ok. constructor; [apply sorted_by_sorted|]. rewrite sorted_by_perm. revert x Hx.
  induction IH as [|[k v] l [_ Hv] _ IHl]; intros items H; [by injection H as <-|].
  destruct k; try discriminate. inv_ok. constructor; eauto.
Qed.

Lemma of_json_canonical j : sorted_json j -> to_json (of_json j) = Ok j /\ native (of_json j) = true.
Proof.
  induction j as [|b|z|s|l IH|l IH] using json_ind'; intros H; try done.
  - inversion_clear H as [| | | |? Hl|]. simpl. refold_fmap.
    enough (G : (fix go l := match l with [] => Ok [] | v :: l => j ← to_json v; js ← go l; Ok (j :: js) end)
                  (of_json <$> l) = Ok l /\ forallb native (of_json <$> l) = true)
      by (destruct G as [-> ->]; done).
    induction IH as [|j l Hj _ IHl]; [done|]. inversion_clear Hl as [|? ? H1 H2].
    destruct (Hj H1) as [E1 E2], (IHl H2) as [E3 E4]. simpl. refold_fmap. by rewrite E1, E2, E4, E3.
  - inversion_clear H as [| | | | |? Hs Hl].
    change (of_json (JObj l)) with (VDict ((fun kv => (VStr kv.1, of_json kv.2)) <$> l)).
    assert (E : VDict ((fun kv => (VStr kv.1, of_json kv.2)) <$> l) = str_dict ((fun kv => (kv.1, of_json kv.2)) <$> l))
      by (unfold str_dict; by rewrite <- list_fmap_compose).
    rewrite E, to_json_str_dict, native_str_dict.
    enough (G : map_result member_json ((fun kv => (kv.1, of_json kv.2)) <$> l) = Ok l /\
                forallb (fun kv => native kv.2) ((fun kv => (kv.1, of_json kv.2)) <$> l) = true)
      by (destruct G as [-> ->]; simpl; by rewrite sorted_by_fix).
    clear Hs E. induction IH as [|[k j] l Hj _ IHl]; [done|]. inversion_clear Hl as [|? ? H1 H2].
    destruct (Hj H1) as [E1 E2], (IHl H2) as [E3 E4]. rewrite fmap_cons. cbn [map_result forallb fst snd] in *.
    change (member_json (k, of_json j)) with (v ← to_json (of_json j); Ok (k, v)). by rewrite E1, E2, E4, E3.
Qed.


Lemma catalog_json_again snapshot j : _catalog_json snapshot = Ok j -> _catalog_json (of_json j) = Ok j.
Proof.
  unfold _catalog_json. intros H. destruct snapshot as [| | | | | | |items|]; try discriminate.
  destruct items as [|kv items]; [discriminate|].
  destruct (canonical_json_bytes (VDict (kv :: items))) as [b|e] eqn:Hb; [|by case_bool_decide].
  apply canonical_json_bytes_Ok in Hb as (_ & j' & Hj & -> & Hs). rewrite Hj in H. injection H as <-.
  pose proof (of_json_canonical _ (to_json_sorted _ _ Hj)) as [E1 E2].
  assert (Hb : canonical_json_bytes (of_json j') = Ok (render j')) by (apply canonical_json_bytes_Ok; eauto).
  destruct j' as [| | | | |l]; try (by apply fmap_Ok in Hj as (? & _ & ?)); try (simpl in Hj; inv_ok; done).
  destruct l as [|kj l].
  - exfalso. simpl in Hj. inv_ok. apply (f_equal length) in Hj. rewrite sorted_by_length in Hj.
    destruct kv as [[] v]; try discriminate. by inv_ok.
  - change (of_json (JObj (kj :: l))) with (VDict ((VStr kj.1, of_json kj.2) :: ((fun kv => (VStr kv.1, of_json kv.2)) <$> l))) in *.
    by rewrite Hb.
Qed.

(** ** Stored values *)

Lemma target_value value field s : _target_id value field = Ok s -> value = VStr s /\ _TARGET_RE s = true.
Proof. destruct value; try done. simpl. destruct (_TARGET_RE s0) eqn:E; [by intros [= <-]|done]. Qed.

Lemma target_again s field : _TARGET_RE s = true -> _target_id (VStr s) field = Ok s.
Proof. simpl. by intros ->. Qed.

Lemma stack_digest_value value field s : stack_digest value field = Ok s -> value = VStr s.
Proof. by intros [? _]%require_digest_zero_false. Qed.

Lemma version_value value z : _current_version value (VInt z) = Ok () -> value = VInt z.
Proof. destruct value; try done. simpl. destruct (Z.eqb_spec z0 z) as [->|]; done. Qed.

Lemma policy_value value s : _current_version value (VStr s) = Ok () -> value = VStr s.
Proof. destruct value; try done. simpl. destruct (String.eqb_spec s0 s) as [->|]; done. Qed.

Ltac read_stack :=
  repeat match goal with
  | u : () |- _ => destruct u
  | H : stack_digest ?v _ = Ok _ |- _ => is_var v; pose proof (stack_digest_value _ _ _ H); subst v
  | H : _target_id ?v _ = Ok _ |- _ => is_var v; destruct (target_value _ _ _ H) as [? ?]; subst v
  | H : _current_version ?v (VInt _) = Ok _ |- _ => is_var v; pose proof (version_value _ _ H); subst v
  | H : _current_version ?v (VStr _) = Ok _ |- _ => is_var v; pose proof (policy_value _ _ H); subst v
  end.

Definition stored_contribution (c : ContributionRef) : Prop :=
  make_contribution (VStr (c_target c)) (VStr (c_spec c)) (VStr (c_artifact c)) (VStr (c_payload c))
    (VStr (c_attribution c)) (VInt 1) = Ok c.

Lemma make_contribution_stored t s a p u v c : make_contribution t s a p u v = Ok c -> stored_contribution c.
Proof. intros H. unfold stored_contribution. rewrite <- H. unfold make_contribution in H. inv_ok. by read_stack. Qed.

Lemma contribution_reload c : stored_contribution c -> contribution_ref_from_dict (contribution_to_dict c) = Ok c.
Proof. intros H. rewrite <- H. reflexivity. Qed.

Lemma contribution_from_dict_stored v c : contribution_ref_from_dict v = Ok c -> stored_contribution c.
Proof.
  destruct v; try done. cbn -[contribution_from_dict]. intros H. step_guard H.
  unfold contribution_from_dict in H. inv_ok. step_guard H. by eapply make_contribution_stored.
Qed.

(** The constructor on a manifest's own fields. *)
Definition remake (m : EvaluationStackManifest) : result EvaluationStackManifest :=
  make_manifest (VStr (s_runtime m)) (VStr (s_engine m)) (VStr (s_arena m)) (of_json (s_catalog m))
    (VStr (s_catalog_digest m)) ((fun kv => (VStr kv.1, kv.2)) <$> entries m) (VInt 1)
    (VStr EVALUATION_STACK_POLICY_VERSION).

Definition stored_manifest (m : EvaluationStackManifest) : Prop :=
  remake m = Ok m /\ Forall stored_contribution (entries m).*2.

Lemma catalog_binding_again snapshot digest b :
  _catalog_binding snapshot digest = Ok b -> _catalog_binding (of_json b.1) (VStr b.2) = Ok b.
Proof.
  unfold _catalog_binding. intros H. inv_ok. step_guard H. injection H as <-. cbn [fst snd].
  rewrite (catalog_json_again _ _ Hx). read_stack. cbn -[stack_digest canonical_digest of_json].
  rewrite Hx0. cbn -[canonical_digest of_json]. rewrite Hx1. cbn. by rewrite Eg.
Qed.

(** What the rows of an accepted manifest are. *)
Definition entries_ok (rows : list (string * ContributionRef)) : Prop :=
  StronglySorted (key_le fst) rows /\ NoDup rows.*1 /\
  Forall (fun kv => c_target kv.2 = kv.1 /\ _TARGET_RE kv.1 = true) rows.

Lemma entry_row_spec kv r :
  entry_row kv = Ok r <-> kv = (VStr r.1, r.2) /\ c_target r.2 = r.1 /\ _TARGET_RE r.1 = true.
Proof.
  destruct kv as [k c], r as [t c']. unfold entry_row. cbn [fst snd]. split.
  - intros H. inv_ok. step_guard H. injection H as -> ->. read_stack. split_bool.
    by apply String.eqb_eq in Eg as ->.
  - intros ([= -> ->] & E & Ht). rewrite (target_again _ _ Ht). simpl. rewrite E.
    by rewrite String.eqb_refl.
Qed.

Lemma entry_rows_spec rows r :
  _entry_rows rows = Ok r <->
  exists l, rows = (fun kv => (VStr kv.1, kv.2)) <$> l /\ NoDup l.*1 /\
    Forall (fun kv => c_target kv.2 = kv.1 /\ _TARGET_RE kv.1 = true) l /\ r = sorted_by fst l.
Proof.
  unfold _entry_rows, canonical_rows. split.
  - intros H. inv_ok. step_guard H. injection H as <-. apply negb_false_iff, distinct_spec in Eg.
    exists x. apply map_result_Forall2 in Hx. split_and!; [|done| |done].
    + clear Eg. induction Hx as [|kv r l l' Hr _ IH]; [done|]. apply entry_row_spec in Hr as (-> & _).
      by rewrite fmap_cons, <- IH.
    + clear Eg. induction Hx as [|kv r l l' Hr _ IH]; constructor; [|done]. by apply entry_row_spec in Hr as (_ & ?).
  - intros (l & -> & Hd & Hl & ->).
    assert (map_result entry_row ((fun kv => (VStr kv.1, kv.2)) <$> l) = Ok l) as ->.
    { apply map_result_Forall2. clear Hd. induction Hl; constructor; [|done]. by apply entry_row_spec. }
    simpl. by rewrite (proj2 (distinct_spec _) Hd).
Qed.

Lemma entry_rows_ok rows r : _entry_rows rows = Ok r -> entries_ok r.
Proof.
  intros (l & -> & Hd & Hl & ->)%entry_rows_spec. split_and!; [apply sorted_by_sorted|..];
    by rewrite sorted_by_perm.
Qed.

Lemma entry_rows_again r : entries_ok r -> _entry_rows ((fun kv => (VStr kv.1, kv.2)) <$> r) = Ok r.
Proof. intros (Hs & Hd & Hf). apply entry_rows_spec. exists r. by rewrite sorted_by_fix. Qed.

Lemma make_manifest_spec r e a snapshot digest rows v p m :
  make_manifest r e a snapshot digest rows v p = Ok m -> remake m = Ok m /\ _entry_rows rows = Ok (entries m).
Proof.
  unfold make_manifest. intros H. inv_ok. read_stack.
  pose proof (catalog_binding_again _ _ _ Hx4) as Hb. pose proof (entry_rows_again _ (entry_rows_ok _ _ Hx5)) as He.
  split; [|done]. unfold remake, make_manifest. cbn -[stack_digest _catalog_binding _entry_rows of_json].
  rewrite Hx1, Hx2, Hx3. cbn -[stack_digest _catalog_binding _entry_rows of_json]. rewrite Hb. cbn -[_entry_rows].
  by rewrite He.
Qed.

Lemma remake_entries m : remake m = Ok m -> entries_ok (entries m).
Proof. intros [_ H]%make_manifest_spec. by apply entry_rows_ok in H. Qed.

(** Another set of entries under the same runtime, engine, arena and catalog. *)
Lemma make_manifest_with m rows r :
  remake m = Ok m -> _entry_rows rows = Ok r ->
  make_manifest (VStr (s_runtime m)) (VStr (s_engine m)) (VStr (s_arena m)) (of_json (s_catalog m))
    (VStr (s_catalog_digest m)) rows (VInt 1) (VStr EVALUATION_STACK_POLICY_VERSION)
  = Ok (mkManifest (s_runtime m) (s_engine m) (s_arena m) (s_catalog_digest m) (s_catalog m) r).
Proof.
  unfold remake, make_manifest. intros H Hr. inv_ok. cbn [s_runtime s_engine s_arena s_catalog_digest s_catalog entries] in *.
  rewrite Hx1, Hx2, Hx3. cbn -[stack_digest _catalog_binding _entry_rows of_json]. rewrite Hx4. cbn -[_entry_rows].
  by rewrite Hr.
Qed.

Lemma reload_entries rows :
  Forall stored_contribution rows.*2 ->
  map_result (fun kv => ref ← contribution_ref_from_dict kv.2; Ok (kv.1, ref))
    ((fun kv => (VStr kv.1, kv.2)) <$> ((fun kv => (kv.1, contribution_to_dict kv.2)) <$> rows))
  = Ok ((fun kv => (VStr kv.1, kv.2)) <$> rows).
Proof.
  induction rows as [|[k c] rows IH]; [done|]. intros [Hc Hr]%Forall_cons. rewrite !fmap_cons.
  cbn -[contribution_ref_from_dict contribution_to_dict list_fmap fmap].
  cbn [snd] in Hc. rewrite (contribution_reload _ Hc). cbn -[contribution_ref_from_dict contribution_to_dict list_fmap fmap].
  by rewrite (IH Hr).
Qed.

Lemma manifest_stored_reload m : stored_manifest m -> manifest_from_dict (manifest_to_dict m) = Ok m.
Proof.
  intros [Hm Hc]. unfold manifest_from_dict.
  change (require_exact_fields _ _ _ _ _) with (Ok (A := list (string * pyval)) (manifest_rows m)).
  cbn -[map_result make_manifest of_json str_dict contribution_to_dict contribution_ref_from_dict].
  unfold str_dict. cbv iota. rewrite (reload_entries _ Hc).
  cbn -[make_manifest of_json]. exact Hm.
Qed.

Lemma manifest_from_dict_stored v m : manifest_from_dict v = Ok m -> stored_manifest m.
Proof.
  unfold manifest_from_dict. intros H. inv_ok. step_guard H.
  destruct (argument x "entries") as [| | | | | | |items|]; try discriminate. inv_ok.
  apply make_manifest_spec in H as [Hm He]. split; [done|].
  apply entry_rows_spec in He as (l & -> & _ & _ & ->). rewrite sorted_by_perm.
  apply map_result_Forall2 in Hx0. clear -Hx0. revert items Hx0. induction l as [|[k c] l IH]; intros items Hi.
  { constructor. }
  rewrite fmap_cons in Hi. inversion Hi as [|? kv ? ? Hkv Hi']; subst. inv_ok. constructor; [|by eapply IH].
  by eapply contribution_from_dict_stored.
Qed.

(** A stack manifest that was accepted reopens unchanged: the value that its own [to_dict]
    writes is accepted again and gives the same manifest, catalog and entries included. *)
Theorem manifest_reload (v : pyval) (m : EvaluationStackManifest) :
  manifest_from_dict v = Ok m -> manifest_from_dict (manifest_to_dict m) = Ok m.
Proof. intros H. by eapply manifest_stored_reload, manifest_from_dict_stored. Qed.

(** ** Replacing one target *)

Lemma dict_get_perm {V} k (d d' : dict V) : NoDup d.*1 -> d ≡ₚ d' -> dict_get k d = dict_get k d'.
Proof.
  intros Hd Hp. assert (Hd' : NoDup d'.*1) by (by rewrite <- Hp).
  destruct (dict_get k d) as [v|] eqn:E; symmetry.
  - apply elem_dict_get; [done|]. rewrite <- Hp. by apply dict_get_elem.
  - apply dict_get_None. rewrite <- Hp. by apply dict_get_None.
Qed.

Lemma dict_get_filter_out {V} k t (d : dict V) :
  dict_get k (filter (fun kv => kv.1 <> t) d) = if String.eqb k t then None else dict_get k d.
Proof.
  destruct (String.eqb_spec k t) as [->|Hne]; [|exact (dict_get_filter k d (fun x => x <> t) Hne)].
  apply dict_get_None. intros ((k' & v) & -> & [? _]%list_elem_of_filter)%list_elem_of_fmap. done.
Qed.

Definition entry_ok (kv : string * ContributionRef) : Prop := c_target kv.2 = kv.1 /\ _TARGET_RE kv.1 = true.

Lemma remove_entries_spec removed rows rows' :
  NoDup rows.*1 -> fold_result remove_entry removed rows = Ok rows' ->
  NoDup rows'.*1 /\ (forall kv, kv ∈ rows' -> kv ∈ rows) /\
  forall k, dict_get k rows' = if decide (k ∈ removed) then None else dict_get k rows.
Proof.
  revert rows. induction removed as [|t removed IH]; intros rows Hd H; simpl in H.
  { injection H as <-. done. }
  inv_ok. unfold remove_entry in Hx. destruct (dict_get t rows); [|done]. injection Hx as <-.
  destruct (IH (filter (fun kv => kv.1 <> t) rows)) as (Hd' & Hs & Hk); [by apply NoDup_fmap_filter|done|].
  split_and!; [done| |].
  - intros kv Hkv%Hs. by apply list_elem_of_filter in Hkv as [_ ?].
  - intros k. rewrite Hk, dict_get_filter_out.
    destruct (String.eqb_spec k t) as [->|Hne].
    + rewrite (decide_True (P := t ∈ t :: removed)) by (by left). by case_decide.
    + destruct (decide (k ∈ removed)); [rewrite decide_True by (by right)|rewrite decide_False by set_solver]; done.
Qed.

Lemma dict_set_elem {V} k v (d : dict V) kv : kv ∈ dict_set k v d -> kv = (k, v) \/ kv ∈ d.
Proof.
  induction d as [|[k' v'] d IH]; simpl; [set_solver|].
  destruct (String.eqb_spec k' k) as [->|Hne]; rewrite !elem_of_cons; naive_solver.
Qed.

Lemma stored_target c : stored_contribution c -> _TARGET_RE (c_target c) = true.
Proof. unfold stored_contribution, make_contribution. intros H. inv_ok. by apply target_value in Hx as [_ ?]. Qed.

(** A replacement over some of the entries is accepted. *)
Lemma replace_entries m c rows :
  stored_manifest m -> stored_contribution c -> NoDup rows.*1 -> (forall kv, kv ∈ rows -> kv ∈ entries m) ->
  exists m', make_manifest (VStr (s_runtime m)) (VStr (s_engine m)) (VStr (s_arena m)) (of_json (s_catalog m))
      (VStr (s_catalog_digest m)) ((fun kv => (VStr kv.1, kv.2)) <$> dict_set (c_target c) c rows)
      (VInt 1) (VStr EVALUATION_STACK_POLICY_VERSION) = Ok m' /\
    stored_manifest m' /\
    m' = mkManifest (s_runtime m) (s_engine m) (s_arena m) (s_catalog_digest m) (s_catalog m) (entries m') /\
    (forall k, dict_get k (entries m') = if String.eqb k (c_target c) then Some c else dict_get k rows).
Proof.
  intros [Hm Hf] Hc Hd Hs. pose proof (remake_entries _ Hm) as (_ & _ & He). rewrite Forall_forall in He.
  pose proof (dict_set_NoDup (c_target c) c rows Hd) as Hd'.
  assert (Hrows : _entry_rows ((fun kv => (VStr kv.1, kv.2)) <$> dict_set (c_target c) c rows)
    = Ok (sorted_by fst (dict_set (c_target c) c rows))).
  { apply entry_rows_spec. eexists. split_and!; [done..| |done]. apply Forall_forall.
    intros kv [->|Hkv]%dict_set_elem; [by split; [|apply stored_target]|by apply He, Hs]. }
  rewrite (make_manifest_with _ _ _ Hm Hrows). eexists. split; [done|]. split_and!; [|done|].
  - pose proof (make_manifest_with _ _ _ Hm Hrows) as [Hr _]%make_manifest_spec. split; [done|].
    apply Forall_fmap, Forall_forall. intros kv Hkv%sorted_by_elem.
    apply dict_set_elem in Hkv as [->|Hkv]; [done|]. rewrite Forall_fmap, Forall_forall in Hf. by apply Hf, Hs.
  - intros k. cbn [entries]. rewrite (dict_get_perm _ _ (dict_set (c_target c) c rows)), dict_get_set.
    + by rewrite String.eqb_sym.
    + by rewrite sorted_by_perm.
    + apply sorted_by_perm.
Qed.

(** C36: putting a contribution into a stack changes the entry of its target and removes the targets
    named for removal; every other entry, and the runtime, engine, arena and catalog the stack is
    sealed under, stay as they were, and the result is again a stored manifest. *)
Theorem with_contribution_spec (m m' : EvaluationStackManifest) (c : ContributionRef) (remove : list string) :
  stored_manifest m -> stored_contribution c -> with_contribution m c (VStr <$> remove) = Ok m' ->
  stored_manifest m' /\
  m' = mkManifest (s_runtime m) (s_engine m) (s_arena m) (s_catalog_digest m) (s_catalog m) (entries m') /\
  (forall k, dict_get k (entries m')
             = if String.eqb k (c_target c) then Some c
               else if decide (k ∈ remove) then None else dict_get k (entries m)).
Proof.
  intros Hm Hc. unfold with_contribution. intros H. inv_ok. step_guard H. inv_ok.
  pose proof (remake_entries _ (proj1 Hm)) as (_ & Hd & _).
  destruct (remove_entries_spec _ _ _ Hd Hx0) as (Hd' & Hs & Hk).
  destruct (replace_entries m c x0) as (m1 & E & Hm1 & Hf & Hg); [done..|].
  rewrite E in H. injection H as <-. split_and!; [done..|]. intros k. rewrite Hg, Hk.
  destruct (String.eqb_spec k (c_target c)) as [->|]; [done|].
  enough (x = remove) as -> by done. apply map_result_Forall2 in Hx. clear -Hx. revert x Hx.
  induction remove as [|t remove IH]; intros x Hx; [by inversion Hx|]. rewrite fmap_cons in Hx.
  inversion Hx as [|? t' ? x' Ht Hx']; subst. apply target_value in Ht as [[= <-] _]. by rewrite (IH _ Hx').
Qed.

(** Without removals a replacement cannot be refused. *)
Lemma with_contribution_total m c :
  stored_manifest m -> stored_contribution c -> exists m', with_contribution m c [] = Ok m'.
Proof.
  intros Hm Hc. pose proof (remake_entries _ (proj1 Hm)) as (_ & Hd & _).
  destruct (replace_entries m c (entries m)) as (m' & E & _); [done..|]. by exists m'.
Qed.

(** ** Marginal arms *)

Lemma same_set_spec l k : same_set l k = true -> forall x, x ∈ l <-> x ∈ k.
Proof.
  intros H%bool_decide_eq_true x. rewrite <- !(elem_of_list_to_set (C := gset string)). by rewrite H.
Qed.

Lemma unrelated_kept_spec t old new k c :
  unrelated_kept t old new = true -> dict_get k old = Some c -> k ∉ c_target <$> displaced t -> k <> t_target t ->
  dict_get k new = Some c.
Proof.
  unfold unrelated_kept. rewrite forallb_forall. intros H Hk Hd Ht.
  specialize (H (k, c) (proj1 (list_elem_of_In _ _) (dict_get_elem _ _ _ Hk))). cbn [fst snd] in H.
  rewrite (bool_decide_eq_false_2 _ Hd), (proj2 (String.eqb_neq _ _) Ht) in H. by apply bool_decide_eq_true in H.
Qed.

(** An accepted marginal arm measures exactly one change: both baseline arms are the digest of the
    incumbent, the challenger is the digest of the candidate over another tree, the candidate has the
    replacement at the target and none of the displaced targets, and every other target has the entry
    it had, or none as before. *)
Theorem marginal_changes_target (p q : MarginalArmPlan) :
  make_marginal p = Ok q ->
  q = p /\ baseline_before p = baseline_after p /\
  manifest_digest (incumbent p) = Ok (arm_stack (baseline_before p)) /\
  manifest_digest (candidate p) = Ok (arm_stack (challenger p)) /\
  arm_tree (challenger p) <> arm_tree (baseline_before p) /\
  (forall k, dict_get k (entries (candidate p))
             = if String.eqb k (t_target (transition p)) then Some (replacement (transition p))
               else if decide (k ∈ c_target <$> displaced (transition p)) then None
               else dict_get k (entries (incumbent p))).
Proof.
  unfold make_marginal. intros H. step_guard H. inv_ok. step_guard H. inv_ok. step_guard H.
  repeat step_guard H. injection H as <-. split_bool. apply String.eqb_eq in Eg0, Eg1. apply String.eqb_neq in Eg2.
  split_and!; [done|done|by rewrite Eg0|by rewrite Eg1|done|]. intros k.
  pose proof (same_set_spec _ _ Eg6 k) as Hset. rewrite elem_of_cons, list_elem_of_filter in Hset.
  destruct (String.eqb_spec k (t_target (transition p))) as [->|Ht]; [done|].
  destruct (decide (k ∈ c_target <$> displaced (transition p))) as [Hd|Hd].
  - apply dict_get_None. naive_solver.
  - destruct (dict_get k (entries (incumbent p))) as [c|] eqn:E; [by eapply unrelated_kept_spec|].
    apply dict_get_None in E. apply dict_get_None. naive_solver.
Qed.
