(* ===== verification/Selection.v ===== *)
(** * Prompt selection

    The commitment to a pool of prompts and the later reveal of those that a
    cohort's quality is measured on ([SelectionCommitment],
    [SelectionEntropyReceipt] and [SelectionReceipt] of
    [cacheon/eval/qualification.py]), and the identities that are derived from
    the policy ([derived_hidden_task_plan_digest]). A commitment carries the digests of the
    reference manifest, which is not modelled. *)

From S2P Require Import Prelude PyVal Dict Sha256 Identity Strict Stack Fingerprint.

Open Scope Z_scope.

Definition QualificationError (m : string) : exn := Exn "QualificationError" m.

Definition selection_digest (value : pyval) (field : string) : result string :=
  require_digest value field QualificationError false false.

(** [_ordered] with the rows as their own keys *)
Definition _ordered (keys : list string) (label : string) : result () :=
  raise_if bool_decide (keys = []) with (QualificationError (string_app label " must not be empty"));
  raise_if negb (bool_decide (NoDup keys)) with (QualificationError (string_app label " contains duplicates"));
  raise_if negb (bool_decide (keys = sorted_id keys)) with (QualificationError (string_app label " must be canonically ordered"));
  Ok tt.

(** ** The commitment *)

(** The policy and schema versions have one value each. *)
Record SelectionCommitment := mkCommitment {
  s_source : string; s_reference : string; s_workload : string; s_entropy : string; s_secret : string;
  s_prompts : list string; s_count : Z;
}.

#[export] Instance commitment_eq_dec : EqDecision SelectionCommitment.
Proof. solve_decision. Defined.

Definition make_commitment (c : SelectionCommitment) : result SelectionCommitment :=
  _ ← selection_digest (VStr (s_source c)) "source_plan_digest";
  _ ← selection_digest (VStr (s_reference c)) "reference_manifest_digest";
  _ ← selection_digest (VStr (s_workload c)) "workload_digest";
  _ ← selection_digest (VStr (s_entropy c)) "entropy_source_digest";
  _ ← selection_digest (VStr (s_secret c)) "secret_commitment";
  _ ← map_result (fun p => selection_digest (VStr p) "prompt digest") (s_prompts c);
  _ ← _ordered (s_prompts c) "selection prompt pool";
  _ ← require_int (VInt (s_count c)) "selection count" QualificationError (Some 1) None;
  raise_if Z.of_nat (length (s_prompts c)) <? s_count c
    with (QualificationError "selection count exceeds its committed prompt pool");
  Ok c.

Definition commitment_rows (c : SelectionCommitment) : list (string * pyval) :=
  [("source_plan_digest", VStr (s_source c)); ("reference_manifest_digest", VStr (s_reference c));
   ("workload_digest", VStr (s_workload c)); ("entropy_source_digest", VStr (s_entropy c));
   ("secret_commitment", VStr (s_secret c)); ("prompt_digests", VList (VStr <$> s_prompts c));
   ("select_count", VInt (s_count c)); ("policy_version", VStr "qualification-selection.v1"); ("schema_version", VInt 1)].

Definition commitment_digest (c : SelectionCommitment) : result string :=
  canonical_digest "cacheon.qualification.selection-commitment" (str_dict (commitment_rows c)) 1.

(** A secret is a string of bytes. *)
Definition secret_digest (secret : string) : string :=
  sha256_hex (string_app "cacheon-selection-secret-v1" (String nul secret)).

Definition seal (source reference workload entropy : string) (prompts : list string) (count : Z) (secret : string) :
    result SelectionCommitment :=
  raise_if (String.length secret <? 32)%nat with (QualificationError "selection commitment requires 256 secret bits");
  make_commitment (mkCommitment source reference workload entropy (secret_digest secret) prompts count).

(** ** The entropy and the reveal *)

Record SelectionEntropyReceipt := mkEntropy { en_source : string; en_commitment : string; en_value : string; en_receipt : string }.

#[export] Instance entropy_eq_dec : EqDecision SelectionEntropyReceipt.
Proof. solve_decision. Defined.

Definition make_entropy (e : SelectionEntropyReceipt) : result SelectionEntropyReceipt :=
  _ ← selection_digest (VStr (en_source e)) "source_digest";
  _ ← selection_digest (VStr (en_commitment e)) "commitment_digest";
  _ ← selection_digest (VStr (en_value e)) "entropy_digest";
  _ ← selection_digest (VStr (en_receipt e)) "authority_receipt_digest";
  Ok e.

Definition entropy_digest (e : SelectionEntropyReceipt) : result string :=
  canonical_digest "cacheon.qualification.selection-entropy"
    (str_dict [("source_digest", VStr (en_source e)); ("commitment_digest", VStr (en_commitment e));
               ("entropy_digest", VStr (en_value e)); ("authority_receipt_digest", VStr (en_receipt e))]) 1.

Record SelectionReceipt := mkSelection {
  v_commitment : string; v_reveal : string; v_entropy : string; v_trajectory : string; v_selected : list string;
}.

#[export] Instance selection_eq_dec : EqDecision SelectionReceipt.
Proof. solve_decision. Defined.

Definition make_selection (r : SelectionReceipt) : result SelectionReceipt :=
  _ ← selection_digest (VStr (v_commitment r)) "commitment_digest";
  _ ← selection_digest (VStr (v_reveal r)) "reveal_digest";
  _ ← selection_digest (VStr (v_entropy r)) "entropy_receipt_digest";
  _ ← selection_digest (VStr (v_trajectory r)) "sealed_cohort_trajectory_digest";
  _ ← map_result (fun p => selection_digest (VStr p) "selected prompt") (v_selected r);
  _ ← _ordered (v_selected r) "selected prompts";
  Ok r.

Definition selection_key (commitment entropy secret prompt : string) : result string :=
  canonical_digest "cacheon.qualification.selection-key"
    (str_dict [("commitment_digest", VStr commitment); ("post_commit_entropy_digest", VStr entropy);
               ("prompt_digest", VStr prompt); ("secret", VStr secret)]) 1.

(** The prompts with the smallest keys, in the order of the pool. *)
Definition select (c : SelectionCommitment) (d entropy secret : string) : result (list string) :=
  keyed ← map_result (fun p => k ← selection_key d entropy secret p; Ok (k, p)) (s_prompts c);
  Ok (sorted_id (take (Z.to_nat (s_count c)) (sorted_by fst keyed).*2)).

Definition reveal (c : SelectionCommitment) (secret : string) (e : SelectionEntropyReceipt) (trajectory : string) :
    result SelectionReceipt :=
  raise_if negb (String.eqb (secret_digest secret) (s_secret c))
    with (QualificationError "selection reveal does not open its commitment");
  d ← commitment_digest c;
  raise_if negb (String.eqb (en_source e) (s_entropy c)) || negb (String.eqb (en_commitment e) d)
    with (QualificationError "selection entropy does not bind its committed source");
  trajectory ← selection_digest (VStr trajectory) "cohort trajectory";
  selected ← select c d (en_value e) (secret_digest secret);
  ed ← entropy_digest e;
  make_selection (mkSelection d (secret_digest secret) ed trajectory selected).

Definition reopen (r : SelectionReceipt) (c : SelectionCommitment) (e : SelectionEntropyReceipt) : result SelectionReceipt :=
  d ← commitment_digest c;
  raise_if negb (String.eqb (v_commitment r) d) || negb (String.eqb (v_reveal r) (s_secret c))
    with (QualificationError "selection receipt names another commitment");
  ed ← entropy_digest e;
  raise_if negb (String.eqb ed (v_entropy r)) || negb (String.eqb (en_source e) (s_entropy c))
           || negb (String.eqb (en_commitment e) d)
    with (QualificationError "selection receipt has unbound entropy");
  selected ← select c d (en_value e) (v_reveal r);
  raise_if negb (bool_decide (v_selected r = selected)) with (QualificationError "selection receipt does not reproduce");
  Ok r.

(** ** Identities derived from a policy *)

Definition declared_qualification_entropy_digest (selection_policy : string) : result string :=
  d ← selection_digest (VStr selection_policy) "selection policy digest";
  canonical_digest "cacheon.eval.b300-declared-entropy-provider.v1" (str_dict [("selection_policy_digest", VStr d)]) 1.

(** The tasks of one prompt, over the corpus, the judge and the policy of a profile. *)
Definition hidden_tasks (corpus judge policy : string) (per_prompt : Z) (prompt : string) : result pyval :=
  p ← selection_digest (VStr prompt) "hidden-task prompt";
  tasks ← map_result (fun i : nat =>
      canonical_digest "cacheon.qualification.hidden-task"
        (str_dict [("corpus", VStr corpus); ("judge", VStr judge); ("policy", VStr policy); ("prompt", VStr p);
                   ("index", VInt (Z.of_nat i))]) 1)
    (seq 0 (Z.to_nat per_prompt));
  Ok (str_dict [("prompt", VStr p); ("tasks", VList (VStr <$> sorted_id tasks))]).

Definition derived_hidden_task_plan_digest (corpus judge policy : string) (per_prompt : Z) (prompts : list string) : result string :=
  raise_if negb (bool_decide (NoDup prompts)) || negb (bool_decide (prompts = sorted_id prompts))
    with (QualificationError "hidden-task prompts are not canonical");
  rows ← map_result (hidden_tasks corpus judge policy per_prompt) prompts;
  canonical_digest "cacheon.qualification.hidden-task-plan" (VList rows) 1.

(** ** What is selected *)

Lemma ordered_ok keys label u : _ordered keys label = Ok u -> keys <> [] /\ NoDup keys /\ sorted_id keys = keys.
Proof. unfold _ordered. intros H. repeat step_guard H. by split_bool. Qed.

Lemma make_commitment_ok c c' : make_commitment c = Ok c' -> NoDup (s_prompts c) /\ 1 <= s_count c <= Z.of_nat (length (s_prompts c)).
Proof.
  unfold make_commitment. intros H. inv_ok. step_guard H. apply Z.ltb_ge in Eg.
  match goal with H : _ordered _ _ = Ok _ |- _ => apply ordered_ok in H as (_ & Hnd & _) end. split; [done|]. split; [|done].
  match goal with H : require_int _ _ _ _ _ = Ok _ |- _ => unfold require_int in H; destruct (Z.leb_spec 1 (s_count c)); [done|discriminate H] end.
Qed.

Lemma make_selection_same r r' : make_selection r = Ok r' -> r' = r.
Proof. unfold make_selection. intros H. by inv_ok. Qed.

Section Select.
Context (c : SelectionCommitment) (d entropy secret : string) (l : list string).
Context (Hc : make_commitment c = Ok c) (Hl : select c d entropy secret = Ok l).

Let key := selection_key d entropy secret.

Lemma select_parts : exists keyed, keyed.*2 ≡ₚ s_prompts c /\ StronglySorted (key_le fst) keyed /\
  Forall (fun kp : string * string => key kp.2 = Ok kp.1) keyed /\
  l = sorted_id (take (Z.to_nat (s_count c)) keyed).*2.
Proof.
  pose proof Hl as H. unfold select in H. apply bind_Ok in H as (keyed & Hk & [= <-]).
  apply map_result_Forall2 in Hk. exists (sorted_by fst keyed).
  assert (Hkeys : keyed.*2 = s_prompts c /\ Forall (fun kp : string * string => key kp.2 = Ok kp.1) keyed).
  { clear Hl. induction Hk as [|p [k q] ps ks (k' & Hp & [= -> <-])%bind_Ok _ [IH1 IH2]]; [by split|]. cbn. rewrite IH1. by split; [|constructor]. }
  destruct Hkeys as [Hp Hall]. split_and!; [by rewrite sorted_by_perm, Hp|apply sorted_by_sorted|by rewrite sorted_by_perm|].
  by rewrite fmap_take.
Qed.

(** As many prompts as were committed to, each of the pool and each once, and those with the smallest keys. *)
Lemma select_spec :
  NoDup l /\ l ⊆ s_prompts c /\ Z.of_nat (length l) = s_count c /\ sorted_id l = l /\
  forall p q kp kq, p ∈ l -> q ∈ s_prompts c -> q ∉ l -> key p = Ok kp -> key q = Ok kq -> cmp_leb kp kq = true.
Proof.
  destruct select_parts as (keyed & Hp & Hs & Hall & ->). destruct (make_commitment_ok _ _ Hc) as (Hnd & Hcount).
  assert (Hlk : length keyed = length (s_prompts c)) by (apply Permutation_length in Hp; by rewrite length_fmap in Hp).
  set (n := Z.to_nat (s_count c)). rewrite <- (take_drop n keyed) in Hs, Hp. rewrite fmap_app in Hp.
  assert (Hlen : length (take n keyed).*2 = n).
  { rewrite length_fmap, length_take, Hlk. subst n. lia. }
  assert (Hnd' : NoDup ((take n keyed).*2 ++ (drop n keyed).*2)) by by rewrite Hp.
  assert (Hel : forall x, x ∈ sorted_id (take n keyed).*2 <-> x ∈ (take n keyed).*2) by (intros; unfold sorted_id; apply sorted_by_elem).
  split_and!.
  - unfold sorted_id. rewrite sorted_by_perm. by apply NoDup_app in Hnd' as (? & _).
  - intros x Hx%Hel. rewrite <- Hp. apply elem_of_app. by left.
  - unfold sorted_id. rewrite sorted_by_length, Hlen. subst n. lia.
  - apply sorted_by_idemp.
  - intros p q kp kq Hin Hq Hnq Ep Eq. rewrite Hel in Hin, Hnq. rewrite <- Hp, elem_of_app in Hq. destruct Hq as [?|Hq]; [done|].
    apply list_elem_of_fmap in Hin as ([k1 p1] & -> & H1), Hq as ([k2 q1] & -> & H2). cbn [snd] in Ep, Eq.
    assert (E1 : key p1 = Ok k1) by (apply (proj1 (Forall_forall _ _) Hall (k1, p1)); by apply (sublist_subseteq _ _ (sublist_take _ _) _ H1)).
    assert (E2 : key q1 = Ok k2) by (apply (proj1 (Forall_forall _ _) Hall (k2, q1)); by apply (sublist_subseteq _ _ (sublist_drop _ _) _ H2)).
    assert (kp = k1 /\ kq = k2) as [-> ->] by (split; congruence).
    exact (StronglySorted_app_le _ _ _ _ _ Hs H1 H2).
Qed.
End Select.

(** What a reveal selects: it opens the commitment's secret and reopens under the same entropy; as many prompts as
    were committed to, all of the committed pool and none twice; and none that was left out has a smaller key than
    one that was selected. *)
Theorem reveal_contract c secret e trajectory r d :
  make_commitment c = Ok c -> commitment_digest c = Ok d -> reveal c secret e trajectory = Ok r ->
  secret_digest secret = s_secret c /\ reopen r c e = Ok r /\
  NoDup (v_selected r) /\ v_selected r ⊆ s_prompts c /\ Z.of_nat (length (v_selected r)) = s_count c /\
  forall p q kp kq, p ∈ v_selected r -> q ∈ s_prompts c -> q ∉ v_selected r ->
    selection_key d (en_value e) (s_secret c) p = Ok kp -> selection_key d (en_value e) (s_secret c) q = Ok kq -> cmp_leb kp kq = true.
Proof.
  intros Hc Hd H. unfold reveal in H. step_guard H. rewrite Hd in H. cbn [mbind result_bind] in H. step_guard H.
  apply bind_Ok in H as (t & Ht & H). apply bind_Ok in H as (l & Hl & H). apply bind_Ok in H as (ed & He & H).
  apply make_selection_same in H as ->. apply negb_false_iff, String.eqb_eq in Eg. rewrite Eg in *.
  destruct (select_spec c d (en_value e) (s_secret c) l Hc Hl) as (Hnd & Hsub & Hlen & _ & Hmin). split_and!; try done.
  unfold reopen. rewrite Hd. cbn [mbind result_bind v_commitment v_reveal v_entropy v_selected]. rewrite !String.eqb_refl. cbn [negb orb].
  rewrite He. cbn [mbind result_bind]. rewrite String.eqb_refl. cbn [negb orb]. rewrite Eg0, Hl. cbn [mbind result_bind].
  by rewrite bool_decide_eq_true_2.
Qed.

Lemma reopen_ok r c e : reopen r c e = Ok r -> exists d,
  commitment_digest c = Ok d /\ v_commitment r = d /\ v_reveal r = s_secret c /\ entropy_digest e = Ok (v_entropy r) /\
  en_source e = s_entropy c /\ en_commitment e = d /\ select c d (en_value e) (s_secret c) = Ok (v_selected r).
Proof.
  unfold reopen. intros (d & Hd & H)%bind_Ok. step_guard H. apply bind_Ok in H as (ed & He & H). step_guard H.
  apply bind_Ok in H as (l & Hl & H). step_guard H. exists d. split_bool.
  repeat match goal with H : String.eqb _ _ = true |- _ => apply String.eqb_eq in H end.
  split_and!; congruence.
Qed.

(** C25: nothing is left to choose after the commitment: two receipts that reopen under one commitment and one entropy
    select the same prompts and differ in the trajectory alone; the prompts are as many as were committed to,
    distinct and of the pool, whoever made the receipt. *)
Theorem selection_determined r r' c e :
  make_commitment c = Ok c -> reopen r c e = Ok r -> reopen r' c e = Ok r' ->
  v_selected r = v_selected r' /\ v_commitment r = v_commitment r' /\ v_reveal r = v_reveal r' /\ v_entropy r = v_entropy r' /\
  NoDup (v_selected r) /\ v_selected r ⊆ s_prompts c /\ Z.of_nat (length (v_selected r)) = s_count c.
Proof.
  intros Hc (d & Hd & E1 & E2 & E3 & _ & _ & Hl)%reopen_ok (d' & Hd' & E1' & E2' & E3' & _ & _ & Hl')%reopen_ok.
  assert (d' = d) as -> by congruence. destruct (select_spec c d (en_value e) (s_secret c) _ Hc Hl) as (Hnd & Hsub & Hlen & _).
  split_and!; congruence || done.
Qed.

(** ** An example *)

Definition example_secret : string := "0123456789abcdef0123456789abcdef".

Definition no_commitment : SelectionCommitment := mkCommitment "" "" "" "" "" [] 0.

(** One character, 64 times. *)
Definition digest_for (c : N) : string := string_of_bytes (repeat c 64).

Definition example_commitment : SelectionCommitment := Eval vm_compute in
  match seal (digest_for 49) (digest_for 50) (digest_for 51) (digest_for 52)
    [digest_for 97; digest_for 98; digest_for 99] 2 example_secret with Ok c => c | Raise _ => no_commitment end.

Definition committed_digest : string := Eval vm_compute in match commitment_digest example_commitment with Ok d => d | Raise _ => "" end.

Definition example_entropy : SelectionEntropyReceipt := mkEntropy (digest_for 52) committed_digest (digest_for 53) (digest_for 54).

Definition example_receipt : SelectionReceipt := Eval vm_compute in
  match reveal example_commitment example_secret example_entropy (digest_for 55) with Ok r => r | Raise _ => mkSelection "" "" "" "" [] end.

Lemma example_sealed : make_commitment example_commitment = Ok example_commitment.
Proof. vm_compute. reflexivity. Qed.
Lemma example_digest : commitment_digest example_commitment = Ok committed_digest.
Proof. vm_compute. reflexivity. Qed.
Lemma example_revealed : reveal example_commitment example_secret example_entropy (digest_for 55) = Ok example_receipt.
Proof. vm_compute. reflexivity. Qed.
Lemma example_reopened : reopen example_receipt example_commitment example_entropy = Ok example_receipt.
Proof. vm_compute. reflexivity. Qed.

Lemma reveal_contract_witness :
  length (v_selected example_receipt) = 2%nat /\ v_selected example_receipt ⊆ s_prompts example_commitment.
Proof.
  split; [reflexivity|].
  destruct (reveal_contract example_commitment example_secret example_entropy (digest_for 55) example_receipt committed_digest
    example_sealed example_digest example_revealed) as (_ & _ & _ & H & _). exact H.
Defined.

Lemma selection_determined_witness : NoDup (v_selected example_receipt).
Proof.
  destruct (selection_determined example_receipt example_receipt example_commitment example_entropy example_sealed example_reopened
    example_reopened) as (_ & _ & _ & _ & H & _). exact H.
Defined.
