(* ===== verification/Qualification.v ===== *)
(** * Qualifications

    The first half of [cacheon/settlement.py]: speedups, the lineage of crowns of
    one target, the reproduction identity, the lane orientation, and the
    projection of one regraded PASS; with the audit policy it holds
    ([eval/oci_session_protocol.py]). Projecting a runner's report
    ([from_qualification], [from_resident_speed_witness]) is outside the model. *)

From Stdlib Require Import QArith Qcanon.
From S2P Require Import Prelude PyVal Dict Identity Strict Numbers Stack.

Open Scope Z_scope.

Definition SettlementError (m : string) : exn := Exn "SettlementError" m.
Definition SessionProtocolError (m : string) : exn := Exn "SessionProtocolError" m.

(** ** Scalars *)

(** [[A-Za-z0-9][A-Za-z0-9._:-]{0,255}\Z] *)
Definition id_head (c : chr) : bool := is_digit c || in_range 65 90 c || in_range 97 122 c.
Definition id_tail (c : chr) : bool := id_head c || bool_decide (ord c ∈ [46; 95; 58; 45]%N).
Definition _ID (s : string) : bool :=
  match s with String c t => id_head c && all_chars id_tail t && (String.length t <=? 255)%nat | EmptyString => false end.

Definition settlement_digest (value : pyval) (field : string) (optional : bool) : result string :=
  require_digest value field SettlementError false optional.

Definition _identifier (value : pyval) (field : string) (pattern : string -> bool) : result string :=
  require_identifier value field SettlementError pattern.

Definition settlement_integer (value : pyval) (field : string) : result Z :=
  require_int value field SettlementError (Some 0) None.

Definition one : decimal := mkDecimal 1 0.

(** Of the three refusals of a text that is not a canonical decimal, the model keeps one: each is a
    [SettlementError] (an exponent outside the decimal context raises [Overflow] in the source). *)
Definition _speedup (value : pyval) : result string :=
  match value with
  | VStr s =>
      match canonical_decimal s with
      | None => Raise (SettlementError "speedup must use canonical decimal spelling ")
      | Some parsed =>
          raise_if negb (dec_ltb one parsed)
            with (SettlementError "a settlement candidate must have speedup greater than one");
          Ok s
      end
  | _ => Raise (SettlementError "speedup must be an exact decimal string")
  end.

(** [Decimal(s)] of a speedup that [_speedup] accepted *)
Definition Decimal (s : string) : decimal := default one (parse_decimal s).

(** ** The lineage of a target *)

Record TargetLineageNode := mkNode { n_artifact : string; n_parent : string; n_speedup : string; n_event : string }.

Definition make_node (artifact parent speedup event : pyval) : result TargetLineageNode :=
  artifact ← settlement_digest artifact "lineage tip artifact" false;
  parent ← settlement_digest parent "lineage tip parent artifact" true;
  speedup ← _speedup speedup;
  event ← settlement_digest event "lineage tip transition event" false;
  Ok (mkNode artifact parent speedup event).

#[export] Instance node_eq_dec : EqDecision TargetLineageNode.
Proof. solve_decision. Defined.

Record TargetLineage := mkLineage { nodes : list TargetLineageNode }.

#[export] Instance lineage_eq_dec : EqDecision TargetLineage.
Proof. solve_decision. Defined.

(** [zip(l, l[1:])] *)
Definition adjacent {A} (l : list A) : list (A * A) := zip l (drop 1 l).

Definition make_lineage (l : list TargetLineageNode) : result TargetLineage :=
  raise_if bool_decide (l = []) || negb (distinct (n_artifact <$> l))
    with (SettlementError "target lineage nodes are malformed");
  raise_if existsb (fun pc => negb (String.eqb (n_parent pc.2) (n_artifact pc.1))) (adjacent l)
    with (SettlementError "target lineage is not contiguous");
  Ok (mkLineage l).

(** [self.nodes[-1].artifact_digest]; a lineage has a node. *)
Definition lineage_artifact (l : TargetLineage) : string :=
  match last (nodes l) with Some n => n_artifact n | None => "" end.

(** The nodes from the first one whose parent is the artifact. *)
Fixpoint nodes_from (artifact : string) (l : list TargetLineageNode) : option (TargetLineageNode * list TargetLineageNode) :=
  match l with
  | [] => None
  | n :: l => if String.eqb (n_parent n) artifact then Some (n, n :: l) else nodes_from artifact l
  end.

(** [threshold = Decimal(1)], then [threshold *= Decimal(node.winner_speedup)] *)
Definition composed (l : list TargetLineageNode) : decimal :=
  foldl (fun threshold n => dec_mul threshold (Decimal (n_speedup n))) one l.

Definition threshold_from (l : TargetLineage) (artifact : string) : result (option (decimal * string)) :=
  if String.eqb artifact (lineage_artifact l) then Ok None
  else
    match nodes_from artifact (nodes l) with
    | None => Raise (SettlementError "candidate baseline is not in the active lineage")
    | Some (start, path) => Ok (Some (composed path, n_event start))
    end.

(** ** Identities *)

Record SettlementReproductionIdentity := mkReproduction {
  r_arena : string; r_target : string; r_delta : string; r_hotkey : string;
  r_incumbent_stack : string; r_incumbent_tree : string; r_candidate_stack : string; r_candidate_tree : string;
}.

#[export] Instance reproduction_eq_dec : EqDecision SettlementReproductionIdentity.
Proof. solve_decision. Defined.

Definition reproduction_to_dict (r : SettlementReproductionIdentity) : pyval :=
  str_dict [("arena_digest", VStr (r_arena r)); ("target_id", VStr (r_target r));
            ("selected_delta_digest", VStr (r_delta r)); ("hotkey", VStr (r_hotkey r));
            ("incumbent_stack_digest", VStr (r_incumbent_stack r)); ("incumbent_tree_digest", VStr (r_incumbent_tree r));
            ("candidate_stack_digest", VStr (r_candidate_stack r)); ("candidate_tree_digest", VStr (r_candidate_tree r))].

Definition reproduction_digest (r : SettlementReproductionIdentity) : result string :=
  canonical_digest "cacheon.settlement.reproduction-identity" (reproduction_to_dict r) 1.

Record ResidentLaneOrientation := mkOrientation {
  speed_policy : string; lane_control : string; baseline_lane : string; candidate_lane : string;
}.

#[export] Instance orientation_eq_dec : EqDecision ResidentLaneOrientation.
Proof. solve_decision. Defined.

Definition orientation_fields : list string :=
  ["speed_evidence_policy_digest"; "control_digest"; "baseline_physical_lane_digest"; "candidate_physical_lane_digest"].

Definition lane_digest (value : pyval) (field : string) : result string :=
  value ← settlement_digest value field false;
  raise_if String.eqb value _ZERO_DIGEST with (SettlementError (string_app field " must not be all-zero"));
  Ok value.

Definition make_orientation (policy control baseline candidate : pyval) : result ResidentLaneOrientation :=
  policy ← lane_digest policy "speed_evidence_policy_digest";
  control ← lane_digest control "control_digest";
  baseline ← lane_digest baseline "baseline_physical_lane_digest";
  candidate ← lane_digest candidate "candidate_physical_lane_digest";
  Ok (mkOrientation policy control baseline candidate).

Definition orientation_rows (o : ResidentLaneOrientation) : list (string * pyval) :=
  [("speed_evidence_policy_digest", VStr (speed_policy o)); ("control_digest", VStr (lane_control o));
   ("baseline_physical_lane_digest", VStr (baseline_lane o)); ("candidate_physical_lane_digest", VStr (candidate_lane o))].

Definition orientation_to_dict (o : ResidentLaneOrientation) : pyval := str_dict (orientation_rows o).

Definition orientation_from_dict (value : pyval) : result ResidentLaneOrientation :=
  row ← exact_dict value orientation_fields (SettlementError "resident lane orientation fields do not match");
  make_orientation (argument row "speed_evidence_policy_digest") (argument row "control_digest")
    (argument row "baseline_physical_lane_digest") (argument row "candidate_physical_lane_digest").

Definition is_exact_swap_of (o primary : ResidentLaneOrientation) : bool :=
  String.eqb (speed_policy o) (speed_policy primary) && String.eqb (lane_control o) (lane_control primary)
  && String.eqb (baseline_lane o) (candidate_lane primary) && String.eqb (candidate_lane o) (baseline_lane primary).

(** ** Slot audits *)

Definition MAX_AUDIT_RECEIPTS : Z := 4096.

(** [_options._bounded_int] *)
Definition bounded_int (value : pyval) (field_name : string) (minimum maximum : Z) : result Z :=
  match value with
  | VInt z => if (minimum <=? z) && (z <=? maximum) then Ok z else Raise (SessionProtocolError (string_app field_name " must be an integer in "))
  | _ => Raise (SessionProtocolError (string_app field_name " must be an integer in "))
  end.

(** [[0-9a-f]{32}\Z] *)
Definition _HEX_128 (s : string) : bool := (String.length s =? 32)%nat && all_chars is_lower_hex s.

Definition _binding_id (value : pyval) (field_name : string) : result string :=
  match value with
  | VStr s => if _HEX_128 s && negb (String.eqb s (string_of_bytes (repeat 48%N 32))) then Ok s
              else Raise (SessionProtocolError (string_app field_name " must be nonzero 128-bit lowercase hex"))
  | _ => Raise (SessionProtocolError (string_app field_name " must be nonzero 128-bit lowercase hex"))
  end.

(** The texts of a list, or [None] when an item is not a text. *)
Definition texts (l : list pyval) : option (list string) :=
  foldr (fun v acc => match v, acc with VStr s, Some l => Some (s :: l) | _, _ => None end) (Some []) l.

Record SlotAuditControl := mkControl {
  sample_rate_ppm : Z; minimum_calls : Z; expected_slots : list string; expected_member_count : Z;
}.

#[export] Instance control_eq_dec : EqDecision SlotAuditControl.
Proof. solve_decision. Defined.

(** Sorting a list that holds something other than texts raises [TypeError] in the source. *)
Definition audit_slots (value : list pyval) : result (list string) :=
  match texts value with
  | None => Raise (Exn "TypeError" "audit expected_slots")
  | Some slots =>
      raise_if bool_decide (slots = []) || (MAX_AUDIT_RECEIPTS <? Z.of_nat (length slots))
               || negb (bool_decide (slots = sorted_set slots)) || negb (forallb NODE_ADDRESS slots)
        with (SessionProtocolError "audit expected_slots must be a nonempty sorted unique slot array");
      Ok slots
  end.

Definition make_control (rate calls : pyval) (slots : list pyval) (members : pyval) : result SlotAuditControl :=
  rate ← bounded_int rate "audit sample_rate_ppm" 1 1000000;
  calls ← bounded_int calls "audit minimum_calls" 1 1000000000;
  slots ← audit_slots slots;
  members ← bounded_int members "audit expected_member_count" 1 64;
  raise_if MAX_AUDIT_RECEIPTS <? Z.of_nat (length slots) * members
    with (SessionProtocolError "audit slot/member receipt bound is exceeded");
  Ok (mkControl rate calls slots members).

Definition control_rows (c : SlotAuditControl) : list (string * pyval) :=
  [("expected_member_count", VInt (expected_member_count c)); ("expected_slots", VList (VStr <$> expected_slots c));
   ("minimum_calls", VInt (minimum_calls c)); ("sample_rate_ppm", VInt (sample_rate_ppm c))].

Definition control_fields : list string := ["expected_member_count"; "expected_slots"; "minimum_calls"; "sample_rate_ppm"].

Definition control_from_dict (value : pyval) : result SlotAuditControl :=
  row ← exact_dict value control_fields (SessionProtocolError "slot audit control fields do not match the schema");
  match argument row "expected_slots" with
  | VList slots =>
      make_control (argument row "sample_rate_ppm") (argument row "minimum_calls") slots (argument row "expected_member_count")
  | _ => Raise (SessionProtocolError "audit expected_slots must be an array")
  end.

Definition control_digest (c : SlotAuditControl) : result string :=
  canonical_digest "cacheon.eval.slot-audit-control.v1" (str_dict (control_rows c)) 1.

(** The control's fields are stored in the policy; [control] groups them again. *)
Record SlotAuditPolicy := mkAudit { validator_seed : string; control : SlotAuditControl }.

#[export] Instance audit_policy_eq_dec : EqDecision SlotAuditPolicy.
Proof. solve_decision. Defined.

Definition make_audit_policy (seed rate calls : pyval) (slots : list pyval) (members : pyval) : result SlotAuditPolicy :=
  seed ← _binding_id seed "audit validator_seed";
  control ← make_control rate calls slots members;
  Ok (mkAudit seed control).

Definition audit_policy_rows (p : SlotAuditPolicy) : list (string * pyval) :=
  control_rows (control p) ++ [("validator_seed", VStr (validator_seed p))].

Definition audit_policy_to_dict (p : SlotAuditPolicy) : pyval := str_dict (audit_policy_rows p).

Definition audit_policy_from_dict (value : pyval) : result SlotAuditPolicy :=
  row ← exact_dict value (control_fields ++ ["validator_seed"])
          (SessionProtocolError "slot audit policy fields do not match the schema");
  match argument row "expected_slots" with
  | VList slots =>
      make_audit_policy (argument row "validator_seed") (argument row "sample_rate_ppm") (argument row "minimum_calls") slots
        (argument row "expected_member_count")
  | _ => Raise (SessionProtocolError "audit expected_slots must be an array")
  end.

Definition audit_policy_digest (p : SlotAuditPolicy) : result string :=
  canonical_digest "cacheon.eval.slot-audit-policy.v1" (audit_policy_to_dict p) 1.

(** ** Fixed digests *)

Definition known_digest (domain : string) (payload : pyval) : string :=
  match canonical_digest domain payload 1 with Ok d => d | Raise _ => "" end.

Definition _LEGACY_SPEED_POLICY_DIGEST : string := Eval vm_compute in
  known_digest "cacheon.qualification.speed-evidence-policy"
    (str_dict [("candidate_reads", VInt 1); ("estimator", VStr "bcbp-baseline-range.v1"); ("version", VInt 1)]).
Definition _RESIDENT_SPEED_POLICY_DIGEST : string := Eval vm_compute in
  known_digest "cacheon.qualification.speed-evidence-policy"
    (str_dict [("candidate_reads", VInt 0); ("estimator", VStr "resident-adaptive-bcbp-v1"); ("version", VInt 3)]).
Definition _LEGACY_AUDIT_CONTROL_DIGEST : string := Eval vm_compute in
  known_digest "cacheon.settlement.legacy-audit-control" (str_dict [("status", VStr "absent")]).
Definition _LEGACY_AUDIT_EVIDENCE_DIGEST : string := Eval vm_compute in
  known_digest "cacheon.settlement.legacy-audit-evidence" (str_dict [("status", VStr "absent")]).

(** ** One qualification *)

Record SettlementQualification := mkQualification {
  lane : string; q_arena : string; q_reservation : string;
  finalized_block : Z; event_index : Z; event_subindex : Z;
  q_hotkey : string; q_target : string; members : list string; q_delta : string;
  authority : string; qualification_plan : string; attempt : string; report : string;
  selection_commitment : string; secret_commitment : string; selection_evidence : string; q_arm : string;
  incumbent_stack : string; incumbent_tree : string; candidate_stack : string; candidate_tree : string;
  speedup : string; incumbent_manifest : EvaluationStackManifest; q_proposal : string;
  candidate_manifest : option EvaluationStackManifest; speed_evidence_policy : string;
  audit_control : string; audit_policy : option SlotAuditPolicy; audit_evidence : string;
  orientation : option ResidentLaneOrientation;
}.

#[export] Instance qualification_eq_dec : EqDecision SettlementQualification.
Proof. solve_decision. Defined.

(** [bool(value)] *)
Definition py_truthy (v : pyval) : bool :=
  match v with
  | VNone => false
  | VBool b => b
  | VInt z => negb (z =? 0)
  | VStr s => truthy s
  | VList l | VTuple l => negb (bool_decide (length l = 0%nat))
  | VDict l => negb (bool_decide (length l = 0%nat))
  | _ => true
  end.

(** A list or a dict cannot be looked up in [_LANES]. *)
Definition check_lane (value : pyval) : result string :=
  match value with
  | VStr s => raise_if negb (String.eqb s "registered") with (SettlementError "settlement lane is unsupported"); Ok s
  | VList _ | VDict _ => Raise (Exn "TypeError" "unhashable type")
  | _ => Raise (SettlementError "settlement lane is unsupported")
  end.

(** A list that holds something other than texts raises [TypeError] where it cannot be sorted. *)
Definition check_members (value : list pyval) : result (list string) :=
  match texts value with
  | None => Raise (Exn "TypeError" "members")
  | Some members =>
      raise_if bool_decide (members = []) || negb (bool_decide (members = sorted_set members))
        with (SettlementError "settlement members are not canonical");
      map_result (fun m => _identifier (VStr m) "member" NODE_ADDRESS) members
  end.

Definition check_audit (policy : option SlotAuditPolicy) (control_digest_ evidence : string) : result () :=
  match policy with
  | None =>
      raise_if negb (String.eqb control_digest_ _LEGACY_AUDIT_CONTROL_DIGEST)
               || negb (String.eqb evidence _LEGACY_AUDIT_EVIDENCE_DIGEST)
        with (SettlementError "legacy auditless qualification has nonlegacy audit authority"); Ok tt
  | Some p =>
      d ← control_digest (control p);
      raise_if negb (String.eqb d control_digest_)
        with (SettlementError "settlement audit policy differs from its seed-independent control"); Ok tt
  end.

Definition check_orientation (lane : string) (o : option ResidentLaneOrientation) (policy : string) : result () :=
  _ ← match o with
      | None => Ok tt
      | Some o =>
          raise_if negb (String.eqb lane "registered")
            with (SettlementError "resident lane orientation requires one registered qualification");
          raise_if negb (String.eqb (speed_policy o) policy)
            with (SettlementError "resident lane orientation differs from the speed evidence policy"); Ok tt
      end;
  raise_if negb (Bool.eqb (String.eqb policy _RESIDENT_SPEED_POLICY_DIGEST) (bool_decide (o <> None)))
    with (SettlementError "resident speed evidence requires its physical lane orientation");
  Ok tt.

Definition check_incumbent (m : EvaluationStackManifest) (stack arena : string) : result () :=
  d ← manifest_digest m;
  raise_if negb (String.eqb d stack) || negb (String.eqb (s_arena m) arena)
    with (SettlementError "incumbent manifest differs from candidate authority"); Ok tt.

Definition check_candidate (m : option EvaluationStackManifest) (stack target delta : string) (proposal : pyval) :
    result () :=
  match m with
  | None => Raise (SettlementError "registered candidate lacks its exact stack manifest")
  | Some m =>
      d ← manifest_digest m;
      raise_if negb (String.eqb d stack) with (SettlementError "candidate manifest differs from candidate stack");
      match dict_get target (entries m) with
      | None => Raise (SettlementError "candidate manifest differs from its target/delta projection")
      | Some replacement =>
          d ← selected_delta_digest replacement;
          raise_if negb (String.eqb d delta)
            with (SettlementError "candidate manifest differs from its target/delta projection");
          raise_if py_truthy proposal
            with (SettlementError "registered candidates cannot name a discovery proposal");
          Ok tt
      end
  end.

(** The constructor, on the row of its arguments; the typed ones are apart. The lane is always
    [registered], so its branch is always taken and the proposal is optional. *)
Definition make_qualification (row : list (string * pyval)) (members_ : list pyval)
    (incumbent : EvaluationStackManifest) (candidate : option EvaluationStackManifest)
    (policy : option SlotAuditPolicy) (o : option ResidentLaneOrientation) : result SettlementQualification :=
  let digest name := settlement_digest (argument row name) name false in
  lane ← check_lane (argument row "lane");
  arena ← digest "arena_digest";
  reservation ← digest "reservation_digest";
  delta ← digest "selected_delta_digest";
  authority ← digest "qualification_authority_digest";
  plan ← digest "qualification_plan_digest";
  attempt ← digest "qualification_attempt_digest";
  report ← digest "qualification_report_digest";
  commitment ← digest "selection_commitment_digest";
  secret ← digest "selection_secret_commitment_digest";
  selection ← digest "selection_evidence_digest";
  arm ← digest "arm_digest";
  istack ← digest "incumbent_stack_digest";
  itree ← digest "incumbent_tree_digest";
  cstack ← digest "candidate_stack_digest";
  ctree ← digest "candidate_tree_digest";
  speed ← digest "speed_evidence_policy_digest";
  acontrol ← digest "audit_control_digest";
  aevidence ← digest "audit_evidence_digest";
  block ← settlement_integer (argument row "finalized_block") "finalized_block";
  index ← settlement_integer (argument row "event_index") "event_index";
  subindex ← settlement_integer (argument row "event_subindex") "event_subindex";
  hotkey ← _identifier (argument row "hotkey") "hotkey" _ID;
  target ← _identifier (argument row "target_id") "target_id" _ID;
  members_ ← check_members members_;
  speedup ← _speedup (argument row "speedup");
  _ ← check_audit policy acontrol aevidence;
  _ ← check_orientation lane o speed;
  _ ← check_incumbent incumbent istack arena;
  raise_if String.eqb istack cstack with (SettlementError "candidate does not change the incumbent stack identity");
  raise_if String.eqb itree ctree with (SettlementError "candidate does not change the incumbent tree identity");
  _ ← check_candidate candidate cstack target delta (argument row "proposal_digest");
  proposal ← settlement_digest (argument row "proposal_digest") "proposal_digest" true;
  raise_if match candidate with Some m => negb (String.eqb (s_arena m) arena) | None => false end
    with (SettlementError "candidate manifest belongs to another arena");
  Ok (mkQualification lane arena reservation block index subindex hotkey target members_ delta authority plan attempt
        report commitment secret selection arm istack itree cstack ctree speedup incumbent proposal candidate speed
        acontrol policy aevidence o).

Definition finalized_order (q : SettlementQualification) : Z * Z * Z * string :=
  (finalized_block q, event_index q, event_subindex q, q_reservation q).

(** The arms of a qualification: their digests were checked by the constructor. *)
Definition incumbent_arm (q : SettlementQualification) : StackArmIdentity := mkArm (incumbent_stack q) (incumbent_tree q).
Definition challenger_arm (q : SettlementQualification) : StackArmIdentity := mkArm (candidate_stack q) (candidate_tree q).

Definition reproduction_identity (q : SettlementQualification) : SettlementReproductionIdentity :=
  mkReproduction (q_arena q) (q_target q) (q_delta q) (q_hotkey q) (incumbent_stack q) (incumbent_tree q)
    (candidate_stack q) (candidate_tree q).

(** ** Storing a qualification *)

Definition manifest_opt (m : option EvaluationStackManifest) : pyval :=
  match m with None => VNone | Some m => manifest_to_dict m end.

Definition base_rows (q : SettlementQualification) : list (string * pyval) :=
  [("arena_digest", VStr (q_arena q)); ("arm_digest", VStr (q_arm q));
   ("candidate_manifest", manifest_opt (candidate_manifest q));
   ("candidate_stack_digest", VStr (candidate_stack q)); ("candidate_tree_digest", VStr (candidate_tree q));
   ("event_index", VInt (event_index q)); ("event_subindex", VInt (event_subindex q));
   ("finalized_block", VInt (finalized_block q)); ("hotkey", VStr (q_hotkey q));
   ("incumbent_stack_digest", VStr (incumbent_stack q)); ("incumbent_tree_digest", VStr (incumbent_tree q));
   ("incumbent_manifest", manifest_to_dict (incumbent_manifest q)); ("lane", VStr (lane q));
   ("members", VList (VStr <$> members q));
   ("qualification_attempt_digest", VStr (attempt q)); ("qualification_authority_digest", VStr (authority q));
   ("qualification_plan_digest", VStr (qualification_plan q)); ("qualification_report_digest", VStr (report q));
   ("selection_commitment_digest", VStr (selection_commitment q));
   ("selection_secret_commitment_digest", VStr (secret_commitment q));
   ("selection_evidence_digest", VStr (selection_evidence q)); ("proposal_digest", VStr (q_proposal q));
   ("reservation_digest", VStr (q_reservation q)); ("selected_delta_digest", VStr (q_delta q));
   ("speedup", VStr (speedup q)); ("target_id", VStr (q_target q))].

Definition policy_rows (q : SettlementQualification) : list (string * pyval) :=
  if negb (String.eqb (speed_evidence_policy q) _LEGACY_SPEED_POLICY_DIGEST) || bool_decide (audit_policy q <> None)
  then [("speed_evidence_policy_digest", VStr (speed_evidence_policy q))] else [].

Definition audit_rows (q : SettlementQualification) : list (string * pyval) :=
  match audit_policy q with
  | Some p => [("audit_control_digest", VStr (audit_control q)); ("audit_evidence_digest", VStr (audit_evidence q));
               ("audit_policy", audit_policy_to_dict p)]
  | None => []
  end.

Definition lane_rows (q : SettlementQualification) : list (string * pyval) :=
  match orientation q with Some o => [("resident_lane_orientation", orientation_to_dict o)] | None => [] end.

Definition qualification_rows (q : SettlementQualification) : list (string * pyval) :=
  base_rows q ++ policy_rows q ++ audit_rows q ++ lane_rows q.

Definition qualification_to_dict (q : SettlementQualification) : pyval := str_dict (qualification_rows q).

Definition fields_v1 : list string :=
  ["lane"; "arena_digest"; "reservation_digest"; "finalized_block"; "event_index"; "event_subindex"; "hotkey";
   "target_id"; "members"; "selected_delta_digest"; "qualification_authority_digest"; "qualification_plan_digest";
   "qualification_attempt_digest"; "qualification_report_digest"; "selection_commitment_digest";
   "selection_secret_commitment_digest"; "selection_evidence_digest"; "arm_digest"; "incumbent_stack_digest";
   "incumbent_tree_digest"; "candidate_stack_digest"; "candidate_tree_digest"; "speedup"; "incumbent_manifest";
   "proposal_digest"; "candidate_manifest"].
Definition fields_v2 : list string := fields_v1 ++ ["speed_evidence_policy_digest"].
Definition audit_fields : list string := ["audit_control_digest"; "audit_evidence_digest"; "audit_policy"].
Definition fields_v3 : list string := fields_v2 ++ audit_fields.
Definition lane_field : list string := ["resident_lane_orientation"].

(** The shapes [fields_v1] to [fields_v4], and [fields_v4] without the audit fields. *)
Definition qualification_shapes : list (list string) :=
  [fields_v1; fields_v2; fields_v3; fields_v3 ++ lane_field; fields_v2 ++ lane_field].

Definition has_field (row : list (string * pyval)) (name : string) : bool := bool_decide (dict_get name row <> None).

(** [row.setdefault(name, value)] *)
Definition set_default (name : string) (value : pyval) (row : list (string * pyval)) : list (string * pyval) :=
  if has_field row name then row else row ++ [(name, value)].

Definition read_audit (row : list (string * pyval)) : result (option SlotAuditPolicy * list (string * pyval)) :=
  match dict_get "audit_policy" row with
  | Some v => p ← audit_policy_from_dict v; Ok (Some p, row)
  | None => Ok (None, dict_set "audit_control_digest" (VStr _LEGACY_AUDIT_CONTROL_DIGEST)
                        (dict_set "audit_evidence_digest" (VStr _LEGACY_AUDIT_EVIDENCE_DIGEST) row))
  end.

Definition read_orientation (row : list (string * pyval)) : result (option ResidentLaneOrientation) :=
  match dict_get "resident_lane_orientation" row with
  | Some v => Some <$> orientation_from_dict v
  | None => Ok None
  end.

Definition read_candidate (value : pyval) : result (option EvaluationStackManifest) :=
  match value with VNone => Ok None | v => Some <$> manifest_from_dict v end.

Definition qualification_from_dict (value : pyval) : result SettlementQualification :=
  let mismatch := SettlementError "settlement qualification fields do not match" in
  match value with
  | VDict items =>
      raise_if negb (existsb (fun fields => keys_are fields items) qualification_shapes) with mismatch;
      match str_items items with
      | None => Raise mismatch
      | Some row =>
          let row := set_default "speed_evidence_policy_digest" (VStr _LEGACY_SPEED_POLICY_DIGEST) row in
          audit ← read_audit row;
          o ← read_orientation audit.2;
          match argument audit.2 "members" with
          | VList members_ =>
              candidate ← read_candidate (argument audit.2 "candidate_manifest");
              incumbent ← manifest_from_dict (argument audit.2 "incumbent_manifest");
              make_qualification audit.2 members_ incumbent candidate audit.1 o
          | _ => Raise (SettlementError "settlement qualification members are malformed")
          end
      end
  | _ => Raise mismatch
  end.

Definition qualification_domain (q : SettlementQualification) : string :=
  match orientation q, audit_policy q with
  | Some _, _ => "cacheon.settlement.qualification.resident-lane-v1"
  | None, None => "cacheon.settlement.qualification"
  | None, Some _ => "cacheon.settlement.qualification.audit-v1"
  end.

Definition qualification_digest (q : SettlementQualification) : result string :=
  canonical_digest (qualification_domain q) (qualification_to_dict q) 1.
