(* ===== verification/RewardTargets.v ===== *)
(** * Active reward targets

    Which targets of a stack may be rewarded side by side
    ([_active_reward_targets] of [cacheon/economics.py]): the relationships in
    the catalog that the stack was sealed under, walked depth first.
    [project_global_rewards] reads the sealed target specs first, which fixes
    the shape of the catalog rows. *)

From stdpp Require Import relations.
From S2P Require Import Prelude PyVal Dict Identity Strict Stack Qualification Pool.

Open Scope Z_scope.

Definition families (why : string) : exn :=
  EconomicsError (string_app "active reward families overlap or are incomplete: " why).

Definition json_text (j : json) : option string := match j with JStr s => Some s | _ => None end.

(** [row["target_id"]] *)
Definition keyed_row (j : json) : result (string * json) :=
  match json_get "target_id" j with
  | Some (JStr t) => Ok (t, j)
  | _ => Raise (Exn "KeyError" "target_id")
  end.

Section Catalog.
Context (rows : dict json).

(** Distinct targets of the catalog, as [row] lists them. *)
Definition ids (row : json) (field : string) : result (list string) :=
  match json_get field row with
  | Some (JArr l) =>
      match mapM json_text l with
      | Some ts =>
          raise_if negb (bool_decide (NoDup ts)) || negb (bool_decide (ts ⊆ rows.*1)) with (families field);
          Ok ts
      | None => Raise (families field)
      end
  | _ => Raise (families field)
  end.

Definition children_of (field target : string) : result (list string) :=
  match dict_get target rows with
  | Some row => ids row field
  | None => Raise (Exn "KeyError" target)
  end.

(** [visit]: what [found] becomes. The children of a node are a set, walked here as they are listed. *)
Fixpoint visit (children : string -> result (list string)) (fuel : nat) (visiting found : list string) (node : string) :
    result (list string) :=
  match fuel with
  | O => Raise (Exn "RecursionError" "")
  | S fuel =>
      raise_if bool_decide (node ∈ visiting) with (families "relationship cycle");
      if decide (node ∈ found) then Ok found
      else
        kids ← children node;
        fold_result (fun found child => found ← visit children fuel (node :: visiting) found child; Ok (child :: found)) kids found
  end.

(** A node is on the path once: one step for each row of the catalog, and one more. *)
Definition closure (children : string -> result (list string)) (target : string) : result (list string) :=
  visit children (S (length rows)) [] [] target.

Definition check_target (schema : Z) (active owned : list string) (target : string) : result (list string) :=
  displaced ← closure (children_of "displaces") target;
  raise_if existsb (fun t => bool_decide (t ∈ active)) displaced with (families "displaces");
  required ← closure (children_of "requires") target;
  raise_if existsb (fun t => bool_decide (t ∉ active)) required with (families "requires");
  _ ← (if schema =? 2
       then conflicting ← children_of "conflicts_with" target;
            raise_if existsb (fun t => bool_decide (t ∈ active)) conflicting with (families "conflicts_with"); Ok tt
       else Ok tt);
  members ← children_of "members" target;
  raise_if bool_decide (members = []) || existsb (fun t => bool_decide (t ∈ owned)) members
    with (families "shared or empty member ownership");
  Ok (owned ++ members).

(** ** Composition rules *)

(** JSON values as Python compares them: [True == 1]. *)
Fixpoint comparable (j : json) : json :=
  match j with
  | JBool b => JInt (if b then 1 else 0)
  | JArr l => JArr (map comparable l)
  | JObj l => JObj (map (fun kv => (kv.1, comparable kv.2)) l)
  | _ => j
  end.

(** [x.get(field)], where a missing field and [None] are the same. *)
Definition json_field (name : string) (j : json) : json := comparable (default JNull (json_get name j)).

Record composed_rules := mkRules { pairs : list (string * string); rule_ids : list string; edges : list (string * string) }.

Definition same_binding (rule : json) (target : string) : result () :=
  match dict_get target rows with
  | None => Raise (Exn "KeyError" target)
  | Some row =>
      match json_get "contract_ref" row with
      | None | Some JNull => Ok tt
      | Some (JObj contract) =>
          raise_if negb (bool_decide (json_field "binding_family_id" (JObj contract) = json_field "binding_family_id" rule))
            with (families "composition binding family");
          Ok tt
      | Some _ => Raise (Exn "AttributeError" "get")
      end
  end.

(** [re.fullmatch(r"[0-9a-f]{64}", digest)] *)
Definition is_binding_digest (j : option json) : bool := match j with Some (JStr d) => is_sha256_hex d | _ => false end.

Definition check_rule (active : list string) (acc : composed_rules) (rule : json) : result composed_rules :=
  raise_if match rule with JObj _ => false | _ => true end with (families "composition rule");
  targets ← ids rule "target_ids";
  if negb (forallb (fun t => bool_decide (t ∈ active)) targets) then Ok acc
  else
    match sorted_id targets with
    | [lower; upper] =>
        raise_if negb (bool_decide (targets = [lower; upper])) with (families "composition pair");
        match json_get "rule_id" rule with
        | Some (JStr rule_id) =>
            raise_if negb (truthy rule_id) with (families "composition rule ID");
            raise_if bool_decide ((lower, upper) ∈ pairs acc) || bool_decide (rule_id ∈ rule_ids acc)
              with (families "duplicate composition");
            order ← ids rule "precedence";
            raise_if negb (bool_decide (sorted_id order = [lower; upper])) with (families "composition precedence");
            raise_if negb (bool_decide (json_get "schema_version" rule = Some (JInt 1))) with (families "composition schema");
            raise_if negb (bool_decide (json_get "mode" rule = Some (JStr "first_applicable"))) with (families "composition mode");
            raise_if negb (is_binding_digest (json_get "binding_contract_digest" rule)) with (families "composition binding digest");
            _ ← map_result (same_binding rule) [lower; upper];
            match order with
            | [first; second] => Ok (mkRules ((lower, upper) :: pairs acc) (rule_id :: rule_ids acc) ((first, second) :: edges acc))
            | _ => Raise (Exn "IndexError" "order")
            end
        | _ => Raise (families "composition rule ID")
        end
    | _ => Raise (families "composition pair")
    end.

(** [combinations(l, 2)] *)
Fixpoint combinations (l : list string) : list (string * string) :=
  match l with [] => [] | x :: l => ((fun y => (x, y)) <$> l) ++ combinations l end.

Definition covered (composed : list (string * string)) (lr : string * string) : result () :=
  lefts ← children_of "compatible_with" lr.1;
  rights ← children_of "compatible_with" lr.2;
  let forward := bool_decide (lr.2 ∈ lefts) in
  let backward := bool_decide (lr.1 ∈ rights) in
  raise_if negb (Bool.eqb forward backward && Bool.eqb backward (bool_decide (lr ∈ composed))) with (families "composition coverage");
  Ok tt.

Definition successors (rules : composed_rules) (t : string) : result (list string) :=
  Ok ((filter (fun e : string * string => e.1 = t) (edges rules)).*2).

Definition check_composition (snapshot : json) (active : list string) : result () :=
  match json_get "composition_rules" snapshot with
  | Some (JArr l) =>
      rules ← fold_result (check_rule active) l (mkRules [] [] []);
      _ ← map_result (covered (pairs rules)) (combinations active);
      _ ← map_result (closure (successors rules)) active;
      Ok tt
  | _ => Raise (families "composition rules")
  end.
End Catalog.

Definition catalog_schema (snapshot : json) : result Z :=
  match json_get "schema_version" snapshot with
  | Some (JInt z) => if (z =? 1) || (z =? 2) then Ok z else Raise (families "unsupported catalog schema")
  | _ => Raise (families "unsupported catalog schema")
  end.

Definition catalog_rows (snapshot : json) : result (dict json) :=
  match json_get "targets" snapshot with
  | Some (JArr l) => rows ← map_result keyed_row l; Ok (foldl (fun d kv => dict_set kv.1 kv.2 d) [] rows)
  | _ => Raise (Exn "KeyError" "targets")
  end.

Definition _active_reward_targets (m : EvaluationStackManifest) : result (list string) :=
  let snapshot := s_catalog m in
  schema ← catalog_schema snapshot;
  raise_if negb (bool_decide (json_get "policy_version" snapshot =
                              Some (JStr (if schema =? 1 then "target-catalog.v1" else "target-catalog.v2"))))
    with (families "catalog policy");
  rows ← catalog_rows snapshot;
  let active := sorted_id (entries m).*1 in
  raise_if negb (bool_decide (active ⊆ rows.*1)) with (families "unregistered active target");
  _ ← fold_result (check_target rows schema active) active [];
  _ ← (if schema =? 1 then check_composition rows snapshot active else Ok tt);
  Ok active.

(** ** The walk *)

Section Walk.
Context (children : string -> result (list string)).

Definition child (x y : string) : Prop := exists ks, children x = Ok ks /\ y ∈ ks.

Definition closed (found : list string) : Prop := forall x, x ∈ found -> exists ks, children x = Ok ks /\ ks ⊆ found.

Lemma visit_closed fuel visiting found node out :
  closed found -> visit children fuel visiting found node = Ok out ->
  found ⊆ out /\ closed out /\ exists ks, children node = Ok ks /\ ks ⊆ out.
Proof.
  revert visiting found node out. induction fuel as [|fuel IH]; intros visiting found node out Hf H; [done|]. cbn [visit] in H. step_guard H.
  destruct (decide (node ∈ found)) as [Hin|Hout]; [injection H as <-; split_and!; [done|done|by apply Hf]|].
  apply bind_Ok in H as (ks & Hks & H).
  assert (Hfold : found ⊆ out /\ closed out /\ ks ⊆ out); [|destruct Hfold as (? & ? & ?); by eauto].
  clear Hks Hout Eg. revert found Hf H. induction ks as [|k ks IHk]; intros found Hf H; cbn in H.
  { injection H as <-. split_and!; [done|done|apply list_subseteq_nil]. }
  apply bind_Ok in H as (found1 & (mid & Hv & [= <-])%bind_Ok & H).
  destruct (IH _ _ _ _ Hf Hv) as (Hsub & Hmid & kk & Hkk & Hkid).
  apply IHk in H as (Hs & Hc & Hks).
  - split_and!; [intros x Hx; apply Hs; right; by apply Hsub|done|].
    intros x [->|Hx]%elem_of_cons; [apply Hs; by left|by apply Hks].
  - intros x [->|Hx]%elem_of_cons; [exists kk; split; [done|intros y Hy; right; by apply Hkid]|].
    destruct (Hmid x Hx) as (kx & Hkx & Hsx). exists kx. split; [done|]. intros y Hy. right. by apply Hsx.
Qed.

Lemma closed_reaches found t u : closed found -> (exists ks, children t = Ok ks /\ ks ⊆ found) -> tc child t u -> u ∈ found.
Proof.
  intros Hc Ht H. induction H as [t u (ks & Hks & Hu)|t x u (ks & Hks & Hx) _ IH]; destruct Ht as (ks' & Hks' & Hsub);
    (assert (ks' = ks) as -> by congruence).
  - by apply Hsub.
  - apply IH, Hc. by apply Hsub.
Qed.
End Walk.

Lemma closure_reaches rows children target out u :
  closure rows children target = Ok out -> tc (child children) target u -> u ∈ out.
Proof.
  intros H. apply visit_closed in H as (_ & Hc & Hk); [by apply closed_reaches|]. by intros x Hx%elem_of_nil.
Qed.

(** ** The walk ends *)

Section Ends.
Context (children : string -> result (list string)) (keys : list string).
Context (Hkeys : forall x ks, children x = Ok ks -> ks ⊆ keys).

Definition overflow : exn := Exn "RecursionError" "".
Context (Hchildren : forall x, children x <> Raise overflow).

Lemma fold_result_raises {A B} (f : B -> A -> result B) l b e :
  fold_result f l b = Raise e -> exists b' x, x ∈ l /\ f b' x = Raise e.
Proof.
  revert b. induction l as [|x l IH]; intros b H; cbn in H; [done|].
  destruct (f b x) as [b'|e'] eqn:E; cbn in H.
  - apply IH in H as (b'' & y & Hy & Hf). exists b'', y. split; [by right|done].
  - injection H as ->. exists b, x. split; [by left|done].
Qed.

Lemma visit_ends fuel visiting found node :
  NoDup visiting -> visiting ⊆ keys -> node ∈ keys -> (length keys < fuel + length visiting)%nat ->
  visit children fuel visiting found node <> Raise overflow.
Proof.
  revert visiting found node. induction fuel as [|fuel IH]; intros visiting found node Hnd Hsub Hin Hlen H.
  - pose proof (submseteq_length _ _ (NoDup_submseteq _ _ Hnd Hsub)). simpl in Hlen. lia.
  - cbn [visit] in H. destruct (bool_decide (node ∈ visiting)) eqn:Eg; [discriminate H|].
    apply bool_decide_eq_false in Eg. destruct (decide (node ∈ found)); [discriminate H|].
    destruct (children node) as [ks|e] eqn:Ek; cbn in H; [|apply (Hchildren node); congruence].
    apply fold_result_raises in H as (found' & k & Hk & H).
    destruct (visit children fuel (node :: visiting) found' k) as [x|e] eqn:Ev; cbn in H; [discriminate H|].
    injection H as ->. eapply IH; [| | | |exact Ev].
    + by constructor.
    + intros x [->|Hx]%elem_of_cons; [done|by apply Hsub].
    + by eapply Hkeys.
    + cbn [length]. lia.
Qed.
End Ends.

(** ** The checks of a target *)

Section Targets.
Context (rows : dict json).

Lemma ids_known row field ts : ids rows row field = Ok ts -> ts ⊆ rows.*1.
Proof.
  unfold ids. destruct (json_get field row) as [[]|]; try done. destruct (mapM json_text l) as [us|]; [|done].
  intros H. step_guard H. injection H as <-. by split_bool.
Qed.

Lemma children_known field t ts : children_of rows field t = Ok ts -> ts ⊆ rows.*1.
Proof. unfold children_of. destruct (dict_get t rows); [apply ids_known|done]. Qed.

Lemma children_errors field t : children_of rows field t <> Raise overflow.
Proof.
  unfold children_of. destruct (dict_get t rows) as [row|]; [|done]. unfold ids.
  destruct (json_get field row) as [[]|]; try done. destruct (mapM json_text l) as [us|]; [|done]. by destruct (_ || _).
Qed.

(** What a check leaves behind. *)
Record sound_target (active owned : list string) (t : string) (ms : list string) : Prop := {
  target_members : children_of rows "members" t = Ok ms;
  target_owns : ms <> [] /\ forall x, x ∈ ms -> x ∉ owned;
  target_displaces : forall u, tc (child (children_of rows "displaces")) t u -> u ∉ active;
  target_requires : forall u, tc (child (children_of rows "requires")) t u -> u ∈ active;
}.

Lemma existsb_none {A} (p : A -> bool) l x : existsb p l = false -> x ∈ l -> p x = false.
Proof.
  intros H Hx. destruct (p x) eqn:E; [|done]. apply not_true_iff_false in H. exfalso. apply H, existsb_exists. exists x.
  split; [by apply list_elem_of_In|done].
Qed.

Lemma check_target_ok schema active owned t out :
  check_target rows schema active owned t = Ok out -> exists ms, out = owned ++ ms /\ sound_target active owned t ms.
Proof.
  unfold check_target. intros (ds & Hd & H)%bind_Ok. destruct (existsb _ ds) eqn:E1; [discriminate H|].
  apply bind_Ok in H as (qs & Hq & H). destruct (existsb _ qs) eqn:E2; [discriminate H|].
  apply bind_Ok in H as (u & _ & H). apply bind_Ok in H as (ms & Hm & H). destruct (_ || _) eqn:E3 in H; [discriminate H|].
  injection H as <-. exists ms. split; [done|]. apply orb_false_iff in E3 as [En Eo]. split; [done| | |].
  - split; [by apply bool_decide_eq_false in En|]. intros x Hx. by apply (existsb_none _ _ _ Eo), bool_decide_eq_false in Hx.
  - intros v Hv. apply (closure_reaches _ _ _ _ _ Hd) in Hv. by apply (existsb_none _ _ _ E1), bool_decide_eq_false in Hv.
  - intros v Hv. apply (closure_reaches _ _ _ _ _ Hq) in Hv. apply (existsb_none _ _ _ E2), bool_decide_eq_false in Hv.
    destruct (decide (v ∈ active)); tauto.
Qed.

Lemma check_targets_ok schema active ts owned out :
  fold_result (check_target rows schema active) ts owned = Ok out ->
  owned ⊆ out /\
  (forall t, t ∈ ts -> exists ms, sound_target active owned t ms /\ ms ⊆ out) /\
  (forall t u ms ns, t ∈ ts -> u ∈ ts -> t <> u -> children_of rows "members" t = Ok ms -> children_of rows "members" u = Ok ns -> ms ## ns).
Proof.
  revert owned. induction ts as [|t ts IH]; intros owned H; cbn in H.
  { injection H as <-. split_and!; [done|by intros ? ?%elem_of_nil|by intros ? ? ? ? ?%elem_of_nil]. }
  apply bind_Ok in H as (owned1 & Ht & H). apply check_target_ok in Ht as (ms & -> & Hs). apply IH in H as (Hsub & Hall & Hdis).
  assert (Hown : forall u ns, u ∈ ts -> children_of rows "members" u = Ok ns -> ms ## ns).
  { intros u ns Hu Hn x Hx Hx'. destruct (Hall u Hu) as (ns' & [Hn' [_ Hno] _ _] & _). assert (ns' = ns) as -> by congruence.
    apply (Hno x Hx'), elem_of_app. by right. }
  split_and!.
  - intros x Hx. apply Hsub, elem_of_app. by left.
  - intros u [->|Hu]%elem_of_cons.
    + exists ms. split; [done|]. intros x Hx. apply Hsub, elem_of_app. by right.
    + destruct (Hall u Hu) as (ns & [Hn [Hne Hno] Hd Hq] & Hin). exists ns. split; [|done]. split; try done. split; [done|].
      intros x Hx Ho. apply (Hno x Hx), elem_of_app. by left.
  - intros v u as_ bs Hv Hu Hne Ha Hb. apply elem_of_cons in Hv as [->|Hv], Hu as [->|Hu].
    + done.
    + destruct Hs as [Hm _ _ _]. assert (as_ = ms) as -> by congruence. by eapply Hown.
    + destruct Hs as [Hm _ _ _]. assert (bs = ms) as -> by congruence. intros x Hx Hx'. by apply (Hown v as_ Hv Ha x).
    + exact (Hdis v u as_ bs Hv Hu Hne Ha Hb).
Qed.
End Targets.

(** C26: the active targets of a stack that is accepted for rewards are registered, own members that no other active
    target owns, displace no active target and require active targets only, directly or through any chain. *)
Theorem families_do_not_overlap m l :
  _active_reward_targets m = Ok l ->
  l = sorted_id (entries m).*1 /\
  exists rows, catalog_rows (s_catalog m) = Ok rows /\ l ⊆ rows.*1 /\
    (forall t, t ∈ l -> exists ms, children_of rows "members" t = Ok ms /\ ms <> []) /\
    (forall t u ms ns, t ∈ l -> u ∈ l -> t <> u ->
       children_of rows "members" t = Ok ms -> children_of rows "members" u = Ok ns -> ms ## ns) /\
    (forall t u, t ∈ l -> tc (child (children_of rows "displaces")) t u -> u ∉ l) /\
    (forall t u, t ∈ l -> tc (child (children_of rows "requires")) t u -> u ∈ l).
Proof.
  unfold _active_reward_targets. intros (schema & _ & H)%bind_Ok. step_guard H. apply bind_Ok in H as (rows & Hrows & H).
  step_guard H. apply bind_Ok in H as (out & Hfold & H). apply bind_Ok in H as (u & _ & [= <-]). split; [done|].
  apply negb_false_iff, bool_decide_eq_true in Eg0. apply check_targets_ok in Hfold as (_ & Hall & Hdis).
  exists rows. split_and!; try done.
  - intros t Ht. destruct (Hall t Ht) as (ms & [Hm [Hne _] _ _] & _). by exists ms.
  - intros t v Ht. destruct (Hall t Ht) as (ms & [_ _ Hd _] & _). apply Hd.
  - intros t v Ht. destruct (Hall t Ht) as (ms & [_ _ _ Hq] & _). apply Hq.
Qed.

(** The walk over the relationships of a registered target ends, whatever the catalog says: the bound that stands
    for Python's recursion is never reached, and a cycle is refused as one. *)
Theorem closure_ends rows field t : t ∈ rows.*1 -> closure rows (children_of rows field) t <> Raise overflow.
Proof.
  intros Ht. apply (visit_ends _ rows.*1 (children_known rows field) (children_errors rows field)).
  - constructor.
  - apply list_subseteq_nil.
  - done.
  - rewrite length_fmap. simpl. lia.
Qed.

(** ** An example

    Two layers, and a fused target that would displace both. *)

Definition texts_of (l : list string) : json := JArr (JStr <$> l).

Definition target (name : string) (displaces requires members compatible : list string) : json :=
  JObj [("target_id", JStr name); ("displaces", texts_of displaces); ("requires", texts_of requires);
        ("members", texts_of members); ("conflicts_with", texts_of []); ("compatible_with", texts_of compatible)].

Definition example_catalog : json :=
  JObj [("schema_version", JInt 2); ("policy_version", JStr "target-catalog.v2");
        ("targets", JArr [target "attention" [] [] ["attention"] []; target "mlp" [] ["attention"] ["mlp"] [];
                          target "block" ["attention"; "mlp"] [] ["attention"; "mlp"] []])].

Definition some_contribution (t : string) : ContributionRef := mkContribution t "" "" "" "".

Definition active_stack (ts : list string) : EvaluationStackManifest :=
  mkManifest "" "" "" "" example_catalog ((fun t => (t, some_contribution t)) <$> ts).

Lemma example_active : _active_reward_targets (active_stack ["attention"; "mlp"]) = Ok ["attention"; "mlp"].
Proof. vm_compute. reflexivity. Qed.

Lemma example_refused : _active_reward_targets (active_stack ["attention"; "block"; "mlp"]) = Raise (families "displaces").
Proof. vm_compute. reflexivity. Qed.

Lemma families_do_not_overlap_witness :
  exists rows, catalog_rows example_catalog = Ok rows /\
    forall ms ns, children_of rows "members" "attention" = Ok ms -> children_of rows "members" "mlp" = Ok ns -> ms ## ns.
Proof.
  destruct (families_do_not_overlap (active_stack ["attention"; "mlp"]) ["attention"; "mlp"] example_active)
    as (_ & rows & Hrows & _ & _ & H & _).
  exists rows. split; [exact Hrows|]. intros ms ns. apply (H "attention" "mlp"); [left|right; left|discriminate].
Defined.

Lemma closure_ends_witness :
  closure [("attention", target "attention" ["attention"] [] [] [])]
    (children_of [("attention", target "attention" ["attention"] [] [] [])] "displaces") "attention" = Raise (families "relationship cycle") /\
  closure [("attention", target "attention" ["attention"] [] [] [])]
    (children_of [("attention", target "attention" ["attention"] [] [] [])] "displaces") "attention" <> Raise overflow.
Proof. split; [vm_compute; reflexivity|]. apply (closure_ends _ "displaces" "attention"). left. Defined.
