(* ===== verification/Projection.v ===== *)
(** * The reward projection

    [project_global_rewards] of [cacheon/economics.py]: from the emissions
    policy, the registered hotkeys, the crowns of every arena and the claims
    that earn, to one weight vector of a million parts. *)

From Stdlib Require Import QArith.
From S2P Require Import Prelude PyVal Dict Identity Strict Stack Pool Economics Arena RewardTargets CreditCurve.

Open Scope Z_scope.

(** ** Arenas *)

Record ArenaRewardAuthority := mkArena {
  stack : EvaluationStackManifest; stack_generation : Z; standing_claims : list StandingRewardClaim;
}.

Definition make_arena (m : EvaluationStackManifest) (generation : pyval) (claims : list StandingRewardClaim) :
    result ArenaRewardAuthority :=
  generation ← _integer generation "arena stack_generation" 0;
  Ok (mkArena m generation claims).

Definition arena_of (a : ArenaRewardAuthority) : string := s_arena (stack a).

Definition arena_rows (a : ArenaRewardAuthority) : result (list (string * pyval)) :=
  d ← manifest_digest (stack a);
  claims ← map_result standing_digest (sorted_by target_id (standing_claims a));
  Ok [("arena_digest", VStr (arena_of a)); ("catalog_digest", VStr (s_catalog_digest (stack a)));
      ("stack_digest", VStr d); ("stack_generation", VInt (stack_generation a)); ("standing_claims", VList (VStr <$> claims))].

Definition arena_authority_digest (a : ArenaRewardAuthority) : result string :=
  rows ← arena_rows a; canonical_digest "cacheon.economics.arena-authority" (str_dict rows) 1.

(** ** The projection record *)

Record DiscoveryBountyCredit := mkDiscovery { discovery_claim : string; discovery_hotkey : string; discovery_credit : Z }.

Record HotkeyWeight := mkWeight { weight_hotkey : string; weight_ppm : Z }.

Record GlobalRewardProjection := mkProjection {
  projected_policy : string; projected_context : GlobalRewardProjectionContext; arena_authority_digests : list string;
  standing : list StandingFamilyCredit; discovery : list DiscoveryBountyCredit;
  expired_discovery_claims : list string; weights : list HotkeyWeight;
}.

Definition family_key (c : StandingFamilyCredit) : string * string * string := (credit_arena c, credit_target c, claim_digest c).

Definition make_reward_projection (p : GlobalRewardProjection) : result GlobalRewardProjection :=
  _ ← _digest (VStr (projected_policy p)) "policy_digest";
  _ ← map_result (fun d => _digest (VStr d) "arena authority digest") (arena_authority_digests p);
  raise_if negb (bool_decide (arena_authority_digests p = sorted_id (arena_authority_digests p)))
    with (EconomicsError "arena authorities are not canonical");
  raise_if negb (bool_decide (family_key <$> standing p = sorted_id (family_key <$> standing p)))
    with (EconomicsError "global standing families are not canonical");
  raise_if negb (bool_decide (weight_hotkey <$> weights p = sorted_id (weight_hotkey <$> weights p)))
    with (EconomicsError "global weights are not canonical");
  raise_if negb (distinct (weight_hotkey <$> weights p)) || existsb (fun w => weight_ppm w <=? 0) (weights p)
           || negb (sum_Z (weight_ppm <$> weights p) =? WEIGHT_PPM)
    with (EconomicsError "global weights are not exactly normalized");
  Ok p.

Definition family_credit_to_dict (c : StandingFamilyCredit) : pyval :=
  str_dict [("arena_digest", VStr (credit_arena c)); ("claim_digest", VStr (claim_digest c)); ("credit", VInt (credit c));
            ("family_id", VStr (credit_family c)); ("hotkey", VStr (hotkey c)); ("target_id", VStr (credit_target c))].

Definition discovery_credit_to_dict (c : DiscoveryBountyCredit) : pyval :=
  str_dict [("claim_digest", VStr (discovery_claim c)); ("credit", VInt (discovery_credit c)); ("hotkey", VStr (discovery_hotkey c))].

Definition weight_to_dict (w : HotkeyWeight) : pyval :=
  str_dict [("hotkey", VStr (weight_hotkey w)); ("weight_ppm", VInt (weight_ppm w))].

Definition reward_projection_to_dict (p : GlobalRewardProjection) : result pyval :=
  context ← context_to_dict (projected_context p);
  Ok (str_dict [("arena_authority_digests", VList (VStr <$> arena_authority_digests p)); ("context", context);
                ("discovery", VList (discovery_credit_to_dict <$> discovery p));
                ("expired_discovery_claims", VList (VStr <$> expired_discovery_claims p));
                ("policy_digest", VStr (projected_policy p)); ("standing", VList (family_credit_to_dict <$> standing p));
                ("weights", VList (weight_to_dict <$> weights p))]).

Definition reward_projection_digest (p : GlobalRewardProjection) : result string :=
  payload ← reward_projection_to_dict p; canonical_digest "cacheon.economics.global-reward-projection" payload 1.

Definition weights_by_hotkey (p : GlobalRewardProjection) : dict Z := (fun w => (weight_hotkey w, weight_ppm w)) <$> weights p.

(** ** Crowns *)

Definition one_claim : exn := EconomicsError "every active target requires exactly one standing claim".

Definition pass_key (c : StandingRewardClaim) : string * string * string := (arena_digest c, target_id c, contribution_digest c).

(** A stored contribution that names the source of the entry, whatever its payload. *)
Definition same_source (original entry : ContributionRef) : bool :=
  bool_decide (c_target original = c_target entry) && bool_decide (c_spec original = c_spec entry)
  && bool_decide (c_artifact original = c_artifact entry) && bool_decide (c_attribution original = c_attribution entry).

Section Crowns.
Context (refs : dict ContributionRef) (validated : list StandingRewardClaim).

(** A crown of another arena that the entry was carried over from. *)
Definition carries_crown (m : EvaluationStackManifest) (spec : option string) (target : string) (entry : ContributionRef) (d : string)
    (row : StandingRewardClaim) : bool :=
  negb (bool_decide (arena_digest row = s_arena m)) && bool_decide (target_id row = target)
  && bool_decide (Some (target_spec_digest row) = spec)
  && (bool_decide (contribution_digest row = d)
      || match dict_get (contribution_digest row) refs with Some original => same_source original entry | None => false end).

(** The claim that holds the crown, against the stack and against the PASS that it was granted for. *)
Definition check_claim (m : EvaluationStackManifest) (spec : option string) (entry : ContributionRef) (d : string)
    (claim : StandingRewardClaim) : result () :=
  raise_if negb (bool_decide (arena_digest claim = s_arena m)) with (EconomicsError "standing claim names another arena");
  raise_if negb (bool_decide (Some (target_spec_digest claim) = spec)) || negb (bool_decide (target_spec_digest claim = c_spec entry))
           || negb (bool_decide (contribution_digest claim = d))
    with (EconomicsError "standing claim is stale or incompatible");
  match find (fun row => bool_decide (pass_key row = pass_key claim)) validated with
  | None => Raise (EconomicsError "standing claim has no PASS")
  | Some history =>
      raise_if negb (bool_decide (claim_hotkey history = claim_hotkey claim)) || negb (speedup_ppm history =? speedup_ppm claim)
               || negb (bool_decide (target_spec_digest history = target_spec_digest claim))
        with (EconomicsError "standing claim differs from PASS");
      Ok tt
  end.

Definition check_crown (a : ArenaRewardAuthority) (specs : dict string) (target : string) : result () :=
  entry ← dict_item target (entries (stack a));
  d ← Stack.contribution_digest entry;
  match find (fun c => bool_decide (target_id c = target)) (standing_claims a) with
  | None =>
      raise_if negb (existsb (carries_crown (stack a) (dict_get target specs) target entry d) validated) with one_claim;
      Ok tt
  | Some claim => check_claim (stack a) (dict_get target specs) entry d claim
  end.

(** [allocated]: submissions are priced, and an arena may still be without a crown. *)
Definition check_authority (allocated : bool) (a : ArenaRewardAuthority) : result () :=
  specs ← _catalog_spec_rows (s_catalog (stack a));
  active ← _active_reward_targets (stack a);
  if allocated && (stack_generation a =? 0) then
    raise_if negb (bool_decide (standing_claims a = [] :> list StandingRewardClaim)) with (EconomicsError "uncrowned arena has standing claims");
    Ok tt
  else
    raise_if bool_decide (active = []) with (EconomicsError "every registered arena requires an active crown");
    raise_if match standing_claims a with [] => true | _ => false end || negb (distinct (target_id <$> standing_claims a))
             || negb (bool_decide (target_id <$> standing_claims a ⊆ active))
      with one_claim;
    _ ← map_result (check_crown a specs) active;
    Ok tt.
End Crowns.

(** ** Credits *)

Definition digested (c : StandingRewardClaim) : result (string * StandingRewardClaim) := d ← standing_digest c; Ok (d, c).

(** Registered hotkeys earn for themselves, the others for the validator. *)
Definition payee_of (context : GlobalRewardProjectionContext) (hotkey : string) : string :=
  if decide (hotkey ∈ eligible_hotkeys context) then hotkey else validator_hotkey context.

(** The clock of an arena: its own, or that of the arena it was recommissioned from. *)
Definition clock_of (stall_groups : dict string) (arena : string) : string := default arena (dict_get arena stall_groups).

Definition earning_key (stall_groups : dict string) (dc : string * StandingRewardClaim) : string * Z * string :=
  (clock_of stall_groups (arena_digest dc.2), crowned_block dc.2, dc.1).

Record tally := mkTally { previous : dict Z; family_credits : list StandingFamilyCredit; standing_by_hotkey : dict Z }.

Section Credits.
Context (policy : EmissionsPolicyManifest) (context : GlobalRewardProjectionContext) (starts : dict (option Z))
  (score_speedups stall_bonus_terms : option (dict Z)) (stall_groups : dict string).

Definition bonus_of (digest : string) : result Z :=
  match stall_bonus_terms with None => Ok WEIGHT_PPM | Some terms => dict_item digest terms end.

Definition credit_step (t : tally) (dc : string * StandingRewardClaim) : result tally :=
  let '(d, claim) := dc in
  let clock := clock_of stall_groups (arena_digest claim) in
  let predecessor := default (crowned_block claim) (dict_get clock (previous t)) in
  s ← scored claim d score_speedups;
  bonus ← bonus_of d;
  credit ← credit_at s (current_block context) policy (Some predecessor) (decay_start starts (current_block context) d) bonus;
  family ← family_id claim;
  Ok (mkTally (dict_set clock (crowned_block claim) (previous t))
        (family_credits t ++ [mkCredit (arena_digest claim) family (target_id claim) d (claim_hotkey claim) credit])
        (dict_add (payee_of context (claim_hotkey claim)) credit (standing_by_hotkey t))).

Definition credit_all (earning : list (string * StandingRewardClaim)) : result tally :=
  fold_result credit_step (sorted_by (earning_key stall_groups) earning) (mkTally [] [] []).

(** ** Bounties *)

Record bounties := mkBounties { live : list DiscoveryBountyCredit; expired : list string; discovery_by_hotkey : dict Z }.

Definition bounty_step (b : bounties) (dc : string * DiscoveryBountyClaim) : result bounties :=
  let '(d, claim) := dc in
  earns ← live_at claim (VInt (current_block context)) policy;
  Ok (if earns : bool
      then mkBounties (live b ++ [mkDiscovery d (bounty_hotkey claim) (bounty_units claim)]) (expired b)
             (dict_add (payee_of context (bounty_hotkey claim)) (bounty_units claim) (discovery_by_hotkey b))
      else mkBounties (live b) (expired b ++ [d]) (discovery_by_hotkey b)).

Definition bounty_all (claims : list DiscoveryBountyClaim) : result bounties :=
  rows ← map_result (fun c => d ← bounty_digest c; Ok (d, c)) claims;
  raise_if negb (distinct (proposal_digest <$> claims)) || negb (distinct (bounty_evidence_digest <$> claims))
           || negb (distinct rows.*1)
    with (EconomicsError "discovery claims are renewed or duplicated");
  fold_result bounty_step (sorted_by fst rows) (mkBounties [] [] []).
End Credits.

(** ** The vector *)

Definition split_pool (credits : dict Z) (pool : Z) : result (dict Z) := _allocate_pool (to_fractions credits) pool.

(** [combined[hotkey] = combined.get(hotkey, 0) + value] for every share *)
Definition add_shares (combined shares : dict Z) : dict Z := foldl (fun d kv => dict_add kv.1 kv.2 d) combined shares.

Definition vector (combined : dict Z) : list HotkeyWeight :=
  (fun kv => mkWeight kv.1 kv.2) <$> filter (fun kv : string * Z => 0 < kv.2) (sorted_by fst combined).

(** How submissions are priced: the terms, and the hotkey that is paid what nobody earns. *)
Record pricing := mkPricing { allocation_terms : dict (pyval * pyval); allocation_burn_hotkey : string }.

Section Combine.
Context (policy : EmissionsPolicyManifest) (context : GlobalRewardProjectionContext).

Definition combine (earning : list StandingRewardClaim) (starts : dict (option Z)) (score_speedups : option (dict Z))
    (priced : option pricing) (t : tally) (b : bounties) : result (dict Z) :=
  let discovery_pool := if bool_decide (live b = []) then 0 else discovery_pool_ppm policy in
  raise_if negb (bool_decide (live b = [])) && (discovery_pool =? 0)
    with (EconomicsError "live discovery claims exist while bounties are disabled");
  combined ← match priced with
             | None => split_pool (standing_by_hotkey t) (WEIGHT_PPM - discovery_pool)
             | Some p =>
                 raise_if negb (bool_decide (live b = [])) with (EconomicsError "live discovery claims have no submission allocation");
                 base ← arena_base_credits earning policy context starts score_speedups;
                 r ← allocate_submission_weights (family_credits t) (allocation_terms p) context (allocation_burn_hotkey p) base None;
                 Ok r.1
             end;
  if bool_decide (live b = []) then Ok combined
  else shares ← split_pool (discovery_by_hotkey b) discovery_pool; Ok (add_shares combined shares).
End Combine.

(** ** The projection *)

Definition same_keys {V W} (d : dict V) (rows : list (string * W)) : bool :=
  bool_decide (list_to_set d.*1 =@{gset string} list_to_set rows.*1).

(** The checks on the claims before any arena is looked at, and the earning claims with their digests. *)
Definition check_claims (arenas : list ArenaRewardAuthority) (earning validated : list StandingRewardClaim) (starts : dict (option Z))
    (score_speedups stall_bonus_terms : option (dict Z)) (priced : option pricing) : result (list (string * StandingRewardClaim)) :=
  raise_if match arenas with [] => true | _ => false end with (EconomicsError "global projection requires typed arena authorities");
  raise_if negb (distinct (arena_of <$> arenas)) with (EconomicsError "global projection contains duplicate arenas");
  earning ← map_result digested earning;
  raise_if negb (distinct earning.*1) with (EconomicsError "PASS reward claims are duplicated");
  validated ← map_result digested validated;
  raise_if negb (bool_decide (earning.*1 ⊆ validated.*1)) with (EconomicsError "earning claim has no validated PASS");
  raise_if match score_speedups with Some scores => negb (same_keys scores earning) | None => false end
    with (EconomicsError "reward scoring requires a speedup for every earning PASS");
  raise_if match stall_bonus_terms with
           | Some terms => match priced with None => true | Some _ => false end || negb (same_keys terms earning)
           | None => false
           end
    with (EconomicsError "submission stall bonuses require complete static allocation terms");
  raise_if negb (bool_decide (starts.*1 ⊆ earning.*1)) with (EconomicsError "reward decay adjustment has no earning PASS");
  Ok earning.

Definition by_digest (c : ContributionRef) : result (string * ContributionRef) := d ← Stack.contribution_digest c; Ok (d, c).

Record projection_inputs := mkInputs {
  arenas : list ArenaRewardAuthority; earning_claims : list StandingRewardClaim; discovery_claims : list DiscoveryBountyClaim;
  earned_contributions : list ContributionRef; validated_claims : option (list StandingRewardClaim);
  decay_start_blocks : dict (option Z); priced_by : option pricing; bonus_terms : option (dict Z);
  scoring : option (dict Z); groups : dict string;
}.

Definition validated_of (i : projection_inputs) : list StandingRewardClaim := default (earning_claims i) (validated_claims i).

(** Everything but the construction of the record *)
Definition projected (policy : EmissionsPolicyManifest) (context : GlobalRewardProjectionContext) (i : projection_inputs) :
    result GlobalRewardProjection :=
  let validated := validated_of i in
  earning ← check_claims (arenas i) (earning_claims i) validated (decay_start_blocks i) (scoring i) (bonus_terms i) (priced_by i);
  contributions ← map_result by_digest (earned_contributions i);
  let refs := foldl (fun d kv => dict_set kv.1 kv.2 d) [] contributions in
  raise_if negb (distinct (pass_key <$> validated)) with (EconomicsError "PASS reward claims reuse a contribution");
  let authorities := sorted_by arena_of (arenas i) in
  _ ← map_result (check_authority refs validated match priced_by i with Some _ => true | None => false end) authorities;
  t ← credit_all policy context (decay_start_blocks i) (scoring i) (bonus_terms i) (groups i) earning;
  raise_if match priced_by i with None => forallb (fun kv => kv.2 =? 0) (standing_by_hotkey t) | Some _ => false end
    with (EconomicsError "all PASS credit has decayed to zero");
  b ← bounty_all policy context (discovery_claims i);
  combined ← combine policy context (earning_claims i) (decay_start_blocks i) (scoring i) (priced_by i) t b;
  pd ← policy_digest policy;
  authority_digests ← map_result arena_authority_digest authorities;
  Ok (mkProjection pd context (sorted_id authority_digests) (sorted_by family_key (family_credits t)) (live b) (expired b)
        (vector combined)).

Definition project_global_rewards (policy : EmissionsPolicyManifest) (context : GlobalRewardProjectionContext) (i : projection_inputs) :
    result GlobalRewardProjection :=
  p ← projected policy context i; make_reward_projection p.
