(* ===== verification/ProjectionContracts.v ===== *)
(** * What the reward projection promises

    The theorems about [Projection]: the record that is built always passes its
    own checks and pays registered hotkeys, every rewarded crown is backed by a
    PASS, and the order of the inputs does not matter. *)

From Stdlib Require Import QArith.
From S2P Require Import Prelude PyVal Dict Identity Strict Stack StackContracts Pool Economics Arena RewardTargets CreditCurve Projection.

Open Scope Z_scope.

(** ** The vector *)

Section Vector.
Context (context : GlobalRewardProjectionContext) (Hvalidator : validator_hotkey context ∈ eligible_hotkeys context).

(** Weights of registered hotkeys that make up the pool *)
Record good_vector (pool : Z) (d : dict Z) : Prop := {
  vector_keys : NoDup d.*1;
  vector_sum : sum_Z d.*2 = pool;
  vector_nonneg : forall k z, (k, z) ∈ d -> 0 <= z;
  vector_registered : forall k, k ∈ d.*1 -> k ∈ eligible_hotkeys context;
}.

(** Credits of registered hotkeys *)
Definition registered (d : dict Z) : Prop := NoDup d.*1 /\ forall k, k ∈ d.*1 -> k ∈ eligible_hotkeys context.

Lemma registered_nil : registered [].
Proof. split; [constructor|]. by intros k ?%elem_of_nil. Qed.

Lemma registered_add h v d : registered d -> registered (dict_add (payee_of context h) v d).
Proof.
  intros [Hnd Hk]. split; [by apply dict_set_NoDup|]. intros k [->|Hin]%dict_set_keys; [|by apply Hk].
  unfold payee_of. by case_decide.
Qed.

Lemma credit_all_registered policy starts scores bonuses groups rows t :
  credit_all policy context starts scores bonuses groups rows = Ok t -> registered (standing_by_hotkey t).
Proof.
  intros Hf. refine (fold_result_invariant (fun t => registered (standing_by_hotkey t)) _ _ _ _ _ _ Hf); [|exact registered_nil].
  intros t0 [d c] t1 _ Ht H. unfold credit_step in H. inv_ok. by apply registered_add.
Qed.

Lemma bounty_all_registered policy claims b : bounty_all policy context claims = Ok b -> registered (discovery_by_hotkey b).
Proof.
  unfold bounty_all. intros (rows & _ & Hf)%bind_Ok. step_guard Hf.
  refine (fold_result_invariant (fun b => registered (discovery_by_hotkey b)) _ _ _ _ _ _ Hf); [|exact registered_nil].
  intros b0 [d c] b1 _ Hb H. unfold bounty_step in H. apply bind_Ok in H as (e & _ & [= <-]). destruct e; [by apply registered_add|done].
Qed.

Lemma split_pool_good credits pool d : registered credits -> 0 <= pool -> split_pool credits pool = Ok d -> good_vector pool d.
Proof.
  intros [Hnd Hk] Hp H. unfold split_pool in H. assert (Hnd' : NoDup (to_fractions credits).*1) by by rewrite to_fractions_keys.
  pose proof (allocate_pool_keys _ _ _ H) as Ek. split.
  - rewrite Ek, sorted_by_perm. by apply NoDup_fmap_filter.
  - by eapply allocate_pool_sum.
  - intros k z Hz. by eapply allocate_pool_nonneg.
  - intros k Hin. rewrite Ek, sorted_by_perm in Hin. apply list_elem_of_fmap in Hin as (kv & -> & [_ Hin]%list_elem_of_filter).
    apply Hk. rewrite <- to_fractions_keys. by apply list_elem_of_fmap_2.
Qed.

Lemma good_add_shares a b d s : good_vector a d -> good_vector b s -> good_vector (a + b) (add_shares d s).
Proof.
  intros Hd [_ Hs Hn Hr]. revert a b d Hd Hs. unfold add_shares. induction s as [|[k v] s IH]; intros a b d Hd Hs; cbn.
  { cbn in Hs. subst b. by rewrite Z.add_0_r. }
  cbn in Hs. refold_fmap. replace (a + b) with ((a + v) + (b - v)) by lia. apply IH.
  - intros x z Hx. apply (Hn x z). by right.
  - intros x Hx. apply Hr. by right.
  - destruct Hd as [H1 H2 H3 H4]. assert (Hv : 0 <= v) by (apply (Hn k v); left). split.
    + by apply dict_set_NoDup.
    + by rewrite sum_dict_add, H2.
    + intros x z Hx. apply elem_dict_get in Hx; [|by apply dict_set_NoDup]. unfold dict_add in Hx. rewrite dict_get_set in Hx.
      destruct (String.eqb_spec k x); [|by apply dict_get_elem, H3 in Hx]. injection Hx as <-.
      destruct (dict_get k d) as [y|] eqn:E; [|simpl; lia]. apply dict_get_elem, H3 in E. simpl. lia.
    + intros x [->|Hx]%dict_set_keys; [apply Hr; left|by apply H4].
  - unfold sum_Z in *. simpl in Hs. lia.
Qed.

Lemma requests_fold_ok terms base r credits q :
  fold_result (request_step terms base context r) credits (mkRequests [] [] []) = Ok q -> requests_ok context q.
Proof.
  intros Hq. refine (fold_result_invariant (requests_ok context) _ _ _ _ _ _ Hq); [|by split; [constructor|intros k ?%elem_of_nil]].
  intros q0 row q1 _ H0 H1. unfold request_step in H1. apply bind_Ok in H1 as ([[s ppm] bs] & _ & H1).
  destruct (_ || _); [by injection H1 as <-|]. apply bind_Ok in H1 as (total & _ & H1). destruct (_ =? 0); [by injection H1 as <-|].
  inv_ok. apply requests_ok_set; [done|apply recipient_payee|..].
  - intros _. rewrite dict_get_set, String.eqb_refl. eauto.
  - intros k Hk. rewrite dict_get_set. by destruct (String.eqb_spec (claim_digest row) k).
Qed.

(** Pricing that succeeds pays registered hotkeys the whole vector, whatever the terms are. *)
Lemma allocate_good credits terms burn base w o :
  allocate_submission_weights credits terms context burn base None = Ok (w, o) -> good_vector PPM w.
Proof.
  unfold allocate_submission_weights. intros H. step_guard H. apply bind_Ok in H as (r & _ & H). apply bind_Ok in H as (q & Hq & H).
  apply requests_fold_ok in Hq as Hok.
  unfold settle in H. apply bind_Ok in H as (d & Hd & H). apply bind_Ok in H as (ws & Hws & H). apply bind_Ok in H as (o' & _ & [= -> _]).
  split_bool. set (q' := burn_request burn q) in *.
  assert (Hok' : requests_ok context q') by (apply requests_ok_set; [done|by left|done|done]).
  destruct (hotkey_fold_ok context q' (requested q') []) as (d' & Hd' & Hnd & _ & _ & Hkeys).
  { intros k Hin. by apply Hok'. } { constructor. }
  assert (d' = d) as -> by congruence. pose proof (allocate_pool_keys _ _ _ Hws) as Ek. split.
  - rewrite Ek, sorted_by_perm. by apply NoDup_fmap_filter.
  - by eapply allocate_pool_sum.
  - intros k z Hz. apply (allocate_pool_nonneg d PPM w k z); done.
  - intros k Hin. rewrite Ek, sorted_by_perm in Hin. apply list_elem_of_fmap in Hin as (kv & -> & [_ Hin]%list_elem_of_filter).
    assert (Hkv : kv.1 ∈ d.*1) by by apply list_elem_of_fmap_2.
    apply Hkeys in Hkv as [[]%elem_of_nil|[Hkv|Hkv]]; [done|by rewrite Hkv].
Qed.

Lemma combine_good policy earning starts scores priced t b combined :
  0 <= discovery_pool_ppm policy < WEIGHT_PPM -> registered (standing_by_hotkey t) -> registered (discovery_by_hotkey b) ->
  combine policy context earning starts scores priced t b = Ok combined -> good_vector WEIGHT_PPM combined.
Proof.
  intros Hp Ht Hb. unfold combine. set (pool := if bool_decide (live b = []) then 0 else discovery_pool_ppm policy). intros H. step_guard H.
  assert (Hpool : 0 <= pool < WEIGHT_PPM) by (unfold pool; case_bool_decide; unfold WEIGHT_PPM in *; lia).
  apply bind_Ok in H as (first & Hf & H).
  assert (Hfirst : good_vector (WEIGHT_PPM - pool) first).
  { destruct priced as [p|]; [|apply (split_pool_good _ _ _ Ht); [lia|done]].
    step_guard Hf. apply bind_Ok in Hf as (base & _ & Hf). apply bind_Ok in Hf as ([w o] & Hw & [= <-]).
    apply negb_false_iff in Eg0. unfold pool. rewrite Eg0. by eapply allocate_good. }
  unfold pool in *. case_bool_decide; [injection H as <-; by rewrite Z.sub_0_r in Hfirst|].
  apply bind_Ok in H as (shares & Hs & [= <-]). replace WEIGHT_PPM with ((WEIGHT_PPM - discovery_pool_ppm policy) + discovery_pool_ppm policy) by lia.
  apply good_add_shares; [done|]. apply (split_pool_good _ _ _ Hb); [lia|done].
Qed.
End Vector.

(** ** The record *)

Lemma fmap_key_sorted {A} `{CmpLaws K} (key : A -> K) l : StronglySorted (key_le key) l -> StronglySorted (key_le id) (key <$> l).
Proof.
  induction 1 as [|x l _ IH Hx]; [constructor|]. rewrite fmap_cons. constructor; [done|].
  apply Forall_fmap. eapply Forall_impl; [exact Hx|]. by intros y.
Qed.

Lemma sorted_keys {A} `{CmpLaws K} (key : A -> K) l : key <$> sorted_by key l = sorted_id (key <$> sorted_by key l).
Proof. symmetry. apply sorted_by_fix, fmap_key_sorted, sorted_by_sorted. Qed.

Lemma filter_sorted {A} (R : A -> A -> Prop) (P : A -> Prop) `{forall x, Decision (P x)} l : StronglySorted R l -> StronglySorted R (filter P l).
Proof.
  induction 1 as [|x l _ IH Hx]; [constructor|]. rewrite filter_cons. case_decide; [|done]. constructor; [done|].
  apply Forall_forall. intros y [_ Hy]%list_elem_of_filter. rewrite Forall_forall in Hx. by apply Hx.
Qed.

Lemma vector_hotkeys d : weight_hotkey <$> vector d = (filter (fun kv : string * Z => 0 < kv.2) (sorted_by fst d)).*1.
Proof. unfold vector. by rewrite <- list_fmap_compose. Qed.

Lemma vector_ppm d : weight_ppm <$> vector d = (filter (fun kv : string * Z => 0 < kv.2) (sorted_by fst d)).*2.
Proof. unfold vector. by rewrite <- list_fmap_compose. Qed.

Lemma vector_elem d w : w ∈ vector d -> 0 < weight_ppm w /\ (weight_hotkey w, weight_ppm w) ∈ d.
Proof.
  unfold vector. intros ([k z] & -> & [Hz Hin]%list_elem_of_filter)%list_elem_of_fmap. by rewrite sorted_by_perm in Hin.
Qed.

Lemma sum_filter_positive (d : dict Z) : (forall k z, (k, z) ∈ d -> 0 <= z) ->
  sum_Z (filter (fun kv : string * Z => 0 < kv.2) d).*2 = sum_Z d.*2.
Proof.
  induction d as [|[k z] d IH]; intros Hd; [done|]. assert (0 <= z) by (apply (Hd k z); left).
  rewrite filter_cons. cbn [snd]. assert (Hi := IH (fun k z Hk => Hd k z (list_elem_of_further _ _ _ Hk))).
  case_decide; rewrite ?fmap_cons, ?sum_Z_cons, Hi; cbn [snd]; lia.
Qed.

Lemma good_vector_weights context pool d : good_vector context pool d ->
  NoDup (weight_hotkey <$> vector d) /\ sum_Z (weight_ppm <$> vector d) = pool /\
  weight_hotkey <$> vector d = sorted_id (weight_hotkey <$> vector d) /\
  forall w, w ∈ vector d -> 0 < weight_ppm w /\ weight_hotkey w ∈ eligible_hotkeys context.
Proof.
  intros [Hnd Hsum Hn Hr]. split_and!.
  - rewrite vector_hotkeys. apply NoDup_fmap_filter. by rewrite sorted_by_perm.
  - rewrite vector_ppm, sum_filter_positive; [by rewrite sorted_by_perm|]. intros k z. rewrite sorted_by_perm. apply Hn.
  - rewrite vector_hotkeys. symmetry. apply sorted_by_fix, fmap_key_sorted, filter_sorted, sorted_by_sorted.
  - intros w [Hw Hin]%vector_elem. split; [done|]. apply Hr. by apply (list_elem_of_fmap_2 fst) in Hin.
Qed.

Lemma digests_accepted l label : Forall (fun d => is_sha256_hex d = true) l -> _ZERO_DIGEST ∉ l ->
  map_result (fun d => _digest (VStr d) label) l = Ok l.
Proof.
  intros Hl Hz. apply map_result_Forall2. induction Hl as [|d l Hd Hl IH]; constructor.
  - apply require_digest_ok; [done|]. intros ->. apply Hz. left.
  - apply IH. intros ?. apply Hz. by right.
Qed.

Lemma map_result_all {A B} (f : A -> result B) (P : B -> Prop) l r :
  (forall x y, f x = Ok y -> P y) -> map_result f l = Ok r -> Forall P r.
Proof. intros Hf H%map_result_Forall2. induction H; constructor; eauto. Qed.

Lemma authority_digest_shape a d : arena_authority_digest a = Ok d -> is_sha256_hex d = true.
Proof. unfold arena_authority_digest. intros (rows & _ & H)%bind_Ok. by apply canonical_digest_shape in H. Qed.

Lemma make_policy_pool h l d s v policy : make_policy h l d s v = Ok policy -> 0 <= discovery_pool_ppm policy < WEIGHT_PPM.
Proof.
  unfold make_policy. intros H. inv_ok. repeat step_guard H. injection H as <-. cbn.
  match goal with H : _integer d _ _ = Ok _ |- _ => apply require_int_Ok in H as [_ H] end.
  split_bool. lia.
Qed.

Lemma make_context_validator s v b h members context :
  make_context s v b h members = Ok context -> validator_hotkey context ∈ eligible_hotkeys context.
Proof.
  unfold make_context. intros H. apply bind_Ok in H as (? & _ & H). apply bind_Ok in H as (? & _ & H). apply bind_Ok in H as (? & _ & H).
  apply bind_Ok in H as (? & _ & H). step_guard H. step_guard H. injection H as <-. cbn. unfold eligible_hotkeys. cbn.
  apply negb_false_iff, bool_decide_eq_true in Eg0. by apply elem_of_list_to_set.
Qed.

(** What [projected] made of the inputs *)
Lemma projected_parts policy context i p : projected policy context i = Ok p ->
  exists earning t b combined authorities,
    credit_all policy context (decay_start_blocks i) (scoring i) (bonus_terms i) (groups i) earning = Ok t /\
    bounty_all policy context (discovery_claims i) = Ok b /\
    combine policy context (earning_claims i) (decay_start_blocks i) (scoring i) (priced_by i) t b = Ok combined /\
    map_result arena_authority_digest (sorted_by arena_of (arenas i)) = Ok authorities /\
    policy_digest policy = Ok (projected_policy p) /\ arena_authority_digests p = sorted_id authorities /\
    standing p = sorted_by family_key (family_credits t) /\ weights p = vector combined.
Proof.
  unfold projected. intros H. apply bind_Ok in H as (earning & _ & H). apply bind_Ok in H as (refs & _ & H). step_guard H.
  apply bind_Ok in H as (u & _ & H). apply bind_Ok in H as (t & Ht & H). step_guard H. apply bind_Ok in H as (b & Hb & H).
  apply bind_Ok in H as (combined & Hc & H). apply bind_Ok in H as (pd & Hpd & H). apply bind_Ok in H as (ds & Hds & [= <-]).
  by exists earning, t, b, combined, ds.
Qed.

(** C22: the reward projection never fails its own final checks: with an accepted policy and context, whatever the claims,
    the terms and the bounties are, the vector that was computed sums to a million parts, has one positive weight for
    each hotkey, pays registered hotkeys only, and is returned (unless a digest happens to be all zeros, which the
    record refuses). *)
Theorem projection_is_returned h l dp s v policy sc vh b bh members context i p :
  make_policy h l dp s v = Ok policy -> make_context sc vh b bh members = Ok context ->
  projected policy context i = Ok p -> _ZERO_DIGEST ∉ projected_policy p :: arena_authority_digests p ->
  project_global_rewards policy context i = Ok p /\
  sum_Z (weight_ppm <$> weights p) = WEIGHT_PPM /\ NoDup (weight_hotkey <$> weights p) /\
  forall w, w ∈ weights p -> 0 < weight_ppm w /\ weight_hotkey w ∈ eligible_hotkeys context.
Proof.
  intros Hp Hc H [Hz Hzs]%not_elem_of_cons. apply make_policy_pool in Hp. apply make_context_validator in Hc.
  unfold project_global_rewards. rewrite H. cbn [mbind result_bind].
  apply projected_parts in H as (earning & t & bs & combined & ds & Ht & Hb & Hcomb & Hds & Hpd & Ead & Est & Ew).
  apply credit_all_registered in Ht; [|done]. apply bounty_all_registered in Hb; [|done].
  apply combine_good in Hcomb as (Hnd & Hsum & Hsorted & Hall)%good_vector_weights; [|done..]. rewrite <- Ew in *.
  split_and!; try done. unfold make_reward_projection.
  assert (_digest (VStr (projected_policy p)) "policy_digest" = Ok (projected_policy p)) as ->.
  { apply require_digest_ok; [by eapply canonical_digest_shape|]. by intros E; rewrite E in Hz. }
  cbn [mbind result_bind]. rewrite digests_accepted; [|rewrite Ead; unfold sorted_id; rewrite sorted_by_perm; by eapply map_result_all, Hds; apply authority_digest_shape|done].
  cbn [mbind result_bind]. rewrite (bool_decide_eq_true_2 (arena_authority_digests p = _)) by (rewrite Ead; symmetry; apply sorted_by_idemp).
  rewrite (bool_decide_eq_true_2 (family_key <$> standing p = _)) by (rewrite Est; apply sorted_keys).
  rewrite (bool_decide_eq_true_2 (weight_hotkey <$> weights p = _)) by done. cbn [negb raise_when mbind result_bind].
  assert (distinct (weight_hotkey <$> weights p) = true) as -> by by apply distinct_spec.
  rewrite Hsum, Z.eqb_refl. destruct (existsb _ (weights p)) eqn:E; [|done].
  apply existsb_exists in E as (w & Hw & E). apply list_elem_of_In, Hall in Hw as [Hw _]. apply Z.leb_le in E. lia.
Qed.

(** ** Crowns *)

Lemma map_result_elem {A B} (f : A -> result B) l r x : map_result f l = Ok r -> x ∈ l -> exists y, f x = Ok y.
Proof. intros H%map_result_Forall2. induction H; intros Hx; [by apply elem_of_nil in Hx|]. apply elem_of_cons in Hx as [->|Hx]; eauto. Qed.

(** The contribution of an entry, or one of the same target, contract, artifact and attribution *)
Definition backs (refs : list ContributionRef) (entry : ContributionRef) (v : StandingRewardClaim) : Prop :=
  Stack.contribution_digest entry = Ok (contribution_digest v) \/
  exists original, original ∈ refs /\ Stack.contribution_digest original = Ok (contribution_digest v) /\ same_source original entry = true.

(** A PASS that a crown stands on: of the arena itself, for the very contribution, or of another arena and its source. *)
Definition crowned_by (m : EvaluationStackManifest) (refs : list ContributionRef) (target : string) (entry : ContributionRef)
    (v : StandingRewardClaim) : Prop :=
  target_id v = target /\
  (arena_digest v = s_arena m /\ target_spec_digest v = c_spec entry /\ Stack.contribution_digest entry = Ok (contribution_digest v)
   \/ arena_digest v <> s_arena m /\ backs refs entry v).

Lemma refs_lookup contributions rows k original :
  map_result by_digest contributions = Ok rows ->
  dict_get k (foldl (fun d kv => dict_set kv.1 kv.2 d) [] rows) = Some original ->
  original ∈ contributions /\ Stack.contribution_digest original = Ok k.
Proof.
  intros H%map_result_Forall2.
  assert (Hg : forall acc, dict_get k (foldl (fun d kv => dict_set kv.1 kv.2 d) acc rows) = Some original ->
    dict_get k acc = Some original \/ original ∈ contributions /\ Stack.contribution_digest original = Ok k).
  { induction H as [|c [d c'] cs rows (x & Hx & [= -> ->])%bind_Ok _ IH]; intros acc Hacc; [by left|]. cbn in Hacc.
    apply IH in Hacc as [Hacc|[Hin Hd]]; [|right; split; [by right|done]]. rewrite dict_get_set in Hacc.
    destruct (String.eqb_spec d k) as [->|]; [|by left]. injection Hacc as ->. right. split; [by left|done]. }
  intros [?|?]%Hg; [done|done].
Qed.

Section Check.
Context (contributions : list ContributionRef) (rows : list (string * ContributionRef)) (validated : list StandingRewardClaim).
Context (Hrows : map_result by_digest contributions = Ok rows).
Let refs := foldl (fun d kv => dict_set kv.1 kv.2 d) [] rows.

Lemma carries_crown_ok m spec target entry d row :
  Stack.contribution_digest entry = Ok d -> carries_crown refs m spec target entry d row = true -> crowned_by m contributions target entry row.
Proof.
  intros Hd H. unfold carries_crown in H. apply andb_true_iff in H as [H Hb]. split_bool. split; [done|]. right. split; [done|].
  apply orb_true_iff in Hb as [Hb%bool_decide_eq_true|Hb]; [left; congruence|].
  destruct (dict_get (contribution_digest row) refs) as [original|] eqn:E; [|done]. right. exists original.
  by destruct (refs_lookup _ _ _ _ Hrows E).
Qed.

Lemma check_crown_ok a specs target u : check_crown refs validated a specs target = Ok u ->
  exists entry v, dict_get target (entries (stack a)) = Some entry /\ v ∈ validated /\ crowned_by (stack a) contributions target entry v /\
    forall claim, claim ∈ standing_claims a -> NoDup (target_id <$> standing_claims a) -> target_id claim = target ->
      pass_key claim = pass_key v /\ claim_hotkey claim = claim_hotkey v /\ speedup_ppm claim = speedup_ppm v.
Proof.
  unfold check_crown. intros (entry & He & H)%bind_Ok. apply bind_Ok in H as (d & Hd & H). apply dict_item_Ok in He.
  destruct (find _ (standing_claims a)) as [claim|] eqn:Ef.
  - apply find_some in Ef as [Hin%list_elem_of_In Et%bool_decide_eq_true]. unfold check_claim in H. step_guard H. step_guard H.
    destruct (find _ validated) as [v|] eqn:Ev in H; [|done]. step_guard H.
    apply find_some in Ev as [Hv%list_elem_of_In Ek%bool_decide_eq_true]. exists entry, v. split; [done|]. split; [done|].
    split_bool. injection Ek as Ea Ett Ec. split.
    + split; [congruence|]. left. split_and!; congruence.
    + intros claim' Hin' Hnd Et'. assert (claim' = claim) as -> by (eapply (NoDup_fmap_inj target_id); eauto; congruence).
      unfold pass_key. rewrite Ea, Ett, Ec. split_and!; [done|congruence|]. by match goal with H : (_ =? _) = true |- _ => apply Z.eqb_eq in H end.
  - step_guard H. apply negb_false_iff, existsb_exists in Eg as (v & Hv%list_elem_of_In & Hc). exists entry, v. split_and!; try done.
    { by eapply carries_crown_ok. }
    intros claim Hin%list_elem_of_In _ Et. apply (find_none _ _ Ef) in Hin. by apply bool_decide_eq_false in Hin.
Qed.
End Check.

Definition without_crown (i : projection_inputs) (a : ArenaRewardAuthority) : bool :=
  match priced_by i with Some _ => stack_generation a =? 0 | None => false end.

(** C23: nothing is paid unless every crown stands on a PASS: in each arena (but one that is priced before its first crown)
    every active target has an entry in the stack and a validated PASS of the same target, of the arena itself for that
    very contribution, or of another arena for the same source; and a claim that holds the crown has the key, the hotkey
    and the speedup of that PASS. *)
Theorem crowns_are_backed policy context i p a :
  project_global_rewards policy context i = Ok p -> a ∈ arenas i -> without_crown i a = false ->
  exists active, _active_reward_targets (stack a) = Ok active /\ active <> [] /\
    forall t, t ∈ active -> exists entry v,
      dict_get t (entries (stack a)) = Some entry /\ v ∈ validated_of i /\ crowned_by (stack a) (earned_contributions i) t entry v /\
      forall claim, claim ∈ standing_claims a -> target_id claim = t ->
        pass_key claim = pass_key v /\ claim_hotkey claim = claim_hotkey v /\ speedup_ppm claim = speedup_ppm v.
Proof.
  unfold project_global_rewards, projected. intros (q & H & _)%bind_Ok Ha Hcrown.
  apply bind_Ok in H as (earning & _ & H). apply bind_Ok in H as (rows & Hrows & H). step_guard H.
  apply bind_Ok in H as (u & Hu & _). destruct (map_result_elem _ _ _ a Hu) as (v & Hv); [by apply sorted_by_elem|].
  unfold check_authority in Hv. apply bind_Ok in Hv as (specs & _ & Hv). apply bind_Ok in Hv as (active & Hact & Hv).
  unfold without_crown in Hcrown. assert (match priced_by i with Some _ => true | None => false end && (stack_generation a =? 0) = false) as E
    by (by destruct (priced_by i)). rewrite E in Hv. step_guard Hv. step_guard Hv. apply bind_Ok in Hv as (us & Hus & _).
  exists active. split; [done|]. split; [by apply bool_decide_eq_false in Eg0|]. intros t Ht.
  destruct (map_result_elem _ _ _ t Hus Ht) as (x & Hx). eapply check_crown_ok in Hx as (entry & w & He & Hw & Hc & Hall); [|done].
  exists entry, w. split_and!; try done. intros claim Hin. apply Hall; [done|]. apply distinct_spec.
  apply orb_false_iff in Eg1 as [Eg1 _]. by apply orb_false_iff in Eg1 as [_ Eg1%negb_false_iff].
Qed.

(** ** The order of the inputs *)

Lemma distinct_perm {A} `{EqDecision A} (l k : list A) : l ≡ₚ k -> distinct l = distinct k.
Proof. intros Hp. apply bool_decide_ext. by rewrite Hp. Qed.

Lemma same_keys_perm {V W} (d : dict V) (l k : list (string * W)) : l ≡ₚ k -> same_keys d l = same_keys d k.
Proof. intros Hp. apply bool_decide_ext. by rewrite Hp. Qed.

Lemma subset_perm {A} `{EqDecision A} (l l' k k' : list A) : l ≡ₚ l' -> k ≡ₚ k' -> bool_decide (l ⊆ k) = bool_decide (l' ⊆ k').
Proof. intros H H'. apply bool_decide_ext. split; intros Hs x Hx; [rewrite <- H'; apply Hs; by rewrite H|rewrite H'; apply Hs; by rewrite <- H]. Qed.

Lemma find_key_perm {A} `{EqDecision K} (key : A -> K) (l k : list A) x : NoDup (key <$> l) -> l ≡ₚ k ->
  find (fun y => bool_decide (key y = x)) l = find (fun y => bool_decide (key y = x)) k.
Proof.
  intros Hnd Hp. destruct (find _ l) as [y|] eqn:E; symmetry.
  - apply find_some in E as [Hin%list_elem_of_In Ey%bool_decide_eq_true]. destruct (find _ k) as [z|] eqn:Ez.
    + apply find_some in Ez as [Hz%list_elem_of_In Ez%bool_decide_eq_true]. f_equal. eapply (NoDup_fmap_inj key); eauto; [by rewrite Hp|congruence].
    + rewrite Hp in Hin. apply list_elem_of_In, (find_none _ _ Ez), bool_decide_eq_false in Hin. done.
  - destruct (find _ k) as [z|] eqn:Ez; [|done]. apply find_some in Ez as [Hz%list_elem_of_In Ez].
    rewrite <- Hp in Hz. apply list_elem_of_In, (find_none _ _ E) in Hz. congruence.
Qed.

Lemma fold_result_ext {A B} (f g : B -> A -> result B) l b : (forall b x, f b x = g b x) -> fold_result f l b = fold_result g l b.
Proof. intros H. revert b. induction l as [|x l IH]; intros b; cbn; [done|]. rewrite H. destruct (g b x); [apply IH|done]. Qed.

Lemma map_result_ext {A B} (f g : A -> result B) l : (forall x, f x = g x) -> map_result f l = map_result g l.
Proof. intros H. induction l as [|x l IH]; cbn; [done|]. by rewrite H, IH. Qed.

Lemma dict_set_new {V} k (v : V) d : k ∉ d.*1 -> dict_set k v d = d ++ [(k, v)].
Proof.
  induction d as [|[k' v'] d IH]; intros Hk; [done|]. cbn in Hk |- *. apply not_elem_of_cons in Hk as [Hne Hk].
  destruct (String.eqb_spec k' k) as [->|]; [done|]. by rewrite IH.
Qed.

Lemma dict_of_rows {V} (rows : list (string * V)) : NoDup rows.*1 -> foldl (fun d kv => dict_set kv.1 kv.2 d) [] rows = rows.
Proof.
  intros Hnd. enough (H : forall acc, NoDup (acc ++ rows).*1 -> foldl (fun d kv => dict_set kv.1 kv.2 d) acc rows = acc ++ rows) by exact (H [] Hnd).
  clear Hnd. induction rows as [|[k v] rows IH]; intros acc Hnd; cbn; [by rewrite app_nil_r|].
  assert (Hk : k ∉ acc.*1).
  { rewrite fmap_app in Hnd. apply NoDup_app in Hnd as (_ & Hd & _). intros Hk. apply (Hd k Hk). left. }
  rewrite dict_set_new by done. rewrite cons_middle, app_assoc in Hnd. by rewrite IH, <- app_assoc.
Qed.

Lemma allocate_perm credits terms context burn base base' : NoDup base.*1 -> base ≡ₚ base' ->
  allocate_submission_weights credits terms context burn base None = allocate_submission_weights credits terms context burn base' None.
Proof.
  intros Hnd Hp. unfold allocate_submission_weights.
  assert (Hr : forall row, read_terms terms base row = read_terms terms base' row).
  { intros row. unfold read_terms, dict_item. by rewrite (dict_get_perm _ _ _ Hnd Hp). }
  rewrite (bool_decide_ext (list_to_set base.*1 =@{gset string} _) (list_to_set base'.*1 =@{gset string} list_to_set terms.*1)) by by rewrite Hp.
  rewrite (fold_result_ext (price_step terms base) (price_step terms base')).
  2: { intros r row. unfold price_step. by rewrite Hr. }
  match goal with |- (if ?b then _ else _) = _ => destruct b; [done|] end.
  destruct (fold_result (price_step terms base') credits (mkRates [] [] [])) as [r|]; [|done]. cbn [mbind result_bind].
  rewrite (fold_result_ext (request_step terms base context r) (request_step terms base' context r)); [done|].
  intros q row. unfold request_step. by rewrite Hr.
Qed.

Lemma digested_rows l rows : map_result digested l = Ok rows -> rows.*2 = l /\ Forall2 (fun c d => standing_digest c = Ok d) l rows.*1.
Proof.
  intros H%map_result_Forall2. induction H as [|c [d c'] l rows (x & Hx & [= -> ->])%bind_Ok _ [IH1 IH2]]; [done|]. cbn. rewrite IH1. by repeat constructor.
Qed.

Lemma digested_keys l rows : map_result digested l = Ok rows -> map_result standing_digest l = Ok rows.*1.
Proof. intros [_ H]%digested_rows. by apply map_result_Forall2. Qed.

Lemma base_credit_keys policy context starts scores l rows :
  map_result (base_credit policy context starts scores) l = Ok rows -> map_result standing_digest l = Ok rows.*1.
Proof.
  rewrite !map_result_Forall2. induction 1 as [|c [d v] l rows H _ IH]; constructor; [|done].
  unfold base_credit in H. apply bind_Ok in H as (d' & Hd & H). apply bind_Ok in H as (? & _ & H). apply bind_Ok in H as (? & _ & H). injection H as -> _. done.
Qed.

Lemma base_credits_perm l k policy context starts scores base : map_result standing_digest l ≫= (fun ds => Ok (distinct ds)) = Ok true ->
  l ≡ₚ k -> arena_base_credits l policy context starts scores = Ok base ->
  exists base', arena_base_credits k policy context starts scores = Ok base' /\ base ≡ₚ base' /\ NoDup base.*1.
Proof.
  intros (ds & Hds & [= Hnd%distinct_spec])%bind_Ok Hp (rows & Hrows & [= <-])%bind_Ok. apply base_credit_keys in Hrows as Hk.
  assert (rows.*1 = ds) as Ek by congruence. destruct (map_result_perm _ _ _ _ Hp Hrows) as (rows' & Hrows' & Hpr).
  unfold arena_base_credits. rewrite Hrows'. cbn [mbind result_bind]. eexists. split; [reflexivity|].
  assert (NoDup rows.*1) as Hn by by rewrite Ek. rewrite !dict_of_rows; [|by rewrite <- Hpr|done]. done.
Qed.

(** The same inputs, with the arenas, the claims and the bounties listed in another order *)
Record reordered (i k : projection_inputs) : Prop := {
  same_arenas : arenas i ≡ₚ arenas k;
  same_earning : earning_claims i ≡ₚ earning_claims k;
  same_validated : validated_of i ≡ₚ validated_of k;
  same_discovery : discovery_claims i ≡ₚ discovery_claims k;
  same_contributions : earned_contributions i = earned_contributions k;
  same_starts : decay_start_blocks i = decay_start_blocks k;
  same_pricing : priced_by i = priced_by k;
  same_bonuses : bonus_terms i = bonus_terms k;
  same_scoring : scoring i = scoring k;
  same_groups : groups i = groups k;
}.

Lemma check_claims_perm as_ as' es es' vs vs' starts scores bonuses priced earning :
  as_ ≡ₚ as' -> es ≡ₚ es' -> vs ≡ₚ vs' -> check_claims as_ es vs starts scores bonuses priced = Ok earning ->
  exists earning', check_claims as' es' vs' starts scores bonuses priced = Ok earning' /\ earning ≡ₚ earning' /\ NoDup earning.*1 /\
    NoDup (arena_of <$> as_) /\ map_result digested es = Ok earning.
Proof.
  intros Ha He Hv H. unfold check_claims in *.
  assert (Hnil : match as_ with [] => true | _ => false end = match as' with [] => true | _ => false end).
  { apply Permutation_length in Ha. by destruct as_, as'. }
  assert (Harenas : distinct (arena_of <$> as_) = distinct (arena_of <$> as')) by (apply distinct_perm; by rewrite Ha).
  rewrite Hnil in H. destruct as' as [|a as']; [done|]. rewrite Harenas in H. destruct (distinct _) eqn:Ed in H; [|done].
  cbn [negb] in *. rewrite Ed. cbn [negb]. apply bind_Ok in H as (rows & Hrows & H). destruct (map_result_perm _ _ _ _ He Hrows) as (rows' & -> & Hpr).
  cbn [mbind result_bind]. assert (Hk : rows.*1 ≡ₚ rows'.*1) by by rewrite Hpr. rewrite <- (distinct_perm _ _ Hk). destruct (distinct rows.*1) eqn:Er; [|done].
  cbn [negb] in *. apply bind_Ok in H as (vrows & Hvrows & H). destruct (map_result_perm _ _ _ _ Hv Hvrows) as (vrows' & -> & Hpv).
  cbn [mbind result_bind]. assert (Hkv : vrows.*1 ≡ₚ vrows'.*1) by by rewrite Hpv. rewrite <- (subset_perm _ _ _ _ Hk Hkv).
  destruct (bool_decide (rows.*1 ⊆ vrows.*1)); [|done]. cbn [negb] in *.
  rewrite <- (subset_perm starts.*1 starts.*1 _ _ (Permutation_refl _) Hk).
  assert (Es : match scores with Some s => negb (same_keys s rows') | None => false end = match scores with Some s => negb (same_keys s rows) | None => false end)
    by (destruct scores; [by rewrite (same_keys_perm _ _ _ Hpr)|done]). rewrite Es. clear Es.
  assert (Eb : match bonuses with Some t => match priced with None => true | Some _ => false end || negb (same_keys t rows') | None => false end
             = match bonuses with Some t => match priced with None => true | Some _ => false end || negb (same_keys t rows) | None => false end)
    by (destruct bonuses; [by rewrite (same_keys_perm _ _ _ Hpr)|done]). rewrite Eb. clear Eb.
  destruct (match scores with Some _ => _ | None => _ end); [done|]. destruct (match bonuses with Some _ => _ | None => _ end); [done|].
  destruct (bool_decide (starts.*1 ⊆ rows.*1)); [|done]. injection H as <-. exists rows'. split_and!; try done; [by apply distinct_spec|].
  apply distinct_spec. by rewrite Harenas.
Qed.

Lemma check_authority_perm refs vs vs' allocated a : NoDup (pass_key <$> vs) -> vs ≡ₚ vs' ->
  check_authority refs vs allocated a = check_authority refs vs' allocated a.
Proof.
  intros Hnd Hp. unfold check_authority.
  assert (Hc : forall specs target, check_crown refs vs a specs target = check_crown refs vs' a specs target).
  { intros specs target. unfold check_crown, check_claim. destruct (dict_item _ _) as [entry|]; [|done]. cbn [mbind result_bind].
    destruct (Stack.contribution_digest entry) as [d|]; [|done]. cbn [mbind result_bind].
    destruct (find _ (standing_claims a)) as [claim|]; [by rewrite (find_key_perm pass_key vs vs' _ Hnd Hp)|].
    assert (existsb (carries_crown refs (stack a) (dict_get target specs) target entry d) vs
          = existsb (carries_crown refs (stack a) (dict_get target specs) target entry d) vs') as ->; [|done].
    apply eq_true_iff_eq. rewrite !existsb_exists. setoid_rewrite <- list_elem_of_In. by setoid_rewrite Hp. }
  destruct (_catalog_spec_rows _) as [specs|]; [|done]. cbn [mbind result_bind].
  destruct (_active_reward_targets _) as [active|]; [|done]. cbn [mbind result_bind]. by rewrite (map_result_ext _ _ _ (Hc specs)).
Qed.

Lemma credit_all_perm policy context starts scores bonuses groups rows rows' : NoDup rows.*1 -> rows ≡ₚ rows' ->
  credit_all policy context starts scores bonuses groups rows = credit_all policy context starts scores bonuses groups rows'.
Proof.
  intros Hnd Hp. unfold credit_all. rewrite (sorted_by_unique (earning_key groups) rows rows'); [done| |done].
  apply (NoDup_fmap_1 snd). by rewrite <- list_fmap_compose.
Qed.

Lemma bounty_all_perm policy context cs cs' b : cs ≡ₚ cs' -> bounty_all policy context cs = Ok b -> bounty_all policy context cs' = Ok b.
Proof.
  intros Hp. unfold bounty_all. intros (rows & Hrows & H)%bind_Ok. destruct (map_result_perm _ _ _ _ Hp Hrows) as (rows' & -> & Hpr).
  cbn [mbind result_bind].
  rewrite <- (distinct_perm (proposal_digest <$> cs) (proposal_digest <$> cs')) by by rewrite Hp.
  rewrite <- (distinct_perm (bounty_evidence_digest <$> cs) (bounty_evidence_digest <$> cs')) by by rewrite Hp.
  rewrite <- (distinct_perm rows.*1 rows'.*1) by by rewrite Hpr.
  destruct (_ || _) eqn:E; [done|]. rewrite <- (sorted_by_unique fst rows rows'); [done| |done].
  apply orb_false_iff in E as [_ E%negb_false_iff]. by apply distinct_spec.
Qed.

Lemma combine_perm policy context es es' starts scores priced t b combined :
  map_result standing_digest es ≫= (fun ds => Ok (distinct ds)) = Ok true -> es ≡ₚ es' ->
  combine policy context es starts scores priced t b = Ok combined -> combine policy context es' starts scores priced t b = Ok combined.
Proof.
  intros Hd Hp H. unfold combine in *. destruct priced as [p|]; [|done]. step_guard H. apply bind_Ok in H as (first & Hf & H).
  step_guard Hf. apply bind_Ok in Hf as (base & Hb & Hf). destruct (base_credits_perm _ _ _ _ _ _ _ Hd Hp Hb) as (base' & -> & Hpb & Hnd).
  cbn [mbind result_bind]. rewrite <- (allocate_perm _ _ _ _ _ _ Hnd Hpb), Hf. exact H.
Qed.

(** C24: the projection depends on what is claimed and not on the order in which the arenas, the PASSes and the bounties are
    listed: reordered inputs give the same record, weights, credits and digests included. *)
Theorem projection_order policy context i k p :
  reordered i k -> project_global_rewards policy context i = Ok p -> project_global_rewards policy context k = Ok p.
Proof.
  intros [Ha He Hv Hd Hc Hs Hpr Hb Hsc Hg]. unfold project_global_rewards. intros (q & H & Hq)%bind_Ok. apply bind_Ok. exists q. split; [|done].
  clear Hq p. unfold projected in *. rewrite <- Hc, <- Hs, <- Hpr, <- Hb, <- Hsc, <- Hg.
  apply bind_Ok in H as (earning & Hclaims & H). apply (check_claims_perm _ _ _ _ _ _ _ _ _ _ _ Ha He Hv) in Hclaims as (earning' & -> & Hp & Hnd & Hna & Hdig).
  cbn [mbind result_bind]. apply bind_Ok in H as (rows & -> & H). cbn [mbind result_bind].
  rewrite <- (distinct_perm (pass_key <$> validated_of i)) by by rewrite Hv. step_guard H. apply negb_false_iff, distinct_spec in Eg.
  rewrite <- (sorted_by_unique arena_of _ _ Hna Ha). apply bind_Ok in H as (u & Hu & H).
  rewrite <- (map_result_ext (check_authority _ _ _) (check_authority _ _ _) _ (fun a => check_authority_perm _ _ _ _ a Eg Hv)), Hu. cbn [mbind result_bind].
  rewrite <- (credit_all_perm _ _ _ _ _ _ _ _ Hnd Hp). apply bind_Ok in H as (t & -> & H). cbn [mbind result_bind]. step_guard H.
  apply bind_Ok in H as (b & Hbo & H). rewrite (bounty_all_perm _ _ _ _ _ Hd Hbo). cbn [mbind result_bind].
  apply bind_Ok in H as (combined & Hcomb & H). assert (Hnone : map_result standing_digest (earning_claims i) ≫= (fun ds => Ok (distinct ds)) = Ok true).
  { rewrite (digested_keys _ _ Hdig). cbn [mbind result_bind]. f_equal. by apply distinct_spec. }
  rewrite (combine_perm _ _ _ _ _ _ _ _ _ _ Hnone He Hcomb). exact H.
Qed.
