(* ===== verification/ProjectionRun.v ===== *)
(** * A projection of two arenas

    The first arena crowns two targets, whose winners are a registered hotkey
    and one that has left; the second carries the first target over and crowns
    the other. A bounty is live. The theorems of [ProjectionContracts] are applied to it. *)

From Stdlib Require Import QArith.
From S2P Require Import Prelude PyVal Dict Identity Strict Stack Pool Economics Arena RewardTargets CreditCurve Projection ProjectionContracts.

Open Scope Z_scope.

Definition value {A} (d : A) (m : result A) : A := match m with Ok x => x | Raise _ => d end.

(** One character, 64 times *)
Definition digest_of (c : N) : string := string_of_bytes (repeat c 64).

Definition first_arena : string := digest_of 97.
Definition second_arena : string := digest_of 98.

Definition run_specs : dict string := Eval vm_compute in value [] (_catalog_spec_rows example_catalog).
Definition spec_of (t : string) : string := default "" (dict_get t run_specs).

Definition entry_of (t : string) (c : N) : ContributionRef := mkContribution t (spec_of t) (digest_of c) (digest_of c) (digest_of c).

Definition attention : ContributionRef := Eval vm_compute in entry_of "attention" 99.
Definition mlp : ContributionRef := Eval vm_compute in entry_of "mlp" 100.

Definition stack_in (arena : string) (l : list ContributionRef) : EvaluationStackManifest :=
  mkManifest (digest_of 49) (digest_of 50) arena (digest_of 51) example_catalog ((fun c => (c_target c, c)) <$> l).

Definition claim_of (c : ContributionRef) (hotkey : string) (speedup block : Z) : StandingRewardClaim :=
  mkStanding first_arena (c_target c) (c_spec c) (value "" (Stack.contribution_digest c)) hotkey speedup block (digest_of 52).

Definition attention_claim : StandingRewardClaim := Eval vm_compute in claim_of attention "alice" 1250000 100.
Definition mlp_claim : StandingRewardClaim := Eval vm_compute in claim_of mlp "gone" 1100000 1900.

(** The second arena crowns a target of its own beside the one it carries. *)
Definition second_claim : StandingRewardClaim := Eval vm_compute in
  mkStanding second_arena "mlp" (c_spec mlp) (value "" (Stack.contribution_digest mlp)) "alice" 1050000 1950 (digest_of 53).

Definition both_arenas : list ArenaRewardAuthority :=
  [mkArena (stack_in first_arena [attention; mlp]) 2 [attention_claim; mlp_claim];
   mkArena (stack_in second_arena [attention; mlp]) 1 [second_claim]].

Definition run_policy : EmissionsPolicyManifest := mkPolicy 7200 1000 100000 (VInt 1) POLICY_VERSION.

Definition run_members : list MetagraphMember := [mkMember 0 "alice"; mkMember 1 "bob"; mkMember 2 "validator"].

Definition block_hash : string := string_app "0x" (digest_of 54).

Definition run_context : GlobalRewardProjectionContext := mkContext (digest_of 55) "validator" 2000 block_hash run_members.

Definition run_bounty : DiscoveryBountyClaim := mkBounty (digest_of 56) (digest_of 57) "bob" 5 1500.

Definition run_inputs : projection_inputs :=
  mkInputs both_arenas [attention_claim; mlp_claim; second_claim] [run_bounty] [] None [] None None None [].

Definition run_reversed : projection_inputs :=
  mkInputs (rev both_arenas) [second_claim; mlp_claim; attention_claim] [run_bounty] [] None [] None None None [].

Definition no_projection : GlobalRewardProjection := mkProjection "" run_context [] [] [] [] [].

Definition run_projection : GlobalRewardProjection := Eval vm_compute in value no_projection (projected run_policy run_context run_inputs).

Lemma run_projected : projected run_policy run_context run_inputs = Ok run_projection.
Proof. vm_compute. reflexivity. Qed.

Lemma run_returned : project_global_rewards run_policy run_context run_inputs = Ok run_projection.
Proof. unfold project_global_rewards. rewrite run_projected. vm_compute. reflexivity. Qed.

Lemma run_policy_made :
  make_policy (VInt 7200) (VInt 1000) (VInt 100000) (VInt 1) (VStr POLICY_VERSION) = Ok run_policy.
Proof. vm_compute. reflexivity. Qed.

Lemma run_context_made :
  make_context (VStr (digest_of 55)) (VStr "validator") (VInt 2000) (VStr block_hash) run_members = Ok run_context.
Proof. vm_compute. reflexivity. Qed.

(** The share of the hotkey that left is the validator's. *)
Example run_weights : weights run_projection = [mkWeight "alice" 498494; mkWeight "bob" 100000; mkWeight "validator" 401506].
Proof. reflexivity. Qed.

Lemma run_no_zero : _ZERO_DIGEST ∉ projected_policy run_projection :: arena_authority_digests run_projection.
Proof. apply (bool_decide_unpack _). vm_compute. exact I. Qed.

Lemma projection_is_returned_witness :
  length (weights run_projection) = 3%nat /\ sum_Z (weight_ppm <$> weights run_projection) = WEIGHT_PPM.
Proof.
  split; [reflexivity|].
  destruct (projection_is_returned _ _ _ _ _ _ _ _ _ _ _ _ run_inputs _ run_policy_made run_context_made run_projected run_no_zero) as (_ & H & _).
  exact H.
Defined.

Lemma crowns_are_backed_witness :
  exists active, _active_reward_targets (stack_in second_arena [attention; mlp]) = Ok active /\ active <> [].
Proof.
  destruct (crowns_are_backed run_policy run_context run_inputs run_projection (mkArena (stack_in second_arena [attention; mlp]) 1 [second_claim])
    run_returned) as (active & H & Hne & _); [right; left|reflexivity|].
  exists active. split; [exact H|exact Hne].
Defined.

Lemma run_reordered : reordered run_inputs run_reversed.
Proof.
  split; try reflexivity.
  - apply (Permutation_rev both_arenas).
  - apply (Permutation_rev [attention_claim; mlp_claim; second_claim]).
  - apply (Permutation_rev [attention_claim; mlp_claim; second_claim]).
Qed.

Lemma projection_order_witness : project_global_rewards run_policy run_context run_reversed = Ok run_projection.
Proof. exact (projection_order run_policy run_context run_inputs run_reversed run_projection run_reordered run_returned). Defined.
