(* ===== verification/QualificationIntake.v ===== *)
(** * Qualification intake

    [cacheon/eval/qualification_intake.py]: the sealed authority of a cohort
    ([QualificationReservation], [QualificationAuthorityManifest]), the verdict
    on each of its members ([QualificationIntakeOutcome]), the batch that is
    handed to the intake database ([QualificationIntakeBatch]); the plan by
    which an undecided cohort is run again ([_retry_plan]); and the batches that
    a run ends in ([run_qualification_intake], from the attempt or the stage exit
    that it reopened). Building the plan and running the cohort are not modelled. *)

From S2P Require Import Prelude PyVal Dict Identity Strict EvidenceRef Fingerprint Admission Copies Stack Qualification.

Open Scope Z_scope.

Definition QualificationIntakeError (m : string) : exn := Exn "QualificationIntakeError" m.

(** [[A-Za-z0-9][A-Za-z0-9._-]{0,255}\Z] *)
Definition intake_id (s : string) : bool :=
  match s with String c t => id_head c && all_chars reference_char t && (String.length t <=? 255)%nat | EmptyString => false end.

Definition intake_digest (value : pyval) (field : string) : result string :=
  require_digest value field QualificationIntakeError false false.
Definition intake_identifier (value : pyval) (field : string) : result string :=
  require_identifier value field QualificationIntakeError intake_id.
Definition intake_integer (value : pyval) (field : string) : result Z :=
  require_int value field QualificationIntakeError (Some 0) None.

(** ** The authority of a cohort *)

Record QualificationReservation := mkEntry {
  n_digest : string; n_submission : string; n_target : string; n_delta : string; n_order : Z; n_hotkey : string;
  n_block : Z; n_index : Z; n_subindex : Z; n_members : list string;
}.

#[export] Instance entry_eq_dec : EqDecision QualificationReservation.
Proof. solve_decision. Defined.

Definition read_hotkey (v : pyval) : result string :=
  match v with
  | VStr s => raise_if negb (hotkey_ok s) with (QualificationIntakeError "reservation hotkey is malformed"); Ok s
  | _ => Raise (QualificationIntakeError "reservation hotkey is malformed")
  end.

Definition read_target_members (l : list pyval) : result (list string) :=
  match texts l with
  | None => Raise (Exn "TypeError" "members")
  | Some ms =>
      raise_if bool_decide (ms = []) || negb (bool_decide (ms = sorted_set ms)) || negb (forallb NODE_ADDRESS ms)
        with (QualificationIntakeError "reservation target members are not canonical");
      Ok ms
  end.

Definition make_entry (row : list (string * pyval)) (target_members : list pyval) : result QualificationReservation :=
  digest ← intake_digest (argument row "reservation_digest") "reservation_digest";
  submission ← intake_digest (argument row "submission_digest") "submission_digest";
  delta ← intake_digest (argument row "selected_delta_digest") "selected_delta_digest";
  target ← intake_identifier (argument row "target_id") "target_id";
  order ← intake_integer (argument row "arrival_order") "arrival_order";
  hotkey ← read_hotkey (argument row "hotkey");
  block ← intake_integer (argument row "finalized_block") "finalized_block";
  index ← intake_integer (argument row "finalized_event_index") "finalized_event_index";
  subindex ← intake_integer (argument row "finalized_event_subindex") "finalized_event_subindex";
  ms ← read_target_members target_members;
  Ok (mkEntry digest submission target delta order hotkey block index subindex ms).

Definition entry_rows (n : QualificationReservation) : list (string * pyval) :=
  [("arrival_order", VInt (n_order n)); ("finalized_block", VInt (n_block n)); ("finalized_event_index", VInt (n_index n));
   ("finalized_event_subindex", VInt (n_subindex n)); ("hotkey", VStr (n_hotkey n)); ("reservation_digest", VStr (n_digest n));
   ("selected_delta_digest", VStr (n_delta n)); ("submission_digest", VStr (n_submission n)); ("target_id", VStr (n_target n));
   ("target_members", VList (VStr <$> n_members n))].

Definition entry_to_dict (n : QualificationReservation) : pyval := str_dict (entry_rows n).

Definition entry_from_dict (value : pyval) : result QualificationReservation :=
  row ← exact_dict value
    ["reservation_digest"; "submission_digest"; "target_id"; "selected_delta_digest"; "arrival_order"; "hotkey";
     "finalized_block"; "finalized_event_index"; "finalized_event_subindex"; "target_members"]
    (QualificationIntakeError "reservation fields do not match the schema");
  match argument row "target_members" with
  | VList l => make_entry row l
  | _ => Raise (QualificationIntakeError "reservation target members are malformed")
  end.

Record QualificationAuthorityManifest := mkAuthority {
  am_lane : string; am_authority : string; am_source : string; am_commitment : string; am_secret : string;
  am_deltas : list string; am_reservations : list QualificationReservation;
}.

#[export] Instance authority_eq_dec : EqDecision QualificationAuthorityManifest.
Proof. solve_decision. Defined.

Definition AUTHORITY_SCHEMA_VERSION : Z := 1.

Definition read_lane (v : pyval) : result string :=
  match v with
  | VStr s => raise_if negb (String.eqb s "registered") with (QualificationIntakeError "qualification lane is unsupported"); Ok s
  | VList _ | VDict _ => Raise (Exn "TypeError" "unhashable type")
  | _ => Raise (QualificationIntakeError "qualification lane is unsupported")
  end.

Definition make_authority (row : list (string * pyval)) (deltas : list pyval) (rs : list QualificationReservation) :
    result QualificationAuthorityManifest :=
  lane ← read_lane (argument row "lane");
  authority ← intake_digest (argument row "authority_digest") "authority_digest";
  source ← intake_digest (argument row "source_digest") "source_digest";
  commitment ← intake_digest (argument row "commitment_digest") "commitment_digest";
  secret ← intake_digest (argument row "selection_secret_reference") "selection_secret_reference";
  ds ← map_result (fun v => intake_digest v "candidate delta") deltas;
  raise_if negb (bool_decide (argument row "schema_version" = VInt AUTHORITY_SCHEMA_VERSION)) || bool_decide (ds = [])
           || negb (bool_decide (NoDup ds)) || negb (length rs =? length ds)%nat || negb (bool_decide (n_delta <$> rs = ds))
           || negb (bool_decide (NoDup (n_digest <$> rs))) || negb (bool_decide (NoDup (n_order <$> rs)))
    with (QualificationIntakeError "qualification reservations do not exactly bind the candidate order");
  Ok (mkAuthority lane authority source commitment secret ds rs).

Definition authority_rows (m : QualificationAuthorityManifest) : list (string * pyval) :=
  [("authority_digest", VStr (am_authority m)); ("candidate_deltas", VList (VStr <$> am_deltas m));
   ("commitment_digest", VStr (am_commitment m)); ("lane", VStr (am_lane m));
   ("reservations", VList (entry_to_dict <$> am_reservations m)); ("schema_version", VInt AUTHORITY_SCHEMA_VERSION);
   ("selection_secret_reference", VStr (am_secret m)); ("source_digest", VStr (am_source m))].

Definition authority_to_dict (m : QualificationAuthorityManifest) : pyval := str_dict (authority_rows m).

Definition authority_digest (m : QualificationAuthorityManifest) : result string :=
  canonical_digest "cacheon.qualification.intake-authority" (authority_to_dict m) 1.

Definition authority_from_dict (value : pyval) : result QualificationAuthorityManifest :=
  row ← exact_dict value
    ["authority_digest"; "candidate_deltas"; "commitment_digest"; "lane"; "reservations"; "schema_version";
     "selection_secret_reference"; "source_digest"]
    (QualificationIntakeError "authority manifest fields do not match");
  match argument row "candidate_deltas", argument row "reservations" with
  | VList deltas, VList rs => rs ← map_result entry_from_dict rs; make_authority row deltas rs
  | _, _ => Raise (QualificationIntakeError "authority manifest arrays are malformed")
  end.

(** ** Verdicts *)

Inductive QualificationDecision := PASS | FAIL | NO_DECISION.

#[export] Instance decision_eq_dec : EqDecision QualificationDecision.
Proof. solve_decision. Defined.

Definition decision_text (d : QualificationDecision) : string :=
  match d with PASS => "PASS" | FAIL => "FAIL" | NO_DECISION => "NO_DECISION" end.

Record QualificationIntakeOutcome := mkOutcome {
  o_reservation : string; o_delta : string; o_authority : string; o_decision : QualificationDecision; o_reason : string;
  o_retryable : bool; o_attempt : option string; o_report : option string; o_failure : option string;
  o_settlement : option SettlementQualification;
}.

Definition present {A} (o : option A) : bool := match o with Some _ => true | None => false end.

Definition optional_digest (o : option string) (field : string) : result () :=
  match o with Some d => _ ← intake_digest (VStr d) field; Ok tt | None => Ok tt end.

(** The qualification that a PASS carries is the one of this outcome. *)
Definition carries (q : SettlementQualification) (o : QualificationIntakeOutcome) : bool :=
  String.eqb (q_reservation q) (o_reservation o) && String.eqb (q_delta q) (o_delta o)
  && String.eqb (authority q) (o_authority o) && bool_decide (Some (attempt q) = o_attempt o)
  && bool_decide (Some (report q) = o_report o).

Definition make_outcome (o : QualificationIntakeOutcome) : result QualificationIntakeOutcome :=
  _ ← intake_digest (VStr (o_reservation o)) "reservation_digest";
  _ ← intake_digest (VStr (o_delta o)) "selected_delta_digest";
  _ ← intake_digest (VStr (o_authority o)) "authority_manifest_digest";
  _ ← intake_identifier (VStr (o_reason o)) "reason";
  raise_if negb (Bool.eqb (o_retryable o) (bool_decide (o_decision o = NO_DECISION)))
    with (QualificationIntakeError "outcome retryability disagrees with decision");
  _ ← optional_digest (o_attempt o) "attempt_artifact_sha256";
  _ ← optional_digest (o_report o) "report_digest";
  _ ← optional_digest (o_failure o) "failure_digest";
  raise_if negb (Bool.eqb (present (o_report o)) (present (o_attempt o)))
    with (QualificationIntakeError "outcome report and attempt coverage differ");
  raise_if present (o_failure o) && present (o_report o)
    with (QualificationIntakeError "outcome cannot be both report and failure based");
  _ ← (if decide (o_decision o = NO_DECISION)
       then raise_if Bool.eqb (present (o_report o)) (present (o_failure o))
              with (QualificationIntakeError "NO_DECISION must retain exactly one report or failure product"); Ok tt
       else raise_if negb (present (o_report o)) || present (o_failure o)
              with (QualificationIntakeError "PASS/FAIL requires a complete attempt and report product"); Ok tt);
  match o_settlement o with
  | None => Ok o
  | Some q =>
      raise_if negb (bool_decide (o_decision o = PASS))
        with (QualificationIntakeError "non-PASS outcome cannot carry a settlement qualification");
      raise_if negb (carries q o) with (QualificationIntakeError "settlement qualification differs from qualification outcome");
      Ok o
  end.

(** ** Running an undecided cohort again *)

Record QualificationRetryPlan := mkRetryPlan {
  rp_authority : string; rp_strategy : string; rp_groups : list (list string); rp_failure : string;
}.

Definition make_retry_plan (p : QualificationRetryPlan) : result QualificationRetryPlan :=
  _ ← intake_digest (VStr (rp_authority p)) "authority manifest";
  _ ← intake_digest (VStr (rp_failure p)) "failure";
  raise_if negb (bool_decide (rp_strategy p ∈ ["requeue"; "bisect"]))
    with (QualificationIntakeError "retry strategy is unsupported");
  let malformed := QualificationIntakeError "retry groups are malformed" in
  raise_if bool_decide (rp_groups p = []) || existsb (fun g => bool_decide (g = [])) (rp_groups p) with malformed;
  _ ← map_result (fun rid => intake_digest (VStr rid) "retry reservation") (concat (rp_groups p));
  raise_if negb (bool_decide (NoDup (concat (rp_groups p))))
           || (String.eqb (rp_strategy p) "bisect" && negb (length (rp_groups p) =? 2)%nat) with malformed;
  Ok p.

Record QualificationIntakeBatch := mkBatch {
  b_authority : string; b_outcomes : list QualificationIntakeOutcome; b_ref : option EvidenceArtifactRef;
  b_plan : option QualificationRetryPlan;
}.

Definition retry_ids (b : QualificationIntakeBatch) : list string :=
  match b_plan b with Some p => concat (rp_groups p) | None => [] end.

Definition no_decision_ids (b : QualificationIntakeBatch) : list string :=
  o_reservation <$> filter (fun o => o_decision o = NO_DECISION) (b_outcomes b).

Definition batch_consistent (b : QualificationIntakeBatch) : bool :=
  negb (bool_decide (b_outcomes b = []))
  && forallb (fun o => String.eqb (o_authority o) (b_authority b)) (b_outcomes b)
  && bool_decide (NoDup (o_reservation <$> b_outcomes b))
  && match b_plan b with Some p => String.eqb (rp_authority p) (b_authority b) | None => true end
  && match b_ref b with
     | None => forallb (fun o => negb (present (o_attempt o))) (b_outcomes b)
     | Some ref => forallb (fun o => bool_decide (o_attempt o = Some (ref_sha256 ref))) (b_outcomes b)
     end
  && bool_decide (retry_ids b = no_decision_ids b).

Definition make_batch (b : QualificationIntakeBatch) : result QualificationIntakeBatch :=
  _ ← intake_digest (VStr (b_authority b)) "authority manifest";
  raise_if negb (batch_consistent b) with (QualificationIntakeError "qualification batch is internally inconsistent");
  Ok b.

(** [str(exc)[:4096]] *)
Definition clipped (s : string) : string := concat_strings (take 4096 (code_points s)).

(** The failure is also printed, which is not modelled. *)
Definition _failure_digest (m : QualificationAuthorityManifest) (e : exn) : result string :=
  d ← authority_digest m;
  canonical_digest "cacheon.qualification.intake-failure"
    (str_dict [("authority_manifest_digest", VStr d); ("exception", VStr (exn_class e)); ("message", VStr (clipped (exn_message e)))]) 1.

Definition halves (ids : list string) : list (list string) :=
  let midpoint := (length ids / 2)%nat in [take midpoint ids; drop midpoint ids].

Definition _retry_plan (m : QualificationAuthorityManifest) (rs : list QualificationReservation) (failure : string) (bisect : bool) :
    result QualificationRetryPlan :=
  let ids := n_digest <$> rs in
  d ← authority_digest m;
  if bisect && (1 <? length ids)%nat then make_retry_plan (mkRetryPlan d "bisect" (halves ids) failure)
  else make_retry_plan (mkRetryPlan d "requeue" ((fun rid => [rid]) <$> ids) failure).

Definition undecided (authority failure reason : string) (n : QualificationReservation) : QualificationIntakeOutcome :=
  mkOutcome (n_digest n) (n_delta n) authority NO_DECISION reason true None None (Some failure) None.

Definition _no_decision_batch (m : QualificationAuthorityManifest) (e : exn) (reason : string) : result QualificationIntakeBatch :=
  failure ← _failure_digest m e;
  d ← authority_digest m;
  outcomes ← map_result (fun n => make_outcome (undecided d failure reason n)) (am_reservations m);
  plan ← _retry_plan m (am_reservations m) failure (String.eqb (am_lane m) "registered");
  make_batch (mkBatch d outcomes None (Some plan)).

(** ** Projecting a completed run

    What the intake reads of a report that the runner retained, with the
    settlement qualification that [_settlement_projection] makes of it, and of
    the attempt it is part of. *)

Record CandidateReport := mkReport {
  p_delta : string; p_decision : QualificationDecision; p_reason : string; p_retryable : bool; p_digest : string;
  p_settlement : option SettlementQualification;
}.

Record CohortAttempt := mkAttempt { c_authority : string; c_source : string; c_reports : list CandidateReport }.

Definition report_outcome (d : string) (ref : EvidenceArtifactRef) (n : QualificationReservation) (p : CandidateReport) :
    result QualificationIntakeOutcome :=
  raise_if negb (String.eqb (p_delta p) (n_delta n)) with (QualificationIntakeError "qualification report order differs");
  make_outcome (mkOutcome (n_digest n) (n_delta n) d (p_decision p) (p_reason p) (p_retryable p) (Some (ref_sha256 ref))
    (Some (p_digest p)) None (p_settlement p)).

(** The reservations whose report is undecided. *)
Definition retry_reservations (rows : list (QualificationReservation * CandidateReport)) : list QualificationReservation :=
  (filter (fun np : QualificationReservation * CandidateReport => p_decision np.2 = NO_DECISION) rows).*1.

(** The end of [run_qualification_intake], from the attempt that it reopened. *)
Definition attempt_batch (m : QualificationAuthorityManifest) (ref : EvidenceArtifactRef) (a : CohortAttempt) :
    result QualificationIntakeBatch :=
  raise_if negb (String.eqb (c_authority a) (am_authority m)) || negb (String.eqb (c_source a) (am_source m))
           || negb (length (c_reports a) =? length (am_reservations m))%nat
    with (QualificationIntakeError "qualification attempt differs from intake authority");
  let rows := zip (am_reservations m) (c_reports a) in
  d ← authority_digest m;
  outcomes ← map_result (fun np : QualificationReservation * CandidateReport => report_outcome d ref np.1 np.2) rows;
  match retry_reservations rows with
  | [] => make_batch (mkBatch d outcomes (Some ref) None)
  | retry =>
      failure ← canonical_digest "cacheon.qualification.intake-report-retry"
        (str_dict [("attempt", VStr (ref_sha256 ref)); ("authority_manifest_digest", VStr d);
                   ("reservations", VList (VStr <$> (n_digest <$> retry)))]) 1;
      plan ← _retry_plan m retry failure false;
      make_batch (mkBatch d outcomes (Some ref) (Some plan))
  end.

(** The batch of a single candidate whose run ended in an early stage. *)
Definition stage_exit_batch (m : QualificationAuthorityManifest) (ref : EvidenceArtifactRef) (authority source : string)
    (terminal : CandidateReport) : result QualificationIntakeBatch :=
  let differs := QualificationIntakeError "qualification stage exit differs from intake authority" in
  match am_reservations m with
  | [n] =>
      raise_if negb (String.eqb authority (am_authority m)) || negb (String.eqb source (am_source m))
               || negb (String.eqb (p_delta terminal) (n_delta n)) with differs;
      d ← authority_digest m;
      let undecided := bool_decide (p_decision terminal = NO_DECISION) in
      outcome ← make_outcome (mkOutcome (n_digest n) (n_delta n) d (p_decision terminal) (p_reason terminal) undecided
        (Some (ref_sha256 ref)) (Some (p_digest terminal)) None
        (if decide (p_decision terminal = PASS) then p_settlement terminal else None));
      plan ← (if undecided
              then failure ← canonical_digest "cacheon.qualification.intake-stage-retry"
                     (str_dict [("artifact", VStr (ref_sha256 ref)); ("authority_manifest_digest", VStr d);
                                ("report", VStr (p_digest terminal))]) 1;
                   p ← _retry_plan m [n] failure false; Ok (Some p)
              else Ok None);
      make_batch (mkBatch d [outcome] (Some ref) plan)
  | _ => Raise differs
  end.
