(* ===== verification/Candidate.v ===== *)
(** * Settlement candidates and their evidence

    [cacheon/settlement_acceptance.py]: one accepted qualification, or two that
    reproduce the same contribution, and the receipt of the retained attempts
    behind it. *)

From Stdlib Require Import QArith Qcanon.
From S2P Require Import Prelude PyVal Dict Identity Strict Numbers EvidenceRef Stack Qualification.

Open Scope Z_scope.

(** ** Candidates *)

Record SettlementCandidate := mkCandidate { primary : SettlementQualification; reproduction : option SettlementQualification }.

#[export] Instance candidate_eq_dec : EqDecision SettlementCandidate.
Proof. solve_decision. Defined.

(** The [common] fields of the two runs are equal. *)
Definition same_contribution (p r : SettlementQualification) : bool :=
  String.eqb (lane p) (lane r) && String.eqb (q_arena p) (q_arena r) && String.eqb (q_reservation p) (q_reservation r)
  && (finalized_block p =? finalized_block r) && (event_index p =? event_index r) && (event_subindex p =? event_subindex r)
  && String.eqb (q_hotkey p) (q_hotkey r) && String.eqb (q_target p) (q_target r)
  && bool_decide (members p = members r) && String.eqb (q_delta p) (q_delta r) && String.eqb (q_arm p) (q_arm r)
  && String.eqb (incumbent_stack p) (incumbent_stack r) && String.eqb (incumbent_tree p) (incumbent_tree r)
  && String.eqb (candidate_stack p) (candidate_stack r) && String.eqb (candidate_tree p) (candidate_tree r)
  && bool_decide (incumbent_manifest p = incumbent_manifest r) && String.eqb (q_proposal p) (q_proposal r)
  && bool_decide (candidate_manifest p = candidate_manifest r)
  && String.eqb (speed_evidence_policy p) (speed_evidence_policy r) && String.eqb (audit_control p) (audit_control r).

(** Some [distinct] field of the two runs is equal. *)
Definition shares_authority (p r : SettlementQualification) : bool :=
  String.eqb (authority p) (authority r) || String.eqb (qualification_plan p) (qualification_plan r)
  || String.eqb (attempt p) (attempt r) || String.eqb (report p) (report r)
  || String.eqb (selection_commitment p) (selection_commitment r) || String.eqb (secret_commitment p) (secret_commitment r)
  || String.eqb (selection_evidence p) (selection_evidence r).

Definition is_some {A} (o : option A) : bool := match o with Some _ => true | None => false end.

Definition check_audits (p r : SettlementQualification) : result () :=
  raise_if negb (Bool.eqb (is_some (audit_policy p)) (is_some (audit_policy r)))
    with (SettlementError "independent reproduction mixes audited and auditless qualifications");
  match audit_policy p, audit_policy r with
  | Some a, Some b =>
      raise_if negb (bool_decide (control a = control b)) || String.eqb (validator_seed a) (validator_seed b)
               || String.eqb (audit_evidence p) (audit_evidence r)
        with (SettlementError "independent reproduction reuses or changes slot-audit authority");
      Ok tt
  | _, _ => Ok tt
  end.

Definition check_lanes (p r : SettlementQualification) : result () :=
  raise_if negb (Bool.eqb (is_some (orientation p)) (is_some (orientation r)))
    with (SettlementError "independent reproduction has incomplete resident lane orientation");
  match orientation p, orientation r with
  | Some a, Some b =>
      raise_if negb (is_exact_swap_of b a)
        with (SettlementError "independent reproduction did not swap physical TP lane orientation");
      Ok tt
  | _, _ => Ok tt
  end.

Definition make_candidate (p : SettlementQualification) (r : option SettlementQualification) : result SettlementCandidate :=
  match r with
  | None =>
      raise_if negb (is_some (audit_policy p))
        with (SettlementError "single-run settlement requires an audited qualification");
      Ok (mkCandidate p None)
  | Some r =>
      raise_if negb (bool_decide (reproduction_identity p = reproduction_identity r))
        with (SettlementError "independent reproduction differs from the primary reproduction identity");
      raise_if negb (same_contribution p r)
        with (SettlementError "independent reproduction differs from the primary contribution identity");
      raise_if shares_authority p r
        with (SettlementError "independent reproduction reuses primary authority or evidence");
      _ ← check_audits p r;
      _ ← check_lanes p r;
      Ok (mkCandidate p (Some r))
  end.

Definition from_reproductions (p r : SettlementQualification) : result SettlementCandidate :=
  candidate ← make_candidate p (Some r);
  raise_if negb (is_some (audit_policy p) && is_some (audit_policy r))
           && negb (is_some (orientation p) && is_some (orientation r))
    with (SettlementError "new settlement candidate requires two audited qualifications");
  Ok candidate.

Definition qualifications (c : SettlementCandidate) : list SettlementQualification :=
  primary c :: match reproduction c with Some r => [r] | None => [] end.

(** [min((value.speedup ...), key=Decimal)]: the first of the smallest *)
Definition candidate_speedup (c : SettlementCandidate) : string :=
  match reproduction c with
  | None => speedup (primary c)
  | Some r => if dec_ltb (Decimal (speedup r)) (Decimal (speedup (primary c))) then speedup r else speedup (primary c)
  end.

Definition candidate_rows (c : SettlementCandidate) : list (string * pyval) :=
  ("primary", qualification_to_dict (primary c))
  :: match reproduction c with Some r => [("reproduction", qualification_to_dict r)] | None => [] end.

Definition candidate_to_dict (c : SettlementCandidate) : pyval := str_dict (candidate_rows c).

Definition candidate_from_dict (value : pyval) : result SettlementCandidate :=
  let mismatch := SettlementError "settlement candidate fields do not match" in
  match value with
  | VDict items =>
      raise_if negb (keys_are ["primary"] items || keys_are ["primary"; "reproduction"] items) with mismatch;
      p ← qualification_from_dict (default VNone (items_get "primary" items));
      r ← match items_get "reproduction" items with
          | Some v => Some <$> qualification_from_dict v
          | None => Ok None
          end;
      make_candidate p r
  | _ => Raise mismatch
  end.

Definition candidate_domain (c : SettlementCandidate) : string :=
  match reproduction c, orientation (primary c), audit_policy (primary c) with
  | None, _, _ => "cacheon.settlement.candidate.v5"
  | Some _, Some _, _ => "cacheon.settlement.candidate.v4"
  | Some _, None, None => "cacheon.settlement.candidate.v2"
  | Some _, None, Some _ => "cacheon.settlement.candidate.v3"
  end.

Definition candidate_digest (c : SettlementCandidate) : result string :=
  canonical_digest (candidate_domain c) (candidate_to_dict c) 1.

(** ** Evidence *)

(** The reproduction's reference is present exactly when its three digests are. *)
Record SettlementEvidence := mkEvidence {
  ev_candidate : string; ev_reservation : string;
  ev_authority : string; ev_attempt : EvidenceArtifactRef; ev_report : string; ev_selection : string;
  rev_authority : string; rev_attempt : option EvidenceArtifactRef; rev_report : string; rev_selection : string;
}.

#[export] Instance evidence_eq_dec : EqDecision SettlementEvidence.
Proof. solve_decision. Defined.

Definition make_evidence (candidate reservation authority : pyval) (attempt : EvidenceArtifactRef)
    (report selection : pyval) (rauthority : pyval) (rattempt : option EvidenceArtifactRef)
    (rreport rselection : pyval) : result SettlementEvidence :=
  candidate ← settlement_digest candidate "candidate_digest" false;
  reservation ← settlement_digest reservation "reservation_digest" false;
  authority ← settlement_digest authority "primary_authority_digest" false;
  report ← settlement_digest report "primary_report_digest" false;
  selection ← settlement_digest selection "primary_selection_evidence_digest" false;
  match rattempt with
  | None =>
      raise_if py_truthy rauthority || py_truthy rreport || py_truthy rselection
        with (SettlementError "settlement evidence has an incomplete reproduction");
      Ok (mkEvidence candidate reservation authority attempt report selection "" None "" "")
  | Some rref =>
      rauthority ← settlement_digest rauthority "reproduction_authority_digest" false;
      rreport ← settlement_digest rreport "reproduction_report_digest" false;
      rselection ← settlement_digest rselection "reproduction_selection_evidence_digest" false;
      raise_if String.eqb authority rauthority || String.eqb (ref_sha256 attempt) (ref_sha256 rref)
               || String.eqb report rreport || String.eqb selection rselection
        with (SettlementError "settlement evidence does not contain a reproduction");
      Ok (mkEvidence candidate reservation authority attempt report selection rauthority (Some rref) rreport rselection)
  end.

Definition bind_evidence (c : SettlementCandidate) (ref : EvidenceArtifactRef) (rref : option EvidenceArtifactRef) :
    result SettlementEvidence :=
  let differ := SettlementError "settlement attempt references differ from the candidate" in
  raise_if negb (String.eqb (ref_sha256 ref) (attempt (primary c))) with differ;
  d ← candidate_digest c;
  let p := primary c in
  let make := make_evidence (VStr d) (VStr (q_reservation p)) (VStr (authority p)) ref (VStr (report p))
                (VStr (selection_evidence p)) in
  match reproduction c, rref with
  | None, Some _ => Raise (SettlementError "single-run evidence contains an extra attempt")
  | None, None => make (VStr "") None (VStr "") (VStr "")
  | Some _, None => Raise differ
  | Some r, Some rref =>
      raise_if negb (String.eqb (ref_sha256 rref) (attempt r)) with differ;
      make (VStr (authority r)) (Some rref) (VStr (report r)) (VStr (selection_evidence r))
  end.

Definition evidence_rows (e : SettlementEvidence) : list (string * pyval) :=
  [("candidate_digest", VStr (ev_candidate e)); ("primary_attempt_ref", ref_to_dict (ev_attempt e));
   ("primary_authority_digest", VStr (ev_authority e)); ("primary_report_digest", VStr (ev_report e));
   ("primary_selection_evidence_digest", VStr (ev_selection e)); ("reservation_digest", VStr (ev_reservation e))]
  ++ match rev_attempt e with
     | None => []
     | Some r =>
         [("reproduction_attempt_ref", ref_to_dict r); ("reproduction_authority_digest", VStr (rev_authority e));
          ("reproduction_report_digest", VStr (rev_report e));
          ("reproduction_selection_evidence_digest", VStr (rev_selection e))]
     end.

Definition evidence_to_dict (e : SettlementEvidence) : pyval := str_dict (evidence_rows e).

Definition primary_fields : list string :=
  ["candidate_digest"; "reservation_digest"; "primary_authority_digest"; "primary_attempt_ref"; "primary_report_digest";
   "primary_selection_evidence_digest"].
Definition reproduction_fields : list string :=
  ["reproduction_authority_digest"; "reproduction_attempt_ref"; "reproduction_report_digest";
   "reproduction_selection_evidence_digest"].

Definition evidence_from_dict (value : pyval) : result SettlementEvidence :=
  let mismatch := SettlementError "settlement evidence fields do not match" in
  match value with
  | VDict items =>
      raise_if negb (keys_are (primary_fields ++ reproduction_fields) items || keys_are primary_fields items) with mismatch;
      let get name := default VNone (items_get name items) in
      let get_or_empty name := default (VStr "") (items_get name items) in
      ref ← ref_from_dict (get "primary_attempt_ref");
      rref ← match items_get "reproduction_attempt_ref" items with
             | Some v => Some <$> ref_from_dict v
             | None => Ok None
             end;
      make_evidence (get "candidate_digest") (get "reservation_digest") (get "primary_authority_digest") ref
        (get "primary_report_digest") (get "primary_selection_evidence_digest") (get_or_empty "reproduction_authority_digest")
        rref (get_or_empty "reproduction_report_digest") (get_or_empty "reproduction_selection_evidence_digest")
  | _ => Raise mismatch
  end.

Definition evidence_digest (e : SettlementEvidence) : result string :=
  canonical_digest (if is_some (rev_attempt e) then "cacheon.settlement.evidence" else "cacheon.settlement.evidence.v2")
    (evidence_to_dict e) 1.
