(* ===== verification/Settlement.v ===== *)
(** * Settlement plans

    The second half of [cacheon/settlement.py]: the events of a settlement, the
    plan that carries them, and [plan_settlement], which selects one winner over
    the current stack and emits a hash-chained event list. *)

From Stdlib Require Import QArith Qcanon.
From S2P Require Import Prelude PyVal Dict Identity Strict Numbers Stack Qualification Candidate.

Open Scope Z_scope.

(** ** Events *)

Inductive SettlementEventType :=
  HOLD | CROWN | ADOPTION | RETIREMENT | NEUTRALIZATION | STACK_TRANSITION | DISCOVERY_BOUNTY.

#[export] Instance event_type_eq_dec : EqDecision SettlementEventType.
Proof. solve_decision. Defined.

Definition event_types : list SettlementEventType :=
  [HOLD; CROWN; ADOPTION; RETIREMENT; NEUTRALIZATION; STACK_TRANSITION; DISCOVERY_BOUNTY].

Definition event_value (t : SettlementEventType) : string :=
  match t with
  | HOLD => "HOLD" | CROWN => "CROWN" | ADOPTION => "ADOPTION" | RETIREMENT => "RETIREMENT"
  | NEUTRALIZATION => "NEUTRALIZATION" | STACK_TRANSITION => "STACK_TRANSITION" | DISCOVERY_BOUNTY => "DISCOVERY_BOUNTY"
  end.

Record SettlementEvent := mkEvent {
  event_type : SettlementEventType; sequence : Z; previous_event : string; candidate_of : string; subject : string;
  event_target : string; from_stack : string; from_tree : string; to_stack : string; to_tree : string; reason : string;
}.

#[export] Instance event_eq_dec : EqDecision SettlementEvent.
Proof. solve_decision. Defined.

Definition make_event (kind : SettlementEventType)
    (seq previous candidate subject target fstack ftree tstack ttree reason : pyval) : result SettlementEvent :=
  seq ← settlement_integer seq "event sequence";
  candidate ← settlement_digest candidate "candidate_digest" false;
  subject ← settlement_digest subject "subject_digest" false;
  fstack ← settlement_digest fstack "from_stack_digest" false;
  ftree ← settlement_digest ftree "from_tree_digest" false;
  tstack ← settlement_digest tstack "to_stack_digest" false;
  ttree ← settlement_digest ttree "to_tree_digest" false;
  previous ← settlement_digest previous "previous_event_digest" true;
  target ← _identifier target "target_id" _ID;
  reason ← _identifier reason "reason" _ID;
  Ok (mkEvent kind seq previous candidate subject target fstack ftree tstack ttree reason).

Definition event_rows (e : SettlementEvent) : list (string * pyval) :=
  [("candidate_digest", VStr (candidate_of e)); ("event_type", VStr (event_value (event_type e)));
   ("from_stack_digest", VStr (from_stack e)); ("from_tree_digest", VStr (from_tree e));
   ("previous_event_digest", VStr (previous_event e)); ("reason", VStr (reason e)); ("sequence", VInt (sequence e));
   ("subject_digest", VStr (subject e)); ("target_id", VStr (event_target e)); ("to_stack_digest", VStr (to_stack e));
   ("to_tree_digest", VStr (to_tree e))].

Definition event_to_dict (e : SettlementEvent) : pyval := str_dict (event_rows e).

Definition event_digest (e : SettlementEvent) : result string :=
  canonical_digest "cacheon.settlement.event" (event_to_dict e) 1.

Definition event_fields : list string :=
  ["event_type"; "sequence"; "previous_event_digest"; "candidate_digest"; "subject_digest"; "target_id";
   "from_stack_digest"; "from_tree_digest"; "to_stack_digest"; "to_tree_digest"; "reason"].

(** [SettlementEventType(value)] *)
Definition read_event_type (value : pyval) : result SettlementEventType :=
  match find (fun t => is_text value (event_value t)) event_types with
  | Some t => Ok t
  | None => Raise (SettlementError "settlement event type is unsupported")
  end.

Definition event_from_dict (value : pyval) : result SettlementEvent :=
  row ← exact_dict value event_fields (SettlementError "settlement event fields do not match");
  kind ← read_event_type (argument row "event_type");
  make_event kind (argument row "sequence") (argument row "previous_event_digest") (argument row "candidate_digest")
    (argument row "subject_digest") (argument row "target_id") (argument row "from_stack_digest") (argument row "from_tree_digest")
    (argument row "to_stack_digest") (argument row "to_tree_digest") (argument row "reason").

(** ** Plans *)

Record StackTransitionOutput := mkOutput {
  out_candidate : string; out_before : StackArmIdentity; out_after : StackArmIdentity; out_manifest : EvaluationStackManifest;
}.

#[export] Instance output_eq_dec : EqDecision StackTransitionOutput.
Proof. solve_decision. Defined.

Definition make_output (candidate : string) (before after : StackArmIdentity) (m : EvaluationStackManifest) :
    result StackTransitionOutput :=
  candidate ← settlement_digest (VStr candidate) "candidate" false;
  d ← manifest_digest m;
  raise_if negb (String.eqb d (arm_stack after)) || bool_decide (before = after)
    with (SettlementError "stack transition output is inconsistent");
  Ok (mkOutput candidate before after m).

Definition output_to_dict (o : StackTransitionOutput) : pyval :=
  str_dict [("after", arm_to_dict (out_after o)); ("before", arm_to_dict (out_before o));
            ("candidate_digest", VStr (out_candidate o)); ("manifest", manifest_to_dict (out_manifest o))].

Record SettlementPlan := mkPlan {
  plan_before : StackArmIdentity; plan_after : StackArmIdentity; winner : string;
  events : list SettlementEvent; plan_transition : option StackTransitionOutput;
}.

(** [current.sequence != prior.sequence + 1 or current.previous_event_digest != prior.digest] *)
Definition check_link (pc : SettlementEvent * SettlementEvent) : result () :=
  let broken := SettlementError "settlement event journal is not contiguous" in
  raise_if negb (sequence pc.2 =? sequence pc.1 + 1) with broken;
  d ← event_digest pc.1;
  raise_if negb (String.eqb (previous_event pc.2) d) with broken;
  Ok tt.

Definition make_plan (before after : StackArmIdentity) (winner : string) (events : list SettlementEvent)
    (transition : option StackTransitionOutput) : result SettlementPlan :=
  winner ← settlement_digest (VStr winner) "winner" true;
  _ ← map_result check_link (adjacent events);
  match transition with
  | None =>
      raise_if truthy winner || negb (bool_decide (before = after))
        with (SettlementError "non-transition settlement plan names a winner");
      Ok (mkPlan before after winner events None)
  | Some t =>
      raise_if negb (String.eqb (out_candidate t) winner) || negb (bool_decide (out_before t = before))
               || negb (bool_decide (out_after t = after))
        with (SettlementError "settlement transition differs from its plan");
      Ok (mkPlan before after winner events (Some t))
  end.

Definition plan_to_dict (p : SettlementPlan) : pyval :=
  str_dict [("after", arm_to_dict (plan_after p)); ("before", arm_to_dict (plan_before p));
            ("events", VList (event_to_dict <$> events p));
            ("transition", match plan_transition p with None => VNone | Some t => output_to_dict t end);
            ("winner_candidate_digest", VStr (winner p))].

Definition settlement_plan_digest (p : SettlementPlan) : result string :=
  canonical_digest "cacheon.settlement.plan" (plan_to_dict p) 1.

(** ** The journal under construction *)

Record _Journal := mkJournal { next_sequence : Z; previous : string; journal_events : list SettlementEvent }.

Definition new_journal (seq : pyval) (previous : pyval) : result _Journal :=
  seq ← settlement_integer seq "initial event sequence";
  previous ← settlement_digest previous "previous event" true;
  Ok (mkJournal seq previous []).

(** A candidate of a plan, with its digest. *)
Abbreviation row := (string * SettlementCandidate)%type.

Definition add_event (kind : SettlementEventType) (candidate : row) (subject target : string)
    (before after : StackArmIdentity) (reason : string) (j : _Journal) : result _Journal :=
  e ← make_event kind (VInt (next_sequence j)) (VStr (previous j)) (VStr candidate.1) (VStr subject) (VStr target)
        (VStr (arm_stack before)) (VStr (arm_tree before)) (VStr (arm_stack after)) (VStr (arm_tree after)) (VStr reason);
  d ← event_digest e;
  Ok (mkJournal (next_sequence j + 1) d (journal_events j ++ [e])).

(** ** Planning *)

(** [candidate.incumbent_manifest.entries.get(candidate.target_id)], as its artifact digest or "" *)
Definition incumbent_artifact (c : SettlementCandidate) : string :=
  match dict_get (q_target (primary c)) (entries (incumbent_manifest (primary c))) with
  | Some ref => c_artifact ref
  | None => ""
  end.

Definition _lineage_hold_reason (c : SettlementCandidate) (tips : list (string * TargetLineage)) : result string :=
  match dict_get (q_target (primary c)) tips with
  | None => Ok ""
  | Some l =>
      if String.eqb (incumbent_artifact c) (lineage_artifact l) then Ok ""
      else
        match threshold_from l (incumbent_artifact c) with
        | Raise e => if bool_decide (exn_class e = "SettlementError") then Ok "stale_incumbent" else Raise e
        | Ok None => Raise (Exn "AssertionError" "")
        | Ok (Some (threshold, _)) =>
            Ok (if dec_ltb threshold (Decimal (candidate_speedup c)) then "" else "lost_potential")
        end
  end.

(** Why a candidate is held, or "". *)
Definition hold_reason (tips : list (string * TargetLineage)) (before : StackArmIdentity) (c : SettlementCandidate) :
    result string :=
  match dict_get (q_target (primary c)) tips with
  | Some _ => _lineage_hold_reason c tips
  | None => Ok (if bool_decide (incumbent_arm (primary c) = before) then "" else "stale_incumbent")
  end.

Definition row_order (r : row) : Z * Z * Z * string := finalized_order (primary r.2).

(** [(-Decimal(row.speedup), row.finalized_order)] *)
Definition winner_key (r : row) : Qc * (Z * Z * Z * string) :=
  (Qcopp (dec_value (Decimal (candidate_speedup r.2))), row_order r).

(** [min(r :: l, key=key)]: the first of the smallest *)
Fixpoint min_by {A K} `{Cmp K} (key : A -> K) (r : A) (l : list A) : A :=
  match l with
  | [] => r
  | x :: l => min_by key (if cmp_ltb (key x) (key r) then x else r) l
  end.

Definition hold (before : StackArmIdentity) (j : _Journal) (rr : string * row) : result _Journal :=
  add_event HOLD rr.2 (q_delta (primary rr.2.2)) (q_target (primary rr.2.2)) before before rr.1 j.

Definition loser_reason (w r : row) : string :=
  if members_overlap (members (primary r.2)) (members (primary w.2)) then "conflict_lost" else "incumbent_advanced".

(** The stack that adopts the winner, with the tree identity it takes. *)
Definition adopt (current : EvaluationStackManifest) (before : StackArmIdentity) (w : SettlementCandidate)
    (replacement : ContributionRef) (tree_digest_of : option (EvaluationStackManifest -> result string)) :
    result (EvaluationStackManifest * StackArmIdentity) :=
  adopted ← with_contribution current replacement [];
  d ← manifest_digest adopted;
  raise_if String.eqb d (arm_stack before)
    with (SettlementError "composed stack does not change the incumbent stack identity");
  if String.eqb d (candidate_stack (primary w)) then
    match candidate_manifest (primary w) with
    | Some m => Ok (m, challenger_arm (primary w))
    | None => Raise (Exn "AssertionError" "")
    end
  else
    match tree_digest_of with
    | None => Raise (SettlementError "composed stack requires a tree digest resolver")
    | Some f => tree ← f adopted; arm ← make_arm d tree; Ok (adopted, arm)
    end.

Definition ancestor_win (tips : list (string * TargetLineage)) (w : SettlementCandidate) : bool :=
  match dict_get (q_target (primary w)) tips with
  | None => false
  | Some l => negb (String.eqb (incumbent_artifact w) (lineage_artifact l))
  end.

(** [winner.candidate_manifest.entries[winner.target_id]] *)
Definition winning_entry (w : SettlementCandidate) : result ContributionRef :=
  match candidate_manifest (primary w) with
  | None => Raise (Exn "AssertionError" "")
  | Some m => dict_item (q_target (primary w)) (entries m)
  end.

(** The events of the crown, and the plan. *)
Definition settle_winner (current : EvaluationStackManifest) (tips : list (string * TargetLineage))
    (tree_digest_of : option (EvaluationStackManifest -> result string)) (before : StackArmIdentity)
    (w : row) (j : _Journal) : result SettlementPlan :=
  let target := q_target (primary w.2) in
  replacement ← winning_entry w.2;
  adopted ← adopt current before w.2 replacement tree_digest_of;
  let after := adopted.2 in
  subject ← contribution_digest replacement;
  j ← add_event CROWN w subject target before before
        (if ancestor_win tips w.2 then "qualified_ancestor_win" else "qualified_win") j;
  j ← match dict_get target (entries current) with
      | Some prior => d ← contribution_digest prior; add_event RETIREMENT w d (c_target prior) before before "superseded" j
      | None => Ok j
      end;
  j ← add_event ADOPTION w subject target before after "adopted" j;
  d ← manifest_digest adopted.1;
  j ← add_event STACK_TRANSITION w d target before after "incumbent_updated" j;
  output ← make_output w.1 before after adopted.1;
  make_plan before after w.1 (journal_events j) (Some output).

Definition plan_settlement (candidates : list SettlementCandidate) (current : EvaluationStackManifest) (tree : string)
    (initial previous_ : pyval) (tips : list (string * TargetLineage))
    (tree_digest_of : option (EvaluationStackManifest -> result string)) : result SettlementPlan :=
  _ ← map_result (fun kv => _identifier (VStr kv.1) "lineage tip target" _ID) tips;
  d ← manifest_digest current;
  before ← make_arm d tree;
  rows ← map_result (fun c => d ← candidate_digest c; Ok (d, c)) candidates;
  raise_if negb (distinct rows.*1) || negb (distinct ((fun r => q_reservation (primary r.2)) <$> rows))
    with (SettlementError "settlement candidates contain duplicates");
  j ← new_journal initial previous_;
  reasoned ← map_result (fun r => why ← hold_reason tips before r.2; Ok (why, r)) rows;
  let current_rows := snd <$> filter (fun rr => rr.1 = "") reasoned in
  let stale := sorted_by (fun rr => row_order rr.2) (filter (fun rr => rr.1 <> "") reasoned) in
  j ← fold_result (hold before) stale j;
  match filter (fun r => lane (primary r.2) = "registered") current_rows with
  | [] => make_plan before before "" (journal_events j) None
  | r :: registered =>
      let w := min_by winner_key r registered in
      let losers := sorted_by row_order (filter (fun x => x.1 <> w.1) (r :: registered)) in
      j ← fold_result (hold before) ((fun x => (loser_reason w x, x)) <$> losers) j;
      settle_winner current tips tree_digest_of before w j
  end.
