(* ===== verification/SettlementContracts.v ===== *)
(** * Settlement plans: what a plan guarantees

    The journal under construction as a chain of events; the events a plan
    carries, against a script of what should happen to each candidate; which
    candidate wins; and what adoption leaves alone. *)

From Stdlib Require Import QArith Qcanon.
From S2P Require Import Prelude PyVal Dict Identity Strict Numbers Stack StackContracts Qualification Candidate Settlement.

Open Scope Z_scope.

(** ** Chains of events *)

(** The events number on from [n] and name their predecessors' digests on from [p], up to [n'] and [p']. *)
Inductive chain : Z -> string -> list SettlementEvent -> Z -> string -> Prop :=
| chain_nil n p : chain n p [] n p
| chain_cons n p e es d n' p' :
    sequence e = n -> previous_event e = p -> event_digest e = Ok d -> chain (n + 1) d es n' p' ->
    chain n p (e :: es) n' p'.

#[export] Hint Constructors chain : py.

Lemma chain_app n p es n1 p1 es' n2 p2 :
  chain n p es n1 p1 -> chain n1 p1 es' n2 p2 -> chain n p (es ++ es') n2 p2.
Proof. induction 1; intros Hc; [done|]. simpl. econstructor; eauto. Qed.

Lemma chain_length n p es n' p' : chain n p es n' p' -> n' = n + Z.of_nat (length es).
Proof. induction 1; simpl; lia. Qed.

(** The last event of a chain, taken off. *)
Lemma chain_snoc n p es e m h :
  chain n p (es ++ [e]) m h ->
  exists h', chain n p es (m - 1) h' /\ sequence e = m - 1 /\ previous_event e = h' /\ event_digest e = Ok h.
Proof.
  revert n p. induction es as [|e1 es IH]; intros n p Hc; simpl in Hc; inversion Hc as [|? ? ? ? d ? ? Hn Hp Hd Ht]; subst.
  - inversion Ht; subst. exists (previous_event e). rewrite Z.add_simpl_r. split_and!; [constructor|done..].
  - destruct (IH _ _ Ht) as (h' & Hc' & ?). exists h'. split; [by econstructor|done].
Qed.

(** Two event lists with different events that have the same digest. *)
Definition digests_clash (es es' : list SettlementEvent) : Prop :=
  exists e e' d, e ∈ es /\ e' ∈ es' /\ e <> e' /\ event_digest e = Ok d /\ event_digest e' = Ok d.

Lemma chain_binds n p es es' m h :
  chain n p es m h -> chain n p es' m h -> es = es' \/ digests_clash es es'.
Proof.
  revert es' m h. induction es as [|e es IH] using rev_ind; intros es' m h Hc Hc'.
  - apply chain_length in Hc, Hc'. destruct es'; [by left|simpl in *; lia].
  - destruct es' as [|e' es' _] using rev_ind.
    { apply chain_length in Hc, Hc'. rewrite length_app in Hc. simpl in *. lia. }
    apply chain_snoc in Hc as (h1 & Hc & Hs & Hp & Hd), Hc' as (h2 & Hc' & Hs' & Hp' & Hd').
    destruct (decide (e = e')) as [<-|Hne].
    + rewrite <- Hp, Hp' in Hc. destruct (IH _ _ _ Hc Hc') as [->|(a & b & d & ? & ? & ?)]; [by left|].
      right. exists a, b, d. rewrite !elem_of_app. eauto.
    + right. exists e, e', h. rewrite !elem_of_app, !list_elem_of_singleton. auto 6.
Qed.

(** ** What an event says, apart from its place in the chain *)

Record event_body := mkBody {
  b_kind : SettlementEventType; b_candidate : string; b_subject : string; b_target : string;
  b_from : StackArmIdentity; b_to : StackArmIdentity; b_reason : string;
}.

Definition body (e : SettlementEvent) : event_body :=
  mkBody (event_type e) (candidate_of e) (subject e) (event_target e) (mkArm (from_stack e) (from_tree e))
    (mkArm (to_stack e) (to_tree e)) (reason e).

(** [j'] is [j] with events of the given bodies added. *)
Definition emits (j : _Journal) (bodies : list event_body) (j' : _Journal) : Prop :=
  exists es, journal_events j' = journal_events j ++ es /\ body <$> es = bodies /\
    chain (next_sequence j) (previous j) es (next_sequence j') (previous j').

Lemma emits_nil j : emits j [] j.
Proof. exists []. rewrite app_nil_r. eauto with py. Qed.

Lemma emits_app j bs j1 bs' j2 : emits j bs j1 -> emits j1 bs' j2 -> emits j (bs ++ bs') j2.
Proof.
  intros (es & E & <- & Hc) (es' & E' & <- & Hc'). exists (es ++ es'). rewrite E', E, fmap_app, app_assoc.
  split_and!; [done..|by eapply chain_app].
Qed.

Lemma settlement_digest_value s field optional d : settlement_digest (VStr s) field optional = Ok d -> d = s.
Proof.
  unfold settlement_digest, require_digest. destruct (optional && String.eqb s "") eqn:E.
  - apply andb_true_iff in E as [_ ->%String.eqb_eq]. by intros [= <-].
  - destruct (require_sha256_hex _ _) eqn:Er; [|done]. intros H. step_guard H. injection H as <-.
    unfold require_sha256_hex in Er. simpl in Er. destruct (is_sha256_hex s); [by injection Er|done].
Qed.

Lemma identifier_value s field pattern d : _identifier (VStr s) field pattern = Ok d -> d = s /\ pattern s = true.
Proof. simpl. destruct (pattern s); [by intros [= <-]|done]. Qed.

Lemma settlement_integer_value z field n : settlement_integer (VInt z) field = Ok n -> n = z /\ 0 <= z.
Proof. unfold settlement_integer. by intros ([= ->] & ? & _)%require_int_Ok. Qed.

(** A checked text or integer is the value that was given. *)
Ltac read_settlement :=
  repeat match goal with
  | H : settlement_digest (VStr _) _ _ = Ok _ |- _ => apply settlement_digest_value in H; subst
  | H : _identifier (VStr _) _ _ = Ok _ |- _ => apply identifier_value in H as [-> ?]
  | H : settlement_integer (VInt _) _ = Ok _ |- _ => apply settlement_integer_value in H as [-> ?]
  end.

Lemma add_event_emits kind candidate subject target before after reason j j' :
  add_event kind candidate subject target before after reason j = Ok j' ->
  emits j [mkBody kind candidate.1 subject target before after reason] j'.
Proof.
  unfold add_event, make_event. intros H. inv_ok. read_settlement. destruct before, after.
  eexists [_]. split_and!; [done..|]. by repeat econstructor.
Qed.

(** ** The script of a settlement *)

Section Script.
Context (current : EvaluationStackManifest) (tips : list (string * TargetLineage))
  (tree_digest_of : option (EvaluationStackManifest -> result string)) (before : StackArmIdentity).

(** A held candidate, with the reason it is held for. *)
Definition hold_body (rr : string * row) : event_body :=
  mkBody HOLD rr.2.1 (q_delta (primary rr.2.2)) (q_target (primary rr.2.2)) before before rr.1.

Definition stale (reasoned : list (string * row)) : list (string * row) :=
  sorted_by (fun rr => row_order rr.2) (filter (fun rr => rr.1 <> "") reasoned).

Definition registered (reasoned : list (string * row)) : list row :=
  filter (fun r => lane (primary r.2) = "registered") (snd <$> filter (fun rr => rr.1 = "") reasoned).

Definition losers (w : row) (rows : list row) : list (string * row) :=
  (fun x => (loser_reason w x, x)) <$> sorted_by row_order (filter (fun x => x.1 <> w.1) rows).

(** The entry of the target that the winner retires. *)
Definition retires (w : row) (bodies : list event_body) : Prop :=
  match dict_get (q_target (primary w.2)) (entries current) with
  | None => bodies = []
  | Some prior => exists d, contribution_digest prior = Ok d /\
                    bodies = [mkBody RETIREMENT w.1 d (c_target prior) before before "superseded"]
  end.

(** The events of a crown, and the manifest and the arm that are current after it. *)
Definition crowns (w : row) (adopted : EvaluationStackManifest) (after : StackArmIdentity)
    (bodies : list event_body) : Prop :=
  let target := q_target (primary w.2) in
  exists replacement subject retired,
    winning_entry w.2 = Ok replacement /\ contribution_digest replacement = Ok subject /\
    adopt current before w.2 replacement tree_digest_of = Ok (adopted, after) /\ manifest_digest adopted = Ok (arm_stack after) /\
    retires w retired /\
    bodies = [mkBody CROWN w.1 subject target before before
                (if ancestor_win tips w.2 then "qualified_ancestor_win" else "qualified_win")]
             ++ retired
             ++ [mkBody ADOPTION w.1 subject target before after "adopted";
                 mkBody STACK_TRANSITION w.1 (arm_stack after) target before after "incumbent_updated"].

Lemma hold_emits rows j j' : fold_result (hold before) rows j = Ok j' -> emits j (hold_body <$> rows) j'.
Proof.
  revert j. induction rows as [|rr rows IH]; intros j H; simpl in H; [injection H as <-; apply emits_nil|].
  inv_ok. apply add_event_emits in Hx. rewrite fmap_cons. by eapply (emits_app _ [_]), IH.
Qed.

Lemma make_output_Ok c b a m o :
  make_output c b a m = Ok o -> o = mkOutput c b a m /\ b <> a /\ manifest_digest m = Ok (arm_stack a).
Proof.
  unfold make_output. intros H. inv_ok. step_guard H. injection H as <-. read_settlement. split_bool.
  apply String.eqb_eq in H as <-. done.
Qed.

Lemma make_plan_Ok b a w es t p : make_plan b a w es t = Ok p -> p = mkPlan b a w es t.
Proof.
  unfold make_plan. intros H. inv_ok. read_settlement.
  destruct t; step_guard H; by injection H as <-.
Qed.

Lemma settle_winner_Ok w j p :
  settle_winner current tips tree_digest_of before w j = Ok p ->
  exists adopted after bodies j', crowns w adopted after bodies /\ emits j bodies j' /\ before <> after /\
    p = mkPlan before after w.1 (journal_events j') (Some (mkOutput w.1 before after adopted)).
Proof.
  unfold settle_winner. intros H. inv_ok. destruct x0 as [adopted after].
  apply make_plan_Ok in H as ->. apply make_output_Ok in Hx7 as (-> & Hne & Hd).
  apply add_event_emits in Hx2, Hx4, Hx6. cbn [snd fst] in *. rewrite Hd in Hx5. injection Hx5 as <-.
  assert (exists retired, retires w retired /\ emits x2 retired x3) as (retired & Hr & He).
  { unfold retires. destruct (dict_get _ (entries current)) as [prior|].
    - inv_ok. apply add_event_emits in Hx3. eauto 6.
    - injection Hx3 as <-. eauto using emits_nil. }
  exists adopted, after. do 2 eexists. split_and!; [|..|done|done].
  - unfold crowns. eauto 12.
  - eapply emits_app; [exact Hx2|]. eapply emits_app; [exact He|]. by eapply (emits_app _ [_] _ [_]).
Qed.
End Script.

(** ** What a plan is *)

(** The candidates with their digests, and with the reasons to hold them. *)
Definition labelled (cs : list SettlementCandidate) (rows : list row) : Prop :=
  Forall2 (fun c r => candidate_digest c = Ok r.1 /\ r.2 = c) cs rows.

Definition judged (tips : list (string * TargetLineage)) (before : StackArmIdentity)
    (rows : list row) (reasoned : list (string * row)) : Prop :=
  Forall2 (fun r rr => hold_reason tips before r.2 = Ok rr.1 /\ rr.2 = r) rows reasoned.

(** The two outcomes: nobody to crown, or one winner. *)
Definition settled (current : EvaluationStackManifest) (tips : list (string * TargetLineage))
    (tree_digest_of : option (EvaluationStackManifest -> result string)) (before : StackArmIdentity)
    (reasoned : list (string * row)) (bodies : list event_body) (p : SettlementPlan) : Prop :=
  match registered reasoned with
  | [] => bodies = hold_body before <$> stale reasoned /\ p = mkPlan before before "" (events p) None
  | r :: rows =>
      exists adopted after crowned, let w := min_by winner_key r rows in
        crowns current tips tree_digest_of before w adopted after crowned /\ before <> after /\
        bodies = (hold_body before <$> stale reasoned) ++ (hold_body before <$> losers w (r :: rows)) ++ crowned /\
        p = mkPlan before after w.1 (events p) (Some (mkOutput w.1 before after adopted))
  end.

Lemma map_label_Ok {A B} (f : A -> result B) (l : list A) r :
  map_result (fun x => d ← f x; Ok (d, x)) l = Ok r <-> Forall2 (fun x y => f x = Ok y.1 /\ y.2 = x) l r.
Proof.
  rewrite map_result_Forall2. split; intros H; (eapply Forall2_impl; [exact H|]); intros x [d y]; cbn.
  - intros Hx. by inv_ok.
  - intros [-> ->]. done.
Qed.

Section Plan.
Context (cs : list SettlementCandidate) (current : EvaluationStackManifest) (tree : string) (n : Z) (prev : string)
  (tips : list (string * TargetLineage)) (tree_digest_of : option (EvaluationStackManifest -> result string)).
Abbreviation plan := (plan_settlement cs current tree (VInt n) (VStr prev) tips tree_digest_of).

Lemma plan_settlement_Ok p :
  plan = Ok p ->
  exists d rows reasoned n' prev',
    manifest_digest current = Ok d /\ labelled cs rows /\ NoDup rows.*1 /\
    judged tips (mkArm d tree) rows reasoned /\ chain n prev (events p) n' prev' /\
    settled current tips tree_digest_of (mkArm d tree) reasoned (body <$> events p) p.
Proof.
  unfold plan_settlement. intros H. inv_ok. step_guard H. inv_ok. apply orb_false_iff in Eg as [Hd%negb_false_iff _].
  apply distinct_spec in Hd. apply map_label_Ok in Hx2. apply (map_label_Ok (fun r => hold_reason tips x1 r.2)) in Hx4.
  assert (x1 = mkArm x0 tree) as ->.
  { unfold make_arm, plan_digest in Hx1. inv_ok.
    repeat match goal with H : require_digest _ _ _ _ _ = Ok _ |- _ =>
      apply require_digest_zero_false in H as [[= ->] _] end. done. }
  unfold new_journal in Hx3. inv_ok. read_settlement. apply hold_emits in Hx5. fold (stale x4) in Hx5.
  exists x0, x2, x4. unfold settled, labelled, judged. unfold registered.
  destruct (filter _ (snd <$> _)) as [|r rows].
  - destruct Hx5 as (es & E & Hb & Hc). simpl in E. rewrite E in H. apply make_plan_Ok in H as ->.
    do 2 eexists. split_and!; [done..|exact Hc|done|done].
  - apply bind_Ok in H as (j1 & Hl & H). apply hold_emits in Hl. apply settle_winner_Ok in H as (adopted & after & bodies & j' & Hcr & Hj' & Hne & ->).
    destruct (emits_app _ _ _ _ _ Hx5 (emits_app _ _ _ _ _ Hl Hj')) as (es & E & Hb & Hc). simpl in E.
    do 2 eexists. cbn [events]. rewrite E in *. split_and!; [done..|exact Hc|].
    exists adopted, after, bodies. done.
Qed.
End Plan.

(** ** The winner *)

Lemma min_by_spec {A K} `{CmpLaws K} (key : A -> K) (r : A) (l : list A) :
  min_by key r l ∈ r :: l /\ forall x, x ∈ r :: l -> cmp_leb (key (min_by key r l)) (key x) = true.
Proof.
  revert r. induction l as [|x l IH]; intros r; simpl.
  - split; [by left|]. intros y ->%list_elem_of_singleton. apply cmp_leb_refl.
  - set (m := if cmp_ltb (key x) (key r) then x else r).
    assert (Hm : cmp_leb (key m) (key x) = true /\ cmp_leb (key m) (key r) = true).
    { unfold m. rewrite (cmp_ltb_leb (key x) (key r)). destruct (cmp_leb_total (key x) (key r)) as [E|E];
        destruct (cmp_leb (key r) (key x)) eqn:E'; auto using cmp_leb_refl. done. }
    destruct (IH m) as [Hin Hle], Hm as [Hx Hr]. pose proof (Hle m (list_elem_of_here _ _)) as Hmin. split.
    + unfold m in *. destruct (cmp_ltb _ _); set_solver.
    + intros y [->|[->|Hy]%elem_of_cons]%elem_of_cons; [..|by apply Hle; right]; by eapply cmp_leb_trans.
Qed.

Definition candidate_speed (c : SettlementCandidate) : Qc := dec_value (Decimal (candidate_speedup c)).
Definition candidate_order (c : SettlementCandidate) : Z * Z * Z * string := finalized_order (primary c).

(** A candidate that nothing holds against the current tip of its target. *)
Definition eligible (tips : list (string * TargetLineage)) (before : StackArmIdentity) (c : SettlementCandidate) : Prop :=
  hold_reason tips before c = Ok "" /\ lane (primary c) = "registered".

(** Faster, or as fast and finalized no later. *)
Definition beats (w c : SettlementCandidate) : Prop :=
  (candidate_speed c < candidate_speed w)%Qc \/
  (candidate_speed c = candidate_speed w /\ cmp_leb (candidate_order w) (candidate_order c) = true).

Lemma Qcopp_inj x y : Qcopp x = Qcopp y -> x = y.
Proof. intros E. by rewrite <- (Qcopp_involutive x), E, Qcopp_involutive. Qed.

Lemma winner_key_beats (w c : row) : cmp_leb (winner_key w) (winner_key c) = true -> beats w.2 c.2.
Proof.
  unfold cmp_leb at 1.
  change (cmp (winner_key w) (winner_key c))
    with (match Qccompare (- candidate_speed w.2)%Qc (- candidate_speed c.2)%Qc with
          | Eq => cmp (row_order w) (row_order c) | k => k end).
  destruct (Qccompare _ _) eqn:E; intros Hle; [right|left|discriminate].
  - apply Qceq_alt, Qcopp_inj in E. by split; [|exact Hle].
  - apply Qclt_alt, Qclt_minus_iff in E. apply Qclt_minus_iff. by rewrite Qcopp_involutive, Qcplus_comm in E.
Qed.

Lemma judged_row tips before rows reasoned r :
  judged tips before rows reasoned -> r ∈ rows -> exists why, hold_reason tips before r.2 = Ok why /\ (why, r) ∈ reasoned.
Proof.
  induction 1 as [|r1 [why r2] rows reasoned [Hw <-] _ IH]; intros Hr; [by apply elem_of_nil in Hr|].
  apply elem_of_cons in Hr as [->|Hr]; [exists why; split; [done|by left]|].
  destruct (IH Hr) as (w & ? & ?). exists w. split; [done|by right].
Qed.

Lemma judged_inv tips before rows reasoned why r :
  judged tips before rows reasoned -> (why, r) ∈ reasoned -> hold_reason tips before r.2 = Ok why /\ r ∈ rows.
Proof.
  induction 1 as [|r1 [why' r2] rows reasoned [Hw <-] _ IH]; intros Hr; [by apply elem_of_nil in Hr|].
  apply elem_of_cons in Hr as [[= -> ->]|Hr]; [split; [done|by left]|]. destruct (IH Hr). split; [done|by right].
Qed.

Lemma labelled_row cs rows c : labelled cs rows -> c ∈ cs -> exists d, candidate_digest c = Ok d /\ (d, c) ∈ rows.
Proof.
  induction 1 as [|c1 [d c2] cs rows [Hd <-] _ IH]; intros Hc; [by apply elem_of_nil in Hc|].
  apply elem_of_cons in Hc as [->|Hc]; [exists d; split; [done|by left]|].
  destruct (IH Hc) as (d' & ? & ?). exists d'. split; [done|by right].
Qed.

Lemma labelled_inv cs rows r : labelled cs rows -> r ∈ rows -> candidate_digest r.2 = Ok r.1 /\ r.2 ∈ cs.
Proof.
  induction 1 as [|c1 [d c2] cs rows [Hd <-] _ IH]; intros Hr; [by apply elem_of_nil in Hr|].
  apply elem_of_cons in Hr as [->|Hr]; [split; [done|by left]|]. destruct (IH Hr). split; [done|by right].
Qed.

Lemma registered_spec tips before rows reasoned r :
  judged tips before rows reasoned -> r ∈ registered reasoned <-> r ∈ rows /\ eligible tips before r.2.
Proof.
  intros Hj. unfold registered, eligible. rewrite list_elem_of_filter, list_elem_of_fmap. split.
  - intros (Hl & [why r'] & -> & [E Hr]%list_elem_of_filter). cbn in *. subst why.
    destruct (judged_inv _ _ _ _ _ _ Hj Hr). done.
  - intros (Hr & He & Hl). split; [done|]. destruct (judged_row _ _ _ _ _ Hj Hr) as (why & Hw & Hin).
    rewrite He in Hw. injection Hw as <-. exists ("", r). by rewrite list_elem_of_filter.
Qed.

(** ** One verdict for each candidate *)

(** An event that settles a candidate: held, or crowned. *)
Definition is_verdict (k : SettlementEventType) : bool := bool_decide (k = HOLD \/ k = CROWN).

Definition is_crown (k : SettlementEventType) : bool := bool_decide (k = CROWN).

(** The candidates that the bodies of some kinds name, in order. *)
Definition named (f : SettlementEventType -> bool) (bodies : list event_body) : list string :=
  b_candidate <$> filter (fun b => f (b_kind b)) bodies.

Lemma named_app f l k : named f (l ++ k) = named f l ++ named f k.
Proof. unfold named. by rewrite filter_app, fmap_app. Qed.

Lemma named_hold f before rows :
  named f (hold_body before <$> rows) = if f HOLD then (fun rr => rr.2.1) <$> rows else [].
Proof.
  unfold named. destruct (f HOLD) eqn:E.
  - rewrite filter_all; [by rewrite <- list_fmap_compose|].
    intros b (rr & -> & _)%list_elem_of_fmap. simpl. by rewrite E.
  - rewrite filter_none; [done|]. intros b (rr & -> & _)%list_elem_of_fmap. simpl. rewrite E. by intros [].
Qed.

Lemma named_crowns f current tips g before w adopted after bodies :
  f CROWN = true -> f RETIREMENT = false -> f ADOPTION = false -> f STACK_TRANSITION = false ->
  crowns current tips g before w adopted after bodies -> named f bodies = [w.1].
Proof.
  intros Hc Hr Ha Ht (repl & subj & retired & _ & _ & _ & _ & Hret & ->). unfold retires in Hret.
  unfold named. destruct (dict_get _ (entries current)); [destruct Hret as (? & _ & ->)|subst retired];
    cbn [app]; rewrite !filter_cons; cbn [b_kind]; by rewrite Hc, ?Hr, Ha, Ht.
Qed.

Lemma named_events (f : SettlementEventType -> bool) es : candidate_of <$> filter (fun e => f (event_type e)) es = named f (body <$> es).
Proof.
  unfold named. induction es as [|e es IH]; [done|]. rewrite fmap_cons, !filter_cons. cbn [b_kind body].
  destruct (decide (f (event_type e))); [rewrite !fmap_cons; by rewrite IH|done].
Qed.

(** Everything judged is stale or registered, when every lane is. *)
Lemma judged_split tips before rows reasoned :
  judged tips before rows reasoned -> Forall (fun r => lane (primary r.2) = "registered") rows ->
  rows ≡ₚ (snd <$> stale reasoned) ++ registered reasoned.
Proof.
  intros Hj Hl. unfold stale, registered. rewrite sorted_by_perm.
  assert (Hrows : rows = snd <$> reasoned).
  { clear Hl. induction Hj as [|r [why r'] rows reasoned [_ <-] _ IH]; [done|]. by rewrite fmap_cons, <- IH. }
  rewrite (filter_all _ (snd <$> _)).
  - rewrite Hrows. clear. induction reasoned as [|[why r] l IH]; [done|]. rewrite !filter_cons, fmap_cons. cbn [fst snd].
    destruct (decide (why = "")) as [->|Hw].
    + rewrite decide_False by naive_solver. rewrite fmap_cons, <- Permutation_middle. by f_equiv.
    + rewrite decide_True by done. rewrite fmap_cons. simpl. by f_equiv.
  - intros r Hr. rewrite Forall_forall in Hl. apply Hl. rewrite Hrows.
    apply list_elem_of_fmap in Hr as (rr & -> & [_ Hr]%list_elem_of_filter). by apply list_elem_of_fmap_2.
Qed.

Lemma losers_perm (w : row) (rows : list row) :
  NoDup rows.*1 -> w ∈ rows -> w.1 :: ((fun rr => rr.2.1) <$> losers w rows) ≡ₚ rows.*1.
Proof.
  intros Hd Hw. unfold losers. rewrite <- list_fmap_compose. cbn. rewrite sorted_by_perm.
  induction rows as [|r rows IH]; [by apply elem_of_nil in Hw|]. rewrite fmap_cons in Hd.
  apply NoDup_cons in Hd as [Hn Hd]. rewrite filter_cons. destruct (decide (r.1 = w.1)) as [E|Hne].
  - rewrite decide_False by naive_solver. rewrite filter_all, fmap_cons, E; [done|].
    intros x Hx E'. apply Hn. rewrite E, <- E'. by apply list_elem_of_fmap_2.
  - rewrite decide_True by done. rewrite !fmap_cons, Permutation_swap. f_equiv. apply IH; [done|].
    apply elem_of_cons in Hw as [->|]; done.
Qed.

(** ** Adoption *)

(** The manifests of a candidate are ones that their constructor accepts. *)
Definition manifests_stored (c : SettlementCandidate) : Prop :=
  forall m, candidate_manifest (primary c) = Some m -> stored_manifest m.

Lemma winning_entry_Ok w c :
  manifests_stored w -> winning_entry w = Ok c -> stored_contribution c /\ c_target c = q_target (primary w).
Proof.
  unfold winning_entry. intros Hw. destruct (candidate_manifest (primary w)) as [m|] eqn:Em; [|done].
  intros Hc%dict_item_Ok%dict_get_elem. destruct (Hw _ Em) as [Hm Hs].
  pose proof (remake_entries _ Hm) as (_ & _ & He). rewrite Forall_forall in He. rewrite Forall_fmap, Forall_forall in Hs.
  split; [by apply (Hs _ Hc)|by apply (He _ Hc)].
Qed.

Lemma adopt_Ok current before w c f m after :
  adopt current before w c f = Ok (m, after) ->
  exists adopted, with_contribution current c [] = Ok adopted /\ manifest_digest adopted = Ok (arm_stack after) /\
    arm_stack after <> arm_stack before.
Proof.
  unfold adopt. intros H. inv_ok. step_guard H. apply String.eqb_neq in Eg. exists x. split; [done|].
  destruct (String.eqb_spec x0 (candidate_stack (primary w))) as [->|_].
  - destruct (candidate_manifest (primary w)); [|done]. by injection H as <- <-.
  - destruct f; [|done]. inv_ok. unfold make_arm, plan_digest in *. inv_ok.
    repeat match goal with H : require_digest _ _ _ _ _ = Ok _ |- _ =>
      apply require_digest_zero_false in H as [[= <-] _] end. done.
Qed.

Lemma held_events before rows es : hold_body before <$> rows = body <$> es -> Forall (fun e => event_type e = HOLD) es.
Proof.
  intros E. apply Forall_forall. intros e He. assert (Hb : body e ∈ body <$> es) by by apply list_elem_of_fmap_2.
  rewrite <- E in Hb. apply list_elem_of_fmap in Hb as (rr & Hb & _). by apply (f_equal b_kind) in Hb.
Qed.

Lemma retired_events current before w retired after subject target es :
  retires current before w retired ->
  body <$> es = retired ++ [mkBody ADOPTION w.1 subject target before after "adopted";
                            mkBody STACK_TRANSITION w.1 (arm_stack after) target before after "incumbent_updated"] ->
  Forall (fun k => event_type k <> CROWN /\
                   (event_type k = RETIREMENT \/ event_type k = NEUTRALIZATION ->
                    exists prior, dict_get (q_target (primary w.2)) (entries current) = Some prior /\
                      event_target k = c_target prior)) es.
Proof.
  unfold retires. intros Hr E. apply Forall_forall. intros e He.
  assert (Hb : body e ∈ body <$> es) by by apply list_elem_of_fmap_2. rewrite E in Hb. apply elem_of_app in Hb as [Hb|Hb].
  - destruct (dict_get _ (entries current)) as [prior|]; [|subst; by apply elem_of_nil in Hb].
    destruct Hr as (d & _ & ->). apply list_elem_of_singleton in Hb. split.
    + intros Ek. apply (f_equal b_kind) in Hb. cbn in Hb. congruence.
    + intros _. exists prior. split; [done|]. by apply (f_equal b_target) in Hb.
  - assert (event_type e = ADOPTION \/ event_type e = STACK_TRANSITION) as [Ek|Ek]; [|rewrite Ek; naive_solver..].
    apply elem_of_cons in Hb as [Hb|Hb%list_elem_of_singleton]; apply (f_equal b_kind) in Hb; auto.
Qed.

Section Properties.
Context (cs : list SettlementCandidate) (current : EvaluationStackManifest) (tree : string) (n : Z) (prev : string)
  (tips : list (string * TargetLineage)) (tree_digest_of : option (EvaluationStackManifest -> result string))
  (p : SettlementPlan).
Context (Hplan : plan_settlement cs current tree (VInt n) (VStr prev) tips tree_digest_of = Ok p).

(** The events of a plan that crowns nobody are verdicts to hold. *)
Lemma plan_holds : plan_transition p = None ->
  winner p = "" /\ plan_after p = plan_before p /\ Forall (fun e => event_type e = HOLD) (events p).
Proof.
  intros Ht. destruct (plan_settlement_Ok _ _ _ _ _ _ _ _ Hplan) as (d & rows & reasoned & n' & prev' & _ & _ & _ & _ & _ & Hs).
  unfold settled in Hs. destruct (registered reasoned) as [|r regs];
    [|destruct Hs as (? & ? & ? & _ & _ & _ & E); by rewrite E in Ht].
  destruct Hs as [Hb E]. split_and!; [by rewrite E..|]. by apply (held_events (mkArm d tree) (stale reasoned)).
Qed.

(** The events of a plan that crowns: the winner's CROWN among verdicts to hold, then what the crown retires and
    adopts. *)
Lemma plan_crowns t : plan_transition p = Some t ->
  exists w pre e post, w ∈ cs /\ candidate_digest w = Ok (winner p) /\
    events p = pre ++ e :: post /\ Forall (fun k => event_type k = HOLD) pre /\
    event_type e = CROWN /\ candidate_of e = winner p /\ event_target e = q_target (primary w) /\
    Forall (fun k => event_type k <> CROWN /\
                     (event_type k = RETIREMENT \/ event_type k = NEUTRALIZATION ->
                      exists prior, dict_get (q_target (primary w)) (entries current) = Some prior /\
                        event_target k = c_target prior)) post /\
    out_after t = plan_after p /\ manifest_digest (out_manifest t) = Ok (arm_stack (plan_after p)).
Proof.
  intros Ht. destruct (plan_settlement_Ok _ _ _ _ _ _ _ _ Hplan) as (d & rows & reasoned & n' & prev' & _ & Hl & _ & Hj & _ & Hs).
  pose proof (fun r => registered_spec _ _ _ _ r Hj) as Hreg. unfold settled in Hs.
  destruct (registered reasoned) as [|r regs]; [by destruct Hs as [_ E]; rewrite E in Ht|].
  destruct Hs as (adopted & after & bodies & Hc & _ & Hb & Ep).
  destruct (min_by_spec winner_key r regs) as [Hin _]. set (w := min_by winner_key r regs) in *.
  apply Hreg in Hin as [Hin _]. destruct (labelled_inv _ _ _ Hl Hin) as [Hdw Hw].
  destruct Hc as (c & subject & retired & _ & _ & _ & Hm & Hr & ->).
  rewrite app_assoc in Hb. apply fmap_app_inv in Hb as (pre & es & Hpre & Hes & Ees).
  symmetry in Hes. apply fmap_cons_inv in Hes as (e & post & He & Hpost & ->).
  rewrite Ep in Ht |- *. injection Ht as <-. cbn. exists w.2, pre, e, post.
  split_and!; [done|done|done| |by apply (f_equal b_kind) in He|by apply (f_equal b_candidate) in He
              |by apply (f_equal b_target) in He| |done|done].
  - rewrite <- fmap_app in Hpre. by eapply held_events.
  - by eapply retired_events.
Qed.

(** C19: a settlement crowns the best eligible candidate: a plan names a winner exactly when some
    registered candidate is not held back by its target's lineage or by a stale incumbent, and the
    winner then beats every such candidate, the faster one or, at equal speed, the one finalized first;
    without one the stack stays as it is. *)
Theorem crown_goes_to_best :
  (winner p = "" /\ plan_after p = plan_before p /\ plan_transition p = None /\
   forall c, c ∈ cs -> ~ eligible tips (plan_before p) c) \/
  (exists w, w ∈ cs /\ candidate_digest w = Ok (winner p) /\ eligible tips (plan_before p) w /\
   forall c, c ∈ cs -> eligible tips (plan_before p) c -> beats w c).
Proof.
  destruct (plan_settlement_Ok _ _ _ _ _ _ _ _ Hplan) as (d & rows & reasoned & n' & prev' & _ & Hl & _ & Hj & _ & Hs).
  pose proof (fun r => registered_spec _ _ _ _ r Hj) as Hreg. unfold settled in Hs.
  destruct (registered reasoned) as [|r regs].
  - destruct Hs as [_ ->]. left. split_and!; [done..|]. intros c (dc & Hd & Hr)%(labelled_row _ _ _ Hl) He.
    pose proof (proj2 (Hreg (dc, c)) (conj Hr He)) as Hin. by apply elem_of_nil in Hin.
  - destruct Hs as (adopted & after & bodies & _ & _ & _ & ->). right.
    destruct (min_by_spec winner_key r regs) as [Hin Hmin]. exists (min_by winner_key r regs).2.
    apply Hreg in Hin as [Hin He]. destruct (labelled_inv _ _ _ Hl Hin). split_and!; [done..|].
    intros c (dc & Hd & Hr)%(labelled_row _ _ _ Hl) Hec. by apply (winner_key_beats _ (dc, c)), Hmin, Hreg.
Qed.

Lemma plan_verdicts :
  Forall (fun c => lane (primary c) = "registered") cs ->
  exists digests, Forall2 (fun c d => candidate_digest c = Ok d) cs digests /\ NoDup digests /\
    candidate_of <$> filter (fun e => is_verdict (event_type e)) (events p) ≡ₚ digests /\
    candidate_of <$> filter (fun e => is_crown (event_type e)) (events p) = (if truthy (winner p) then [winner p] else []).
Proof.
  destruct (plan_settlement_Ok _ _ _ _ _ _ _ _ Hplan) as (d & rows & reasoned & n' & prev' & _ & Hl & Hd & Hj & _ & Hs).
  intros Hlane. assert (Hrows : Forall (fun r => lane (primary r.2) = "registered") rows).
  { clear -Hl Hlane. induction Hl as [|c r cs rows [_ <-] _ IH]; [done|]. apply Forall_cons in Hlane as [? ?].
    constructor; auto. }
  pose proof (judged_split _ _ _ _ Hj Hrows) as Hp. exists rows.*1. rewrite !named_events. split_and!; [|done|..].
  { clear -Hl. induction Hl as [|c r cs rows [? <-] _ IH]; constructor; auto. }
  all: unfold settled in Hs; destruct (registered reasoned) as [|r regs].
  - destruct Hs as [-> _]. rewrite named_hold. cbn. rewrite Hp, app_nil_r, <- list_fmap_compose. done.
  - destruct Hs as (adopted & after & bodies & Hc & _ & -> & _).
    destruct (min_by_spec winner_key r regs) as [Hin _]. set (w := min_by winner_key r regs) in *.
    rewrite !named_app, !named_hold, (named_crowns _ _ _ _ _ _ _ _ _ eq_refl eq_refl eq_refl eq_refl Hc). cbn [is_verdict].
    change (is_verdict HOLD) with true. cbv iota.
    assert (Hdr : NoDup (r :: regs).*1).
    { rewrite Hp, fmap_app in Hd. by apply NoDup_app in Hd as (_ & _ & ?). }
    rewrite (Permutation_app_comm _ [w.1]). change ([w.1] ++ ?l) with (w.1 :: l).
    rewrite (losers_perm w (r :: regs)), Hp, fmap_app, <- list_fmap_compose by done. done.
  - destruct Hs as [-> ->]. by rewrite named_hold.
  - destruct Hs as (adopted & after & bodies & Hc & _ & -> & ->).
    rewrite !named_app, !named_hold, (named_crowns _ _ _ _ _ _ _ _ _ eq_refl eq_refl eq_refl eq_refl Hc).
    destruct (min_by_spec winner_key r regs) as [Hin _]. set (w := min_by winner_key r regs) in *.
    assert (Hw : w ∈ rows) by (rewrite Hp; apply elem_of_app; by right).
    destruct (labelled_inv _ _ _ Hl Hw) as [Hdw%canonical_digest_shape _]. cbn.
    destruct w.1 eqn:E; [|done]. done.
Qed.

(** Every candidate of a plan gets exactly one verdict: the candidates that the plan's HOLD and CROWN
    events name are the given ones, each once; the plan crowns its winner and nobody else. *)
Theorem one_verdict_each :
  Forall (fun c => lane (primary c) = "registered") cs ->
  exists digests, Forall2 (fun c d => candidate_digest c = Ok d) cs digests /\ NoDup digests /\
    candidate_of <$> filter (fun e => is_verdict (event_type e)) (events p) ≡ₚ digests /\
    candidate_of <$> filter (fun e => is_crown (event_type e)) (events p) = (if truthy (winner p) then [winner p] else []).
Proof. exact plan_verdicts. Qed.

(** The events of a plan extend the event log they were planned over as one chain: numbered on from the
    given sequence, each naming the digest of the one before, the first one the given digest; and the end
    of the chain binds all of it: another event list that leads from the same start to the same end is the
    same list, unless two different events, one of each list, have the same digest. *)
Theorem events_form_a_chain :
  exists m h, chain n prev (events p) m h /\ m = n + Z.of_nat (length (events p)) /\
    forall es, chain n prev es m h -> es = events p \/ digests_clash es (events p).
Proof.
  destruct (plan_settlement_Ok _ _ _ _ _ _ _ _ Hplan) as (d & rows & reasoned & m & h & _ & _ & _ & _ & Hc & _).
  exists m, h. split_and!; [done|by apply chain_length in Hc|]. intros es Hes. by eapply chain_binds.
Qed.

(** C20: a crown replaces one target of the stack and leaves every other target alone: the arm that a plan
    makes current is the digest of the current stack with the winner's own entry put at its target, the
    manifest that the plan hands on has that digest too, and it is not the digest that was current. *)
Theorem adoption_replaces_one_target (t : StackTransitionOutput) :
  stored_manifest current -> Forall manifests_stored cs -> plan_transition p = Some t ->
  exists w replacement adopted,
    w ∈ cs /\ candidate_digest w = Ok (winner p) /\ winning_entry w = Ok replacement /\
    (forall k, dict_get k (entries adopted)
               = if String.eqb k (q_target (primary w)) then Some replacement else dict_get k (entries current)) /\
    adopted = mkManifest (s_runtime current) (s_engine current) (s_arena current) (s_catalog_digest current)
                (s_catalog current) (entries adopted) /\
    manifest_digest adopted = Ok (arm_stack (plan_after p)) /\
    manifest_digest (out_manifest t) = Ok (arm_stack (plan_after p)) /\
    manifest_digest current = Ok (arm_stack (plan_before p)) /\
    arm_stack (plan_after p) <> arm_stack (plan_before p).
Proof.
  intros Hcur Hcs Ht.
  destruct (plan_settlement_Ok _ _ _ _ _ _ _ _ Hplan) as (d & rows & reasoned & n' & prev' & Hd & Hl & _ & Hj & _ & Hs).
  pose proof (fun r => registered_spec _ _ _ _ r Hj) as Hreg. unfold settled in Hs.
  destruct (registered reasoned) as [|r regs]; [by destruct Hs as [_ E]; rewrite E in Ht|].
  destruct Hs as (m & after & bodies & Hc & _ & _ & Ep). rewrite Ep in Ht |- *. injection Ht as <-.
  destruct (min_by_spec winner_key r regs) as [Hin _]. set (w := min_by winner_key r regs) in *.
  apply Hreg in Hin as [Hin _]. destruct (labelled_inv _ _ _ Hl Hin) as [Hdw Hw].
  destruct Hc as (c & _ & _ & He & _ & Ha & Hm & _). cbn.
  rewrite Forall_forall in Hcs. destruct (winning_entry_Ok _ _ (Hcs _ Hw) He) as [Hstored Htarget].
  apply adopt_Ok in Ha as (adopted & Hwith & Hda & Hne).
  destruct (replace_entries current c (entries current) Hcur Hstored) as (m' & E & _ & Hf & Hg);
    [by pose proof (remake_entries _ (proj1 Hcur)) as (_ & ? & _)|done|].
  change (with_contribution current c [] = Ok m') in E. rewrite E in Hwith. injection Hwith as <-.
  exists w.2, c, m'. rewrite <- Htarget. done.
Qed.
End Properties.
