(* ===== verification/LineageContracts.v ===== *)
(** * Lineages: what the threshold of an ancestor means

    The threshold of a candidate measured against an ancestor of the current tip
    is a product of decimals rounded to 28 digits after each factor. These lemmas
    bound it by the exact product of the winning speeds, and say when
    [hold_reason] holds such a candidate. *)

From Stdlib Require Import QArith Qpower Qcanon.
From S2P Require Import Prelude PyVal Dict Identity Strict Numbers Stack Qualification Candidate Settlement.

Open Scope Z_scope.

(** ** Accepted speeds *)

(** The node's speed is one that the constructor accepts. *)
Definition node_ok (n : TargetLineageNode) : Prop := _speedup (VStr (n_speedup n)) = Ok (n_speedup n).

Definition lineage_ok (l : TargetLineage) : Prop := make_lineage (nodes l) = Ok l /\ Forall node_ok (nodes l).

Definition node_speed (n : TargetLineageNode) : Q := dec_Q (Decimal (n_speedup n)).

Lemma make_node_ok a p s e n : make_node a p s e = Ok n -> node_ok n.
Proof.
  unfold make_node. intros H. inv_ok. unfold node_ok. cbn [n_speedup].
  destruct s; try discriminate. rewrite <- Hx1. f_equal. f_equal. unfold _speedup in Hx1.
  destruct (canonical_decimal s); [|discriminate]. step_guard Hx1. by injection Hx1.
Qed.

Lemma dec_ltb_Q a b : dec_ltb a b = true <-> (dec_Q a < dec_Q b)%Q.
Proof.
  unfold dec_ltb, cmp_ltb, cmp, cmp_Qc. rewrite !dec_value_Q, <- Q2Qc_lt.
  pose proof (Qclt_alt (Q2Qc (dec_Q a)) (Q2Qc (dec_Q b))). destruct (Qccompare _ _); naive_solver.
Qed.

Lemma dec_Q_pos d : (0 < dec_Q d)%Q <-> 0 < coef d.
Proof.
  unfold dec_Q. assert (Hp : (0 < (10 # 1) ^ dexp d)%Q) by (by apply Qpower_0_lt).
  rewrite <- (Qmult_0_l ((10 # 1) ^ dexp d)), Qmult_lt_r by done. unfold Qlt, inject_Z. simpl. lia.
Qed.

Lemma node_speed_pos n : node_ok n -> 0 < coef (Decimal (n_speedup n)) /\ (1 < node_speed n)%Q.
Proof.
  unfold node_ok, _speedup, node_speed, Decimal, canonical_decimal. destruct (parse_decimal _) as [d|]; [|done].
  destruct (_ && _); [|done]. intros H. step_guard H. apply negb_false_iff, dec_ltb_Q in Eg. cbn.
  split; [|exact Eg]. apply dec_Q_pos. eapply Qlt_trans; [|exact Eg]. reflexivity.
Qed.

(** ** The product along a path *)

Definition exact_product (path : list TargetLineageNode) : Q := foldr (fun n q => (node_speed n * q)%Q) 1%Q path.

Lemma exact_product_snoc l n : (exact_product (l ++ [n]) == exact_product l * node_speed n)%Q.
Proof. induction l as [|m l IH]; simpl; [ring|]. rewrite IH. ring. Qed.

Lemma exact_product_pos l : Forall node_ok l -> (0 < exact_product l)%Q.
Proof.
  induction 1 as [|n l Hn _ IH]; simpl; [reflexivity|]. apply Qmult_lt_0_compat; [|done].
  eapply Qlt_trans; [|by apply node_speed_pos]. reflexivity.
Qed.

Lemma Qpower_succ q n : (q ^ Z.of_nat (S n) == q ^ Z.of_nat n * q)%Q.
Proof. rewrite Nat2Z.inj_succ, <- Z.add_1_r, Qpower_plus' by lia. by rewrite Qpower_1_r. Qed.

(** Each factor adds one rounding. *)
Lemma composed_bounds l : Forall node_ok l ->
  ((1 - rounding) ^ Z.of_nat (length l) * exact_product l <= dec_Q (composed l))%Q /\
  (dec_Q (composed l) <= (1 + rounding) ^ Z.of_nat (length l) * exact_product l)%Q /\ 0 < coef (composed l).
Proof.
  induction l as [|n l IH] using rev_ind; intros Hl; [by split_and!|].
  apply Forall_app in Hl as [Hl Hn%Forall_inv]. destruct (IH Hl) as (H1 & H2 & H3).
  destruct (node_speed_pos n Hn) as [Hc Hs]. unfold composed in *. rewrite foldl_snoc.
  destruct (dec_mul_value _ _ H3 Hc) as (M1 & M2 & M3). rewrite length_app, Nat.add_1_r, exact_product_snoc, !Qpower_succ.
  fold (node_speed n) in M1, M2. set (t := foldl _ one l) in *. set (e := exact_product l) in *.
  set (k := Z.of_nat (length l)) in *. set (s := node_speed n) in *.
  assert (Hs0 : (0 <= s)%Q) by (apply Qlt_le_weak; eapply Qlt_trans; [|exact Hs]; reflexivity).
  assert (Hlo : (0 <= 1 - rounding)%Q) by done. assert (Hhi : (0 <= 1 + rounding)%Q) by done.
  split_and!; [| |done].
  - eapply Qle_trans; [|exact M1]. assert (E : ((1 - rounding) ^ k * (1 - rounding) * (e * s)
      == (1 - rounding) * ((1 - rounding) ^ k * e * s))%Q) by ring.
    rewrite E, !(Qmult_comm (1 - rounding) (_ * s)). apply Qmult_le_compat_r; [|done]. by apply Qmult_le_compat_r.
  - eapply Qle_trans; [exact M2|]. assert (E : ((1 + rounding) ^ k * (1 + rounding) * (e * s)
      == (1 + rounding) * ((1 + rounding) ^ k * e * s))%Q) by ring.
    rewrite E, !(Qmult_comm (1 + rounding) (_ * s)). apply Qmult_le_compat_r; [|done]. by apply Qmult_le_compat_r.
Qed.

(** ** Where the path starts *)

Lemma nodes_from_Some a l start path :
  nodes_from a l = Some (start, path) ->
  exists pre rest, l = pre ++ path /\ path = start :: rest /\ n_parent start = a.
Proof.
  induction l as [|n l IH]; [done|]. simpl. destruct (String.eqb_spec (n_parent n) a) as [E|_].
  - intros [= <- <-]. by exists [], l.
  - intros H. destruct (IH H) as (pre & rest & -> & ? & ?). by exists (n :: pre), rest.
Qed.

Lemma nodes_from_None a l : nodes_from a l = None <-> forall n, n ∈ l -> n_parent n <> a.
Proof.
  induction l as [|n l IH]; simpl; [split; [by intros _ n Hn%elem_of_nil|done]|].
  setoid_rewrite elem_of_cons. destruct (String.eqb_spec (n_parent n) a) as [E|Hne]; [naive_solver|].
  rewrite IH. naive_solver.
Qed.

Definition speed_Q (c : SettlementCandidate) : Q := dec_Q (Decimal (candidate_speedup c)).

(** C21: a candidate measured against another artifact than the current tip of its target is always judged:
    it is stale when its baseline is no ancestor of the tip, and otherwise it stays in the running only if
    its speed is above the product of the winning speeds from that ancestor to the tip, and is held only
    if it is not, up to one part in 2*10^27 for each factor, which is what 28-digit arithmetic loses. *)
Theorem lineage_threshold (tips : list (string * TargetLineage)) (before : StackArmIdentity) (c : SettlementCandidate)
    (l : TargetLineage) :
  dict_get (q_target (primary c)) tips = Some l -> lineage_ok l -> incumbent_artifact c <> lineage_artifact l ->
  (hold_reason tips before c = Ok "stale_incumbent" /\ forall n, n ∈ nodes l -> n_parent n <> incumbent_artifact c) \/
  (exists pre start rest, nodes l = pre ++ start :: rest /\ n_parent start = incumbent_artifact c /\
     let path := start :: rest in
     (hold_reason tips before c = Ok "" /\
      ((1 - rounding) ^ Z.of_nat (length path) * exact_product path < speed_Q c)%Q \/
      hold_reason tips before c = Ok "lost_potential" /\
      (speed_Q c <= (1 + rounding) ^ Z.of_nat (length path) * exact_product path)%Q)).
Proof.
  intros Hl [_ Hok] Hne. unfold hold_reason, _lineage_hold_reason, threshold_from. rewrite Hl.
  rewrite (proj2 (String.eqb_neq _ _) Hne). destruct (nodes_from _ _) as [[start path]|] eqn:E.
  - right. apply nodes_from_Some in E as (pre & rest & En & -> & Hs). exists pre, start, rest. split_and!; [done..|].
    rewrite En in Hok. apply Forall_app in Hok as [_ Hok]. destruct (composed_bounds _ Hok) as (H1 & H2 & _).
    destruct (dec_ltb _ _) eqn:Ed; [left|right]; (split; [done|]).
    + apply dec_ltb_Q in Ed. by eapply Qle_lt_trans.
    + eapply Qle_trans; [|exact H2]. apply Qnot_lt_le. intros Hlt%dec_ltb_Q. by rewrite Hlt in Ed.
  - left. split; [done|]. by apply nodes_from_None.
Qed.
