(* ===== verification/SettlementRecords.v ===== *)
(** * Settlement records: reopening, reproduction and evidence

    What was accepted once is accepted again from its own [to_dict]; what two
    runs must share, and must not share, to count as one candidate; and which
    references the evidence of a candidate accepts. *)

From S2P Require Import Prelude PyVal Dict Identity Strict Numbers EvidenceRef Stack StackContracts Qualification Candidate.

Open Scope Z_scope.

(** ** Slot audits and orientations *)

Lemma bounded_value v f lo hi z : bounded_int v f lo hi = Ok z -> v = VInt z.
Proof. destruct v; try done. simpl. destruct (_ && _); [by intros [= <-]|done]. Qed.

Lemma binding_value v f s : _binding_id v f = Ok s -> v = VStr s.
Proof. destruct v; try done. simpl. destruct (_ && _); [by intros [= <-]|done]. Qed.

Lemma texts_spec l s : texts l = Some s <-> l = VStr <$> s.
Proof.
  split.
  - revert s. unfold texts. induction l as [|v l IH]; intros s H; simpl in H; [by injection H as <-|].
    destruct v; try done. destruct (foldr _ _ l) eqn:E; [|done]. injection H as <-. by rewrite (IH _ eq_refl).
  - intros ->. unfold texts. induction s as [|x s IH]; [done|]. rewrite fmap_cons. simpl. by rewrite IH.
Qed.

Lemma audit_slots_value l s : audit_slots l = Ok s -> l = VStr <$> s.
Proof.
  unfold audit_slots. destruct (texts l) eqn:E; [|done]. intros H. step_guard H. injection H as <-. by apply texts_spec.
Qed.

Lemma digest_is_text v f o d : settlement_digest v f o = Ok d -> v = VStr d.
Proof.
  unfold settlement_digest, require_digest. destruct v; try done. destruct (o && String.eqb s "") eqn:E.
  - apply andb_true_iff in E as [_ ->%String.eqb_eq]. by intros [= <-].
  - simpl. destruct (is_sha256_hex s); [|done]. intros H. step_guard H. by injection H as <-.
Qed.

Lemma lane_is_text v f d : lane_digest v f = Ok d -> v = VStr d.
Proof. unfold lane_digest. intros H. inv_ok. step_guard H. injection H as <-. by apply digest_is_text in Hx. Qed.

Definition stored_audit (p : SlotAuditPolicy) : Prop :=
  make_audit_policy (VStr (validator_seed p)) (VInt (sample_rate_ppm (control p))) (VInt (minimum_calls (control p)))
    (VStr <$> expected_slots (control p)) (VInt (expected_member_count (control p))) = Ok p.

Lemma make_audit_stored s r c l m p : make_audit_policy s r c l m = Ok p -> stored_audit p.
Proof.
  intros H. unfold stored_audit. rewrite <- H. unfold make_audit_policy, make_control in H. inv_ok.
  step_guard Hx0. inv_ok. cbn.
  repeat match goal with
  | H : bounded_int _ _ _ _ = Ok _ |- _ => apply bounded_value in H as ->
  | H : audit_slots _ = Ok _ |- _ => apply audit_slots_value in H as ->
  | H : _binding_id _ _ = Ok _ |- _ => apply binding_value in H as ->
  end. done.
Qed.

Lemma audit_from_dict_stored v p : audit_policy_from_dict v = Ok p -> stored_audit p.
Proof.
  unfold audit_policy_from_dict. intros H. inv_ok. destruct (argument x "expected_slots"); try discriminate.
  by eapply make_audit_stored.
Qed.

Lemma audit_reload p : stored_audit p -> audit_policy_from_dict (audit_policy_to_dict p) = Ok p.
Proof. intros H. rewrite <- H. reflexivity. Qed.

Definition stored_orientation (o : ResidentLaneOrientation) : Prop :=
  make_orientation (VStr (speed_policy o)) (VStr (lane_control o)) (VStr (baseline_lane o)) (VStr (candidate_lane o)) = Ok o.

Lemma orientation_from_dict_stored v o : orientation_from_dict v = Ok o -> stored_orientation o.
Proof.
  unfold orientation_from_dict. intros H. inv_ok. unfold stored_orientation. rewrite <- H.
  unfold make_orientation in H. inv_ok. cbn.
  repeat match goal with H : lane_digest _ _ = Ok _ |- _ => apply lane_is_text in H as -> end. done.
Qed.

Lemma orientation_reload o : stored_orientation o -> orientation_from_dict (orientation_to_dict o) = Ok o.
Proof. intros H. rewrite <- H. reflexivity. Qed.

(** ** Qualifications *)

(** The texts and integers of a qualification, under the names of the constructor's arguments. *)
Definition scalar_rows (q : SettlementQualification) : list (string * pyval) :=
  [("lane", VStr (lane q)); ("arena_digest", VStr (q_arena q)); ("reservation_digest", VStr (q_reservation q));
   ("selected_delta_digest", VStr (q_delta q)); ("qualification_authority_digest", VStr (authority q));
   ("qualification_plan_digest", VStr (qualification_plan q)); ("qualification_attempt_digest", VStr (attempt q));
   ("qualification_report_digest", VStr (report q)); ("selection_commitment_digest", VStr (selection_commitment q));
   ("selection_secret_commitment_digest", VStr (secret_commitment q));
   ("selection_evidence_digest", VStr (selection_evidence q)); ("arm_digest", VStr (q_arm q));
   ("incumbent_stack_digest", VStr (incumbent_stack q)); ("incumbent_tree_digest", VStr (incumbent_tree q));
   ("candidate_stack_digest", VStr (candidate_stack q)); ("candidate_tree_digest", VStr (candidate_tree q));
   ("speed_evidence_policy_digest", VStr (speed_evidence_policy q)); ("audit_control_digest", VStr (audit_control q));
   ("audit_evidence_digest", VStr (audit_evidence q)); ("finalized_block", VInt (finalized_block q));
   ("event_index", VInt (event_index q)); ("event_subindex", VInt (event_subindex q)); ("hotkey", VStr (q_hotkey q));
   ("target_id", VStr (q_target q)); ("speedup", VStr (speedup q)); ("proposal_digest", VStr (q_proposal q))].

(** [row] gives the arguments of [q]. *)
Definition reads (row : list (string * pyval)) (q : SettlementQualification) : Prop :=
  Forall (fun kv => argument row kv.1 = kv.2) (scalar_rows q).

Definition remake_qualification (row : list (string * pyval)) (q : SettlementQualification) : result SettlementQualification :=
  make_qualification row (VStr <$> members q) (incumbent_manifest q) (candidate_manifest q) (audit_policy q) (orientation q).

Lemma speedup_text v s : _speedup v = Ok s -> v = VStr s.
Proof.
  destruct v; try done. unfold _speedup. destruct (canonical_decimal s0); [|done]. intros H. step_guard H. by injection H as <-.
Qed.

Lemma identifier_text v f p s : _identifier v f p = Ok s -> v = VStr s.
Proof. destruct v; try done. simpl. destruct (p s0); [by intros [= <-]|done]. Qed.

Lemma lane_text v s : check_lane v = Ok s -> v = VStr s /\ s = "registered".
Proof.
  destruct v; try done. simpl. destruct (String.eqb_spec s0 "registered") as [->|]; [|done]. by intros [= <-].
Qed.

Lemma integer_int v f z : settlement_integer v f = Ok z -> v = VInt z.
Proof. unfold settlement_integer. by intros [-> _]%require_int_Ok. Qed.

Lemma members_texts l ms : check_members l = Ok ms -> l = VStr <$> ms.
Proof.
  unfold check_members. destruct (texts l) as [s|] eqn:E; [|done]. intros H. step_guard H.
  apply texts_spec in E as ->. f_equal. apply map_result_Forall2 in H. clear Eg.
  induction H as [|m m' s ms Hm _ IH]; [done|]. apply identifier_text in Hm as [= ->]. by rewrite IH.
Qed.

Lemma make_qualification_reads row ms inc cand pol o q :
  make_qualification row ms inc cand pol o = Ok q ->
  reads row q /\ remake_qualification row q = Ok q /\
  check_audit (audit_policy q) (audit_control q) (audit_evidence q) = Ok tt /\
  check_orientation (lane q) (orientation q) (speed_evidence_policy q) = Ok tt /\
  incumbent_manifest q = inc /\ candidate_manifest q = cand /\ audit_policy q = pol /\ orientation q = o.
Proof.
  intros H. unfold remake_qualification. rewrite <- H at 1. unfold make_qualification in H. cbv zeta in H. inv_ok.
  step_guard H. step_guard H. inv_ok. step_guard H. injection H as <-.
  repeat match goal with u : () |- _ => destruct u end.
  repeat match goal with
  | H : settlement_digest _ _ _ = Ok _ |- _ => apply digest_is_text in H
  | H : _identifier _ _ _ = Ok _ |- _ => apply identifier_text in H
  | H : settlement_integer _ _ = Ok _ |- _ => apply integer_int in H
  | H : _speedup _ = Ok _ |- _ => apply speedup_text in H
  | H : check_lane _ = Ok _ |- _ => apply lane_text in H as [? ?]
  | H : check_members _ = Ok _ |- _ => apply members_texts in H as ->
  end.
  split_and!; try done. unfold reads, scalar_rows. by repeat (apply Forall_cons; split; [done|]).
Qed.

(** The constructor only looks at the fields it reads. *)
Lemma remake_congruence row row' q :
  reads row q -> reads row' q -> remake_qualification row q = remake_qualification row' q.
Proof.
  unfold reads, scalar_rows. intros H H'.
  repeat match goal with
  | H : Forall _ (_ :: _) |- _ => let E := fresh in pose proof (Forall_inv H) as E; apply Forall_inv_tail in H; cbn [fst snd] in E
  end.
  unfold remake_qualification, make_qualification. cbv zeta.
  repeat match goal with H : argument row ?k = _, H1 : argument row' ?k = _ |- _ => rewrite H, H1; clear H H1 end.
  reflexivity.
Qed.

Definition stored_qualification (q : SettlementQualification) : Prop :=
  (exists row, reads row q /\ remake_qualification row q = Ok q) /\
  check_audit (audit_policy q) (audit_control q) (audit_evidence q) = Ok tt /\
  check_orientation (lane q) (orientation q) (speed_evidence_policy q) = Ok tt /\
  stored_manifest (incumbent_manifest q) /\
  (forall m, candidate_manifest q = Some m -> stored_manifest m) /\
  (forall p, audit_policy q = Some p -> stored_audit p) /\
  (forall o, orientation q = Some o -> stored_orientation o).

Lemma qualification_from_dict_stored v q : qualification_from_dict v = Ok q -> stored_qualification q.
Proof.
  unfold qualification_from_dict. destruct v; try discriminate. intros H. step_guard H.
  destruct (str_items l) as [row|]; [|discriminate]. inv_ok.
  destruct (argument x.2 "members") as [| | | | |ms| | |]; try discriminate. inv_ok.
  apply make_qualification_reads in H as (Hr & Hm & Ha & Ho & Ei & Ec & Ep & Eo).
  split_and!; [by eauto|done|done|..].
  - rewrite Ei. by eapply manifest_from_dict_stored.
  - intros m Em. assert (x1 = Some m) as -> by congruence. unfold read_candidate in Hx1.
    destruct (argument x.2 "candidate_manifest"); try discriminate; apply fmap_Ok in Hx1 as (m' & Hm' & [= ->]);
      by eapply manifest_from_dict_stored.
  - intros p E. rewrite Ep in E. unfold read_audit in Hx. destruct (dict_get "audit_policy" _); inv_ok; [|done].
    simpl in E. injection E as ->. by eapply audit_from_dict_stored.
  - intros o E. assert (x0 = Some o) as -> by congruence. unfold read_orientation in Hx0.
    destruct (dict_get "resident_lane_orientation" _); [|discriminate].
    apply fmap_Ok in Hx0 as (o' & Ho' & [= ->]). by eapply orientation_from_dict_stored.
Qed.

(** Which optional groups a stored qualification writes. *)
Lemma stored_groups q :
  stored_qualification q ->
  match audit_policy q with
  | None => audit_control q = _LEGACY_AUDIT_CONTROL_DIGEST /\ audit_evidence q = _LEGACY_AUDIT_EVIDENCE_DIGEST
  | Some _ => True
  end /\
  (orientation q <> None -> String.eqb (speed_evidence_policy q) _LEGACY_SPEED_POLICY_DIGEST = false).
Proof.
  intros (_ & Ha & Ho & _). split.
  - unfold check_audit in Ha. destruct (audit_policy q); [done|]. step_guard Ha. split_bool. split; by apply String.eqb_eq.
  - intros Hn. unfold check_orientation in Ho. inv_ok. step_guard Ho. apply negb_false_iff, Bool.eqb_prop in Eg.
    rewrite (bool_decide_eq_true_2 _ Hn) in Eg. apply String.eqb_eq in Eg as ->. vm_compute. reflexivity.
Qed.

Lemma read_candidate_again m :
  (forall k, m = Some k -> stored_manifest k) -> read_candidate (manifest_opt m) = Ok m.
Proof.
  destruct m as [m|]; [|done]. intros Hm. change (Some <$> manifest_from_dict (manifest_to_dict m) = Ok (Some m)).
  by rewrite (manifest_stored_reload _ (Hm _ eq_refl)).
Qed.

(** A row that reads as the qualification's own, with its members and manifests, gives it back. *)
Lemma finish_reload row q :
  stored_qualification q -> reads row q -> argument row "members" = VList (VStr <$> members q) ->
  argument row "candidate_manifest" = manifest_opt (candidate_manifest q) ->
  argument row "incumbent_manifest" = manifest_to_dict (incumbent_manifest q) ->
  match argument row "members" with
  | VList members_ =>
      candidate ← read_candidate (argument row "candidate_manifest");
      incumbent ← manifest_from_dict (argument row "incumbent_manifest");
      make_qualification row members_ incumbent candidate (audit_policy q) (orientation q)
  | _ => Raise (SettlementError "settlement qualification members are malformed")
  end = Ok q.
Proof.
  intros ((row0 & Hr0 & H0) & _ & _ & Hi & Hc & _) Hr -> -> ->. rewrite (read_candidate_again _ Hc).
  cbn -[make_qualification manifest_from_dict manifest_to_dict]. rewrite (manifest_stored_reload _ Hi).
  cbn -[make_qualification]. change (remake_qualification row q = Ok q). by rewrite <- (remake_congruence row0).
Qed.

Lemma finish_row row row' q :
  read_audit row = Ok (audit_policy q, row') -> read_orientation row' = Ok (orientation q) ->
  stored_qualification q -> reads row' q -> argument row' "members" = VList (VStr <$> members q) ->
  argument row' "candidate_manifest" = manifest_opt (candidate_manifest q) ->
  argument row' "incumbent_manifest" = manifest_to_dict (incumbent_manifest q) ->
  (audit ← read_audit row;
   o ← read_orientation audit.2;
   match argument audit.2 "members" with
   | VList members_ =>
       candidate ← read_candidate (argument audit.2 "candidate_manifest");
       incumbent ← manifest_from_dict (argument audit.2 "incumbent_manifest");
       make_qualification audit.2 members_ incumbent candidate audit.1 o
   | _ => Raise (SettlementError "settlement qualification members are malformed")
   end) = Ok q.
Proof. intros -> Ho ? ? ? ? ?. cbn [mbind result_bind fst snd]. rewrite Ho. by apply finish_reload. Qed.

Lemma read_audit_some row a :
  dict_get "audit_policy" row = Some (audit_policy_to_dict a) -> stored_audit a -> read_audit row = Ok (Some a, row).
Proof. unfold read_audit. intros -> Ha. by rewrite (audit_reload _ Ha). Qed.

Lemma read_orientation_some row o :
  dict_get "resident_lane_orientation" row = Some (orientation_to_dict o) -> stored_orientation o ->
  read_orientation row = Ok (Some o).
Proof. unfold read_orientation. intros -> Ho. by rewrite (orientation_reload _ Ho). Qed.

(** The shape with its groups present, and the row as the reader completes it. *)
Lemma read_shape q (policy audit lanes : list (string * pyval)) (items : list (string * pyval)) :
  items = base_rows q ++ policy ++ audit ++ lanes ->
  (policy = [] \/ policy = [("speed_evidence_policy_digest", VStr (speed_evidence_policy q))]) ->
  (audit = [] \/ exists p, policy <> [] /\
     audit = [("audit_control_digest", VStr (audit_control q)); ("audit_evidence_digest", VStr (audit_evidence q));
              ("audit_policy", p)]) ->
  (lanes = [] \/ exists o, policy <> [] /\ lanes = [("resident_lane_orientation", o)]) ->
  existsb (fun fields => keys_are fields ((fun kv => (VStr kv.1, kv.2)) <$> items)) qualification_shapes = true.
Proof.
  intros -> [-> | ->] [-> |(p & Hp & ->)] [-> |(o & Ho & ->)]; try done; reflexivity.
Qed.

(** Look up every argument in a row that is given. *)
Ltac read_row :=
  unfold reads, scalar_rows;
  repeat (apply Forall_cons; split; [first [reflexivity | cbn [fst snd]; match goal with E : ?x = _ |- _ = VStr ?x => rewrite E; reflexivity end]|]);
  apply Forall_nil_2.

Lemma qualification_reload q : stored_qualification q -> qualification_from_dict (qualification_to_dict q) = Ok q.
Proof.
  intros Hq. pose proof (stored_groups q Hq) as [Ha Ho]. pose proof Hq as (_ & _ & _ & _ & _ & Hp & Hl).
  unfold qualification_from_dict, qualification_to_dict, str_dict.
  rewrite (read_shape q (policy_rows q) (audit_rows q) (lane_rows q)); [|done|..].
  2: { unfold policy_rows. destruct (_ || _); auto. }
  2: { unfold audit_rows, policy_rows. destruct (audit_policy q); [right|by left].
       rewrite orb_true_r. eauto. }
  2: { unfold lane_rows, policy_rows. destruct (orientation q) eqn:Eo; [right|by left]. rewrite (Ho ltac:(done)). eauto. }
  rewrite str_items_str_dict. cbv iota. cbn [negb]. unfold qualification_rows, policy_rows, audit_rows, lane_rows.
  destruct (audit_policy q) as [a|] eqn:Ea; destruct (orientation q) as [o|] eqn:Eo;
    try rewrite (Ho ltac:(done)); try rewrite orb_true_r;
    [| |cbn [negb orb]|destruct (negb _) eqn:En]; cbn [orb bool_decide]; rewrite ?bool_decide_eq_false_2 by naive_solver;
    cbn [orb].
  all: eapply (finish_row _ _ q);
    [rewrite Ea; first [apply read_audit_some; [reflexivity|by apply Hp] | reflexivity]
    |rewrite Eo; first [eapply read_orientation_some; [reflexivity|by apply Hl] | reflexivity]
    |done|destruct_and? Ha|reflexivity|reflexivity|reflexivity].
  1-4: read_row.
  apply negb_false_iff, String.eqb_eq in En. read_row.
Qed.

(** ** Candidates *)

Lemma make_candidate_Ok p r c : make_candidate p r = Ok c -> c = mkCandidate p r.
Proof.
  unfold make_candidate. destruct r as [r|]; intros H; [|by step_guard H; injection H].
  do 3 step_guard H. inv_ok. done.
Qed.

(** C35: a stored settlement candidate reopens unchanged, single run or reproduced pair, whichever optional
    groups its qualifications carry: what its own [to_dict] writes is accepted and gives it back. *)
Theorem candidate_reload (v : pyval) (c : SettlementCandidate) :
  candidate_from_dict v = Ok c -> candidate_from_dict (candidate_to_dict c) = Ok c.
Proof.
  unfold candidate_from_dict at 1. destruct v; try discriminate. intros H. step_guard H. inv_ok.
  pose proof (make_candidate_Ok _ _ _ H) as ->. apply qualification_from_dict_stored, qualification_reload in Hx.
  destruct (items_get "reproduction" l); [apply fmap_Ok in Hx0 as (r & Hr & <-)|injection Hx0 as <-].
  - apply qualification_from_dict_stored, qualification_reload in Hr.
    transitivity (p ← qualification_from_dict (qualification_to_dict x);
                  r ← Some <$> qualification_from_dict (qualification_to_dict r); make_candidate p r); [reflexivity|].
    rewrite Hx, Hr. exact H.
  - transitivity (p ← qualification_from_dict (qualification_to_dict x); make_candidate p None); [reflexivity|].
    rewrite Hx. exact H.
Qed.

(** The fields that make two runs the same contribution. *)
Lemma same_contribution_spec p r :
  same_contribution p r = true <->
  lane p = lane r /\ q_arena p = q_arena r /\ q_reservation p = q_reservation r /\ finalized_order p = finalized_order r /\
  q_hotkey p = q_hotkey r /\ q_target p = q_target r /\ members p = members r /\ q_delta p = q_delta r /\ q_arm p = q_arm r /\
  incumbent_arm p = incumbent_arm r /\ challenger_arm p = challenger_arm r /\
  incumbent_manifest p = incumbent_manifest r /\ q_proposal p = q_proposal r /\
  candidate_manifest p = candidate_manifest r /\ speed_evidence_policy p = speed_evidence_policy r /\
  audit_control p = audit_control r.
Proof.
  unfold same_contribution, finalized_order, incumbent_arm, challenger_arm.
  rewrite !andb_true_iff, !bool_decide_eq_true, !String.eqb_eq, !Z.eqb_eq. split; [|naive_solver].
  intros H. destruct_and! H. split_and!; congruence.
Qed.

(** Two runs count as one candidate only as independent reproductions of the same contribution: they
    agree on the contribution, its arms, its place in the finalized order and the audit control, share no
    authority, plan, attempt, report or selection, and are guarded against being one run seen twice: either
    both were audited, under seeds and with evidence of their own, or both ran resident, with the two
    physical lanes swapped. *)
Theorem reproduction_is_independent (p r : SettlementQualification) (c : SettlementCandidate) :
  from_reproductions p r = Ok c ->
  c = mkCandidate p (Some r) /\ reproduction_identity p = reproduction_identity r /\
  finalized_order p = finalized_order r /\ incumbent_arm p = incumbent_arm r /\ challenger_arm p = challenger_arm r /\
  candidate_manifest p = candidate_manifest r /\ audit_control p = audit_control r /\
  authority p <> authority r /\ qualification_plan p <> qualification_plan r /\ attempt p <> attempt r /\
  report p <> report r /\ selection_commitment p <> selection_commitment r /\
  secret_commitment p <> secret_commitment r /\ selection_evidence p <> selection_evidence r /\
  ((exists a b, audit_policy p = Some a /\ audit_policy r = Some b /\ control a = control b /\
      validator_seed a <> validator_seed b /\ audit_evidence p <> audit_evidence r) \/
   (exists a b, orientation p = Some a /\ orientation r = Some b /\ lane_control a = lane_control b /\
      baseline_lane b = candidate_lane a /\ candidate_lane b = baseline_lane a)).
Proof.
  unfold from_reproductions, make_candidate. intros H. inv_ok. do 3 step_guard Hx. inv_ok. step_guard H. injection H as <-.
  apply negb_false_iff, bool_decide_eq_true in Eg. apply negb_false_iff, same_contribution_spec in Eg0.
  unfold shares_authority in Eg1. rewrite !orb_false_iff, !String.eqb_neq in Eg1. destruct_and! Eg0. destruct_and! Eg1.
  split_and!; try done. unfold check_audits in Hx0. unfold check_lanes in Hx1.
  destruct (audit_policy p) as [a|]; destruct (audit_policy r) as [b|]; try discriminate.
  - left. exists a, b. step_guard Hx0. step_guard Hx0. rewrite !orb_false_iff, !String.eqb_neq in Eg1. destruct_and! Eg1.
    split_bool. done.
  - right. destruct (orientation p) as [a|], (orientation r) as [b|]; try discriminate.
    exists a, b. step_guard Hx1. step_guard Hx1. apply negb_false_iff in Eg1. unfold is_exact_swap_of in Eg1.
    rewrite !andb_true_iff, !String.eqb_eq in Eg1. destruct_and! Eg1. done.
Qed.

(** ** Evidence *)

Definition good_digest (s : string) : Prop := is_sha256_hex s = true /\ s <> _ZERO_DIGEST.

Lemma good_digest_spec s f : settlement_digest (VStr s) f false = Ok s <-> good_digest s.
Proof.
  unfold settlement_digest, good_digest. split; [|by intros [? ?]; apply require_digest_ok].
  unfold require_digest. simpl. destruct (is_sha256_hex s); [|done]. intros H. step_guard H.
  split; [done|]. by apply String.eqb_neq.
Qed.

Lemma digest_good v f s : settlement_digest v f false = Ok s -> good_digest s.
Proof. intros H. pose proof (digest_is_text _ _ _ _ H) as ->. by apply good_digest_spec in H. Qed.

Lemma qualification_digests q :
  stored_qualification q ->
  good_digest (q_reservation q) /\ good_digest (authority q) /\ good_digest (attempt q) /\ good_digest (report q) /\
  good_digest (selection_evidence q).
Proof.
  intros ((row & _ & H) & _). unfold remake_qualification, make_qualification in H. cbv zeta in H. inv_ok.
  step_guard H. step_guard H. inv_ok. step_guard H. injection H as <-.
  repeat match goal with H : settlement_digest _ _ _ = Ok _ |- _ => apply digest_good in H end. done.
Qed.

Definition accepted_candidate (c : SettlementCandidate) : Prop :=
  make_candidate (primary c) (reproduction c) = Ok c /\ Forall stored_qualification (qualifications c).

(** The evidence that the candidate's attempts are backed by the references. *)
Definition evidence_of (d : string) (c : SettlementCandidate) (ref : EvidenceArtifactRef) (rref : option EvidenceArtifactRef) :
    SettlementEvidence :=
  let p := primary c in
  let second f := match reproduction c with Some r => f r | None => "" end in
  mkEvidence d (q_reservation p) (authority p) ref (report p) (selection_evidence p) (second authority) rref (second report)
    (second selection_evidence).

Lemma single_evidence d q ref :
  good_digest d -> stored_qualification q ->
  make_evidence (VStr d) (VStr (q_reservation q)) (VStr (authority q)) ref (VStr (report q)) (VStr (selection_evidence q))
    (VStr "") None (VStr "") (VStr "")
  = Ok (mkEvidence d (q_reservation q) (authority q) ref (report q) (selection_evidence q) "" None "" "").
Proof.
  intros Hd Hq. destruct (qualification_digests q Hq) as (H1 & H2 & _ & H3 & H4). unfold make_evidence.
  by rewrite !(proj2 (good_digest_spec _ _)) by done.
Qed.

Lemma pair_evidence d p r ref rref :
  good_digest d -> stored_qualification p -> stored_qualification r -> shares_authority p r = false ->
  ref_sha256 ref = attempt p -> ref_sha256 rref = attempt r ->
  make_evidence (VStr d) (VStr (q_reservation p)) (VStr (authority p)) ref (VStr (report p)) (VStr (selection_evidence p))
    (VStr (authority r)) (Some rref) (VStr (report r)) (VStr (selection_evidence r))
  = Ok (mkEvidence d (q_reservation p) (authority p) ref (report p) (selection_evidence p) (authority r) (Some rref)
          (report r) (selection_evidence r)).
Proof.
  intros Hd Hp Hr Hs Ep Er. destruct (qualification_digests p Hp) as (P1 & P2 & _ & P3 & P4).
  destruct (qualification_digests r Hr) as (_ & R2 & _ & R3 & R4). unfold make_evidence.
  rewrite !(proj2 (good_digest_spec _ _)) by done. cbn [mbind result_bind]. rewrite Ep, Er.
  unfold shares_authority in Hs. rewrite !orb_false_iff in Hs. destruct_and! Hs.
  repeat match goal with H : String.eqb _ _ = false |- _ => rewrite H; clear H end. done.
Qed.

(** Evidence is bound to a candidate exactly when the references given are those of the candidate's own
    attempts, one for each run, none missing and none extra; it then names the candidate, its reservation and
    each run's authority, report and selection, and cannot be refused for any other reason. *)
Theorem evidence_binds_attempts (c : SettlementCandidate) (d : string) (ref : EvidenceArtifactRef)
    (rref : option EvidenceArtifactRef) (e : SettlementEvidence) :
  accepted_candidate c -> candidate_digest c = Ok d -> d <> _ZERO_DIGEST ->
  bind_evidence c ref rref = Ok e <->
  ref_sha256 ref = attempt (primary c) /\ ref_sha256 <$> rref = attempt <$> reproduction c /\
  e = evidence_of d c ref rref.
Proof.
  intros [Hc Hs] Hd Hz. assert (Hg : good_digest d) by (split; [by eapply canonical_digest_shape|done]).
  destruct c as [p r]. unfold bind_evidence, evidence_of. cbn [primary reproduction]. rewrite Hd. cbn [mbind result_bind].
  unfold qualifications in Hs. cbn [primary reproduction] in *. apply Forall_cons in Hs as [Hp Hr].
  destruct (String.eqb_spec (ref_sha256 ref) (attempt p)) as [E|Hne]; cbn [negb]; [|split; [done|by intros (? & _)]].
  destruct r as [r|], rref as [rref|].
  - apply Forall_inv in Hr. destruct (String.eqb_spec (ref_sha256 rref) (attempt r)) as [E'|Hne]; cbn [negb].
    + unfold make_candidate in Hc. do 3 step_guard Hc. rewrite pair_evidence by done.
      split; [intros [= <-]|by intros (_ & _ & ->)]. split_and!; [done|exact (f_equal Some E')|done].
    + split; [done|]. by intros (_ & [= E'] & _).
  - split; [done|]. by intros (_ & ? & _).
  - split; [done|]. by intros (_ & ? & _).
  - rewrite single_evidence by done. split; [by intros [= <-]|by intros (_ & _ & ->)].
Qed.
