(* ===== verification/SettlementExample.v ===== *)
(** * A settlement, run

    Two targets, three accepted candidates: one is measured on a baseline that
    is no ancestor of its target's tip, two are eligible, and the faster of them
    wins. The theorems about stacks and settlements are applied here. *)

From Stdlib Require Import QArith Qcanon.
From S2P Require Import Prelude PyVal Dict Identity Strict Numbers EvidenceRef Stack StackContracts Qualification Candidate Settlement SettlementContracts LineageContracts SettlementRecords.

Open Scope Z_scope.

Definition the {A} (d : A) (m : result A) : A := match m with Ok x => x | Raise _ => d end.
Definition digest_of (c : N) : string := string_of_bytes (repeat c 64).

(** ** Stacks *)

Definition sample_catalog : pyval :=
  str_dict [("targets", VList [str_dict [("target_id", VStr "attention")]; str_dict [("target_id", VStr "mlp")]])].

Definition sample_catalog_digest : string := Eval vm_compute in the "" (canonical_digest "cacheon.target-catalog" sample_catalog 1).

Definition sample_contribution (target : string) (c : N) : ContributionRef :=
  mkContribution target (digest_of 49) (digest_of c) (digest_of c) (digest_of 50).

Definition no_manifest : EvaluationStackManifest := mkManifest "" "" "" "" JNull [].

Definition sample_manifest (rows : list ContributionRef) : EvaluationStackManifest :=
  the no_manifest (make_manifest (VStr (digest_of 51)) (VStr (digest_of 52)) (VStr (digest_of 53)) sample_catalog
    (VStr sample_catalog_digest) ((fun c => (VStr (c_target c), c)) <$> rows) (VInt 1) (VStr EVALUATION_STACK_POLICY_VERSION)).

(** The stack that is current: one crowned entry. *)
Definition old_mlp : ContributionRef := sample_contribution "mlp" 97.
Definition new_mlp : ContributionRef := sample_contribution "mlp" 98.
Definition new_attention : ContributionRef := sample_contribution "attention" 99.
Definition current_stack : EvaluationStackManifest := Eval vm_compute in sample_manifest [old_mlp].
Definition current_tree : string := digest_of 54.
Definition older_stack : EvaluationStackManifest := Eval vm_compute in sample_manifest [].
Definition mlp_stack : EvaluationStackManifest := Eval vm_compute in sample_manifest [new_mlp].
Definition attention_stack : EvaluationStackManifest := Eval vm_compute in sample_manifest [old_mlp; new_attention].

Lemma current_stored : stored_manifest current_stack.
Proof. split; [vm_compute; reflexivity|]. by repeat constructor. Qed.

Lemma manifest_reload_witness :
  manifest_from_dict (manifest_to_dict current_stack) = Ok current_stack.
Proof. apply (manifest_reload (manifest_to_dict current_stack)). vm_compute. reflexivity. Defined.

Lemma with_contribution_spec_witness :
  let m' := attention_stack in
  with_contribution current_stack new_attention [] = Ok m' /\
  dict_get "mlp" (entries m') = Some old_mlp /\ dict_get "attention" (entries m') = Some new_attention.
Proof.
  intros m'. assert (H : with_contribution current_stack new_attention (VStr <$> []) = Ok m') by (vm_compute; reflexivity).
  destruct (with_contribution_spec current_stack m' new_attention [] current_stored eq_refl H) as (_ & _ & Hk).
  split_and!; [exact H|rewrite (Hk "mlp"); reflexivity|rewrite (Hk "attention"); reflexivity].
Defined.

(** ** A marginal arm *)

Definition no_arm : StackArmIdentity := mkArm "" "".
Definition arm_of (m : EvaluationStackManifest) (tree : string) : StackArmIdentity := mkArm (the "" (manifest_digest m)) tree.

Definition sample_marginal : MarginalArmPlan := Eval vm_compute in
  mkMarginal current_stack mlp_stack
    (mkTransition "mlp" (digest_of 49) new_mlp (Some old_mlp) [])
    (arm_of current_stack current_tree) (arm_of mlp_stack (digest_of 55)) (arm_of current_stack current_tree).

Lemma marginal_changes_target_witness :
  make_marginal sample_marginal = Ok sample_marginal /\
  dict_get "mlp" (entries (candidate sample_marginal)) = Some new_mlp /\
  dict_get "attention" (entries (candidate sample_marginal)) = None.
Proof.
  assert (H : make_marginal sample_marginal = Ok sample_marginal) by (vm_compute; reflexivity).
  destruct (marginal_changes_target sample_marginal sample_marginal H) as (_ & _ & _ & _ & _ & Hk).
  split_and!; [exact H|rewrite (Hk "mlp"); reflexivity|rewrite (Hk "attention"); reflexivity].
Defined.

(** ** Candidates *)

Definition sample_audit (seed : N) : SlotAuditPolicy :=
  mkAudit (string_of_bytes (repeat seed 32)) (mkControl 1000 10 ["model.layers.*.mlp"] 2).

(** A run number distinguishes what independent runs must not share. *)
Definition sample_qualification (target : string) (members_ : list string) (block : Z) (run : N) (speed : string)
    (base changed : EvaluationStackManifest) (tree : string) (c : ContributionRef) : SettlementQualification :=
  let d := digest_of run in
  mkQualification "registered" (digest_of 53) (digest_of (52 + Z.to_N block)) block 0 0 "5Miner" target members_
    (the "" (selected_delta_digest c)) d d d d d d d (digest_of 56) (the "" (manifest_digest base)) tree
    (the "" (manifest_digest changed)) (digest_of 57) speed base "" (Some changed) _LEGACY_SPEED_POLICY_DIGEST
    (the "" (control_digest (control (sample_audit run)))) (Some (sample_audit run)) d None.

Definition attention_run (run : N) : SettlementQualification :=
  sample_qualification "attention" ["model.attention"] 1 run "1.5" current_stack attention_stack
    current_tree new_attention.

Definition first_run : SettlementQualification := Eval vm_compute in attention_run 97.
Definition second_run : SettlementQualification := Eval vm_compute in attention_run 98.
Definition fast : SettlementCandidate := mkCandidate first_run None.
Definition slow : SettlementCandidate := Eval vm_compute in
  mkCandidate (sample_qualification "mlp" ["model.layers.*.mlp"] 2 98 "1.25" current_stack mlp_stack
                 current_tree new_mlp) None.
(** Measured before the current entry of its target was crowned. *)
Definition late : SettlementCandidate := Eval vm_compute in
  mkCandidate (sample_qualification "mlp" ["model.layers.*.mlp"] 3 99 "1.2" older_stack mlp_stack
                 (digest_of 100) new_mlp) None.
Definition pair : SettlementCandidate := mkCandidate first_run (Some second_run).

Definition mlp_lineage : TargetLineage := mkLineage [mkNode (digest_of 97) "" "1.3" (digest_of 101)].
Definition sample_tips : list (string * TargetLineage) := [("mlp", mlp_lineage)].

Lemma reload_of v c : candidate_from_dict v = Ok c -> accepted_candidate c.
Proof.
  unfold candidate_from_dict. destruct v; try discriminate. intros H. step_guard H. inv_ok.
  pose proof (make_candidate_Ok _ _ _ H) as ->. split; [exact H|]. unfold qualifications. cbn [primary reproduction].
  constructor; [by eapply qualification_from_dict_stored|].
  destruct (items_get "reproduction" l); [apply fmap_Ok in Hx0 as (r & Hr & <-)|injection Hx0 as <-; constructor].
  constructor; [by eapply qualification_from_dict_stored|constructor].
Qed.

Lemma pair_reloads : candidate_from_dict (candidate_to_dict pair) = Ok pair.
Proof. vm_compute. reflexivity. Qed.

Lemma candidate_reload_witness : candidate_from_dict (candidate_to_dict pair) = Ok pair.
Proof. apply (candidate_reload (candidate_to_dict pair)). exact pair_reloads. Defined.

Lemma reproduction_is_independent_witness :
  from_reproductions first_run second_run = Ok pair /\ authority first_run <> authority second_run.
Proof.
  assert (H : from_reproductions first_run second_run = Ok pair) by (vm_compute; reflexivity).
  split; [exact H|]. apply (reproduction_is_independent first_run second_run pair H).
Defined.

Definition sample_ref (c : N) : EvidenceArtifactRef := mkRef "cacheon.attempt" (digest_of c) 10 "application/json" "attempt.v1".

Definition pair_digest : string := Eval vm_compute in the "" (candidate_digest pair).

Lemma evidence_binds_attempts_witness :
  let d := pair_digest in
  bind_evidence pair (sample_ref 97) (Some (sample_ref 98)) = Ok (evidence_of d pair (sample_ref 97) (Some (sample_ref 98))).
Proof.
  intros d. assert (Hd : candidate_digest pair = Ok d) by (vm_compute; reflexivity).
  assert (Hz : d <> _ZERO_DIGEST) by (vm_compute; discriminate).
  apply (evidence_binds_attempts pair d (sample_ref 97) (Some (sample_ref 98)) _ (reload_of _ _ pair_reloads) Hd Hz).
  split_and!; reflexivity.
Defined.

(** ** The lineage *)

Lemma mlp_lineage_ok : lineage_ok mlp_lineage.
Proof. split; [vm_compute; reflexivity|]. repeat constructor. Qed.

(** The threshold is 1.3, which 1.2 does not reach. *)
Lemma lineage_threshold_witness :
  hold_reason sample_tips (mkArm (digest_of 97) current_tree) late = Ok "lost_potential" /\
  (speed_Q late <= (1 + rounding) * exact_product (nodes mlp_lineage))%Q.
Proof.
  assert (Hr : hold_reason sample_tips (mkArm (digest_of 97) current_tree) late = Ok "lost_potential")
    by (vm_compute; reflexivity).
  split; [exact Hr|].
  destruct (lineage_threshold sample_tips (mkArm (digest_of 97) current_tree) late mlp_lineage
              eq_refl mlp_lineage_ok ltac:(discriminate)) as [[E _]|(pre & start & rest & En & _ & [[E _]|[_ Hs]])].
  - rewrite Hr in E. discriminate.
  - rewrite Hr in E. discriminate.
  - destruct pre as [|n pre]; [|apply (f_equal length) in En; rewrite length_app in En; simpl in En; lia].
    cbn [nodes mlp_lineage app] in En. rewrite <- En in Hs. exact Hs.
Defined.

(** ** The plan *)

Definition no_plan : SettlementPlan := mkPlan no_arm no_arm "" [] None.
Definition the_candidates : list SettlementCandidate := [slow; late; fast].
Definition sample_plan : SettlementPlan := Eval vm_compute in
  the no_plan (plan_settlement the_candidates current_stack current_tree (VInt 7) (VStr (digest_of 102)) sample_tips None).

Lemma sample_plan_Ok :
  plan_settlement the_candidates current_stack current_tree (VInt 7) (VStr (digest_of 102)) sample_tips None = Ok sample_plan.
Proof. vm_compute. reflexivity. Qed.

(** The stale candidate is held first, then the loser; then the crown and the adoption. *)
Example sample_events :
  (fun e => (event_type e, sequence e, reason e)) <$> events sample_plan
  = [(HOLD, 7, "lost_potential"); (HOLD, 8, "incumbent_advanced"); (CROWN, 9, "qualified_win"); (ADOPTION, 10, "adopted");
     (STACK_TRANSITION, 11, "incumbent_updated")].
Proof. vm_compute. reflexivity. Qed.

Lemma someone_wins : winner sample_plan <> "".
Proof. vm_compute. discriminate. Qed.

Lemma crown_goes_to_best_witness :
  exists w, w ∈ the_candidates /\ candidate_digest w = Ok (winner sample_plan) /\
    forall c, c ∈ the_candidates -> eligible sample_tips (plan_before sample_plan) c -> beats w c.
Proof.
  destruct (crown_goes_to_best _ _ _ _ _ _ _ _ sample_plan_Ok) as [(Hw & _)|(w & Hin & Hd & _ & Hb)].
  - destruct (someone_wins Hw).
  - exists w. auto.
Defined.

Lemma the_lanes : Forall (fun c => lane (primary c) = "registered") the_candidates.
Proof. by repeat constructor. Qed.

Lemma one_verdict_each_witness :
  exists digests, Forall2 (fun c d => candidate_digest c = Ok d) the_candidates digests /\ NoDup digests /\
    candidate_of <$> filter (fun e => is_verdict (event_type e)) (events sample_plan) ≡ₚ digests.
Proof.
  destruct (one_verdict_each _ _ _ _ _ _ _ _ sample_plan_Ok the_lanes) as (ds & H1 & H2 & H3 & _). by exists ds.
Defined.

Lemma events_form_a_chain_witness :
  exists h, chain 7 (digest_of 102) (events sample_plan) 12 h.
Proof.
  destruct (events_form_a_chain _ _ _ _ _ _ _ _ sample_plan_Ok) as (m & h & Hc & Hm & _).
  assert (m = 12) as -> by (rewrite Hm; vm_compute; reflexivity). by exists h.
Defined.

Lemma mlp_stored : stored_manifest mlp_stack.
Proof. split; [vm_compute; reflexivity|]. by repeat constructor. Qed.

Lemma attention_stored : stored_manifest attention_stack.
Proof. split; [vm_compute; reflexivity|]. by repeat constructor. Qed.

Lemma sole_manifest (c : SettlementCandidate) m :
  candidate_manifest (primary c) = Some m -> stored_manifest m -> manifests_stored c.
Proof. intros E Hm m' E'. congruence. Qed.

Lemma the_manifests : Forall manifests_stored the_candidates.
Proof.
  apply Forall_cons; split; [exact (sole_manifest slow _ eq_refl mlp_stored)|].
  apply Forall_cons; split; [exact (sole_manifest late _ eq_refl mlp_stored)|].
  apply Forall_cons; split; [exact (sole_manifest fast _ eq_refl attention_stored)|apply Forall_nil_2].
Qed.

Lemma a_transition : exists t, plan_transition sample_plan = Some t.
Proof.
  assert (H : plan_transition sample_plan <> None) by (vm_compute; discriminate).
  revert H. generalize (plan_transition sample_plan). intros [t|] H; [by exists t|destruct (H eq_refl)].
Qed.

Lemma adoption_replaces_one_target_witness :
  exists t, plan_transition sample_plan = Some t /\
    manifest_digest (out_manifest t) = Ok (arm_stack (plan_after sample_plan)) /\
    arm_stack (plan_after sample_plan) <> arm_stack (plan_before sample_plan).
Proof.
  destruct a_transition as [t E]. exists t.
  destruct (adoption_replaces_one_target _ _ _ _ _ _ _ _ sample_plan_Ok t current_stored the_manifests E)
    as (w & c & a & _ & _ & _ & _ & _ & _ & Ho & _ & Hne). exact (conj E (conj Ho Hne)).
Defined.
