(* ===== verification/SettlementRows.v ===== *)
(** * The settlement tables

    The tables of the intake database ([cacheon/chain/intake.py],
    [arena_state.py]) that a settlement reads and writes: retained candidates
    and qualifications, the event journal, the evaluation stacks, the standing
    reward claims, and the lineage of crowns; with the records that are opened
    from them ([SettlementLease], the lineage of every target; [StackState] has
    the states of evaluation stacks). A column that holds JSON text is kept as the value that was
    encoded. *)

From S2P Require Import Prelude PyVal Dict Identity Strict EvidenceRef Stack Qualification Candidate Settlement Economics Effects Leases Recovery Store StackState Queue.

Open Scope Z_scope.

(** ** Rows *)

(** [settlement_candidates] *)
Record candidate_row := mkCandidateRow {
  k_reservation : string; k_authority : string; k_digest : string; k_json : pyval; k_root : string; k_rroot : string;
  k_evidence : string; k_status : string; k_lease : string; k_generation : Z; k_expires : Z; k_reason : string;
  k_rewarded : bool;
}.

(** [settlement_events] *)
Record event_row := mkEventRow {
  v_sequence : Z; v_id : string; v_type : string; v_reservation : string; v_arena : string; v_target : string;
  v_digest : string; v_json : pyval;
}.

(** [standing_reward_claims], by arena and target *)
Record claim_row := mkClaimRow { h_digest : string; h_json : pyval; h_status : string; h_event : string }.

(** [target_lineage_nodes], by competition, target and artifact; [target_lineage_tips], by competition and target *)
Record lineage_row := mkLineageRow {
  g_artifact : string; g_parent : string; g_speedup : string; g_arena : string; g_stack : string; g_event : string;
  g_block : Z;
}.

(** The columns of [settlement_qualifications] that only settlement reads, by reservation and index. *)
Record retained_row := mkRetainedRow { y_digest : string; y_json : pyval; y_ref : pyval; y_root : string }.

(** The columns of [qualification_dispositions] that settlement reads. *)
Record verdict_row := mkVerdictRow {
  d_reservation : string; d_evidence : string; d_authority : string; d_report : string; d_decision : string;
}.

Record settlement_db := mkSettlementDb {
  intake : store;
  candidates : gmap string candidate_row;
  journal : list event_row;
  stack_rows : gmap string stack_row;
  standing : gmap (string * string) claim_row;
  lineage_nodes : gmap (string * string * string) lineage_row;
  lineage_tips : gmap (string * string) lineage_row;
  pretransition : gset (string * string);
  retained : gmap (string * Z) retained_row;
  verdicts : list verdict_row;
}.

Definition T (A : Type) : Type := ST settlement_db A.

Definition with_intake (i : store) (s : settlement_db) : settlement_db :=
  mkSettlementDb i (candidates s) (journal s) (stack_rows s) (standing s) (lineage_nodes s) (lineage_tips s)
    (pretransition s) (retained s) (verdicts s).
Definition with_candidates (ks : gmap string candidate_row) (s : settlement_db) : settlement_db :=
  mkSettlementDb (intake s) ks (journal s) (stack_rows s) (standing s) (lineage_nodes s) (lineage_tips s)
    (pretransition s) (retained s) (verdicts s).
Definition with_journal (es : list event_row) (s : settlement_db) : settlement_db :=
  mkSettlementDb (intake s) (candidates s) es (stack_rows s) (standing s) (lineage_nodes s) (lineage_tips s)
    (pretransition s) (retained s) (verdicts s).
Definition with_stacks (ws : gmap string stack_row) (s : settlement_db) : settlement_db :=
  mkSettlementDb (intake s) (candidates s) (journal s) ws (standing s) (lineage_nodes s) (lineage_tips s)
    (pretransition s) (retained s) (verdicts s).
Definition with_standing (cs : gmap (string * string) claim_row) (s : settlement_db) : settlement_db :=
  mkSettlementDb (intake s) (candidates s) (journal s) (stack_rows s) cs (lineage_nodes s) (lineage_tips s)
    (pretransition s) (retained s) (verdicts s).
Definition with_lineage (ns : gmap (string * string * string) lineage_row) (ts : gmap (string * string) lineage_row)
    (s : settlement_db) : settlement_db :=
  mkSettlementDb (intake s) (candidates s) (journal s) (stack_rows s) (standing s) ns ts
    (pretransition s) (retained s) (verdicts s).
Definition with_pretransition (ps : gset (string * string)) (s : settlement_db) : settlement_db :=
  mkSettlementDb (intake s) (candidates s) (journal s) (stack_rows s) (standing s) (lineage_nodes s) (lineage_tips s)
    ps (retained s) (verdicts s).
Definition with_retained (rs : gmap (string * Z) retained_row) (s : settlement_db) : settlement_db :=
  mkSettlementDb (intake s) (candidates s) (journal s) (stack_rows s) (standing s) (lineage_nodes s) (lineage_tips s)
    (pretransition s) rs (verdicts s).

Definition with_verdicts (vs : list verdict_row) (s : settlement_db) : settlement_db :=
  mkSettlementDb (intake s) (candidates s) (journal s) (stack_rows s) (standing s) (lineage_nodes s) (lineage_tips s)
    (pretransition s) (retained s) vs.

(** [with self._transaction():] *)
Definition atomic {A} (m : T A) : T A := fun s =>
  match m s with (s', Ok a) => (s', Ok a) | (_, Raise e) => (s, Raise e) end.

(** An operation of the intake queue. *)
Definition queue {A} (m : M A) : T A := zoom intake with_intake m.

Definition database_of (s : settlement_db) : database := db (intake s).

(** [for x in xs: body] *)
Fixpoint run_all {A} (f : A -> T ()) (l : list A) : T () :=
  match l with [] => mret tt | x :: l => _ ← f x; run_all f l end.

(** ** Evaluation stacks *)

Definition evaluation_stack (arena : string) : T EvaluationStackState :=
  _ ← of_result (require_sha256_hex (VStr arena) "arena_digest");
  rows ← asks stack_rows;
  match rows !! arena with
  | None => raise (IntakeError "evaluation stack is not initialized")
  | Some row => of_result (_evaluation_stack_state_from_row row "evaluation stack state")
  end.

(** ** Candidates *)

Definition _settlement_candidate (row : candidate_row) : result SettlementCandidate :=
  c ← reread value_errors "settlement candidate is corrupt: " (candidate_from_dict (k_json row));
  d ← candidate_digest c;
  raise_if negb (String.eqb d (k_digest row))
    with (IntakeError "settlement candidate digest differs from stored bytes");
  Ok c.

(** ** The lineage of every target *)

Section Lineage.
Context (nodes : gmap (string * string * string) lineage_row) (scope target : string).

(** From the tip to the root; [found] are the nodes after [artifact], root first. *)
Fixpoint walk_lineage (fuel : nat) (artifact : string) (seen : list string) (found : list TargetLineageNode) :
    option (result (list TargetLineageNode)) :=
  match fuel with
  | O => None
  | S fuel =>
      if String.eqb artifact "" then Some (Ok found)
      else if bool_decide (artifact ∈ seen) then Some (Raise (IntakeError "target lineage contains a cycle"))
      else
        match nodes !! (scope, target, artifact) with
        | None =>
            Some (match found with
                  | [] => Raise (IntakeError "target lineage tips require a successful backfill")
                  | _ => Ok found
                  end)
        | Some row =>
            match make_node (VStr (g_artifact row)) (VStr (g_parent row)) (VStr (g_speedup row)) (VStr (g_event row)) with
            | Raise e => Some (Raise e)
            | Ok node => walk_lineage fuel (g_parent row) (artifact :: seen) (node :: found)
            end
        end
  end.

(** The walk visits a stored node once: [size nodes] steps and two more. *)
Definition walk_fuel : nat := S (S (size nodes)).
End Lineage.

Definition lineage_of (nodes : gmap (string * string * string) lineage_row) (scope : string)
    (tip : string * lineage_row) : result (string * TargetLineage) :=
  found ← default (Raise (Exn "RecursionError" "")) (walk_lineage nodes scope tip.1 (walk_fuel nodes) (g_artifact tip.2) [] []);
  l ← make_lineage found;
  Ok (tip.1, l).

(** [SELECT target_id,artifact_digest ... WHERE competition_arena=? ORDER BY target_id] *)
Definition tips_of (scope : string) (tips : gmap (string * string) lineage_row) : list (string * lineage_row) :=
  sorted_by fst ((fun kv => (kv.1.2, kv.2)) <$> filter (fun kv => kv.1.1 = scope) (map_to_list tips)).

Definition target_lineage_tips (scope : string) : T (list (string * TargetLineage)) :=
  nodes ← asks lineage_nodes; tips ← asks lineage_tips;
  of_result (reread ("IntakeError" :: value_errors) "target lineage tips require a successful backfill: "
    (map_result (lineage_of nodes scope) (tips_of scope tips))).

(** ** The event journal *)

(** [ORDER BY sequence DESC LIMIT 1] *)
Definition newest_event (rows : list event_row) : option event_row := last (sorted_by v_sequence rows).

Definition _event_head : T (Z * string) :=
  rows ← asks journal;
  mret (match newest_event rows with None => (0, "") | Some row => (v_sequence row + 1, v_digest row) end).

(** ** Leases *)

Record SettlementLease := mkSettlementLease {
  lease_id : string; lease_authority : string; lease_generation : Z; lease_expires : Z; lease_stack : EvaluationStackState;
  lease_candidates : list SettlementCandidate; initial_sequence : Z; previous_event_digest : string;
  lease_tips : list (string * TargetLineage);
}.

Definition make_settlement_lease (l : SettlementLease) : result SettlementLease :=
  _ ← require_sha256_hex (VStr (lease_id l)) "lease_id";
  _ ← require_sha256_hex (VStr (lease_authority l)) "authority_digest";
  raise_if (lease_generation l <=? 0) || (lease_expires l <=? 0) || (initial_sequence l <? 0)
    with (IntakeError "settlement lease bounds are malformed");
  _ ← (if truthy (previous_event_digest l)
       then require_sha256_hex (VStr (previous_event_digest l)) "previous_event_digest" else Ok "");
  raise_if bool_decide (lease_candidates l = [])
           || existsb (fun c => negb (String.eqb (q_arena (primary c)) (st_arena (lease_stack l)))) (lease_candidates l)
           || existsb (fun c => negb (String.eqb (authority (primary c)) (lease_authority l))) (lease_candidates l)
    with (IntakeError "settlement lease candidates are inconsistent");
  Ok l.
