(* ===== verification/SettlementStore.v ===== *)
(** * The settlement store

    The transactional settlement of [cacheon/chain/intake.py]: leasing the
    oldest unblocked cohort ([lease_settlement_cohort]), committing the plan of
    a lease ([commit_settlement]), with the evidence behind a candidate
    ([qualification_settlement.py]), the predicate of a completed arrival prefix
    ([evaluation_order.py]) and the lineage that a crown extends
    ([arena_state.py]). Assembling the tree of a composed stack and reopening
    evidence files are parameters. *)

From S2P Require Import Prelude PyVal Dict Identity Strict Numbers EvidenceRef Stack Qualification Candidate Settlement Economics Effects Leases Recovery Store Queue StackState SettlementRows.

Open Scope Z_scope.

(** ** Rows under the statements *)

Definition settle_row (st lease : string) (generation expires : Z) (why evidence : string) (k : candidate_row) : candidate_row :=
  mkCandidateRow (k_reservation k) (k_authority k) (k_digest k) (k_json k) (k_root k) (k_rroot k) evidence st lease
    generation expires why (k_rewarded k).

(** [WHERE status IN ('pending','leased') AND reservation_id IN (SELECT ... WHERE status!='qualified')] *)
Definition unqualified (d : database) (k : candidate_row) : bool :=
  bool_decide (k_status k ∈ ["pending"; "leased"])
  && match reservations d !! k_reservation k with Some r => negb (bool_decide (r_status r = qualified)) | None => false end.

Definition hold_unqualified (d : database) (k : candidate_row) : candidate_row :=
  if unqualified d k
  then settle_row "held" "" (k_generation k) 0 "intake_no_longer_qualified" (k_evidence k) k else k.

(** [WHERE status='leased' AND lease_expires_block<=?] *)
Definition lapsed (current_block : Z) (k : candidate_row) : bool :=
  bool_decide (k_status k = "leased") && (k_expires k <=? current_block).

Definition release_lapsed (current_block : Z) (k : candidate_row) : candidate_row :=
  if lapsed current_block k
  then settle_row "pending" "" (k_generation k + 1) 0 "settlement_lease_expired" (k_evidence k) k else k.

(** [_recover_interrupted], its update of [settlement_candidates] *)
Definition recover_row (k : candidate_row) : candidate_row :=
  if bool_decide (k_status k = "leased")
  then settle_row "pending" "" (k_generation k + 1) 0 "controller_restart_during_settlement" (k_evidence k) k else k.

Definition recover_settlements : T () := update (fun s => with_candidates (recover_row <$> candidates s) s).

(** ** The order of arrivals *)

(** [_completed_hold] *)
Definition _completed_hold (r : reservation) : bool :=
  bool_decide (r_status r = held) && starts_with "remote_qualification_hold:" (r_reason r) && truthy (r_evidence r).

(** [COMPLETED_ARRIVAL_PREFIX]: nothing of the same competition that arrived earlier is still open. *)
Definition still_open (r : reservation) : bool :=
  negb (bool_decide (r_status r ∈ [qualified; failed; expired])) && negb (_completed_hold r).

Definition completed_arrival_prefix (d : database) (r : reservation) : bool :=
  negb (existsb (fun p => String.eqb (Store.r_arena p) (Store.r_arena r) && cmp_ltb (arrival_key p) (arrival_key r)
                          && still_open p) (all_rows d)).

Definition economic_statuses : list string :=
  ["crowned"; "neutralized"; "held"; "discovery_bounty"; "duplicate_proposal"; "review_pending"; "reviewed_bounty";
   "reviewed_promotion"; "review_ineligible"; "review_expired"].

(** A reservation that no later candidate waits for. *)
Definition economically_done (ks : gmap string candidate_row) (r : reservation) : bool :=
  bool_decide (r_status r ∈ [failed; expired]) || _completed_hold r
  || (bool_decide (r_status r = qualified)
      && match ks !! r_id r with Some k => bool_decide (k_status k ∈ economic_statuses) | None => false end).

(** The loop of [_economic_blockers] over [self.all()], with its [continue]s and its [break]. *)
Fixpoint blockers_among (ks : gmap string candidate_row) (cohort : list string) (c : reservation)
    (rows : list reservation) : list string :=
  match rows with
  | [] => []
  | r :: rows =>
      if negb (String.eqb (Store.r_arena r) (Store.r_arena c)) then blockers_among ks cohort c rows
      else if cmp_leb (arrival_key c) (arrival_key r) then []
      else if bool_decide (r_id r ∈ cohort) then blockers_among ks cohort c rows
      else if economically_done ks r then blockers_among ks cohort c rows
      else r_id r :: blockers_among ks cohort c rows
  end.

Definition _economic_blockers (cohort : list string) (c : SettlementCandidate) : T (list string) :=
  row ← queue (get (q_reservation (primary c)));
  ks ← asks candidates; d ← asks database_of;
  mret (blockers_among ks cohort row (sorted_by arrival_key (all_rows d))).

(** [any(self._economic_blockers(row, cohort_ids=ids) for row in candidates)] *)
Fixpoint any_blocked (cohort : list string) (cs : list SettlementCandidate) : T bool :=
  match cs with
  | [] => mret false
  | c :: cs =>
      blockers ← _economic_blockers cohort c;
      match blockers with [] => any_blocked cohort cs | _ => mret true end
  end.

(** ** Leasing a cohort *)

Definition q_id (c : SettlementCandidate) : string := q_reservation (primary c).

(** Candidates joined with their reservations. *)
Definition joined (s : settlement_db) : list (candidate_row * reservation) :=
  omap (fun k => r ← reservations (database_of s) !! k_reservation k; Some (k, r)) (map_to_list (candidates s)).*2.

Definition is_pending (d : database) (kr : candidate_row * reservation) : bool :=
  bool_decide (k_status kr.1 = "pending") && bool_decide (r_status kr.2 = qualified) && completed_arrival_prefix d kr.2.

Definition pending_rows (s : settlement_db) : list candidate_row :=
  fst <$> sorted_by (fun kr => arrival_key kr.2) (filter (fun kr => is_pending (database_of s) kr = true) (joined s)).

(** The first authority, in arrival order, none of whose candidates is blocked. *)
Fixpoint choose_cohort (pending firsts : list candidate_row) :
    T (option (list (candidate_row * SettlementCandidate))) :=
  match firsts with
  | [] => mret None
  | first :: firsts =>
      let group := filter (fun k => k_authority k = k_authority first) pending in
      cs ← of_result (map_result _settlement_candidate group);
      stop_if negb (length (remove_dups ((fun c => q_arena (primary c)) <$> cs)) =? 1)%nat
        with (IntakeError "one qualification authority spans multiple arenas");
      blocked ← any_blocked (q_id <$> cs) cs;
      if (blocked : bool) then choose_cohort pending firsts else mret (Some (zip group cs))
  end.

Definition lease_digest (authority : string) (cs : list SettlementCandidate) (generation incumbent block : Z) : result string :=
  digests ← map_result candidate_digest cs;
  canonical_digest "cacheon.chain.settlement-lease"
    (str_dict [("authority_digest", VStr authority); ("candidates", VList (VStr <$> digests)); ("generation", VInt generation);
               ("incumbent_generation", VInt incumbent); ("lease_block", VInt block)]) 1.

(** [UPDATE settlement_candidates SET status='leased',... WHERE status='pending' AND reservation_id IN (...)] *)
Definition leasable (ids : list string) (k : candidate_row) : bool :=
  bool_decide (k_status k = "pending") && bool_decide (k_reservation k ∈ ids).

Definition take_lease (ids : list string) (lid : string) (generation expires : Z) (k : candidate_row) : candidate_row :=
  if leasable ids k then settle_row "leased" lid generation expires "" (k_evidence k) k else k.

Definition count_rows (p : candidate_row -> bool) (ks : gmap string candidate_row) : nat :=
  length (filter (fun k => p k = true) (map_to_list ks).*2).

(** The lease of a chosen cohort: [chosen] is not empty. *)
Definition lease_chosen (current_block lease_blocks : Z) (chosen : list (candidate_row * SettlementCandidate)) :
    T SettlementLease :=
  match chosen with
  | [] => raise (Exn "AssertionError" "")
  | (first, c) :: _ =>
      let cs := chosen.*2 in
      stack ← evaluation_stack (q_arena (primary c));
      let generation := foldr Z.max (k_generation first) (k_generation <$> chosen.*1) + 1 in
      lid ← of_result (lease_digest (k_authority first) cs generation (st_generation stack) current_block);
      let ids := q_id <$> cs in
      ks ← asks candidates;
      _ ← update (fun s => with_candidates (take_lease ids lid generation (current_block + lease_blocks) <$> candidates s) s);
      stop_if negb (count_rows (leasable ids) ks =? length ids)%nat
        with (IntakeError "settlement cohort changed while leasing");
      head ← _event_head;
      r ← queue (get (q_id c));
      tips ← target_lineage_tips (Store.r_arena r);
      mret (mkSettlementLease lid (k_authority first) generation (current_block + lease_blocks) stack cs head.1 head.2 tips)
  end.

Definition lease_settlement_cohort (cfg : config) (current_block lease_blocks : Z) : T (option SettlementLease) :=
  stop_if (current_block <? 0) || (lease_blocks <=? 0) with (IntakeError "settlement lease bounds are malformed");
  leased ← atomic (
    _ ← queue (_expire_stale_rows cfg current_block);
    _ ← update (fun s => with_candidates (hold_unqualified (database_of s) <$> candidates s) s);
    _ ← update (fun s => with_candidates (release_lapsed current_block <$> candidates s) s);
    pending ← asks pending_rows;
    chosen ← choose_cohort pending pending;
    match chosen with
    | None => mret None
    | Some chosen => Some <$> lease_chosen current_block lease_blocks chosen
    end);
  match leased with
  | None => mret None
  | Some l => l ← of_result (make_settlement_lease l); mret (Some l)
  end.

(** ** The evidence behind a candidate *)

(** [SELECT ... FROM settlement_qualifications WHERE reservation_id=? ORDER BY reproduction_index] *)
Definition retained_rows (rid : string) (rows : gmap (string * Z) retained_row) : list (Z * retained_row) :=
  sorted_by fst ((fun kv => (kv.1.2, kv.2)) <$> filter (fun kv => kv.1.1 = rid) (map_to_list rows)).

Definition read_retained (rid : string) (vs : list verdict_row) (row : retained_row) :
    result (SettlementQualification * EvidenceArtifactRef) :=
  q ← qualification_from_dict (y_json row);
  ref ← ref_from_dict (y_ref row);
  d ← qualification_digest q;
  raise_if negb (String.eqb d (y_digest row)) || negb (String.eqb (ref_sha256 ref) (attempt q))
    with (IntakeError "retained reproduction identity differs");
  match find (fun v => String.eqb (d_reservation v) rid && String.eqb (d_evidence v) (attempt q)) vs with
  | None => Raise (IntakeError "retained reproduction lost PASS authority")
  | Some v =>
      raise_if negb (String.eqb (d_decision v) "PASS") || negb (String.eqb (d_authority v) (authority q))
               || negb (String.eqb (d_report v) (report q))
        with (IntakeError "retained reproduction lost PASS authority");
      Ok (q, ref)
  end.

Definition standing_authority (s : settlement_db) (c : SettlementCandidate) (digest : string) : option candidate_row :=
  k ← candidates s !! q_id c; r ← reservations (database_of s) !! q_id c;
  if String.eqb (k_digest k) digest && bool_decide (r_status r = qualified) && String.eqb (r_decision r) "PASS"
     && truthy (k_root k) && (negb (is_some (reproduction c)) || truthy (k_rroot k))
  then Some k else None.

Definition settlement_evidence_metadata (s : settlement_db) (c : SettlementCandidate) :
    result (list string * list EvidenceArtifactRef * SettlementEvidence) :=
  d ← candidate_digest c;
  match standing_authority s c d with
  | None => Raise (IntakeError "settlement evidence no longer has standing authority")
  | Some k =>
      let rows := retained_rows (q_id c) (retained s) in
      raise_if negb (length rows =? length (Candidate.qualifications c))%nat
               || negb (bool_decide (rows.*1 = seqZ 0 (Z.of_nat (length rows))))
        with (IntakeError "settlement candidate lacks its retained qualifications");
      read ← reread value_errors "settlement reproduction is corrupt: "
               (map_result (read_retained (q_id c) (verdicts s)) rows.*2);
      raise_if negb (bool_decide (read.*1 = Candidate.qualifications c))
        with (IntakeError "retained reproductions differ from settlement candidate");
      let roots := y_root <$> rows.*2 in
      raise_if negb (bool_decide (roots = k_root k :: (if is_some (reproduction c) then [k_rroot k] else [])))
        with (IntakeError "settlement reproduction roots differ");
      match read.*2 with
      | [] => Raise (Exn "IndexError" "")
      | ref :: rest =>
          receipt ← bind_evidence c ref (match rest with [second] => Some second | _ => None end);
          Ok (roots, read.*2, receipt)
      end
  end.

(** [reopen] is [reopen_evidence]: the file of a reference opens under its root. *)
Definition reopen_settlement_evidence (reopen : string -> EvidenceArtifactRef -> result ()) (c : SettlementCandidate) :
    T SettlementEvidence :=
  s ← asks id;
  found ← of_result (settlement_evidence_metadata s c);
  _ ← of_result (reread ["EvidenceStoreError"; "OSError"] "retained settlement evidence cannot reopen: "
                   (map_result (fun rr => reopen rr.1 rr.2) (zip found.1.1 found.1.2)));
  mret found.2.

(** ** Committing a plan *)

Definition insert_event (row : event_row) : T () :=
  rows ← asks journal;
  stop_if existsb (fun r => v_sequence r =? v_sequence row) rows || existsb (fun r => String.eqb (v_id r) (v_id row)) rows
    with (IntegrityError "UNIQUE constraint failed: settlement_events");
  update (fun s => with_journal (journal s ++ [row]) s).

(** [UPDATE standing_reward_claims SET status='inactive',event_id=? WHERE arena_id=? AND target_id=?] *)
Definition retire_claim (arena target event : string) : T () :=
  update (fun s => with_standing
    (alter (fun h => mkClaimRow (h_digest h) (h_json h) "inactive" event) (arena, target) (standing s)) s).

(** [INSERT ... ON CONFLICT(arena_id,target_id) DO UPDATE], with [claim_digest] unique *)
Definition upsert_claim (arena target : string) (row : claim_row) : T () :=
  rows ← asks standing;
  stop_if existsb (fun kv => String.eqb (h_digest kv.2) (h_digest row) && negb (bool_decide (kv.1 = (arena, target))))
            (map_to_list rows)
    with (IntegrityError "UNIQUE constraint failed: standing_reward_claims.claim_digest");
  update (fun s => with_standing (<[(arena, target) := row]> (standing s)) s).

(** [_write_lineage]: the node and the tip; a transition names one node. *)
Definition _write_lineage (scope target : string) (row : lineage_row) : T () :=
  nodes ← asks lineage_nodes;
  stop_if existsb (fun kv => String.eqb (g_event kv.2) (g_event row)
                             && negb (bool_decide (kv.1 = (scope, target, g_artifact row)))) (map_to_list nodes)
    with (IntegrityError "UNIQUE constraint failed: target_lineage_nodes.transition_event_id");
  update (fun s => with_lineage (<[(scope, target, g_artifact row) := row]> (lineage_nodes s))
                     (<[(scope, target) := row]> (lineage_tips s)) s).

(** [int((Decimal(speedup) * WEIGHT_PPM).to_integral_value(rounding=ROUND_FLOOR))] *)
Definition speedup_parts (speedup : string) : Z := dec_floor (dec_mul (Decimal speedup) (mkDecimal WEIGHT_PPM 0)).

Definition crown_claim (c : SettlementCandidate) (contribution : ContributionRef) (evidence : string) :
    result StandingRewardClaim :=
  d ← Stack.contribution_digest contribution;
  make_standing (VStr (q_arena (primary c))) (VStr (q_target (primary c))) (VStr (c_spec contribution)) (VStr d)
    (VStr (q_hotkey (primary c))) (VInt (speedup_parts (candidate_speedup c))) (VInt (Qualification.finalized_block (primary c)))
    (VStr evidence).

Definition arrival_matches (c : SettlementCandidate) (r : reservation) : bool :=
  (r_block r =? Qualification.finalized_block (primary c)) && (r_event_index r =? Qualification.event_index (primary c))
  && (r_event_subindex r =? Qualification.event_subindex (primary c)) && String.eqb (r_hotkey r) (q_hotkey (primary c)).

Definition is_nil {A} (l : list A) : bool := match l with [] => true | _ => false end.

Section Commit.
Context (cfg : config) (compose : EvaluationStackManifest -> result string).

(** What a CROWN event writes. *)
Definition crown (current_block : Z) (evidence : list (string * SettlementEvidence)) (d e : string)
    (c : SettlementCandidate) : T () :=
  let p := primary c in
  contribution ← of_result (winning_entry c);
  receipt ← of_result (dict_item d evidence);
  rd ← of_result (evidence_digest receipt);
  claim ← of_result (crown_claim c contribution rd);
  cd ← of_result (standing_digest claim);
  _ ← upsert_claim (q_arena p) (q_target p) (mkClaimRow cd (standing_to_dict claim) "active" e);
  r ← queue (get (q_id c));
  _ ← _write_lineage (Store.r_arena r) (q_target p)
        (mkLineageRow (c_artifact contribution) (incumbent_artifact c) (candidate_speedup c) (q_arena p)
           (candidate_stack p) e current_block);
  _ ← update (fun s => with_pretransition
        (pretransition s ∪ list_to_set ((fun k => (e, r_id k)) <$>
           filter (fun k => Store.r_arena k = Store.r_arena r) (all_rows (database_of s)))) s);
  stop_if negb (arrival_matches c r) with (IntakeError "CROWN candidate differs from finalized arrival authority");
  mret tt.

Definition record_event (current_block : Z) (by_digest : list (string * SettlementCandidate))
    (evidence : list (string * SettlementEvidence)) (disposition : list (string * string)) (e : SettlementEvent) :
    T (list (string * string)) :=
  c ← of_result (dict_item (candidate_of e) by_digest);
  d ← of_result (event_digest e);
  _ ← insert_event (mkEventRow (Settlement.sequence e) d (event_value (Settlement.event_type e)) (q_id c) (q_arena (primary c)) (event_target e) d
                      (event_to_dict e));
  match Settlement.event_type e with
  | Settlement.HOLD => mret (dict_set (candidate_of e) "held" disposition)
  | CROWN => _ ← crown current_block evidence (candidate_of e) d c; mret (dict_set (candidate_of e) "crowned" disposition)
  | _ => mret disposition
  end.

Fixpoint record_events (current_block : Z) (by_digest : list (string * SettlementCandidate))
    (evidence : list (string * SettlementEvidence)) (disposition : list (string * string)) (es : list SettlementEvent) :
    T (list (string * string)) :=
  match es with
  | [] => mret disposition
  | e :: es =>
      disposition ← record_event current_block by_digest evidence disposition e;
      record_events current_block by_digest evidence disposition es
  end.

Definition retire_old (arena : string) (e : SettlementEvent) : T () :=
  match Settlement.event_type e with
  | RETIREMENT | NEUTRALIZATION => d ← of_result (event_digest e); retire_claim arena (event_target e) d
  | _ => mret tt
  end.

Definition dispose (by_digest : list (string * SettlementCandidate)) (evidence : list (string * SettlementEvidence))
    (ds : string * string) : T () :=
  c ← of_result (dict_item ds.1 by_digest);
  receipt ← of_result (dict_item ds.1 evidence);
  rd ← of_result (evidence_digest receipt);
  update (fun s => with_candidates
    (alter (fun k => settle_row ds.2 "" (k_generation k) 0 ds.2 rd k) (q_id c) (candidates s)) s).

(** [UPDATE evaluation_stacks ... WHERE arena_id=? AND generation=? AND stack_digest=? AND tree_digest=?] *)
Definition advance_stack (stack : EvaluationStackState) (t : StackTransitionOutput) (event : string) : T () :=
  d ← of_result (manifest_digest (st_manifest stack));
  new ← of_result (manifest_digest (out_manifest t));
  rows ← asks stack_rows;
  match rows !! st_arena stack with
  | Some w =>
      stop_if negb ((w_generation w =? st_generation stack) && String.eqb (w_digest w) d && String.eqb (w_tree w) (st_tree stack))
        with (IntakeError "evaluation stack changed during settlement commit");
      update (fun s => with_stacks (<[st_arena stack :=
        mkStackRow (w_arena w) (w_generation w + 1) new (arm_tree (out_after t)) (manifest_to_dict (out_manifest t)) event
          (w_competition w)]> (stack_rows s)) s)
  | None => raise (IntakeError "evaluation stack changed during settlement commit")
  end.

Definition is_active (lease : SettlementLease) (ids : list string) (kr : candidate_row * reservation) : bool :=
  bool_decide (k_status kr.1 = "leased") && bool_decide (r_status kr.2 = qualified)
  && String.eqb (k_lease kr.1) (lease_id lease) && (k_generation kr.1 =? lease_generation lease)
  && bool_decide (k_reservation kr.1 ∈ ids).

Definition active_rows (lease : SettlementLease) (s : settlement_db) : list candidate_row :=
  fst <$> filter (fun kr => is_active lease (q_id <$> lease_candidates lease) kr = true) (joined s).

(** The receipts given are still the ones the store would issue. *)
Definition same_receipt (evidence : list (string * SettlementEvidence)) (dc : string * SettlementCandidate) : T () :=
  s ← asks id;
  found ← of_result (settlement_evidence_metadata s dc.2);
  given ← of_result (dict_item dc.1 evidence);
  stop_if negb (bool_decide (found.2 = given)) with (IntakeError "settlement evidence changed after reopening");
  mret tt.

(** Everything that must still hold when the transaction begins. *)
Definition check_lease (lease : SettlementLease) (by_digest : list (string * SettlementCandidate))
    (evidence : list (string * SettlementEvidence)) (current_block : Z) (first : SettlementCandidate) : T () :=
  r ← queue (get (q_id first));
  _ ← run_all (fun c =>
        other ← queue (get (q_id c));
        stop_if negb (String.eqb (Store.r_arena other) (Store.r_arena r))
          with (IntakeError "settlement belongs to another competition arena");
        mret tt) (lease_candidates lease);
  _ ← queue (_expire_stale_rows cfg current_block);
  current ← evaluation_stack (st_arena (lease_stack lease));
  head ← _event_head;
  stop_if negb (bool_decide (current = lease_stack lease))
          || negb (bool_decide (head = (initial_sequence lease, previous_event_digest lease)))
    with (IntakeError "settlement incumbent or journal advanced");
  tips ← target_lineage_tips (Store.r_arena r);
  stop_if negb (bool_decide ((list_to_map tips : gmap string TargetLineage) = list_to_map (lease_tips lease)))
    with (IntakeError "target lineage advanced while evidence was open");
  blocked ← any_blocked (q_id <$> lease_candidates lease) (lease_candidates lease);
  stop_if (blocked : bool) with (IntakeError "settlement priority changed while evidence was open");
  _ ← run_all (same_receipt evidence) by_digest;
  rows ← asks (active_rows lease);
  stop_if negb (length rows =? length (lease_candidates lease))%nat
          || negb (bool_decide ((list_to_set (k_digest <$> rows) : gset string) = list_to_set by_digest.*1))
    with (IntakeError "settlement lease is stale or incomplete");
  mret tt.

Definition apply_plan (lease : SettlementLease) (plan : SettlementPlan) (by_digest : list (string * SettlementCandidate))
    (evidence : list (string * SettlementEvidence)) (current_block : Z) : T () :=
  _ ← run_all (retire_old (st_arena (lease_stack lease))) (events plan);
  disposition ← record_events current_block by_digest evidence [] (events plan);
  stop_if negb (bool_decide ((list_to_set disposition.*1 : gset string) = list_to_set by_digest.*1))
    with (IntakeError "settlement plan did not dispose every leased candidate");
  _ ← run_all (dispose by_digest evidence) disposition;
  match plan_transition plan with
  | None => mret tt
  | Some t =>
      match last (events plan) with
      | None => raise (Exn "IndexError" "")
      | Some e => d ← of_result (event_digest e); advance_stack (lease_stack lease) t d
      end
  end.

Definition commit_settlement (lease : SettlementLease) (plan : SettlementPlan) (receipts : list SettlementEvidence)
    (current_block : Z) : T EvaluationStackState :=
  let invalid := IntakeError "settlement evidence or lease deadline is invalid" in
  stop_if (current_block <? 0) || (lease_expires lease <=? current_block)
          || negb (length receipts =? length (lease_candidates lease))%nat with invalid;
  digests ← of_result (map_result candidate_digest (lease_candidates lease));
  stop_if negb (bool_decide ((list_to_set (ev_candidate <$> receipts) : gset string) = list_to_set digests)) with invalid;
  expected ← of_result (plan_settlement (lease_candidates lease) (st_manifest (lease_stack lease)) (st_tree (lease_stack lease))
    (VInt (initial_sequence lease)) (VStr (previous_event_digest lease)) (lease_tips lease) (Some compose));
  stop_if negb (bool_decide (plan_to_dict expected = plan_to_dict plan))
    with (IntakeError "settlement plan differs from its leased authority");
  let by_digest := zip digests (lease_candidates lease) in
  let evidence := (fun r => (ev_candidate r, r)) <$> receipts in
  match lease_candidates lease with
  | [] => raise (Exn "IndexError" "")
  | first :: _ =>
      _ ← atomic (
        _ ← check_lease lease by_digest evidence current_block first;
        apply_plan lease plan by_digest evidence current_block);
      evaluation_stack (st_arena (lease_stack lease))
  end.
End Commit.

(** ** Retaining an accepted qualification *)

(** [_insert_candidate]: keys, and the candidate digest is unique. *)
Definition _insert_candidate (q : SettlementQualification) (root : string) : T SettlementCandidate :=
  c ← of_result (make_candidate q None);
  d ← of_result (candidate_digest c);
  ks ← asks candidates; rs ← asks (fun s => reservations (database_of s));
  stop_if negb (absent (ks !! q_id c)) || existsb (fun kv => String.eqb (k_digest kv.2) d) (map_to_list ks)
    with (IntegrityError "UNIQUE constraint failed: settlement_candidates");
  stop_if absent (rs !! q_id c) with (IntegrityError "FOREIGN KEY constraint failed");
  _ ← update (fun s => with_candidates (<[q_id c :=
        mkCandidateRow (q_id c) (authority q) d (candidate_to_dict c) root "" "" "pending" "" 0 0 "" false]> (candidates s)) s);
  mret c.

Definition retain_qualification (rid : string) (q : SettlementQualification) (ref : EvidenceArtifactRef) (root : string)
    (block : Z) : T () :=
  d ← of_result (qualification_digest q);
  rows ← asks retained; rs ← asks (fun s => reservations (database_of s));
  stop_if negb (absent (rows !! (rid, 0))) || existsb (fun kv => String.eqb (y_digest kv.2) d) (map_to_list rows)
    with (IntegrityError "UNIQUE constraint failed: settlement_qualifications");
  stop_if block <? 0 with (IntegrityError "CHECK constraint failed");
  stop_if absent (rs !! rid) with (IntegrityError "FOREIGN KEY constraint failed");
  update (fun s => with_retained (<[(rid, 0) := mkRetainedRow d (qualification_to_dict q) (ref_to_dict ref) root]> (retained s)) s).

(** [screen_lane] is the column of the reservation. The queue's view of the retained row is [Store.qualifications]. *)
Definition retain_complete_pass (rid screen_lane : string) (q : SettlementQualification) (ref : EvidenceArtifactRef)
    (root : string) (current_finalized_block : Z) : T SettlementCandidate :=
  rows ← asks (fun s => retained_rows rid (retained s));
  stop_if negb (is_nil rows) || negb (String.eqb screen_lane "primary")
    with (IntakeError "qualification is already retained; a second run is not accepted");
  _ ← retain_qualification rid q ref root current_finalized_block;
  _ ← queue (modify (fun d => mkDb (reservations d) (leases d) (lease_members d) (lease_events d) (recoveries d)
        (recovery_events d) (dispositions d) (Store.qualifications d ++ [(rid, 0, current_finalized_block)]) (sla_resets d)
        (segments d) (stacks d) (cursor d) (cost_payments d) (cost_credits d)));
  _insert_candidate q root.

(** ** Stacks and the state of the store *)

Definition genesis_digest (m : EvaluationStackManifest) (tree : string) : result string :=
  d ← manifest_digest m;
  canonical_digest "cacheon.chain.evaluation-stack-genesis"
    (str_dict [("arena_digest", VStr (Stack.s_arena m)); ("stack_digest", VStr d); ("tree_digest", VStr tree)]) 1.

(** The stacks of [Store] are the competitions of these rows. *)
Definition _initialize_evaluation_stack_row (competition : string) (m : EvaluationStackManifest) (tree : string) : T () :=
  _ ← of_result (require_sha256_hex (VStr tree) "tree_digest");
  genesis ← of_result (genesis_digest m tree);
  d ← of_result (manifest_digest m);
  rows ← asks stack_rows;
  match rows !! Stack.s_arena m with
  | None =>
      _ ← update (fun s => with_stacks (<[Stack.s_arena m :=
            mkStackRow (Stack.s_arena m) 0 d tree (manifest_to_dict m) genesis competition]> (stack_rows s)) s);
      queue (modify (fun d => mkDb (reservations d) (leases d) (lease_members d) (lease_events d) (recoveries d)
        (recovery_events d) (dispositions d) (Store.qualifications d) (sla_resets d) (segments d) (stacks d ++ [competition])
        (cursor d) (cost_payments d) (cost_credits d)))
  | Some w =>
      stop_if negb (String.eqb (w_competition w) competition)
        with (IntakeError "commission belongs to another competition arena");
      stop_if (w_generation w =? 0)
              && (negb (String.eqb (w_digest w) d) || negb (String.eqb (w_tree w) tree)
                  || negb (bool_decide (w_json w = manifest_to_dict m)))
        with (IntakeError "genesis qualification names another incumbent");
      mret tt
  end.

Definition settlement_state_digest : T string :=
  head ← _event_head;
  ws ← asks (fun s => sorted_by w_arena (map_to_list (stack_rows s)).*2);
  ks ← asks (fun s => sorted_by k_reservation (map_to_list (candidates s)).*2);
  of_result (canonical_digest "cacheon.chain.settlement-state"
    (str_dict
      [("candidates", VTuple ((fun k => VTuple [VStr (k_digest k); VStr (k_status k); VInt (k_generation k)]) <$> ks));
       ("event_head", VStr head.2); ("event_sequence", VInt head.1);
       ("stacks", VTuple ((fun w => VTuple [VStr (w_arena w); VInt (w_generation w); VStr (w_digest w); VStr (w_tree w)]) <$> ws))]) 1).

(** [active_reward_claims], the standing half *)
Definition read_claim (row : claim_row) : result StandingRewardClaim :=
  claim ← reread value_errors "standing reward claim is corrupt: " (standing_from_dict (h_json row));
  d ← standing_digest claim;
  raise_if negb (String.eqb d (h_digest row)) with (IntakeError "standing reward claim digest differs");
  Ok claim.

Definition active_standing_claims : T (list StandingRewardClaim) :=
  rows ← asks (fun s => sorted_by fst (filter (fun kv => h_status kv.2 = "active") (map_to_list (standing s))));
  of_result (map_result (fun kv => read_claim kv.2) rows).
