(* ===== verification/Baseline.v ===== *)
(** * Baseline segments

    [cacheon/chain/baseline_segments.py]: the incumbent that each queued
    reservation is measured against ([bind_reservation_baseline_segment],
    [bind_unbound_queue_to_stack], [reservation_baseline_segment]) and the gate
    that binds unmeasured work to the operator's commission
    ([commission_boundary]); and the commissioning of a stack
    ([initialize_evaluation_stack] of [cacheon/chain/intake.py]). The reason
    recorded with a binding is checked and not kept. *)

From S2P Require Import Prelude PyVal Dict Identity Strict EvidenceRef Fingerprint Stack Qualification Candidate Settlement Economics Effects Leases Recovery Store Queue StackState SettlementRows SettlementStore.

Open Scope Z_scope.

Definition with_segments (gs : gmap string segment) (d : database) : database :=
  mkDb (reservations d) (leases d) (lease_members d) (lease_events d) (recoveries d) (recovery_events d) (dispositions d)
    (Store.qualifications d) (sla_resets d) gs (stacks d) (cursor d) (cost_payments d) (cost_credits d).

Definition segment_of (s : EvaluationStackState) : result segment :=
  d ← manifest_digest (st_manifest s);
  Ok (mkSegment (st_arena s) (st_generation s) d (st_tree s) (manifest_to_dict (st_manifest s)) (st_transition s)).

Definition reservation_baseline_segment (rid : string) : M (option EvaluationStackState) :=
  _ ← lift (require_sha256_hex (VStr rid) "reservation_id");
  gs ← gets segments;
  match gs !! rid with
  | None => mret None
  | Some g => s ← lift (state_of_segment g "reservation baseline segment"); mret (Some s)
  end.

Section Segments.
Context (competition : string).

(** The reservation itself, and the queued rows of its retry group in their order. *)
Definition bound_together (rid : string) (r : reservation) (d : database) : list string :=
  if String.eqb (r_retry_group r) "" then [rid]
  else rid :: filter (fun k => k <> rid)
         (r_id <$> select_rows (fun k => bool_decide (r_status k = published) && in_group (r_retry_group r) k) r_retry_position d).

(** Bindings to another arena: it was retired from under the row. *)
Definition retired_arenas (arena : string) (ids : list string) (d : database) : list string :=
  sorted_id (filter (fun a => a <> arena) (omap (fun rid => Store.s_arena <$> segments d !! rid) ids)).

Definition unbind (arena : string) (ids : list string) (d : database) : database :=
  with_segments (filter (fun kv : string * segment => kv.1 ∉ ids \/ Store.s_arena kv.2 = arena) (segments d)) d.

Definition bind_if_unbound (g : segment) (rid : string) (d : database) : database :=
  with_segments (match segments d !! rid with Some _ => segments d | None => <[rid := g]> (segments d) end) d.

(** [reason], and the arena that the binding left. *)
Definition rebound_reason (reason : string) (retired : list string) : string :=
  match retired with
  | [] => reason
  | a :: _ => string_app reason (string_app ":rebound_from_" (concat_strings (take 16 (code_points a))))
  end.

(** The binding that a retry group already has. *)
Definition group_state (ids : list string) (state : EvaluationStackState) : M EvaluationStackState :=
  gs ← gets segments;
  bound ← collect reservation_baseline_segment (filter (fun rid => is_Some (gs !! rid)) ids);
  match omap id bound with
  | [] => mret state
  | first :: rest =>
      fail_if existsb (fun s => negb (bool_decide (s = first))) rest
        with (IntakeError "qualification retry group spans baseline segments");
      mret first
  end.

Definition bind_reservation_baseline_segment (rid : string) (state : EvaluationStackState) (reason : string) : M () :=
  fail_if negb (truthy reason) || (128 <? py_len reason) with (IntakeError "reservation baseline binding is malformed");
  d ← gets id;
  match reservations d !! rid with
  | None => throw (IntakeError "reservation baseline binding lost its reservation")
  | Some r =>
      fail_if negb (String.eqb (Store.r_arena r) competition) with (IntakeError "baseline belongs to another competition arena");
      let ids := bound_together rid r d in
      let retired := retired_arenas (st_arena state) ids d in
      _ ← modify (unbind (st_arena state) ids);
      fail_if 128 <? py_len (rebound_reason reason retired) with (IntakeError "reservation baseline rebind reason is malformed");
      state ← (if String.eqb (r_retry_group r) "" then mret state else group_state ids state);
      g ← lift (segment_of state);
      each (fun k => modify (bind_if_unbound g k)) ids
  end.

Definition is_unbound (d : database) (r : reservation) : bool :=
  in_statuses r _ACTIVE && String.eqb (Store.r_arena r) competition && absent (segments d !! r_id r).

(** The statement has no order; the rows are taken as [all_rows] lists them. *)
Definition bind_unbound_queue_to_stack (state : EvaluationStackState) (reason : string) : M () :=
  rows ← gets (fun d => filter (fun r => is_unbound d r = true) (all_rows d));
  each (fun r => bind_reservation_baseline_segment (r_id r) state reason) rows.

(** [initialize_evaluation_stack] *)
Definition initialize_evaluation_stack (m : EvaluationStackManifest) (tree : string) : T EvaluationStackState :=
  _ ← atomic (
    _ ← _initialize_evaluation_stack_row competition m tree;
    state ← evaluation_stack (Stack.s_arena m);
    queue (bind_unbound_queue_to_stack state "initialize_stack"));
  state ← evaluation_stack (Stack.s_arena m);
  d ← of_result (manifest_digest (st_manifest state)); d' ← of_result (manifest_digest m);
  stop_if negb (String.eqb d d') || negb (String.eqb (st_tree state) tree)
    with (IntakeError "evaluation stack is already initialized differently");
  mret state.

(** ** The gate of the commission *)

Definition _REBINDABLE : list status := [published; transport_retry].

Definition is_unmeasured (d : database) (r : reservation) : bool :=
  in_statuses r _REBINDABLE && String.eqb (Store.r_arena r) competition && negb (has_active_member (r_id r) d)
  && match qualifications_of (r_id r) d with [] => true | _ => false end.

(** The manifest digest and the tree of a binding. *)
Definition incumbent_of (s : EvaluationStackState) : result (string * string) :=
  d ← manifest_digest (st_manifest s); Ok (d, st_tree s).

Definition rebind (commissioned : EvaluationStackState) (r : reservation) : M () :=
  prior ← reservation_baseline_segment (r_id r);
  sealed ← lift (incumbent_of commissioned);
  same ← lift (match prior with
               | Some p => i ← incumbent_of p; Ok (bool_decide (i = sealed))
               | None => Ok false
               end);
  if (same : bool) then mret tt
  else
    _ ← modify (fun d => with_segments (delete (r_id r) (segments d)) d);
    bind_reservation_baseline_segment (r_id r) commissioned "commissioned_incumbent".

Definition commissioned_state (m : EvaluationStackManifest) (tree : string) : result EvaluationStackState :=
  genesis ← genesis_digest m tree;
  make_stack_state (Stack.s_arena m) 0 m tree genesis.

(** The binding of the oldest active row, opened. *)
Definition queue_baseline_state : M (option EvaluationStackState) :=
  head ← gets (select_rows (fun r => in_statuses r _ACTIVE && String.eqb (Store.r_arena r) competition) arrival_key);
  gs ← gets segments;
  match head with
  | r :: _ => match gs !! r_id r with Some g => s ← lift (state_of_segment g "qualification queue baseline"); mret (Some s) | None => mret None end
  | [] => mret None
  end.

Definition not_initialized (e : exn) : bool :=
  bool_decide (exn_class e = "IntakeError") && String.eqb (exn_message e) "evaluation stack is not initialized".

(** [None] when the queue drains under [incumbent], else the commissioned stack and the one its head requires. *)
Definition commission_boundary (incumbent : EvaluationStackManifest) (tree : string) : T (option (string * string * string)) :=
  _ ← catch (fun e => if not_initialized e then Some (initialize_evaluation_stack incumbent tree) else None)
            (evaluation_stack (Stack.s_arena incumbent));
  commissioned ← of_result (commissioned_state incumbent tree);
  _ ← queue (transaction (
        rows ← gets (fun d => filter (fun r => is_unmeasured d r = true) (all_rows d));
        each (rebind commissioned) rows));
  required ← queue queue_baseline_state;
  match required with
  | None => mret None
  | Some r =>
      i ← of_result (incumbent_of r);
      d ← of_result (manifest_digest incumbent);
      mret (if bool_decide (i = (d, tree)) then None else Some (d, i.1, i.2))
  end.
End Segments.
