(* ===== verification/QualificationProgress.v ===== *)
(** * Qualification in the intake database

    [cacheon/chain/intake.py]: a reservation enters qualification
    ([mark_qualifying]), and the batch of a cohort's verdicts is stored: the
    dispositions, the retained passes, the rows that run again and the rows that
    are decided ([apply_qualification_batch]). The columns of a disposition that
    no modelled operation reads are not kept. *)

From S2P Require Import Prelude PyVal Dict Identity Strict EvidenceRef Fingerprint Stack Qualification Candidate Settlement Economics Effects Leases Recovery Store Queue LeaseStore Admission Copies QualificationIntake StackState SettlementRows SettlementStore Baseline.

Open Scope Z_scope.

(** The length of the text that [json.dumps] writes with its default escapes, given the one without them. *)
Definition escaped_size (c : string) : nat :=
  match String.length c with 1 => 1 | 4 => 12 | _ => 6 end%nat.
Definition ascii_size (s : string) : Z := Z.of_nat (sum_list (escaped_size <$> code_points s)).

Definition stamp_authority (lane : string) (json : option pyval) (x : columns) : columns :=
  mkColumns (x_block_hash x) (x_url x) (x_payload x) (x_invalid x) (x_payment_block x) (x_payment_index x) (x_epoch x)
    (x_target x) (x_members x) (x_fingerprint x) (x_root x) lane json.

(** The columns a verdict or a claim writes; the rest of the row stays. *)
Definition decide_row (st : status) (authority evidence service group : string) (position : Z) (decision reason : string)
    (x : columns) (r : reservation) : reservation :=
  mkReservation (r_id r) (r_block r) (r_event_index r) (r_event_subindex r) (r_hotkey r) (r_content_hash r)
    st (r_attempts r) (r_publication r) authority evidence service group position decision reason (r_arena r) x.

Section Progress.
Context (cfg : config).

(** ** Entering qualification *)

Definition _unambiguous_evaluation_stack (digest : string) : T (option EvaluationStackState) :=
  rows ← asks stack_rows;
  match rows !! digest with
  | Some w => Some <$> of_result (_evaluation_stack_state_from_row w "evaluation stack state")
  | None =>
      if truthy digest then mret None
      else
        match sorted_by w_arena (filter (fun w => w_competition w = competition_arena cfg) (map_to_list rows).*2) with
        | [w] => Some <$> of_result (_evaluation_stack_state_from_row w "evaluation stack state")
        | _ => mret None
        end
  end.

Definition qualifying_row (lane authority service : string) (manifest : pyval) (r : reservation) : reservation :=
  decide_row qualifying authority (r_evidence r) service (r_retry_group r) (r_retry_position r) "" ""
    (stamp_authority lane (Some manifest) (r_columns r)) r.

(** The keys of [authority_manifest] are texts and its values hold no floats, as in every manifest of
    [QualificationAuthorityManifest]. *)
Definition mark_qualifying (rid authority : string) (authority_manifest : pyval) (service : string) : T IntakeReservation :=
  _ ← of_result (require_sha256_hex (VStr authority) "qualification_authority_digest");
  stop_if negb match authority_manifest with VDict (_ :: _) => true | _ => false end
    with (IntakeError "qualification authority manifest is not a closed object");
  encoded ← of_result (dumps authority_manifest);
  stop_if Z.shiftl 1 20 <? ascii_size encoded with (IntakeError "qualification authority manifest is oversized");
  _ ← of_result (require_sha256_hex (VStr service) "arena service digest");
  _ ← atomic (
    _ ← queue (_require_evaluation_mutation_authority rid);
    row ← queue (opened rid);
    stop_if negb (String.eqb (Store.r_arena (i_row row)) (competition_arena cfg))
      with (IntakeError "reservation belongs to another competition arena");
    stop_if negb (in_statuses (i_row row) [published; reproduction_pending])
      with (IntakeError "only published intake may enter qualification");
    stack ← _unambiguous_evaluation_stack service;
    _ ← match stack with
        | Some s => if st_generation s =? 0 then queue (bind_reservation_baseline_segment (competition_arena cfg) rid s "mark_qualifying")
                    else mret tt
        | None => mret tt
        end;
    let lane := if bool_decide (r_status (i_row row) = reproduction_pending) then "reproduction" else "primary" in
    queue (update_reservation rid (qualifying_row lane authority service authority_manifest)));
  queue (opened rid).

(** ** The verdicts of a cohort *)

(** Group digest, position in the group, and reason. *)
Definition retry_entry : Type := string * Z * string.

Definition retry_group (b : QualificationIntakeBatch) (p : QualificationRetryPlan) (index : Z) (group : list string) : result string :=
  canonical_digest "cacheon.chain.qualification-retry-group"
    (str_dict [("authority_manifest_digest", VStr (b_authority b)); ("group_index", VInt index);
               ("members", VList (VStr <$> group)); ("strategy", VStr (rp_strategy p))]) 1.

Definition retry_entries (b : QualificationIntakeBatch) : result (list (string * retry_entry)) :=
  match b_plan b with
  | None => Ok []
  | Some p =>
      groups ← map_result (fun ig : Z * list string =>
          d ← retry_group b p ig.1 ig.2;
          Ok ((fun pr : Z * string => (pr.2, (d, pr.1, string_app "qualification_" (rp_strategy p)))) <$> enumerate ig.2))
        (enumerate (rp_groups p));
      Ok (concat groups)
  end.

(** [root.is_absolute() and root == Path(os.path.normpath(root))] of a path as [Path] spells it. *)
Definition canonical_root (root : string) : bool :=
  starts_with "/" root && negb (bool_decide (".." ∈ split_on slash root)).

Definition is_pass (o : QualificationIntakeOutcome) : bool := bool_decide (o_decision o = PASS).

(** The qualification is the one of this row and of this verdict. *)
Definition retainable (i : IntakeReservation) (f : SubmittedDeltaFingerprint) (b : QualificationIntakeBatch) (evidence : string)
    (o : QualificationIntakeOutcome) (q : SettlementQualification) : bool :=
  String.eqb (q_reservation q) (o_reservation o) && String.eqb (q_hotkey q) (a_hotkey (i_arrival i))
  && (Qualification.finalized_block q =? a_block (i_arrival i)) && (Qualification.event_index q =? a_index (i_arrival i))
  && (Qualification.event_subindex q =? a_subindex (i_arrival i)) && String.eqb (q_target q) (x_target (r_columns (i_row i)))
  && bool_decide (Qualification.members q = i_members i) && String.eqb (q_delta q) (f_selected f)
  && String.eqb (Qualification.authority q) (b_authority b) && String.eqb (Qualification.attempt q) evidence
  && bool_decide (o_report o = Some (Qualification.report q)).

Definition retain_pass (i : IntakeReservation) (f : SubmittedDeltaFingerprint) (b : QualificationIntakeBatch) (evidence : string)
    (ref : option EvidenceArtifactRef) (root : option string) (block : Z) (o : QualificationIntakeOutcome) : T () :=
  match o_settlement o with
  | None => mret tt
  | Some q =>
      stop_if negb (retainable i f b evidence o q) with (IntakeError "settlement qualification differs from retained PASS");
      _ ← evaluation_stack (q_arena q);
      match ref, root with
      | Some ref, Some root =>
          _ ← retain_complete_pass (o_reservation o) (x_lane (r_columns (i_row i))) q ref root block; mret tt
      | _, _ => raise (IntakeError "retained PASS evidence is incomplete")
      end
  end.

(** Only a bisection runs again by itself, and only while attempts are left. *)
Definition retry_status (lane reason : string) (attempts : Z) : status :=
  if String.eqb reason "qualification_bisect" && (attempts + 1 <? max_qualification_retries (policy cfg))
  then (if String.eqb lane "reproduction" then reproduction_pending else published) else held.

Definition final_status (d : QualificationDecision) : status :=
  match d with PASS => qualified | FAIL => failed | NO_DECISION => no_decision end.

Definition verdict_on (retry : option retry_entry) (attempts : Z) (evidence : string) (o : QualificationIntakeOutcome)
    (r : reservation) : reservation :=
  let x := stamp_authority (x_lane (r_columns r)) None (r_columns r) in
  match retry with
  | Some (group, position, reason) =>
      decide_row (retry_status (x_lane (r_columns r)) reason attempts) "" "" (r_service r) group position "" reason x r
  | None => decide_row (final_status (o_decision o)) "" evidence (r_service r) "" 0 (decision_text (o_decision o)) (o_reason o) x r
  end.

Definition attempts_of (rid : string) (s : settlement_db) : Z :=
  Z.of_nat (length (filter (fun k => k = rid) (dispositions (database_of s)))).

(** [INSERT INTO qualification_dispositions] *)
Definition insert_disposition (v : verdict_row) : T () :=
  _ ← queue (modify (fun d => with_dispositions (dispositions d ++ [d_reservation v]) d));
  update (fun s => with_verdicts (verdicts s ++ [v]) s).

(** The attempt that the outcome rests on, and the digest of its product. *)
Definition outcome_ref (b : QualificationIntakeBatch) (o : QualificationIntakeOutcome) : option EvidenceArtifactRef :=
  match o_attempt o with Some _ => b_ref b | None => None end.

Definition outcome_evidence (b : QualificationIntakeBatch) (o : QualificationIntakeOutcome) : string :=
  match outcome_ref b o with Some ref => ref_sha256 ref | None => default "" (o_failure o) end.

Definition apply_outcome (b : QualificationIntakeBatch) (retry : list (string * retry_entry)) (root : option string) (block : Z)
    (o : QualificationIntakeOutcome) : T () :=
  let rid := o_reservation o in
  row ← queue (opened rid);
  let differs := IntakeError "qualification batch differs from active authority" in
  stop_if negb (in_statuses (i_row row) [qualifying]) || negb (String.eqb (r_authority (i_row row)) (b_authority b)) with differs;
  match i_fingerprint row with
  | None => raise differs
  | Some f =>
      stop_if negb (String.eqb (f_selected f) (o_delta o)) with differs;
      let evidence := outcome_evidence b o in
      attempts ← asks (attempts_of rid);
      _ ← insert_disposition (mkVerdictRow rid evidence (b_authority b) (default "" (o_report o)) (decision_text (o_decision o)));
      _ ← retain_pass row f b evidence (outcome_ref b o) root block o;
      queue (update_reservation rid (verdict_on (dict_get rid retry) attempts evidence o))
  end.

Definition apply_qualification_batch (b : QualificationIntakeBatch) (block : Z) (root : option string) : T (list IntakeReservation) :=
  c ← asks (fun s => cursor (database_of s));
  stop_if (block <? 0) || match c with Some (n, _) => block <? n | None => false end
    with (IntakeError "qualification progress block is not finalized");
  stop_if existsb (fun o => is_pass o && negb (present (o_settlement o))) (b_outcomes b)
    with (IntakeError "PASS qualification lacks a settlement projection qualification");
  stop_if existsb is_pass (b_outcomes b) && negb match root with Some r => canonical_root r | None => false end
    with (IntakeError "PASS qualification lacks a canonical evidence root");
  retry ← of_result (retry_entries b);
  _ ← atomic (run_all (apply_outcome b retry root block) (b_outcomes b));
  queue (collect opened (o_reservation <$> b_outcomes b)).
End Progress.
