(* ===== verification/SettlementJournal.v ===== *)
(** * The settlement store: runs, lineage walks, and the event journal

    How the operations of [SettlementStore] run, which part of the database each
    of them writes, why the walk over a lineage ends, and the journal as one
    chain of events. *)

From S2P Require Import Prelude PyVal Dict Identity Strict Numbers EvidenceRef Stack StackContracts Qualification Candidate Settlement SettlementContracts Economics Effects Leases Recovery Store Queue StackState SettlementRows SettlementStore.

Open Scope Z_scope.

Lemma existsb_false {A} (f : A -> bool) l x : existsb f l = false -> x ∈ l -> f x = false.
Proof.
  induction l as [|y l IH]; simpl; [by intros _ ?%elem_of_nil|]. intros [Hy Hl]%orb_false_iff [->|Hx]%elem_of_cons; auto.
Qed.

(** ** Runs that return *)

Lemma asks_run {A} (f : settlement_db -> A) s s' a : asks f s = (s', Ok a) <-> s' = s /\ a = f s.
Proof. unfold asks. naive_solver. Qed.

Lemma update_run (f : settlement_db -> settlement_db) s s' u : update f s = (s', Ok u) <-> s' = f s.
Proof. unfold update. destruct u. naive_solver. Qed.

Lemma of_result_run {A} (r : result A) (s s' : settlement_db) a : of_result r s = (s', Ok a) <-> s' = s /\ r = Ok a.
Proof. unfold of_result. naive_solver. Qed.

Lemma t_ret_run {A} (a b : A) (s s' : settlement_db) : (mret a : T A) s = (s', Ok b) <-> s' = s /\ b = a.
Proof. unfold mret, ST_ret. naive_solver. Qed.

Lemma stop_run {A} (b : bool) e (m : T A) s s' a :
  (if b then raise e else m) s = (s', Ok a) <-> b = false /\ m s = (s', Ok a).
Proof. destruct b; [|naive_solver]. unfold raise. naive_solver. Qed.

Lemma atomic_run {A} (m : T A) s s' a : atomic m s = (s', Ok a) -> m s = (s', Ok a).
Proof. unfold atomic. destruct (m s) as [? [?|?]]; naive_solver. Qed.

Lemma atomic_refused {A} (m : T A) s s' e : atomic m s = (s', Raise e) -> s' = s.
Proof. unfold atomic. destruct (m s) as [? [?|?]]; naive_solver. Qed.

Lemma queue_run {A} (m : M A) s s' a :
  queue m s = (s', Ok a) <-> exists i, m (intake s) = (i, Ok a) /\ s' = with_intake i s.
Proof. unfold queue, zoom. destruct (m (intake s)) as [i r]. naive_solver. Qed.

Lemma with_intake_id s : with_intake (intake s) s = s.
Proof. by destruct s. Qed.

Lemma queue_get_run rid s s' r :
  queue (get rid) s = (s', Ok r) <-> s' = s /\ reservations (database_of s) !! rid = Some r.
Proof.
  rewrite queue_run. setoid_rewrite get_ok. split.
  - intros (i & [-> Hr] & ->). by rewrite with_intake_id.
  - intros [-> Hr]. exists (intake s). by rewrite with_intake_id.
Qed.

(** Split a run that returned into its statements. *)
Ltac inv_t :=
  repeat match goal with
  | H : (_ ≫= _) _ = (_, Ok _) |- _ =>
      let s := fresh "mid" in let a := fresh "x" in let Hx := fresh "Hx" in
      apply bind_run in H as (s & a & Hx & H); cbv beta in H
  | H : (_ <$> _) _ = (_, Ok _) |- _ =>
      let a := fresh "x" in apply fmap_run in H as (a & H & ?); subst
  | H : asks _ _ = (_, Ok _) |- _ => apply asks_run in H as [? ?]; subst
  | H : update _ _ = (_, Ok _) |- _ => apply update_run in H; subst
  | H : of_result _ _ = (_, Ok _) |- _ => apply of_result_run in H as [? H]; subst
  | H : mret _ _ = (_, Ok _) |- _ => apply t_ret_run in H as [? ?]; subst
  | H : raise _ _ = (_, Ok _) |- _ => discriminate H
  | H : atomic _ _ = (_, Ok _) |- _ => apply atomic_run in H
  | H : queue (get _) _ = (_, Ok _) |- _ => apply queue_get_run in H as [? H]; subst
  | H : (if _ then raise _ else _) _ = (_, Ok _) |- _ =>
      let E := fresh "Hf" in apply stop_run in H as [E H]
  end.

(** [P] holds after a loop when every round keeps it. *)
Lemma run_all_invariant {A} (P : settlement_db -> Prop) (f : A -> T ()) l s s' u :
  (forall x s s' u, x ∈ l -> P s -> f x s = (s', Ok u) -> P s') -> P s -> run_all f l s = (s', Ok u) -> P s'.
Proof.
  revert s. induction l as [|x l IH]; intros s Hf HP H; simpl in H; inv_t; [done|].
  eapply IH; [|eapply Hf; [by left|exact HP|exact Hx]|exact H]. intros. eapply Hf; [by right|..]; eauto.
Qed.

Lemma run_all_reads {A} (f : A -> T ()) l s s' u :
  (forall x s s' u, f x s = (s', Ok u) -> s' = s) -> run_all f l s = (s', Ok u) -> s' = s.
Proof. intros Hf. apply (run_all_invariant (fun k => k = s)); [|done]. intros x t t' v _ -> H. by eapply Hf. Qed.

(** ** Statements that only read *)

Lemma evaluation_stack_run arena s s' st :
  evaluation_stack arena s = (s', Ok st) <->
  s' = s /\ is_sha256_hex arena = true /\
  exists row, stack_rows s !! arena = Some row /\ _evaluation_stack_state_from_row row "evaluation stack state" = Ok st.
Proof.
  unfold evaluation_stack. split.
  - intros H. inv_t. unfold require_sha256_hex in Hx. destruct (is_sha256_hex arena) eqn:E; [|done].
    destruct (stack_rows s !! arena) as [row|]; inv_t. eauto.
  - intros (-> & Ha & row & Hr & Hs). unfold require_sha256_hex. rewrite Ha.
    unfold mbind, ST_bind, of_result, asks. by rewrite Hr, Hs.
Qed.

Lemma any_blocked_reads cohort cs s s' b : any_blocked cohort cs s = (s', Ok b) -> s' = s.
Proof.
  induction cs as [|c cs IH]; simpl; intros H; inv_t; [done|]. unfold _economic_blockers in Hx. inv_t.
  destruct (blockers_among _ _ _ _); [by apply IH|by inv_t].
Qed.

Lemma tips_reads scope s s' l : target_lineage_tips scope s = (s', Ok l) -> s' = s.
Proof. unfold target_lineage_tips. intros H. by inv_t. Qed.

Lemma head_run s s' h :
  _event_head s = (s', Ok h) <->
  s' = s /\ h = match newest_event (journal s) with None => (0, "") | Some row => (v_sequence row + 1, v_digest row) end.
Proof. unfold _event_head. split; [intros H; by inv_t|]. by intros [-> ->]. Qed.

(** ** The walk over a lineage ends *)

Section Walk.
Context (nodes : gmap (string * string * string) lineage_row) (scope target : string).

Definition visited (seen : list string) : gset (string * string * string) :=
  list_to_set ((fun a => (scope, target, a)) <$> seen).

Lemma visited_bound seen :
  NoDup seen -> (forall a, a ∈ seen -> is_Some (nodes !! (scope, target, a))) -> (length seen <= size nodes)%nat.
Proof.
  intros Hd Hs. rewrite <- size_dom. transitivity (size (visited seen)).
  - unfold visited. rewrite size_list_to_set; [by rewrite length_fmap|].
    by apply (NoDup_fmap_2 (fun a => (scope, target, a)) seen).
  - apply subseteq_size. intros k. unfold visited. rewrite elem_of_list_to_set, list_elem_of_fmap, elem_of_dom.
    intros (a & -> & Ha). by apply Hs.
Qed.

Lemma walk_ends fuel artifact seen found :
  NoDup seen -> (forall a, a ∈ seen -> is_Some (nodes !! (scope, target, a))) ->
  (size nodes + 1 < fuel + length seen)%nat ->
  walk_lineage nodes scope target fuel artifact seen found <> None.
Proof.
  revert artifact seen found. induction fuel as [|fuel IH]; intros artifact seen found Hd Hs Hf; simpl.
  - pose proof (visited_bound seen Hd Hs). lia.
  - destruct (String.eqb artifact ""); [done|]. case_bool_decide as Ha; [done|].
    destruct (nodes !! (scope, target, artifact)) as [row|] eqn:En; [|by destruct found].
    destruct (make_node _ _ _ _); [|done]. apply IH.
    + by constructor.
    + intros x [->|Hx]%elem_of_cons; [by rewrite En|by apply Hs].
    + simpl. lia.
Qed.
End Walk.

Lemma walk_more_fuel nodes scope target fuel artifact seen found r :
  walk_lineage nodes scope target fuel artifact seen found = Some r ->
  walk_lineage nodes scope target (S fuel) artifact seen found = Some r.
Proof.
  revert artifact seen found. induction fuel as [|fuel IH]; intros artifact seen found H; [done|].
  cbn -[make_node] in H |- *. destruct (String.eqb artifact ""); [done|]. case_bool_decide; [done|].
  destruct (nodes !! _) as [row|]; [|done]. destruct (make_node _ _ _ _); [|done]. by apply IH.
Qed.

(** Reopening a lineage always ends: on every table of nodes, cyclic or broken ones included, the walk from
    a tip towards its root returns within [size nodes + 2] rounds, and more rounds would not change what it
    returns. *)
Theorem lineage_walk_ends (nodes : gmap (string * string * string) lineage_row) (scope target artifact : string) :
  exists r, forall extra, walk_lineage nodes scope target (extra + walk_fuel nodes) artifact [] [] = Some r.
Proof.
  destruct (walk_lineage nodes scope target (walk_fuel nodes) artifact [] []) as [r|] eqn:E.
  - exists r. induction extra as [|extra IH]; [done|]. by apply walk_more_fuel.
  - destruct (walk_ends nodes scope target (walk_fuel nodes) artifact [] []); [constructor|by intros ? ?%elem_of_nil|..|done].
    unfold walk_fuel. simpl. lia.
Qed.

(** ** The journal as a chain *)

(** A row of the journal stores this event, under its digest. *)
Definition stores (row : event_row) (e : SettlementEvent) : Prop :=
  v_sequence row = Settlement.sequence e /\ Settlement.event_digest e = Ok (v_digest row) /\ v_id row = v_digest row /\
  v_type row = event_value (Settlement.event_type e) /\ v_target row = event_target e /\ v_json row = event_to_dict e.

(** The stored events are one chain from number 0, with head [n] and [h]. *)
Definition journal_chain (rows : list event_row) (n : Z) (h : string) : Prop :=
  exists es, Forall2 stores rows es /\ chain 0 "" es n h.

Lemma event_chain_last n p es m h :
  chain n p es m h -> match last es with None => m = n /\ h = p | Some e => m = Settlement.sequence e + 1 /\ Settlement.event_digest e = Ok h end.
Proof.
  induction 1 as [|n p e es d m h Hs Hp Hd Hc IH]; [done|]. subst n. rewrite last_cons. destruct (last es); [done|].
  by destruct IH as [-> ->].
Qed.

Lemma chain_sequences n p es m h : chain n p es m h -> Settlement.sequence <$> es = seqZ n (Z.of_nat (length es)).
Proof.
  induction 1 as [|n p e es d m h Hs Hp Hd Hc IH]; [done|]. rewrite fmap_cons, IH, Hs. simpl length.
  rewrite Nat2Z.inj_succ, (seqZ_cons n) by lia. f_equal. f_equal; lia.
Qed.

Lemma seqZ_sorted n m : StronglySorted (fun x y => cmp_leb x y = true) (seqZ n m).
Proof.
  unfold seqZ. generalize 0%nat. induction (Z.to_nat m) as [|k IH]; intros i; simpl; [constructor|].
  constructor; [apply IH|]. apply Forall_fmap, Forall_forall. intros j Hj%elem_of_seq. simpl.
  rewrite cmp_leb_Z. apply Z.leb_le. lia.
Qed.

Lemma sorted_fmap {A B} (R : B -> B -> Prop) (f : A -> B) l : StronglySorted R (f <$> l) -> StronglySorted (fun x y => R (f x) (f y)) l.
Proof.
  induction l as [|x l IH]; intros H; [constructor|]. inversion H as [|?? Hs Hf]; subst. constructor; [by apply IH|].
  by rewrite Forall_fmap in Hf.
Qed.

Lemma stores_sequences rows es : Forall2 stores rows es -> v_sequence <$> rows = Settlement.sequence <$> es.
Proof. induction 1 as [|row e rows es (E & _) _ IH]; [done|]. by rewrite !fmap_cons, IH, E. Qed.

Lemma stores_last rows es :
  Forall2 stores rows es -> match last rows, last es with
                            | None, None => True | Some row, Some e => stores row e | _, _ => False end.
Proof.
  induction 1 as [|row e rows es H Hs IH]; [done|]. rewrite !last_cons. by destruct (last rows), (last es).
Qed.

Lemma newest_of_chain rows n h :
  journal_chain rows n h ->
  match newest_event rows with None => (0, "") | Some row => (v_sequence row + 1, v_digest row) end = (n, h).
Proof.
  intros (es & Hs & Hc). unfold newest_event. rewrite sorted_by_fix.
  - pose proof (stores_last _ _ Hs) as Hl. pose proof (event_chain_last _ _ _ _ _ Hc) as Hn.
    revert Hl Hn. destruct (last rows) as [row|], (last es) as [e|]; try done; [|by intros _ [-> ->]].
    cbv beta iota. intros (E & Hd & _) [-> Hh]. rewrite Hd in Hh. injection Hh as ->. by rewrite E.
  - apply (sorted_fmap (fun x y => cmp_leb x y = true)).
    rewrite (stores_sequences _ _ Hs), (chain_sequences _ _ _ _ _ Hc). apply seqZ_sorted.
Qed.

Lemma journal_chain_head s n h : journal_chain (journal s) n h -> _event_head s = (s, Ok (n, h)).
Proof. intros Hc. apply head_run. by rewrite (newest_of_chain _ _ _ Hc). Qed.

Lemma journal_chain_extend rows n h new es m h' :
  journal_chain rows n h -> Forall2 stores new es -> chain n h es m h' -> journal_chain (rows ++ new) m h'.
Proof.
  intros (old & Hs & Hc) Hn Hc'. exists (old ++ es). split; [by apply Forall2_app|by eapply chain_app].
Qed.
