(* ===== verification/BaselineContracts.v ===== *)
(** * What the commission gate promises

    Which baseline a queued reservation has once the gate of the commission has
    run ([commission_boundary] of [cacheon/chain/baseline_segments.py]), and a
    retry group that the gate does not repair. *)

From S2P Require Import Prelude PyVal Dict Identity Strict EvidenceRef Stack Qualification Candidate Settlement Economics Effects Leases Recovery Store Queue LeaseInvariant LeaseSafety StackState SettlementRows SettlementStore SettlementJournal Baseline.

Open Scope Z_scope.

(** Only the bindings differ. *)
Definition only_segments (d d' : database) : Prop := exists gs, d' = with_segments gs d.

Lemma only_segments_refl d : only_segments d d.
Proof. exists (segments d). by destruct d. Qed.

Lemma only_segments_trans d1 d2 d3 : only_segments d1 d2 -> only_segments d2 d3 -> only_segments d1 d3.
Proof. intros [gs ->] [gs' ->]. by exists gs'. Qed.

Lemma baseline_segment_reads rid s s' o : reservation_baseline_segment rid s = (s', Ok o) ->
  s' = s /\ match segments (db s) !! rid with
            | Some g => exists st, state_of_segment g "reservation baseline segment" = Ok st /\ o = Some st
            | None => o = None
            end.
Proof.
  unfold reservation_baseline_segment. intros H. inv_m. destruct (segments (db s) !! rid) as [g|]; inv_m; [|done]. eauto.
Qed.

Section Gate.
Context (competition : string).

Lemma bind_each g ids s s' u : each (fun k => modify (bind_if_unbound g k)) ids s = (s', Ok u) ->
  only_segments (db s) (db s') /\
  forall k, segments (db s') !! k =
    if decide (k ∈ ids) then Some (default g (segments (db s) !! k)) else segments (db s) !! k.
Proof.
  revert s. induction ids as [|rid ids IH]; intros s H; simpl in H; inv_m; [split; [apply only_segments_refl|done]|].
  apply IH in H as [Ho Hk]. split.
  { eapply only_segments_trans; [|exact Ho]. unfold bind_if_unbound. cbn. eexists. done. }
  intros k. rewrite Hk. cbn [db bind_if_unbound with_segments segments].
  assert (Hone : match segments (db s) !! rid with Some _ => segments (db s) | None => <[rid:=g]> (segments (db s)) end !! k =
    if decide (k = rid) then Some (default g (segments (db s) !! k)) else segments (db s) !! k).
  { destruct (segments (db s) !! rid) as [g0|] eqn:E; case_decide as Hkr; subst; rewrite ?E; try done.
    - by rewrite lookup_insert_eq.
    - by rewrite lookup_insert_ne. }
  rewrite Hone. destruct (decide (k = rid)) as [->|Hne].
  - rewrite (decide_True (P := rid ∈ rid :: ids)) by by left. case_decide; [|done]. done.
  - destruct (decide (k ∈ ids)); [rewrite decide_True by (by right); done|]. rewrite decide_False; [done|]. set_solver.
Qed.

Lemma group_state_ok ids state s s' st : group_state ids state s = (s', Ok st) -> s' = s.
Proof.
  unfold group_state. intros H. inv_m.
  assert (Hr : forall l t t' o, collect reservation_baseline_segment l t = (t', Ok o) -> t' = t).
  { intros l t t' o Hc. refine (collect_invariant (fun x => x = t) _ _ _ _ _ _ eq_refl Hc).
    intros ? ? ? ? _ -> Hb. by apply baseline_segment_reads in Hb as [-> _]. }
  match goal with H : collect _ _ _ = _ |- _ => apply Hr in H as -> end.
  match goal with H : context [omap id ?l] |- _ => destruct (omap id l) end; by inv_m.
Qed.

(** The rows bound together end on one segment, or keep the one they had of this arena. *)
Lemma bind_effect rid state reason s s' u :
  bind_reservation_baseline_segment competition rid state reason s = (s', Ok u) ->
  exists r t st g, reservations (db s) !! rid = Some r /\ only_segments (db s) (db s') /\
    db t = unbind (st_arena state) (bound_together rid r (db s)) (db s) /\
    (if String.eqb (r_retry_group r) "" then st = state else group_state (bound_together rid r (db s)) state t = (t, Ok st)) /\
    segment_of st = Ok g /\
    forall k, segments (db s') !! k = if decide (k ∈ bound_together rid r (db s))
      then Some (default g (segments (db t) !! k)) else segments (db s) !! k.
Proof.
  unfold bind_reservation_baseline_segment. intros H. inv_m.
  unfold id in H. destruct (reservations (db s) !! rid) as [r|] eqn:Er; inv_m.
  set (ids := bound_together rid r (db s)) in *.
  set (t := mkStore (unbind (st_arena state) ids (db s)) (mutation_authority s) (recovery_authority s)) in *.
  match goal with H : each _ _ _ = _ |- _ => apply bind_each in H as [Ho Hk] end.
  match goal with H : segment_of ?x = Ok ?y |- _ => exists r, t, x, y end. split; [done|].
  match goal with H : (if _ then _ else _) t = (?t', Ok _) |- _ => assert (Et : t' = t) by
    (destruct (String.eqb (r_retry_group r) ""); inv_m; [done|]; by apply group_state_ok in H); rewrite Et in *; rename H into Hst end.
  split_and!; [eapply only_segments_trans; [|exact Ho]; cbn; eexists; done|done| |done|].
  - destruct (String.eqb (r_retry_group r) ""); inv_m; done.
  - intros k. rewrite Hk. fold ids. case_decide; [done|]. cbn. apply option_eq. intros h. rewrite map_lookup_filter_Some. cbn. naive_solver.
Qed.

Lemma unbind_lookup arena ids d k : segments (unbind arena ids d) !! k =
  match segments d !! k with Some old => if decide (k ∉ ids \/ Store.s_arena old = arena) then Some old else None | None => None end.
Proof.
  cbn. apply option_eq. intros g. rewrite map_lookup_filter_Some. cbn.
  destruct (segments d !! k) as [old|]; [case_decide|]; naive_solver.
Qed.

Lemma bind_ok_segments rid state reason s s' u :
  bind_reservation_baseline_segment competition rid state reason s = (s', Ok u) ->
  exists r, reservations (db s) !! rid = Some r /\ only_segments (db s) (db s') /\
    (forall k, k ∉ bound_together rid r (db s) -> segments (db s') !! k = segments (db s) !! k) /\
    (r_retry_group r = "" -> exists g, segment_of state = Ok g /\
       segments (db s') !! rid = Some (match segments (db s) !! rid with
         | Some old => if decide (Store.s_arena old = st_arena state) then old else g | None => g end)).
Proof.
  intros (r & t & st & g & Hr & Ho & Et & Hst & Hg & Hk)%bind_effect. exists r. split_and!; [done..| |].
  - intros k Hn. by rewrite Hk, decide_False.
  - intros Eg. rewrite Eg in Hst. cbn in Hst. subst st. exists g. split; [done|].
    assert (Hin : rid ∈ bound_together rid r (db s)) by (unfold bound_together; destruct (String.eqb (r_retry_group r) ""); by left).
    rewrite Hk, decide_True by done. rewrite Et, unbind_lookup. destruct (segments (db s) !! rid) as [old|]; [|done].
    destruct (decide (Store.s_arena old = st_arena state)) as [E|E]; [rewrite decide_True; [done|by right]|].
    rewrite decide_False; [done|tauto].
Qed.

Lemma groupless_apart d rid r k rk :
  lease_inv d -> reservations d !! k = Some rk -> r_retry_group rk = "" -> k <> rid -> k ∉ bound_together rid r d.
Proof.
  intros Hi Hk Hg Hne. unfold bound_together. destruct (String.eqb_spec (r_retry_group r) "") as [E|E]; [set_solver|].
  rewrite not_elem_of_cons. split; [done|]. rewrite list_elem_of_filter. intros [_ (y & -> & Hy)%list_elem_of_fmap].
  apply select_rows_elem in Hy as [Hp Hin]. apply all_rows_elem in Hin; [|done]. rewrite Hin in Hk. simplify_eq.
  apply andb_true_iff in Hp as [_ Hp]. unfold in_group in Hp. apply String.eqb_eq in Hp. congruence.
Qed.

Lemma only_segments_inv d d' : only_segments d d' -> lease_inv d -> lease_inv d'.
Proof. intros [gs ->] []. by split. Qed.

Lemma only_segments_unmeasured d d' r : only_segments d d' -> is_unmeasured competition d' r = is_unmeasured competition d r.
Proof. by intros [gs ->]. Qed.

(** The rows that are bound outside a retry group keep their binding. *)
Definition keeps_binding (d d' : database) : Prop :=
  only_segments d d' /\
  forall k rk g, reservations d !! k = Some rk -> r_retry_group rk = "" -> segments d !! k = Some g -> segments d' !! k = Some g.

Lemma bind_unbound_keeps st reason s s' u :
  lease_inv (db s) -> bind_unbound_queue_to_stack competition st reason s = (s', Ok u) -> keeps_binding (db s) (db s').
Proof.
  unfold bind_unbound_queue_to_stack. intros Hi H. inv_m.
  refine (each_invariant (fun t => keeps_binding (db s) (db t)) _ _ _ _ _ _ _ H); [|by split; [apply only_segments_refl|]].
  intros r t t' v [Hu Hr]%list_elem_of_filter [Ho Hk] Hb.
  apply bind_ok_segments in Hb as (r' & _ & Ho' & Hf & _).
  split; [by eapply only_segments_trans|]. intros k rk g Hrk Hg Hseg. rewrite Hf; [by eapply Hk|].
  eapply groupless_apart; [by eapply only_segments_inv|destruct Ho as [gs ->]; exact Hrk|done|].
  intros ->. unfold is_unbound, absent in Hu. rewrite Hseg in Hu. by rewrite andb_false_r in Hu.
Qed.

(** The binding names this stack and this tree. *)
Definition bound_to (d tree : string) (g : segment) : Prop := s_stack_digest g = d /\ s_tree_digest g = tree.

Lemma segment_of_bound st g : segment_of st = Ok g ->
  exists d, incumbent_of st = Ok (d, st_tree st) /\ bound_to d (st_tree st) g.
Proof.
  unfold segment_of, incumbent_of. intros (d & Hd & [= <-])%bind_Ok. exists d. by rewrite Hd.
Qed.

Lemma state_of_segment_bound g what st d tree :
  state_of_segment g what = Ok st -> incumbent_of st = Ok (d, tree) -> bound_to d tree g.
Proof.
  unfold state_of_segment, _evaluation_stack_state_from_row, incumbent_of, make_stack_state. cbn.
  intros (m & _ & (x & Hx & (d' & Hd & Hc)%bind_Ok)%bind_Ok)%bind_Ok (d2 & Hd2 & [= -> <-])%bind_Ok.
  repeat (apply bind_Ok in Hx as (? & _ & Hx)).
  destruct (_ || _) in Hx; [done|]. injection Hx as <-. destruct (_ || _) eqn:E in Hc; [done|]. injection Hc as <-. cbn in *.
  apply orb_false_iff in E as [E _]. apply negb_false_iff, String.eqb_eq in E. split; [congruence|done].
Qed.

Section Rebind.
Context (c : EvaluationStackState) (d tree : string) (Hc : incumbent_of c = Ok (d, tree)).

Definition bound_at (k : string) (db : database) : Prop := exists g, segments db !! k = Some g /\ bound_to d tree g.

Lemma rebind_effect r s s' u :
  lease_inv (db s) -> rebind competition c r s = (s', Ok u) ->
  only_segments (db s) (db s') /\
  forall k rk, reservations (db s) !! k = Some rk -> r_retry_group rk = "" ->
    if decide (k = r_id r) then bound_at k (db s') else segments (db s') !! k = segments (db s) !! k.
Proof.
  unfold rebind. intros Hi H. rewrite Hc in H. inv_m.
  match goal with H : reservation_baseline_segment _ _ = _ |- _ => apply baseline_segment_reads in H as [-> Hp] end.
  match goal with H : _ = Ok ?b |- _ => destruct b eqn:Eb end; inv_m.
  - split; [apply only_segments_refl|]. intros k rk Hk _. case_decide as Ek; [|done]. subst k.
    destruct (segments (db s) !! r_id r) as [g|] eqn:Eg; [|by subst].
    destruct Hp as (st & Hst & ->). match goal with H : (_ ≫= _) = Ok true |- _ => apply bind_Ok in H as (i & Hst' & [= Hb]) end.
    apply bool_decide_eq_true in Hb as ->. simplify_eq. exists g. split; [done|]. by eapply state_of_segment_bound.
  - match goal with H : bind_reservation_baseline_segment _ _ _ _ _ = _ |- _ => apply bind_ok_segments in H as (r' & Hr' & Ho & Hf & Hg) end.
    cbn in Hr', Ho, Hf, Hg. split; [eapply only_segments_trans; [|exact Ho]; eexists; done|].
    intros k rk Hk Ek. case_decide as Ekr.
    + subst k. rewrite Hr' in Hk. injection Hk as ->. destruct (Hg Ek) as (g & Hs & Hseg). rewrite lookup_delete_eq in Hseg.
      exists g. split; [done|]. apply segment_of_bound in Hs as (d' & Hd' & Hb). rewrite Hc in Hd'. injection Hd' as -> Et. by rewrite Et.
    + rewrite Hf; [by rewrite lookup_delete_ne|]. change (bound_together (r_id r) r' _) with (bound_together (r_id r) r' (db s)).
      by eapply groupless_apart.
Qed.

Lemma rebind_all rows s s' u :
  lease_inv (db s) -> each (rebind competition c) rows s = (s', Ok u) ->
  only_segments (db s) (db s') /\
  forall k rk, reservations (db s) !! k = Some rk -> r_retry_group rk = "" ->
    if decide (k ∈ r_id <$> rows) then bound_at k (db s') else segments (db s') !! k = segments (db s) !! k.
Proof.
  revert s. induction rows as [|r rows IH]; intros s Hi H; simpl in H; inv_m; [by split; [apply only_segments_refl|]|].
  match goal with H : rebind _ _ _ _ = _ |- _ => apply rebind_effect in H as [Ho Hk]; [|done] end.
  apply IH in H as [Ho' Hk']; [|by eapply only_segments_inv].
  split; [by eapply only_segments_trans|]. intros k rk Hr Eg.
  specialize (Hk k rk Hr Eg). assert (Hr' := Hr). destruct Ho as [gs Es]. rewrite Es in Hk'. specialize (Hk' k rk Hr' Eg).
  rewrite fmap_cons. destruct (decide (k ∈ r_id <$> rows)); [rewrite decide_True by (by right); done|].
  destruct (decide (k = r_id r)) as [->|]; [rewrite decide_True by (by left)|rewrite decide_False by set_solver].
  - destruct Hk as (g & Hg & Hb). exists g. split; [|done]. rewrite Hk'. cbn. by rewrite Es in Hg.
  - rewrite Hk'. cbn. by rewrite Es in Hk.
Qed.
End Rebind.

(** ** The gate *)

Definition with_stack_names (l : list string) (d : database) : database :=
  mkDb (reservations d) (leases d) (lease_members d) (lease_events d) (recoveries d) (recovery_events d) (dispositions d)
    (Store.qualifications d) (sla_resets d) (segments d) l (cursor d) (cost_payments d) (cost_credits d).

Lemma with_stack_names_id d : with_stack_names (stacks d) d = d.
Proof. by destruct d. Qed.

Lemma initialize_row_keeps m tree s s' u :
  _initialize_evaluation_stack_row competition m tree s = (s', Ok u) ->
  exists l, database_of s' = with_stack_names l (database_of s).
Proof.
  unfold _initialize_evaluation_stack_row. intros H. inv_t.
  match goal with H : context [stack_rows ?t !! ?a] |- _ => destruct (stack_rows t !! a) as [w|] end; inv_t.
  - eexists. symmetry. apply with_stack_names_id.
  - apply queue_run in H as (i & H & ->). inv_m. eexists. done.
Qed.

Lemma initialize_keeps m tree s s' st :
  lease_inv (database_of s) -> initialize_evaluation_stack competition m tree s = (s', Ok st) ->
  exists l, keeps_binding (with_stack_names l (database_of s)) (database_of s').
Proof.
  unfold initialize_evaluation_stack. intros Hi H. inv_t.
  repeat match goal with H : evaluation_stack _ _ = _ |- _ => apply evaluation_stack_run in H as [-> _] end.
  match goal with H : queue _ _ = _ |- _ => apply queue_run in H as (i & H & ->); apply bind_unbound_keeps in H end.
  - match goal with H : _initialize_evaluation_stack_row _ _ _ _ = _ |- _ => apply initialize_row_keeps in H as (l & E) end.
    exists l. by rewrite <- E.
  - match goal with H : _initialize_evaluation_stack_row _ _ _ _ = _ |- _ => apply initialize_row_keeps in H as (l & E) end.
    match goal with |- lease_inv (db (intake ?x)) => change (lease_inv (database_of x)) end. rewrite E. destruct Hi. by split.
Qed.

(** The oldest active row of the competition. *)
Definition queue_head (d : database) : option reservation :=
  head (select_rows (fun r => in_statuses r _ACTIVE && String.eqb (Store.r_arena r) competition) arrival_key d).

Lemma queue_baseline_reads s s' o : queue_baseline_state competition s = (s', Ok o) ->
  s' = s /\ match queue_head (db s) ≫= (fun r => segments (db s) !! r_id r) with
            | Some g => exists st, state_of_segment g "qualification queue baseline" = Ok st /\ o = Some st
            | None => o = None
            end.
Proof.
  unfold queue_baseline_state, queue_head. intros H. inv_m.
  destruct (select_rows _ _ _) as [|r rows]; inv_m; [done|]. cbn.
  destruct (segments (db s) !! r_id r) as [g|]; inv_m; [|done]. eauto.
Qed.

Lemma evaluation_stack_raised arena s s' e : evaluation_stack arena s = (s', Raise e) -> s' = s.
Proof.
  unfold evaluation_stack, of_result, asks, raise, mbind, ST_bind. destruct (require_sha256_hex _ _); [|naive_solver].
  destruct (stack_rows s !! arena); naive_solver.
Qed.

Lemma initialized_keeps m tree s s' st :
  lease_inv (database_of s) ->
  catch (fun e => if not_initialized e then Some (initialize_evaluation_stack competition m tree) else None)
    (evaluation_stack (Stack.s_arena m)) s = (s', Ok st) ->
  exists l, keeps_binding (with_stack_names l (database_of s)) (database_of s').
Proof.
  intros Hi [H|(s1 & e & k & H & Hk & Hr)]%catch_run.
  - apply evaluation_stack_run in H as [-> _]. exists (stacks (database_of s)). rewrite with_stack_names_id.
    by split; [apply only_segments_refl|].
  - apply evaluation_stack_raised in H as ->. destruct (not_initialized e); [|done]. injection Hk as <-. by eapply initialize_keeps.
Qed.

Lemma commissioned_incumbent m tree d st :
  manifest_digest m = Ok d -> commissioned_state m tree = Ok st -> incumbent_of st = Ok (d, tree).
Proof.
  unfold commissioned_state, make_stack_state, incumbent_of. intros Hd (g & _ & H)%bind_Ok.
  repeat (apply bind_Ok in H as (? & _ & H)). destruct (_ || _) in H; [done|]. injection H as <-. cbn. by rewrite Hd.
Qed.

(** C15: once the gate has returned, every row of the competition without qualification evidence or a lease, outside a
    retry group, is bound to the commissioned stack and tree; every other row outside a retry group keeps the binding
    it had; and the gate names a boundary exactly when the oldest active row is bound to another stack or tree. *)
Theorem commission_binds_unmeasured incumbent tree s s' b d :
  lease_inv (database_of s) -> manifest_digest incumbent = Ok d ->
  commission_boundary competition incumbent tree s = (s', Ok b) ->
  reservations (database_of s') = reservations (database_of s) /\
  (forall rid r, reservations (database_of s) !! rid = Some r -> r_retry_group r = "" ->
     if is_unmeasured competition (database_of s) r then bound_at d tree rid (database_of s')
     else forall g, segments (database_of s) !! rid = Some g -> segments (database_of s') !! rid = Some g) /\
  match queue_head (database_of s') ≫= (fun r => segments (database_of s') !! r_id r) with
  | Some g => if decide (bound_to d tree g) then b = None else b = Some (d, s_stack_digest g, s_tree_digest g)
  | None => b = None
  end.
Proof.
  unfold commission_boundary. intros Hi Hd H. inv_t.
  match goal with H : catch _ _ _ = _ |- _ => apply initialized_keeps in H as (l & [gs E0] & Hkeep); [|done] end.
  match goal with H : commissioned_state _ _ = _ |- _ => apply commissioned_incumbent with (1 := Hd) in H end.
  match goal with H : queue (transaction _) _ = _ |- _ => apply queue_run in H as (i & H & ->); inv_m; eapply rebind_all in H as [[gs' E1] Hre]; [|done|] end.
  2: { fold (database_of mid). rewrite E0. destruct Hi; by split. }
  fold (database_of mid) in E1, Hre.
  match goal with H : queue (queue_baseline_state _) _ = _ |- _ => apply queue_run in H as (i' & H & ->); apply queue_baseline_reads in H as [-> Hb] end.
  cbn in Hb. assert (Hs : database_of s' = db i /\
    match queue_head (db i) ≫= (fun r => segments (db i) !! r_id r) with
    | Some g => if decide (bound_to d tree g) then b = None else b = Some (d, s_stack_digest g, s_tree_digest g)
    | None => b = None
    end).
  { destruct (queue_head (db i) ≫= _) as [g|]; [destruct Hb as (st & Hst & ->)|subst x2]; inv_t; split; try done.
    match goal with H : incumbent_of st = Ok ?k |- _ => destruct k as [d1 t1]; apply state_of_segment_bound with (1 := Hst) in H as [<- <-] end.
    assert (x3 = d) as -> by congruence. unfold bound_to. case_decide as E; [destruct E as [-> ->]; by rewrite bool_decide_eq_true_2|].
    rewrite bool_decide_eq_false_2; [done|]. intros [= Ha Hb]. by apply E. }
  destruct Hs as [-> Hs]. split_and!; [by rewrite E1, E0| |exact Hs].
  intros rid r Hr Eg. assert (Hm : is_unmeasured competition (database_of mid) r = is_unmeasured competition (database_of s) r) by by rewrite E0.
  assert (Hi' : lease_inv (database_of mid)) by (rewrite E0; destruct Hi; by split).
  assert (Hr' : reservations (database_of mid) !! rid = Some r) by by rewrite E0.
  specialize (Hre rid r Hr' Eg). rewrite <- Hm. assert (Hid := inv_reservation_id _ Hi' _ _ Hr'). 
  match type of Hre with context [decide ?P] => assert (Hin : P <-> is_unmeasured competition (database_of mid) r = true) end.
  { split.
    - intros (r2 & -> & [Hu Hr2]%list_elem_of_filter)%list_elem_of_fmap. apply all_rows_elem in Hr2; [|done].
      rewrite Hr2 in Hr'. by injection Hr' as ->.
    - intros Hu. apply list_elem_of_fmap. exists r. split; [done|]. apply list_elem_of_filter. split; [done|].
      unfold all_rows. apply list_elem_of_fmap. exists (rid, r). split; [done|]. by apply elem_of_map_to_list. }
  destruct (is_unmeasured competition (database_of mid) r).
  - by rewrite decide_True in Hre by by apply Hin.
  - rewrite decide_False in Hre by (intros Hx; by apply Hin in Hx). intros g Hg. rewrite Hre. by eapply Hkeep.
Qed.

(** ** Retry groups at the gate *)

Lemma state_of_segment_back g what st : state_of_segment g what = Ok st -> segment_of st = Ok g /\ st_arena st = Store.s_arena g.
Proof.
  unfold state_of_segment, _evaluation_stack_state_from_row, segment_of, make_stack_state. cbn.
  intros (m & _ & (x & Hx & (d & Hd & Hc)%bind_Ok)%bind_Ok)%bind_Ok.
  repeat (apply bind_Ok in Hx as (? & _ & Hx)).
  destruct (_ || _) in Hx; [done|]. injection Hx as <-. destruct (_ || _) eqn:E in Hc; [done|]. injection Hc as <-. cbn.
  apply orb_false_iff in E as [E Ej]. apply negb_false_iff, String.eqb_eq in E. apply negb_false_iff, bool_decide_eq_true in Ej.
  rewrite Hd. cbn. rewrite E, Ej. by destruct g.
Qed.

Lemma collect_baseline l s s' os :
  collect reservation_baseline_segment l s = (s', Ok os) ->
  s' = s /\ Forall2 (fun rid o => match segments (db s) !! rid with
    | Some g => exists st, state_of_segment g "reservation baseline segment" = Ok st /\ o = Some st | None => o = None end) l os.
Proof.
  revert s os. induction l as [|rid l IH]; intros s os H; simpl in H; inv_m; [by split|].
  match goal with H : reservation_baseline_segment _ _ = _ |- _ => apply baseline_segment_reads in H as [-> Ho] end.
  match goal with H : collect _ _ _ = _ |- _ => apply IH in H as [-> Hl] end. split; [done|]. by constructor.
Qed.

(** A group whose bindings are all [g] is bound to [g]. *)
Lemma group_state_is ids state g s s' st :
  group_state ids state s = (s', Ok st) ->
  (forall k h, k ∈ ids -> segments (db s) !! k = Some h -> h = g) -> (exists k, k ∈ ids /\ is_Some (segments (db s) !! k)) ->
  segment_of st = Ok g.
Proof.
  unfold group_state. intros H Hall (k & Hk & Hs). inv_m.
  match goal with H : collect _ _ _ = _ |- _ => apply collect_baseline in H as [-> Hos] end.
  assert (Hbound : forall o, o ∈ omap id a0 -> segment_of o = Ok g).
  { intros o (o' & Ho & Eo)%list_elem_of_omap. unfold id in Eo. subst o'. apply list_elem_of_lookup in Ho as [i Hi].
    destruct (Forall2_lookup_r _ _ _ _ _ Hos Hi) as (rid & Hrid & Hm).
    apply list_elem_of_lookup_2 in Hrid as [Hsome Hin]%list_elem_of_filter.
    destruct (segments (db s) !! rid) as [h|] eqn:Eh; [|done]. destruct Hm as (st' & Hst & [= ->]).
    apply Hall in Eh as ->; [|done]. by eapply state_of_segment_back. }
  match goal with H : context [omap id ?l] |- _ => destruct (omap id l) as [|o rest] eqn:Eo end; inv_m.
  - exfalso. assert (Hin : k ∈ filter (fun rid => is_Some (segments (db s) !! rid)) ids) by by apply list_elem_of_filter.
    apply list_elem_of_lookup in Hin as [i Hi]. destruct (Forall2_lookup_l _ _ _ _ _ Hos Hi) as (o & Ho & Hm).
    destruct Hs as [h Eh]. rewrite Eh in Hm. destruct Hm as (st' & _ & ->).
    assert (Hx : st' ∈ omap id a0) by (apply list_elem_of_omap; exists (Some st'); split; [by eapply list_elem_of_lookup_2|done]).
    rewrite Eo in Hx. by apply elem_of_nil in Hx.
  - apply Hbound. by left.
Qed.

Definition queued_in (group : string) (d : database) (k : string) : Prop :=
  exists r, reservations d !! k = Some r /\ r_status r = published /\ r_retry_group r = group.

Definition group_bound (group : string) (g : segment) (d : database) : Prop :=
  forall k, queued_in group d k -> segments d !! k = Some g.

Lemma bound_together_elem d rid r k :
  lease_inv d -> r_retry_group r <> "" -> k ∈ bound_together rid r d <-> k = rid \/ queued_in (r_retry_group r) d k.
Proof.
  intros Hi Hg. unfold bound_together. destruct (String.eqb_spec (r_retry_group r) "") as [|_]; [done|].
  rewrite elem_of_cons, list_elem_of_filter, list_elem_of_fmap. split.
  - intros [->|[_ (y & -> & Hy)]]; [by left|]. apply select_rows_elem in Hy as [[Hp Hq]%andb_true_iff Hin].
    apply all_rows_elem in Hin; [|done]. right. exists y. split; [done|].
    apply bool_decide_eq_true in Hp. unfold in_group in Hq. by apply String.eqb_eq in Hq.
  - destruct (decide (k = rid)) as [->|Hne]; [by left|]. intros [->|(y & Hy & Hp & Hq)]; [done|]. right. split; [done|].
    exists y. split; [by rewrite (inv_reservation_id _ Hi _ _ Hy)|]. apply select_rows_elem. split.
    + apply andb_true_iff. split; [by apply bool_decide_eq_true|]. unfold in_group. by apply String.eqb_eq.
    + unfold all_rows. apply list_elem_of_fmap. exists (k, y). split; [done|]. by apply elem_of_map_to_list.
Qed.

Section Grouped.
Context (c : EvaluationStackState) (group : string) (g : segment) (a b : string).
Context (Hgroup : group <> "") (Harena : Store.s_arena g = st_arena c) (Hab : a <> b).

(** The other rows of the group bind the row again to what the gate took away. *)
Lemma bind_keeps_group rid reason s s' u :
  lease_inv (db s) -> queued_in group (db s) a -> queued_in group (db s) b ->
  segments (db s) !! rid = None -> (forall k, queued_in group (db s) k -> k <> rid -> segments (db s) !! k = Some g) ->
  bind_reservation_baseline_segment competition rid c reason s = (s', Ok u) -> group_bound group g (db s').
Proof.
  intros Hi Ha Hb Hnone Hothers (r & t & st & g' & Hr & Ho & Et & Hst & Hg & Hk)%bind_effect.
  assert (Hq : forall k, queued_in group (db s') k -> queued_in group (db s) k).
  { destruct Ho as [gs ->]. done. }
  intros k Hqk. apply Hq in Hqk. rewrite Hk. destruct (decide (r_retry_group r = group)) as [Eg|Eg].
  - destruct (String.eqb_spec (r_retry_group r) ""); [congruence|].
    assert (Hel : forall x, x ∈ bound_together rid r (db s) <-> x = rid \/ queued_in group (db s) x).
    { intros x. rewrite bound_together_elem by done. by rewrite Eg. }
    rewrite decide_True by (apply Hel; by right).
    assert (Ht : forall x, queued_in group (db s) x -> x <> rid -> segments (db t) !! x = Some g).
    { intros x Hx Hne. rewrite Et, unbind_lookup, (Hothers _ Hx Hne). rewrite decide_True; [done|by right]. }
    assert (Htn : segments (db t) !! rid = None) by by rewrite Et, unbind_lookup, Hnone.
    apply group_state_is with (g := g) in Hst.
    + assert (g' = g) as -> by congruence. destruct (decide (k = rid)) as [->|Hne]; [by rewrite Htn|by rewrite Ht].
    + intros x h [->|Hx]%Hel Hs; [congruence|]. destruct (decide (x = rid)) as [->|Hne]; [congruence|].
      rewrite Ht in Hs by done. by injection Hs as ->.
    + destruct (decide (a = rid)) as [->|Hne].
      * exists b. split; [apply Hel; by right|]. rewrite Ht by (done || congruence). eauto.
      * exists a. split; [apply Hel; by right|]. rewrite Ht by done. eauto.
  - assert (Hne : k <> rid) by (intros ->; destruct Hqk as (? & ? & _ & ?); congruence).
    rewrite decide_False; [by apply Hothers|]. unfold bound_together.
    destruct (String.eqb_spec (r_retry_group r) "") as [|Hn]; [set_solver|]. intros Hin.
    assert (Hin' : k ∈ bound_together rid r (db s)) by (unfold bound_together; by destruct (String.eqb_spec (r_retry_group r) "")).
    apply bound_together_elem in Hin' as [->|(y & Hy & _ & Hyg)]; [done| |done..]. destruct Hqk as (y' & Hy' & _ & Hyg'). congruence.
Qed.

Lemma rebind_keeps_group r s s' u :
  lease_inv (db s) -> queued_in group (db s) a -> queued_in group (db s) b -> group_bound group g (db s) ->
  rebind competition c r s = (s', Ok u) ->
  only_segments (db s) (db s') /\ group_bound group g (db s').
Proof.
  unfold rebind. intros Hi Ha Hb Hall H. inv_m.
  match goal with H : reservation_baseline_segment _ _ = _ |- _ => apply baseline_segment_reads in H as [-> Hp] end.
  match goal with H : (_ = Ok ?x) |- _ => destruct x end; inv_m; [by split; [apply only_segments_refl|]|].
  match goal with H : bind_reservation_baseline_segment _ _ _ _ _ = _ |- _ => rename H into Hbind end.
  pose proof Hbind as (_ & _ & _ & _ & _ & Ho & _)%bind_effect. split.
  { eapply only_segments_trans; [|exact Ho]. eexists. done. }
  eapply bind_keeps_group; [| | | | |exact Hbind]; cbn; [by destruct Hi; split|done|done|by rewrite lookup_delete_eq|].
  intros k Hk Hne. rewrite lookup_delete_ne by done. by apply Hall.
Qed.
End Grouped.

(** C40: the gate of the commissioned arena does not repair a retry group. When two or more queued rows of a group
    are in the queue and every queued row of the group is bound to one segment, of the arena that is commissioned
    and whatever stack it names, a gate that returns leaves all of them bound to that segment: the commissioned
    stack does not reach them. Commissioning another arena is different: there the first binding of the group
    drops the bindings of the retired arena, and the group moves. *)
Theorem gate_keeps_groups incumbent tree s s' st o group g a b :
  lease_inv (database_of s) -> evaluation_stack (Stack.s_arena incumbent) s = (s, Ok st) ->
  group <> "" -> a <> b -> queued_in group (database_of s) a -> queued_in group (database_of s) b ->
  Store.s_arena g = Stack.s_arena incumbent -> group_bound group g (database_of s) ->
  commission_boundary competition incumbent tree s = (s', Ok o) -> group_bound group g (database_of s').
Proof.
  intros Hi Hst Hg Hab Ha Hb Harena Hall H. unfold commission_boundary in H. inv_t.
  match goal with H : catch _ _ _ = _ |- _ => unfold catch in H; rewrite Hst in H; injection H as <- -> end.
  assert (Harena' : Store.s_arena g = st_arena x0).
  { match goal with H : commissioned_state _ _ = _ |- _ => unfold commissioned_state, make_stack_state in H; apply bind_Ok in H as (? & _ & H) end.
    repeat match goal with H : _ ≫= _ = Ok x0 |- _ => apply bind_Ok in H as (? & _ & H) end.
    match goal with H : (if _ then _ else _) = Ok x0 |- _ => destruct (_ || _) in H; [done|]; by injection H as <- end. }
  match goal with H : queue (transaction _) _ = _ |- _ => apply queue_run in H as (i & H & ->); inv_m;
    apply each_invariant with (P := fun t => only_segments (database_of s) (db t) /\ group_bound group g (db t)) in H as [Ho Hb'] end.
  - match goal with H : queue (queue_baseline_state _) _ = _ |- _ => apply queue_run in H as (i' & H & ->); apply queue_baseline_reads in H as [-> _] end.
    destruct x2; inv_t; done.
  - intros r t t' v _ [Ho Ht] Hr. assert (Hi' : lease_inv (db t)) by by eapply only_segments_inv.
    assert (Hq : forall k, queued_in group (database_of s) k -> queued_in group (db t) k) by (destruct Ho as [gs ->]; done).
    eapply rebind_keeps_group in Hr as [Ho' Ht']; eauto. split; [by eapply only_segments_trans|done].
  - split; [apply only_segments_refl|done].
Qed.
End Gate.
