(* ===== verification/CohortRecords.v ===== *)
(** * Cohort records: authorities and undecided batches

    An authority that was accepted once is accepted again from its own
    [to_dict], and an undecided cohort always has a batch that runs each of its
    members again ([_no_decision_batch] of
    [cacheon/eval/qualification_intake.py]). *)

From S2P Require Import Prelude PyVal Dict Identity Strict EvidenceRef Fingerprint Admission Copies Stack Qualification SettlementRecords QualificationIntake.

Open Scope Z_scope.

(** ** The checks of the fields *)

Lemma intake_digest_spec v f d : intake_digest v f = Ok d <-> v = VStr d /\ good_digest d.
Proof.
  unfold intake_digest, good_digest, require_digest. destruct v; simpl; try (split; [done|by intros [? _]]).
  destruct (is_sha256_hex s) eqn:E; [|split; [done|intros [[= ->] [? _]]; congruence]].
  destruct (String.eqb_spec s _ZERO_DIGEST) as [->|Hne]; (split; [intros [= <-]|intros [[= ->] [_ ?]]]); done.
Qed.

(** A text or a number that passes its test. *)
Ltac by_test :=
  match goal with |- context [if ?b then _ else _] => destruct b eqn:? end;
  (split; [intros [=]; subst; try done|intros [[=] ?]; subst; congruence || done]).

Lemma intake_identifier_spec v f s : intake_identifier v f = Ok s <-> v = VStr s /\ intake_id s = true.
Proof. unfold intake_identifier, require_identifier. destruct v; try (split; [done|by intros [? _]]). by_test. Qed.

Lemma intake_integer_spec v f z : intake_integer v f = Ok z <-> v = VInt z /\ 0 <= z.
Proof.
  unfold intake_integer, require_int. rewrite <- Z.leb_le. destruct v; try (split; [done|by intros [? _]]). rewrite andb_true_r. by_test.
Qed.

Lemma read_hotkey_spec v s : read_hotkey v = Ok s <-> v = VStr s /\ hotkey_ok s = true.
Proof.
  unfold read_hotkey. destruct v; try (split; [done|by intros [? _]]). rewrite <- (negb_involutive (hotkey_ok s)), negb_true_iff. by_test.
Qed.

Lemma read_lane_value v s : read_lane v = Ok s -> v = VStr s /\ s = "registered".
Proof. unfold read_lane. destruct v; try done. destruct (String.eqb_spec s0 "registered"); naive_solver. Qed.

Lemma read_target_members_value l ms : read_target_members l = Ok ms -> l = VStr <$> ms.
Proof. unfold read_target_members. destruct (texts l) eqn:E; [|done]. intros H. step_guard H. injection H as <-. by apply texts_spec. Qed.

Lemma digests_spec f l ds : map_result (fun v => intake_digest v f) l = Ok ds <-> l = VStr <$> ds /\ Forall good_digest ds.
Proof.
  rewrite map_result_Forall2. split.
  - induction 1 as [|v d l ds Hv _ [-> Hds]]; [done|]. apply intake_digest_spec in Hv as [-> Hd]. by split; [|constructor].
  - intros [-> H]. apply Forall2_fmap_l. induction H; constructor; [by apply intake_digest_spec|done].
Qed.

(** ** Reopening *)

(** A reservation, and an authority, that the code can construct. *)
Definition accepted_entry (n : QualificationReservation) : Prop := exists row ms, make_entry row ms = Ok n.

Definition accepted_authority (m : QualificationAuthorityManifest) : Prop :=
  Forall accepted_entry (am_reservations m) /\ exists row ds, make_authority row ds (am_reservations m) = Ok m.

Lemma entry_reads n : accepted_entry n -> entry_from_dict (entry_to_dict n) = Ok n.
Proof.
  intros (row & ms & H). unfold entry_from_dict, entry_to_dict.
  change (exact_dict _ _ _) with (@Ok (list (string * pyval)) (entry_rows n)). cbn [mbind result_bind argument].
  change (argument (entry_rows n) "target_members") with (VList (VStr <$> n_members n)). cbv beta iota.
  unfold make_entry in *. inv_ok.
  repeat match goal with
  | H : intake_digest _ _ = Ok _ |- _ => apply intake_digest_spec in H as [_ ?]
  | H : intake_identifier _ _ = Ok _ |- _ => apply intake_identifier_spec in H as [_ ?]
  | H : intake_integer _ _ = Ok _ |- _ => apply intake_integer_spec in H as [_ ?]
  | H : read_hotkey _ = Ok _ |- _ => apply read_hotkey_spec in H as [_ ?]
  end.
  match goal with H : read_target_members _ = Ok _ |- _ => pose proof (read_target_members_value _ _ H) as ->; rename H into Hms end.
  cbn [n_members]. rewrite Hms.
  repeat match goal with |- context [argument (entry_rows ?n) ?f] => let v := eval cbn in (argument (entry_rows n) f) in change (argument (entry_rows n) f) with v end.
  repeat match goal with
  | |- context [intake_digest (VStr ?d) ?f] => rewrite (proj2 (intake_digest_spec (VStr d) f d)) by done
  | |- context [intake_identifier (VStr ?d) ?f] => rewrite (proj2 (intake_identifier_spec (VStr d) f d)) by done
  | |- context [intake_integer (VInt ?d) ?f] => rewrite (proj2 (intake_integer_spec (VInt d) f d)) by done
  | |- context [read_hotkey (VStr ?d)] => rewrite (proj2 (read_hotkey_spec (VStr d) d)) by done
  end.
  reflexivity.
Qed.

Lemma entries_read ns : Forall accepted_entry ns -> map_result entry_from_dict (entry_to_dict <$> ns) = Ok ns.
Proof. intros H. apply map_result_Forall2, Forall2_fmap_l. induction H; constructor; [by apply entry_reads|done]. Qed.

(** What an authority holds. *)
Record authority_wf (m : QualificationAuthorityManifest) : Prop := {
  wf_lane : am_lane m = "registered";
  wf_authority : good_digest (am_authority m); wf_source : good_digest (am_source m);
  wf_commitment : good_digest (am_commitment m); wf_secret : good_digest (am_secret m);
  wf_deltas : Forall good_digest (am_deltas m); wf_some : am_deltas m <> []; wf_distinct : NoDup (am_deltas m);
  wf_order : n_delta <$> am_reservations m = am_deltas m;
  wf_ids : NoDup (n_digest <$> am_reservations m); wf_arrivals : NoDup (n_order <$> am_reservations m);
}.

Lemma make_authority_wf row ds rs m : make_authority row ds rs = Ok m -> am_reservations m = rs /\ authority_wf m.
Proof.
  unfold make_authority. intros H. inv_ok.
  repeat match goal with H : intake_digest _ _ = Ok _ |- _ => apply intake_digest_spec in H as [_ ?] end.
  match goal with H : read_lane _ = Ok _ |- _ => apply read_lane_value in H as [_ ->] end.
  match goal with H : map_result _ _ = Ok _ |- _ => apply digests_spec in H as [_ ?] end.
  step_guard H. injection H as <-. split_bool. split; [done|]. by split.
Qed.

Lemma wf_make_authority m : authority_wf m ->
  make_authority (authority_rows m) (VStr <$> am_deltas m) (am_reservations m) = Ok m.
Proof.
  intros []. unfold make_authority.
  repeat match goal with |- context [argument (authority_rows ?m) ?f] =>
    let v := eval cbn in (argument (authority_rows m) f) in change (argument (authority_rows m) f) with v end.
  repeat match goal with
  | |- context [intake_digest (VStr ?d) ?f] => rewrite (proj2 (intake_digest_spec (VStr d) f d)) by done
  end.
  rewrite wf_lane0, (proj2 (digests_spec _ _ _) (conj eq_refl wf_deltas0)). cbn [read_lane String.eqb negb mbind result_bind]. 
  rewrite (bool_decide_eq_true_2 (VInt _ = VInt _)) by done. rewrite (bool_decide_eq_false_2 (am_deltas m = [])) by done.
  assert (Hl : length (am_reservations m) = length (am_deltas m)) by (by rewrite <- wf_order0, length_fmap).
  rewrite Hl, Nat.eqb_refl. cbn. rewrite (bool_decide_eq_true_2 _ wf_distinct0), (bool_decide_eq_true_2 _ wf_order0), (bool_decide_eq_true_2 _ wf_ids0),
    (bool_decide_eq_true_2 _ wf_arrivals0). cbn. rewrite <- wf_lane0. by destruct m.
Qed.

Lemma accepted_wf m : accepted_authority m -> authority_wf m.
Proof. intros [_ (row & ds & H)]. by apply make_authority_wf in H as [_ H]. Qed.

(** An authority that the code accepts reads back from what is stored for it, and so do its reservations. *)
Theorem authority_reload m : accepted_authority m ->
  authority_from_dict (authority_to_dict m) = Ok m /\
  Forall (fun n => entry_from_dict (entry_to_dict n) = Ok n) (am_reservations m).
Proof.
  intros Hm. pose proof (accepted_wf m Hm) as Hwf. destruct Hm as [Hn _]. split.
  - unfold authority_from_dict, authority_to_dict.
    change (exact_dict _ _ _) with (@Ok (list (string * pyval)) (authority_rows m)). cbn [mbind result_bind].
    change (argument (authority_rows m) "candidate_deltas") with (VList (VStr <$> am_deltas m)).
    change (argument (authority_rows m) "reservations") with (VList (entry_to_dict <$> am_reservations m)). cbv beta iota.
    rewrite (entries_read _ Hn). cbn [mbind result_bind]. by apply wf_make_authority.
  - eapply Forall_impl; [exact Hn|apply entry_reads].
Qed.

(** ** Undecided cohorts *)

Lemma halves_parts ids : concat (halves ids) = ids.
Proof. unfold halves. cbn. by rewrite app_nil_r, take_drop. Qed.

Lemma halves_some ids : (1 < length ids)%nat -> Forall (fun g => g <> []) (halves ids).
Proof.
  intros H. pose proof (Nat.div_str_pos (length ids) 2 ltac:(lia)). pose proof (Nat.div_lt (length ids) 2 ltac:(lia) ltac:(lia)).
  unfold halves. rewrite !Forall_cons. split_and!; [| |constructor]; intros E%(f_equal length); revert E;
    [rewrite length_take|rewrite length_drop]; cbn [length]; lia.
Qed.

Lemma make_retry_plan_ok p :
  good_digest (rp_authority p) -> good_digest (rp_failure p) -> rp_strategy p ∈ ["requeue"; "bisect"] ->
  rp_groups p <> [] -> Forall (fun g => g <> []) (rp_groups p) -> Forall good_digest (concat (rp_groups p)) ->
  NoDup (concat (rp_groups p)) -> (rp_strategy p = "bisect" -> length (rp_groups p) = 2%nat) -> make_retry_plan p = Ok p.
Proof.
  intros Ha Hf Hs Hg Hne Hd Hnd Hb. unfold make_retry_plan.
  rewrite (proj2 (intake_digest_spec _ _ _) (conj eq_refl Ha)), (proj2 (intake_digest_spec _ _ _) (conj eq_refl Hf)). cbn [mbind result_bind].
  rewrite (bool_decide_eq_true_2 _ Hs), (bool_decide_eq_false_2 _ Hg). cbn [negb orb].
  assert (He : existsb (fun g => bool_decide (g = [])) (rp_groups p) = false).
  { apply not_true_iff_false. rewrite existsb_exists. intros (g & Hin%list_elem_of_In & Hx%bool_decide_eq_true).
    by apply (proj1 (Forall_forall _ _) Hne g). }
  rewrite He. assert (Hm : map_result (fun rid => intake_digest (VStr rid) "retry reservation") (concat (rp_groups p)) = Ok (concat (rp_groups p))).
  { apply map_result_Forall2. clear - Hd. induction Hd; constructor; [by apply intake_digest_spec|done]. }
  rewrite Hm. cbn [mbind result_bind]. rewrite (bool_decide_eq_true_2 _ Hnd). cbn [negb orb].
  destruct (String.eqb_spec (rp_strategy p) "bisect") as [E|E]; [|done]. by rewrite (Hb E).
Qed.

Lemma accepted_entry_digests n : accepted_entry n -> good_digest (n_digest n) /\ good_digest (n_delta n).
Proof.
  intros (row & ms & H). unfold make_entry in H. inv_ok.
  repeat match goal with H : intake_digest _ _ = Ok _ |- _ => apply intake_digest_spec in H as [_ ?] end. done.
Qed.

Lemma undecided_ok d failure reason n :
  good_digest d -> good_digest failure -> intake_id reason = true -> accepted_entry n ->
  make_outcome (undecided d failure reason n) = Ok (undecided d failure reason n).
Proof.
  intros Hd Hf Hr [Hi Hn]%accepted_entry_digests. unfold make_outcome, undecided. cbn [o_reservation o_delta o_authority o_reason o_retryable o_decision
    o_attempt o_report o_failure o_settlement optional_digest present].
  rewrite !(proj2 (intake_digest_spec _ _ _) (conj eq_refl Hi)), !(proj2 (intake_digest_spec _ _ _) (conj eq_refl Hn)),
    !(proj2 (intake_digest_spec _ _ _) (conj eq_refl Hd)), !(proj2 (intake_digest_spec _ _ _) (conj eq_refl Hf)),
    (proj2 (intake_identifier_spec _ _ _) (conj eq_refl Hr)). reflexivity.
Qed.

Section Undecided.
Context (m : QualificationAuthorityManifest) (d failure reason : string).
Context (Hm : accepted_authority m) (Hd : authority_digest m = Ok d) (Hdg : good_digest d) (Hf : good_digest failure).

Let ids := n_digest <$> am_reservations m.

Lemma ids_some : am_reservations m <> [].
Proof. intros E. apply (wf_some _ (accepted_wf m Hm)). rewrite <- (wf_order _ (accepted_wf m Hm)). by rewrite E. Qed.

Lemma ids_good : Forall good_digest ids.
Proof. destruct Hm as [H _]. apply Forall_fmap. eapply Forall_impl; [exact H|]. intros n Hn. by apply accepted_entry_digests in Hn as [? _]. Qed.

Lemma singles_concat (l : list string) : concat ((fun rid => [rid]) <$> l) = l.
Proof. induction l as [|x l IH]; [done|]. cbn. by f_equal. Qed.

Lemma retry_plan_ok : exists p,
  _retry_plan m (am_reservations m) failure true = Ok p /\ rp_authority p = d /\ concat (rp_groups p) = ids /\
  if (1 <? length ids)%nat
  then rp_strategy p = "bisect" /\ length <$> rp_groups p = [length ids / 2; length ids - length ids / 2]%nat
  else rp_strategy p = "requeue" /\ rp_groups p = [ids].
Proof.
  unfold _retry_plan. fold ids. rewrite Hd. cbn [mbind result_bind andb].
  assert (Hnd : NoDup ids) by by apply (wf_ids _ (accepted_wf m Hm)). pose proof ids_good as Hg. pose proof ids_some as Hs.
  destruct (Nat.ltb_spec 1 (length ids)) as [H|H].
  - eexists. split.
    + apply make_retry_plan_ok; cbn [rp_authority rp_failure rp_strategy rp_groups]; rewrite ?halves_parts; try done; [set_solver|].
      by apply halves_some.
    + cbn [rp_authority rp_strategy rp_groups]. split_and!; [done|by apply halves_parts|done|]. unfold halves. cbn [fmap list_fmap].
      rewrite length_take, length_drop. pose proof (Nat.div_lt (length ids) 2 ltac:(lia) ltac:(lia)). by rewrite Nat.min_l by lia.
  - assert (Hone : exists x, ids = [x]).
    { destruct ids as [|x [|y l]] eqn:E; cbn in H; [|by exists x|lia]. exfalso. apply Hs. by apply fmap_nil_inv in E. }
    destruct Hone as [x Ex]. eexists. split.
    + apply make_retry_plan_ok; cbn [rp_authority rp_failure rp_strategy rp_groups]; rewrite ?singles_concat; try done; [set_solver|by rewrite Ex|].
      rewrite Ex. cbn. by repeat constructor.
    + cbn [rp_authority rp_strategy rp_groups]. split_and!; [done|by apply singles_concat|done|by rewrite Ex].
Qed.
End Undecided.

Lemma undecided_consistent d failure reason rs p :
  rs <> [] -> NoDup (n_digest <$> rs) -> rp_authority p = d -> concat (rp_groups p) = n_digest <$> rs ->
  batch_consistent (mkBatch d (undecided d failure reason <$> rs) None (Some p)) = true.
Proof.
  intros Hs Hnd <- Hc. unfold batch_consistent, retry_ids, no_decision_ids. cbn [b_outcomes b_authority b_ref b_plan].
  assert (Hids : o_reservation <$> (undecided (rp_authority p) failure reason <$> rs) = n_digest <$> rs).
  { rewrite <- list_fmap_compose. by apply list_fmap_ext. }
  rewrite filter_all by (by intros o (n & -> & _)%list_elem_of_fmap).
  rewrite Hids, Hc, (bool_decide_eq_true_2 _ Hnd), String.eqb_refl, (bool_decide_eq_true_2 (n_digest <$> rs = n_digest <$> rs)) by done.
  rewrite bool_decide_eq_false_2 by (by intros ?%fmap_nil_inv). cbn [negb andb]. rewrite !andb_true_r.
  apply andb_true_iff. split; apply forallb_forall; intros o (n & -> & _)%list_elem_of_In%list_elem_of_fmap; [apply String.eqb_refl|done].
Qed.

(** C39: an accepted authority whose cohort is undecided has a consistent batch. When the digests of the authority and
    of the failure compute and are not zero, every member is NO_DECISION for the recorded reason and failure, and
    the groups of the retry plan list the members in order, each exactly once: two halves that differ by at most one
    for a cohort of two or more, and one requeue group for a single member. The plan says who would run again with
    whom; recording the batch holds a requeued member for the operator. *)
Theorem no_decision_batch_total m e reason d failure :
  accepted_authority m -> intake_id reason = true ->
  authority_digest m = Ok d -> d <> _ZERO_DIGEST -> _failure_digest m e = Ok failure -> failure <> _ZERO_DIGEST ->
  exists b p, _no_decision_batch m e reason = Ok b /\ b_plan b = Some p /\ b_ref b = None /\
    b_outcomes b = undecided d failure reason <$> am_reservations m /\
    concat (rp_groups p) = n_digest <$> am_reservations m /\
    let n := length (am_reservations m) in
    if (1 <? n)%nat then rp_strategy p = "bisect" /\ length <$> rp_groups p = [n / 2; n - n / 2]%nat
    else rp_strategy p = "requeue" /\ rp_groups p = [n_digest <$> am_reservations m].
Proof.
  intros Hm Hr Hd Hdz Hf Hfz.
  assert (Hdg : good_digest d) by (split; [by eapply canonical_digest_shape|done]).
  assert (Hfg : good_digest failure).
  { split; [|done]. unfold _failure_digest in Hf. inv_ok. by eapply canonical_digest_shape. }
  destruct (retry_plan_ok m d failure Hm Hd Hdg Hfg) as (p & Hp & Hpa & Hc & Hshape). rewrite length_fmap in Hshape.
  assert (Ho : map_result (fun n => make_outcome (undecided d failure reason n)) (am_reservations m) = Ok (undecided d failure reason <$> am_reservations m)).
  { apply map_result_Forall2, Forall2_fmap_r, Forall_Forall2_diag. destruct Hm as [Hn _].
    eapply Forall_impl; [exact Hn|]. intros n Hn'. by apply undecided_ok. }
  unfold _no_decision_batch. rewrite Hf. cbn [mbind result_bind]. rewrite Hd. cbn [mbind result_bind]. rewrite Ho. cbn [mbind result_bind].
  rewrite (wf_lane _ (accepted_wf m Hm)). change (String.eqb "registered" "registered") with true. rewrite Hp. cbn [mbind result_bind].
  exists (mkBatch d (undecided d failure reason <$> am_reservations m) None (Some p)), p. split_and!; try done.
  unfold make_batch. cbn [b_authority]. rewrite (proj2 (intake_digest_spec _ _ _) (conj eq_refl Hdg)). cbn [mbind result_bind].
  rewrite undecided_consistent; [done|by apply ids_some|apply (wf_ids _ (accepted_wf m Hm))|done..].
Qed.

(** ** Completed runs *)

Lemma make_outcome_same o o' : make_outcome o = Ok o' -> o' = o.
Proof.
  unfold make_outcome. intros H.
  repeat first [apply bind_Ok in H as (? & _ & H) | step_guard H].
  destruct (o_settlement o); [repeat step_guard H|]; by injection H.
Qed.

Lemma make_retry_plan_same p p' : make_retry_plan p = Ok p' -> p' = p.
Proof. unfold make_retry_plan. intros H. repeat first [apply bind_Ok in H as (? & _ & H) | step_guard H]. by injection H. Qed.

Lemma make_batch_same b b' : make_batch b = Ok b' -> b' = b.
Proof. unfold make_batch. intros H. repeat first [apply bind_Ok in H as (? & _ & H) | step_guard H]. by injection H. Qed.

Lemma retry_alone m rs failure p : _retry_plan m rs failure false = Ok p ->
  rp_strategy p = "requeue" /\ rp_groups p = (fun rid => [rid]) <$> (n_digest <$> rs).
Proof. unfold _retry_plan. cbn [andb]. intros (d & _ & H)%bind_Ok. apply make_retry_plan_same in H as ->. done. Qed.

(** The outcome on a member is the report on it. *)
Definition reported (n : QualificationReservation) (p : CandidateReport) (o : QualificationIntakeOutcome) : Prop :=
  o_reservation o = n_digest n /\ o_delta o = n_delta n /\ p_delta p = n_delta n /\ o_decision o = p_decision p /\
  o_reason o = p_reason p /\ o_report o = Some (p_digest p) /\ o_settlement o = p_settlement p.

Lemma report_outcome_ok d ref n p o : report_outcome d ref n p = Ok o -> reported n p o.
Proof.
  unfold report_outcome. intros H. step_guard H. apply negb_false_iff, String.eqb_eq in Eg.
  by apply make_outcome_same in H as ->.
Qed.

(** The batch of a completed run has the report on each member as its outcome, in the order of the authority; its
    members are run again one by one, exactly when some report is undecided. *)
Lemma attempt_batch_ok m ref a b :
  attempt_batch m ref a = Ok b ->
  make_batch b = Ok b /\ b_ref b = Some ref /\
  Forall2 (fun np o => reported np.1 np.2 o) (zip (am_reservations m) (c_reports a)) (b_outcomes b) /\
  length (c_reports a) = length (am_reservations m) /\
  match b_plan b with
  | None => forall p, p ∈ c_reports a -> p_decision p <> NO_DECISION
  | Some plan => rp_strategy plan = "requeue" /\ Forall (fun g => length g = 1%nat) (rp_groups plan)
  end.
Proof.
  unfold attempt_batch. intros H. step_guard H. split_bool. apply bind_Ok in H as (d & _ & H). apply bind_Ok in H as (outcomes & Ho & H).
  match goal with H : Nat.eqb _ _ = true |- _ => apply Nat.eqb_eq in H as Hl end.
  assert (Hout : Forall2 (fun np o => reported np.1 np.2 o) (zip (am_reservations m) (c_reports a)) outcomes).
  { apply map_result_Forall2 in Ho. eapply Forall2_impl; [exact Ho|]. intros [n p] o. apply report_outcome_ok. }
  destruct (retry_reservations _) as [|n retry] eqn:Er.
  - pose proof (make_batch_same _ _ H) as ->. split_and!; try done. cbn. intros p Hp Hd.
    unfold retry_reservations in Er. apply fmap_nil_inv in Er.
    apply list_elem_of_lookup in Hp as [i Hi]. destruct (lookup_lt_is_Some_2 (am_reservations m) i) as [n Hn].
    { apply lookup_lt_Some in Hi. lia. }
    assert (Hin : (n, p) ∈ filter (fun np : QualificationReservation * CandidateReport => p_decision np.2 = NO_DECISION) (zip (am_reservations m) (c_reports a))).
    { apply list_elem_of_filter. split; [done|]. apply list_elem_of_lookup. exists i. by rewrite lookup_zip_with, Hn, Hi. }
    rewrite Er in Hin. by apply elem_of_nil in Hin.
  - apply bind_Ok in H as (failure & _ & H). apply bind_Ok in H as (plan & Hp & H). pose proof (make_batch_same _ _ H) as ->.
    apply retry_alone in Hp as [Hs Hg]. split_and!; try done. cbn [b_plan]. split; [done|]. rewrite Hg. by apply Forall_fmap, Forall_true.
Qed.
