(* ===== verification/CohortContracts.v ===== *)
(** * What a qualification batch does

    The batches that the intake accepts ([QualificationIntakeBatch] of
    [cacheon/eval/qualification_intake.py]), and what storing one does to the
    rows of its cohort ([apply_qualification_batch] of
    [cacheon/chain/intake.py]). *)

From S2P Require Import Prelude PyVal Dict Identity Strict EvidenceRef Fingerprint Stack Qualification Candidate Settlement Economics Effects Leases Recovery Store Queue LeaseStore LeaseInvariant Admission AdmissionContracts Copies SettlementRecords QualificationIntake CohortRecords StackState SettlementRows SettlementStore SettlementJournal QualificationProgress.

Open Scope Z_scope.

(** ** Accepted batches *)

Lemma make_batch_ok b b' : make_batch b = Ok b' -> b' = b /\ batch_consistent b = true.
Proof.
  unfold make_batch. intros (x & _ & H)%bind_Ok. destruct (batch_consistent b); [|done]. by injection H as <-.
Qed.

Lemma batch_retries b : batch_consistent b = true ->
  NoDup (o_reservation <$> b_outcomes b) /\
  forall o, o ∈ b_outcomes b -> o_reservation o ∈ retry_ids b <-> o_decision o = NO_DECISION.
Proof.
  unfold batch_consistent. rewrite !andb_true_iff. intros [[[[_ Hnd] _] _] Heq].
  apply bool_decide_eq_true in Hnd, Heq. split; [done|]. intros o Ho. rewrite Heq. unfold no_decision_ids.
  rewrite list_elem_of_fmap. split; [|intros Hd; exists o; by rewrite list_elem_of_filter].
  intros (o' & E & [Hd Ho']%list_elem_of_filter). 
  apply list_elem_of_lookup in Ho as [i Hi], Ho' as [j Hj].
  assert (i = j) as <-; [|congruence]. eapply NoDup_lookup; [exact Hnd| |]; rewrite list_lookup_fmap; [by rewrite Hi|].
  rewrite Hj. cbn. by rewrite E.
Qed.

Lemma enumerate_snd {A} (l : list A) : (enumerate l).*2 = l.
Proof. unfold enumerate. apply snd_zip. by rewrite length_fmap, length_seq. Qed.

(** Every retried reservation has one entry, with the strategy of the plan as its reason. *)
Lemma retry_entries_ok b retry : retry_entries b = Ok retry ->
  retry.*1 = retry_ids b /\
  forall rid e, (rid, e) ∈ retry -> exists p, b_plan b = Some p /\ e.2 = string_app "qualification_" (rp_strategy p).
Proof.
  unfold retry_entries, retry_ids. destruct (b_plan b) as [p|]; [|intros [= <-]; split; [done|by intros ? ? ?%elem_of_nil]].
  intros (groups & Hg & [= <-])%bind_Ok. rewrite <- (enumerate_snd (rp_groups p)). revert groups Hg.
  induction (enumerate (rp_groups p)) as [|[n ids] l IH]; intros groups Hg; cbn in Hg.
  { injection Hg as <-. split; [done|by intros ? ? ?%elem_of_nil]. }
  apply bind_Ok in Hg as (g & (d & _ & [= <-])%bind_Ok & (gs & Hgs & [= <-])%bind_Ok). destruct (IH _ Hgs) as [IH1 IH2]. cbn. split.
  - rewrite fmap_app, IH1, <- list_fmap_compose. f_equal. transitivity ((enumerate ids).*2); [by apply list_fmap_ext|apply enumerate_snd].
  - intros rid e [([k x] & [= -> ->] & _)%list_elem_of_fmap|Hin]%elem_of_app; [eauto|by eapply IH2].
Qed.

(** ** One verdict *)

Section Cohort.
Context (cfg : config) (b : QualificationIntakeBatch) (retry : list (string * retry_entry)) (root : option string) (block : Z).

Definition verdict_row_of (d : database) (o : QualificationIntakeOutcome) (r : reservation) : reservation :=
  verdict_on cfg (dict_get (o_reservation o) retry)
    (Z.of_nat (length (filter (fun k => k = o_reservation o) (dispositions d)))) (outcome_evidence b o) o r.

(** Retaining a pass touches neither the rows nor their dispositions. *)
Lemma retain_pass_keeps i f evidence ref o s s' u :
  retain_pass i f b evidence ref root block o s = (s', Ok u) ->
  reservations (database_of s') = reservations (database_of s) /\ dispositions (database_of s') = dispositions (database_of s) /\
  mutation_authority (intake s') = mutation_authority (intake s) /\
  lease_members (database_of s') = lease_members (database_of s).
Proof.
  unfold retain_pass. destruct (o_settlement o) as [q|]; intros H; inv_t; [|done].
  match goal with H : evaluation_stack _ _ = _ |- _ => apply evaluation_stack_run in H as [-> _] end.
  destruct ref as [ref|], root as [path|]; inv_t; try done. 
  unfold retain_complete_pass, retain_qualification, _insert_candidate in *. inv_t.
  repeat match goal with H : queue _ _ = _ |- _ => apply queue_run in H as (? & H & ->); inv_m end. done.
Qed.

Lemma apply_outcome_ok o s s' u :
  apply_outcome cfg b retry root block o s = (s', Ok u) ->
  exists r, reservations (database_of s) !! o_reservation o = Some r /\ r_status r = qualifying /\ r_authority r = b_authority b /\
    reservations (database_of s') = <[o_reservation o := verdict_row_of (database_of s) o r]> (reservations (database_of s)) /\
    dispositions (database_of s') = dispositions (database_of s) ++ [o_reservation o].
Proof.
  unfold apply_outcome. intros H. inv_t.
  match goal with H : queue (opened _) _ = _ |- _ => apply queue_run in H as (i & H & ->); unfold opened in H; inv_m end.
  match goal with H : _row ?r = Ok x, H1 : reservations _ !! _ = Some ?r |- _ => exists r; apply row_ok in H as [Erow _]; rewrite Erow in * end.
  destruct (i_fingerprint x) as [f|]; [|by inv_t]. inv_t.
  match goal with H : insert_disposition _ _ = _ |- _ => unfold insert_disposition in H; inv_t end.
  match goal with H : queue (modify _) _ = _ |- _ => apply queue_run in H as (i & H & ->); inv_m end.
  match goal with H : retain_pass _ _ _ _ _ _ _ _ _ = _ |- _ => apply retain_pass_keeps in H as (Er & Ed & _) end.
  match goal with H : queue (update_reservation _ _) _ = _ |- _ => apply queue_run in H as (j & H & ->) end.
  cbn [database_of with_verdicts intake with_intake db with_dispositions reservations dispositions d_reservation] in Er, Ed.
  apply orb_false_iff in Hf as [Hq Ha]. apply negb_false_iff, bool_decide_eq_true, list_elem_of_singleton in Hq.
  apply negb_false_iff, String.eqb_eq in Ha. split_and!; [done..| |];
    (apply update_reservation_ok in H as [[Hn ->]|(r & Hr & _ & ->)];
      [unfold database_of in Er; rewrite Er in Hn; congruence|]; unfold database_of in *; cbn; rewrite ?Er, ?Ed in *; simplify_eq; done).
Qed.

(** ** The cohort *)

Lemma run_outcomes os s s' u :
  NoDup (o_reservation <$> os) -> run_all (apply_outcome cfg b retry root block) os s = (s', Ok u) ->
  (forall o, o ∈ os -> exists r, reservations (database_of s) !! o_reservation o = Some r /\ r_status r = qualifying /\
     r_authority r = b_authority b /\
     reservations (database_of s') !! o_reservation o = Some (verdict_row_of (database_of s) o r)) /\
  (forall rid, rid ∉ o_reservation <$> os -> reservations (database_of s') !! rid = reservations (database_of s) !! rid) /\
  dispositions (database_of s') = dispositions (database_of s) ++ (o_reservation <$> os).
Proof.
  revert s. induction os as [|o os IH]; intros s Hnd H; cbn [run_all] in H; inv_t.
  { split_and!; [by intros ? ?%elem_of_nil|done|by rewrite app_nil_r]. }
  apply NoDup_cons in Hnd as [Hn Hnd].
  match goal with H : apply_outcome _ _ _ _ _ _ _ = _ |- _ => apply apply_outcome_ok in H as (r & Hr & Hq & Ha & Er & Ed) end.
  apply IH in H as (Hall & Hout & Hd); [|done]. split_and!.
  - intros o' [->|Hin]%elem_of_cons.
    + exists r. split_and!; [done..|]. rewrite Hout by done. by rewrite Er, lookup_insert_eq.
    + assert (Hne : o_reservation o <> o_reservation o') by (intros E; apply Hn; rewrite E; by apply list_elem_of_fmap_2).
      destruct (Hall o' Hin) as (r' & Hr' & Hq' & Ha' & Hr2). rewrite Er, lookup_insert_ne in Hr' by done.
      exists r'. split_and!; [done..|]. rewrite Hr2. unfold verdict_row_of. rewrite Ed, filter_app, filter_cons_False by done.
      by rewrite filter_nil, app_nil_r.
  - intros rid [Hne Hin]%not_elem_of_cons. rewrite Hout by done. by rewrite Er, lookup_insert_ne.
  - rewrite Hd, Ed, fmap_cons, <- app_assoc. done.
Qed.
End Cohort.

(** What a verdict leaves of a row after [n] earlier dispositions. *)
Definition decided_row (cfg : config) (b : QualificationIntakeBatch) (n : Z) (o : QualificationIntakeOutcome) (r r' : reservation) : Prop :=
  r_authority r' = "" /\
  match o_decision o with
  | PASS => r_status r' = qualified /\ r_decision r' = "PASS" /\ r_evidence r' = outcome_evidence b o
  | FAIL => r_status r' = failed /\ r_decision r' = "FAIL" /\ r_evidence r' = outcome_evidence b o
  | NO_DECISION => exists p, b_plan b = Some p /\ r_decision r' = "" /\ r_evidence r' = "" /\
      r_status r' = if String.eqb (rp_strategy p) "bisect" && (n + 1 <? max_qualification_retries (policy cfg))
                    then if String.eqb (x_lane (r_columns r)) "reproduction" then reproduction_pending else published
                    else held
  end.

Lemma verdict_decides cfg b retry o r n :
  batch_consistent b = true -> retry_entries b = Ok retry -> o ∈ b_outcomes b ->
  decided_row cfg b n o r (verdict_on cfg (dict_get (o_reservation o) retry) n (outcome_evidence b o) o r).
Proof.
  intros Hb [Hkeys Hreason]%retry_entries_ok Ho. destruct (batch_retries _ Hb) as [_ Hids]. specialize (Hids _ Ho). rewrite <- Hkeys in Hids.
  unfold verdict_on. destruct (dict_get (o_reservation o) retry) as [[[g k] why]|] eqn:E.
  - apply dict_get_elem in E. assert (Hin : o_reservation o ∈ retry.*1) by (apply list_elem_of_fmap; eexists; by split; [|exact E]).
    apply Hids in Hin. apply Hreason in E as (p & Hp & Hwhy). cbn in Hwhy. subst why.
    split; [done|]. rewrite Hin. exists p. split_and!; done.
  - apply dict_get_None in E. split; [done|]. destruct (o_decision o) eqn:Ed; [by split_and!..|]. exfalso. by apply E, Hids.
Qed.

Lemma opened_each ids s s' out : collect opened ids s = (s', Ok out) ->
  s' = s /\ Forall2 (fun rid i => reservations (db s) !! rid = Some (i_row i)) ids out.
Proof.
  revert s out. induction ids as [|rid ids IH]; intros s out H; cbn in H; inv_m; [by split|].
  match goal with H : opened _ _ = _ |- _ => unfold opened in H; inv_m end.
  match goal with H : _row _ = Ok _ |- _ => apply row_ok in H as [<- _] end.
  match goal with H : collect _ _ _ = _ |- _ => apply IH in H as [-> Hall] end. split; [done|]. by constructor.
Qed.

Lemma batch_run cfg b block root s s' rows :
  make_batch b = Ok b -> apply_qualification_batch cfg b block root s = (s', Ok rows) ->
  exists retry, retry_entries b = Ok retry /\ batch_consistent b = true /\
    run_all (apply_outcome cfg b retry root block) (b_outcomes b) s = (s', Ok tt) /\
    Forall2 (fun o i => reservations (database_of s') !! o_reservation o = Some (i_row i)) (b_outcomes b) rows.
Proof.
  intros [_ Hb]%make_batch_ok H. unfold apply_qualification_batch in H. inv_t.
  match goal with H : run_all _ _ _ = (_, Ok ?u) |- _ => destruct u; rename H into Hrun end.
  match goal with H : queue (collect _ _) _ = _ |- _ => apply queue_run in H as (i & H & ->); apply opened_each in H as [-> Hrows] end.
  apply Forall2_fmap_l in Hrows. rewrite with_intake_id. eauto.
Qed.

(** Every member is decided, from the row it had. *)
Lemma run_decides cfg b retry root block s s' o :
  batch_consistent b = true -> retry_entries b = Ok retry ->
  run_all (apply_outcome cfg b retry root block) (b_outcomes b) s = (s', Ok tt) -> o ∈ b_outcomes b ->
  exists r r', reservations (database_of s) !! o_reservation o = Some r /\ r_status r = qualifying /\ r_authority r = b_authority b /\
    reservations (database_of s') !! o_reservation o = Some r' /\ decided_row cfg b (attempts_of (o_reservation o) s) o r r'.
Proof.
  intros Hb Hretry H Ho. destruct (batch_retries _ Hb) as [Hnd _]. apply run_outcomes in H as (Hall & _); [|done].
  destruct (Hall o Ho) as (r & Hr & Hq & Ha & Hr'). eexists r, _. split_and!; [done..|]. by apply verdict_decides.
Qed.

(** C14: storing an accepted batch decides every member of its cohort, which was qualifying under its authority: a PASS
    qualifies, a FAIL fails, and an undecided member runs again only by a bisection with attempts left, and is held
    otherwise; each gets one more disposition, in the order of the batch, no other row changes, and the rows that are
    returned are the stored ones. *)
Theorem batch_contract cfg b block root s s' rows :
  make_batch b = Ok b -> apply_qualification_batch cfg b block root s = (s', Ok rows) ->
  (forall o, o ∈ b_outcomes b -> exists r r',
     reservations (database_of s) !! o_reservation o = Some r /\ r_status r = qualifying /\ r_authority r = b_authority b /\
     reservations (database_of s') !! o_reservation o = Some r' /\
     decided_row cfg b (attempts_of (o_reservation o) s) o r r') /\
  (forall rid, rid ∉ o_reservation <$> b_outcomes b -> reservations (database_of s') !! rid = reservations (database_of s) !! rid) /\
  dispositions (database_of s') = dispositions (database_of s) ++ (o_reservation <$> b_outcomes b) /\
  Forall2 (fun o i => reservations (database_of s') !! o_reservation o = Some (i_row i)) (b_outcomes b) rows.
Proof.
  intros Hm H. destruct (batch_run _ _ _ _ _ _ _ Hm H) as (retry & Hretry & Hb & Hrun & Hrows). destruct (batch_retries _ Hb) as [Hnd _].
  pose proof Hrun as (_ & Hout & Hd)%run_outcomes; [|done]. split_and!; [|done..].
  intros o Ho. by eapply run_decides.
Qed.

(** C13: a completed run decides its cohort: when the batch of its reports is stored, a member whose report passed is
    qualified, one whose report failed has failed, and one whose report is undecided is held for an operator, with
    no verdict: only a run that broke down is repeated by itself. *)
Theorem reports_decide cfg m ref a b block root s s' rows i n p :
  attempt_batch m ref a = Ok b -> apply_qualification_batch cfg b block root s = (s', Ok rows) ->
  am_reservations m !! i = Some n -> c_reports a !! i = Some p ->
  exists r', reservations (database_of s') !! n_digest n = Some r' /\ r_authority r' = "" /\
    match p_decision p with
    | PASS => r_status r' = qualified /\ r_decision r' = "PASS"
    | FAIL => r_status r' = failed /\ r_decision r' = "FAIL"
    | NO_DECISION => r_status r' = held /\ r_decision r' = ""
    end.
Proof.
  intros (Hmake & _ & Hout & _ & Hplan)%attempt_batch_ok H Hn Hp.
  destruct (batch_run _ _ _ _ _ _ _ Hmake H) as (retry & Hretry & Hb & Hrun & _).
  destruct (Forall2_lookup_l _ _ _ i (n, p) Hout) as (o & Ho & (Ei & _ & _ & Ed & _)); [by rewrite lookup_zip_with, Hn, Hp|].
  cbn in Ei, Ed. apply list_elem_of_lookup_2 in Ho.
  destruct (run_decides _ _ _ _ _ _ _ _ Hb Hretry Hrun Ho) as (r & r' & _ & _ & _ & Hr' & Ha & Hdec).
  rewrite Ei in Hr'. exists r'. split; [done|]. split; [done|]. rewrite Ed in Hdec.
  destruct (p_decision p); [by destruct Hdec as (? & ? & _)..|].
  destruct Hdec as (plan & Ep & Hd & _ & Hst). rewrite Ep in Hplan. destruct Hplan as [Hs _]. rewrite Hs in Hst. done.
Qed.
