(* ===== verification/SettleContracts.v ===== *)
(** * Committing a settlement

    What [commit_settlement] does to the database when it returns, statement by
    statement: the plan is the one recomputed from the lease, the lease is still
    current, the journal is extended by exactly the plan's events, every leased
    candidate gets its verdict, and the stack and the claims move with the
    winner. *)

From S2P Require Import Prelude PyVal Dict Identity Strict Numbers EvidenceRef Stack StackContracts Qualification Candidate Settlement SettlementContracts Economics Effects Leases Recovery Store Queue StackState SettlementRows SettlementStore SettlementJournal.

Open Scope Z_scope.

(** ** A plan is what it is printed as *)

Lemma event_value_inj t t' : event_value t = event_value t' -> t = t'.
Proof. by destruct t, t'. Qed.

Lemma event_to_dict_inj e e' : event_to_dict e = event_to_dict e' -> e = e'.
Proof.
  destruct e, e'. unfold event_to_dict, str_dict, event_rows. cbn.
  intros [= -> ?%event_value_inj -> -> -> -> -> -> -> -> ->]. by subst.
Qed.

Lemma arm_to_dict_inj a a' : arm_to_dict a = arm_to_dict a' -> a = a'.
Proof. destruct a, a'. by intros [= -> ->]. Qed.

(** The item of a dictionary, and its use to take an equation between two of them apart. *)
Definition item (k : string) (v : pyval) : pyval := match v with VDict l => default VNone (items_get k l) | _ => VNone end.

Lemma output_to_dict_inj o o' :
  output_to_dict o = output_to_dict o' ->
  out_after o = out_after o' /\ manifest_to_dict (out_manifest o) = manifest_to_dict (out_manifest o').
Proof.
  intros E. split; [apply arm_to_dict_inj, (f_equal (item "after") E)|exact (f_equal (item "manifest") E)].
Qed.

Lemma plan_to_dict_inj p p' :
  plan_to_dict p = plan_to_dict p' ->
  events p = events p' /\ winner p = winner p' /\ plan_before p = plan_before p' /\ plan_after p = plan_after p' /\
  match plan_transition p, plan_transition p' with
  | None, None => True
  | Some o, Some o' => out_after o = out_after o' /\ manifest_to_dict (out_manifest o) = manifest_to_dict (out_manifest o')
  | _, _ => False
  end.
Proof.
  intros E. split_and!.
  - assert (He : VList (event_to_dict <$> events p) = VList (event_to_dict <$> events p')) by exact (f_equal (item "events") E).
    apply (f_equal (fun v => match v with VList l => l | _ => [] end)) in He. by apply (list_fmap_eq_inj event_to_dict event_to_dict_inj) in He.
  - pose proof (f_equal (item "winner_candidate_digest") E) as Ew. by injection Ew.
  - apply arm_to_dict_inj, (f_equal (item "before") E).
  - apply arm_to_dict_inj, (f_equal (item "after") E).
  - pose proof (f_equal (item "transition") E) as Et. cbn -[output_to_dict] in Et.
    destruct (plan_transition p), (plan_transition p'); try done. by apply output_to_dict_inj.
Qed.

(** ** The verdicts of a plan *)

Definition verdict_text (k : SettlementEventType) : option string :=
  match k with Settlement.HOLD => Some "held" | CROWN => Some "crowned" | _ => None end.

Definition add_verdict (disposition : list (string * string)) (e : SettlementEvent) : list (string * string) :=
  match verdict_text (Settlement.event_type e) with
  | Some v => dict_set (candidate_of e) v disposition
  | None => disposition
  end.

(** The candidates that the verdicts of some events name. *)
Definition judged_candidates (es : list SettlementEvent) : list string :=
  candidate_of <$> filter (fun e => is_verdict (Settlement.event_type e)) es.

Lemma verdict_text_is k : is_Some (verdict_text k) <-> is_verdict k.
Proof. unfold is_verdict. destruct k; cbn; rewrite ?bool_decide_eq_true; split; try done; naive_solver. Qed.

Lemma disposition_other es disposition d :
  d ∉ judged_candidates es -> dict_get d (foldl add_verdict disposition es) = dict_get d disposition.
Proof.
  unfold judged_candidates. revert disposition. induction es as [|e es IH]; intros disposition Hd; simpl; [done|].
  rewrite filter_cons in Hd. unfold add_verdict at 2. destruct (verdict_text _) as [v|] eqn:Ev.
  - rewrite decide_True in Hd by (apply verdict_text_is; by rewrite Ev). rewrite fmap_cons, not_elem_of_cons in Hd.
    rewrite IH by tauto. rewrite dict_get_set. rewrite (proj2 (String.eqb_neq (candidate_of e) d)); naive_solver.
  - apply IH. destruct (decide _) as [Hv|]; [|done]. apply verdict_text_is in Hv as [? Hv]. by rewrite Ev in Hv.
Qed.

Lemma disposition_of_event es disposition e v :
  NoDup (judged_candidates es) -> e ∈ es -> verdict_text (Settlement.event_type e) = Some v ->
  dict_get (candidate_of e) (foldl add_verdict disposition es) = Some v.
Proof.
  unfold judged_candidates. revert disposition. induction es as [|k es IH]; intros disposition Hd He Hv;
    [by apply elem_of_nil in He|]. simpl. rewrite filter_cons in Hd. apply elem_of_cons in He as [<-|He].
  - rewrite decide_True in Hd by (apply verdict_text_is; by rewrite Hv). rewrite fmap_cons in Hd.
    apply NoDup_cons in Hd as [Hn _]. rewrite disposition_other by done. unfold add_verdict. rewrite Hv, dict_get_set.
    by rewrite String.eqb_refl.
  - apply IH; [|done..]. destruct (decide _); [by apply NoDup_cons in Hd as [_ ?]|done].
Qed.

Lemma disposition_keys es disposition d :
  d ∈ (foldl add_verdict disposition es).*1 <-> d ∈ disposition.*1 \/ d ∈ judged_candidates es.
Proof.
  unfold judged_candidates. revert disposition. induction es as [|e es IH]; intros disposition; simpl.
  - rewrite elem_of_nil. tauto.
  - rewrite IH, filter_cons. unfold add_verdict. destruct (verdict_text _) as [v|] eqn:Ev.
    + rewrite decide_True by (apply verdict_text_is; by rewrite Ev). rewrite dict_set_keys, fmap_cons, elem_of_cons. tauto.
    + destruct (decide _) as [Hv|]; [|done]. apply verdict_text_is in Hv as [? Hv]. by rewrite Ev in Hv.
Qed.

Lemma disposition_NoDup es disposition : NoDup disposition.*1 -> NoDup (foldl add_verdict disposition es).*1.
Proof.
  revert disposition. induction es as [|e es IH]; intros disposition Hd; simpl; [done|]. apply IH. unfold add_verdict.
  destruct (verdict_text _); [by apply dict_set_NoDup|done].
Qed.

(** ** What one event writes *)

(** Everything but the journal, the claims and the lineage. *)
Definition same_rest (s s' : settlement_db) : Prop :=
  intake s' = intake s /\ candidates s' = candidates s /\ stack_rows s' = stack_rows s /\ retained s' = retained s /\
  verdicts s' = verdicts s.

#[export] Instance same_rest_preorder : PreOrder same_rest.
Proof. split; [by intros s|]. intros s t u (?&?&?&?&?) (?&?&?&?&?). unfold same_rest. repeat split; congruence. Qed.

Lemma insert_event_run row s s' u :
  insert_event row s = (s', Ok u) -> s' = with_journal (journal s ++ [row]) s.
Proof. unfold insert_event. intros H. by inv_t. Qed.

Lemma upsert_claim_run arena target row s s' u :
  upsert_claim arena target row s = (s', Ok u) -> s' = with_standing (<[(arena, target) := row]> (standing s)) s.
Proof. unfold upsert_claim. intros H. by inv_t. Qed.

Lemma write_lineage_run scope target row s s' u :
  _write_lineage scope target row s = (s', Ok u) ->
  s' = with_lineage (<[(scope, target, g_artifact row) := row]> (lineage_nodes s))
         (<[(scope, target) := row]> (lineage_tips s)) s.
Proof. unfold _write_lineage. intros H. by inv_t. Qed.

(** The row of a crowned claim: it reads back as the claim of the winner's contribution. *)
Definition crowned_row (ev : list (string * SettlementEvidence)) (d e : string) (c : SettlementCandidate) (row : claim_row) : Prop :=
  exists contribution receipt rd claim,
    winning_entry c = Ok contribution /\ dict_get d ev = Some receipt /\ evidence_digest receipt = Ok rd /\
    crown_claim c contribution rd = Ok claim /\ standing_digest claim = Ok (h_digest row) /\
    h_json row = standing_to_dict claim /\ h_status row = "active" /\ h_event row = e.

(** The lineage of the winner's target is extended by its artifact, over the one that was measured against. *)
Definition crowned_tip (d e : string) (block : Z) (c : SettlementCandidate) (row : lineage_row) : Prop :=
  exists contribution, winning_entry c = Ok contribution /\
    row = mkLineageRow (c_artifact contribution) (incumbent_artifact c) (candidate_speedup c) (q_arena (primary c))
            (candidate_stack (primary c)) e block.

Lemma crown_run b ev d e c s s' u :
  crown b ev d e c s = (s', Ok u) ->
  exists row tip r, same_rest s s' /\ journal s' = journal s /\
    crowned_row ev d e c row /\ standing s' = <[(q_arena (primary c), q_target (primary c)) := row]> (standing s) /\
    crowned_tip d e b c tip /\ reservations (database_of s) !! q_id c = Some r /\ arrival_matches c r = true /\
    lineage_tips s' = <[(Store.r_arena r, q_target (primary c)) := tip]> (lineage_tips s).
Proof.
  unfold crown. intros H. inv_t. apply upsert_claim_run in Hx4. apply write_lineage_run in Hx6. subst.
  apply dict_item_Ok in Hx0. apply negb_false_iff in Hf.
  exists (mkClaimRow x3 (standing_to_dict x2) "active" e). do 2 eexists. split_and!; [done..| | | |exact Hx5|done|reflexivity].
  - by exists x, x0, x1, x2.
  - done.
  - by exists x.
Qed.

Definition is_crowning (e : SettlementEvent) : Prop := Settlement.event_type e = CROWN.

Lemma record_event_run b byd ev disposition e s s' disposition' :
  record_event b byd ev disposition e s = (s', Ok disposition') ->
  exists c row, dict_get (candidate_of e) byd = Some c /\ stores row e /\ v_reservation row = q_id c /\ same_rest s s' /\
    journal s' = journal s ++ [row] /\ disposition' = add_verdict disposition e /\
    (is_crowning e ->
       exists h tip r, crowned_row ev (candidate_of e) (v_digest row) c h /\
         standing s' = <[(q_arena (primary c), q_target (primary c)) := h]> (standing s) /\
         crowned_tip (candidate_of e) (v_digest row) b c tip /\ reservations (database_of s) !! q_id c = Some r /\
         arrival_matches c r = true /\
         lineage_tips s' = <[(Store.r_arena r, q_target (primary c)) := tip]> (lineage_tips s)) /\
    (~ is_crowning e -> standing s' = standing s /\ lineage_tips s' = lineage_tips s).
Proof.
  unfold record_event, is_crowning. intros H. inv_t. apply insert_event_run in Hx1 as ->. apply dict_item_Ok in Hx.
  set (row := mkEventRow _ _ _ _ _ _ _ _) in *. assert (Hst : stores row e) by done. exists x, row.
  unfold add_verdict. destruct (Settlement.event_type e) eqn:Et; inv_t; cbn [verdict_text];
    try (split_and!; try done; intros _; by split).
  match goal with Hc : crown _ _ _ _ _ _ = _ |- _ => apply crown_run in Hc as (h & tip & r & Hr & Hj & Hh & Hs & Ht & Hq & Ha & Hl) end.
  split_and!; try done.
  intros _. by exists h, tip, r.
Qed.

Lemma record_events_run b byd ev disposition es s s' disposition' :
  record_events b byd ev disposition es s = (s', Ok disposition') ->
  exists rows, Forall2 stores rows es /\ same_rest s s' /\ journal s' = journal s ++ rows /\
    disposition' = foldl add_verdict disposition es /\
    Forall (fun e => is_Some (dict_get (candidate_of e) byd)) es /\
    (Forall (fun e => ~ is_crowning e) es -> standing s' = standing s /\ lineage_tips s' = lineage_tips s).
Proof.
  revert disposition s. induction es as [|e es IH]; intros disposition s H; simpl in H; inv_t.
  - exists []. rewrite app_nil_r. by split_and!.
  - apply record_event_run in Hx as (c & row & Hc & Hr & _ & Hs & Hj & -> & _ & Hn).
    apply IH in H as (rows & Hrs & Hs' & Hj' & -> & Hall & Hn'). exists (row :: rows).
    split_and!; [by constructor|by transitivity mid|by rewrite Hj', Hj, <- app_assoc|done|by constructor|].
    intros [He Hes]%Forall_cons. destruct (Hn He) as [<- <-]. by apply Hn'.
Qed.

Lemma record_events_app b byd ev disposition es es' s s' disposition' :
  record_events b byd ev disposition (es ++ es') s = (s', Ok disposition') ->
  exists mid found, record_events b byd ev disposition es s = (mid, Ok found) /\
    record_events b byd ev found es' mid = (s', Ok disposition').
Proof.
  revert disposition s. induction es as [|e es IH]; intros disposition s H; simpl in H; [by exists s, disposition|].
  inv_t. apply IH in H as (t & found & H & H'). exists t, found. split; [|done]. simpl.
  unfold mbind, ST_bind. by rewrite Hx.
Qed.

(** ** Retiring and disposing *)

Definition retires_target (e : SettlementEvent) : Prop :=
  Settlement.event_type e = RETIREMENT \/ Settlement.event_type e = NEUTRALIZATION.

Lemma retire_run arena es s s' u :
  run_all (retire_old arena) es s = (s', Ok u) ->
  exists m, s' = with_standing m s /\
    forall k, (forall e, e ∈ es -> retires_target e -> k <> (arena, event_target e)) -> m !! k = standing s !! k.
Proof.
  revert s. induction es as [|e es IH]; intros s H; simpl in H; inv_t; [by exists (standing s); destruct s|].
  assert (exists m, mid = with_standing m s /\
            forall k, (retires_target e -> k <> (arena, event_target e)) -> m !! k = standing s !! k) as (m & -> & Hm).
  { unfold retire_old, retire_claim, retires_target in *. destruct (Settlement.event_type e); inv_t;
      try (by exists (standing s); destruct s); (eexists; split; [done|]; intros k Hk; apply lookup_alter_ne; naive_solver). }
  apply IH in H as (m' & -> & Hm'). exists m'. split; [done|]. intros k Hk. rewrite Hm'; [|naive_solver set_solver].
  apply Hm, Hk. by left.
Qed.

Definition disposed (st rd : string) (k : candidate_row) : candidate_row := settle_row st "" (k_generation k) 0 st rd k.

Lemma dispose_run byd ev ds s s' u :
  dispose byd ev ds s = (s', Ok u) ->
  exists c receipt rd, dict_get ds.1 byd = Some c /\ dict_get ds.1 ev = Some receipt /\ evidence_digest receipt = Ok rd /\
    s' = with_candidates (alter (disposed ds.2 rd) (q_id c) (candidates s)) s.
Proof.
  unfold dispose. intros H. inv_t. apply dict_item_Ok in Hx, Hx0. by exists x, x0, x1.
Qed.

(** The reservations of different digests are different. *)
Definition separate (byd : list (string * SettlementCandidate)) : Prop :=
  forall d d' c c', dict_get d byd = Some c -> dict_get d' byd = Some c' -> q_id c = q_id c' -> d = d'.

Lemma dispose_all_run byd ev disposition s s' u :
  separate byd -> NoDup disposition.*1 -> run_all (dispose byd ev) disposition s = (s', Ok u) ->
  exists ks, s' = with_candidates ks s /\
    (forall rid, (forall d c, d ∈ disposition.*1 -> dict_get d byd = Some c -> rid <> q_id c) ->
       ks !! rid = candidates s !! rid) /\
    forall d st c, (d, st) ∈ disposition -> dict_get d byd = Some c ->
      exists receipt rd, dict_get d ev = Some receipt /\ evidence_digest receipt = Ok rd /\
        ks !! q_id c = disposed st rd <$> candidates s !! q_id c.
Proof.
  intros Hsep. revert s. induction disposition as [|[d st] disposition IH]; intros s Hd H; simpl in H; inv_t.
  { exists (candidates s). split_and!; [by destruct s|done|]. by intros ??? ?%elem_of_nil. }
  rewrite fmap_cons in Hd. apply NoDup_cons in Hd as [Hn Hd].
  apply dispose_run in Hx as (c & receipt & rd & Hc & Hr & Hrd & ->). cbn [fst snd] in *.
  apply IH in H as (ks & -> & Hother & Hin); [|done]. exists ks. split_and!; [done|..].
  - intros rid Hrid. rewrite Hother; [|naive_solver set_solver]. cbn. apply lookup_alter_ne.
    intros E. by apply (Hrid d c); [left|..].
  - intros d' st' c' [[= -> ->]|Hin']%elem_of_cons Hc'.
    + rewrite Hc in Hc'. injection Hc' as <-. exists receipt, rd. split_and!; [done..|].
      rewrite Hother; [by cbn; rewrite lookup_alter_eq|]. intros d' c' Hd' Hc' E.
      by rewrite <- (Hsep _ _ _ _ Hc Hc' E) in Hd'.
    + destruct (Hin _ _ _ Hin' Hc') as (receipt' & rd' & Hr' & Hrd' & E). exists receipt', rd'. split_and!; [done..|].
      rewrite E. cbn. rewrite lookup_alter_ne; [done|]. intros E'.
      rewrite (Hsep _ _ _ _ Hc Hc' E') in Hn. apply Hn. by apply (list_elem_of_fmap_2 fst _ (d', st')).
Qed.

(** ** The lease is still current *)

(** The table of candidates is keyed by reservation. *)
Definition keyed (s : settlement_db) : Prop := forall rid k, candidates s !! rid = Some k -> k_reservation k = rid.

(** A row under this lease. *)
Definition held_under (lease : SettlementLease) (k : candidate_row) : Prop :=
  k_status k = "leased" /\ k_lease k = lease_id lease /\ k_generation k = lease_generation lease.

Lemma keyed_rows s : keyed s -> k_reservation <$> (map_to_list (candidates s)).*2 = (map_to_list (candidates s)).*1.
Proof.
  intros Hk. rewrite <- list_fmap_compose. apply list_fmap_ext. intros i [rid k] Hi. cbn. apply Hk.
  by apply elem_of_map_to_list, (list_elem_of_lookup_2 _ i).
Qed.

Lemma joined_ids s : keyed s -> NoDup ((fun kr => k_reservation kr.1) <$> joined s).
Proof.
  intros Hk. unfold joined. assert (Hd : NoDup (k_reservation <$> (map_to_list (candidates s)).*2)).
  { rewrite (keyed_rows s Hk). apply NoDup_fst_map_to_list. }
  revert Hd. generalize (map_to_list (candidates s)).*2. intros l. induction l as [|k l IH]; intros Hd; [by constructor|].
  rewrite fmap_cons in Hd. apply NoDup_cons in Hd as [Hn Hd]. simpl.
  destruct (reservations _ !! k_reservation k); cbn; [|by apply IH]. apply NoDup_cons. split; [|by apply IH].
  intros Hin. apply Hn. apply list_elem_of_fmap in Hin as (kr & E & Hin). rewrite E.
  apply list_elem_of_omap in Hin as (k' & Hk' & E'). destruct (reservations _ !! k_reservation k'); [|done].
  injection E' as <-. by apply list_elem_of_fmap_2.
Qed.

Lemma joined_elem s kr :
  kr ∈ joined s -> keyed s ->
  candidates s !! k_reservation kr.1 = Some kr.1 /\ reservations (database_of s) !! k_reservation kr.1 = Some kr.2.
Proof.
  unfold joined. intros (k & Hin & E)%list_elem_of_omap Hk. apply list_elem_of_fmap in Hin as ([rid k'] & -> & Hin).
  apply elem_of_map_to_list in Hin. cbn in *. rewrite (Hk _ _ Hin) in E.
  destruct (reservations _ !! rid) eqn:Er; [|done]. injection E as <-. cbn. by rewrite (Hk _ _ Hin).
Qed.

Lemma active_rows_complete lease s c :
  keyed s -> NoDup (q_id <$> lease_candidates lease) ->
  length (active_rows lease s) = length (lease_candidates lease) -> c ∈ lease_candidates lease ->
  exists k, candidates s !! q_id c = Some k /\ held_under lease k.
Proof.
  intros Hk Hd Hlen Hc. set (krs := filter (fun kr => is_active lease (q_id <$> lease_candidates lease) kr = true) (joined s)).
  set (ids := (fun kr => k_reservation kr.1) <$> krs).
  assert (Hkr : forall kr, kr ∈ krs -> is_active lease (q_id <$> lease_candidates lease) kr = true /\ kr ∈ joined s).
  { intros kr. unfold krs. by rewrite list_elem_of_filter. }
  assert (Hin : q_id c ∈ ids).
  { assert (Hp : ids ≡ₚ q_id <$> lease_candidates lease).
    { apply submseteq_length_Permutation.
      - apply NoDup_submseteq; [by apply NoDup_fmap_filter, joined_ids|].
        intros rid (kr & -> & [Ha _]%Hkr)%list_elem_of_fmap. unfold is_active in Ha. by split_bool.
      - unfold ids. rewrite !length_fmap. unfold active_rows in Hlen. rewrite length_fmap in Hlen. fold krs in Hlen. lia. }
    rewrite Hp. by apply list_elem_of_fmap_2. }
  apply list_elem_of_fmap in Hin as (kr & E & [Ha Hj]%Hkr). apply joined_elem in Hj as [Hj _]; [|done].
  exists kr.1. split; [by rewrite E|]. unfold is_active in Ha. split_bool. unfold held_under.
  split_and!; [done|by apply String.eqb_eq|by apply Z.eqb_eq].
Qed.

Lemma metadata_digest s c found :
  settlement_evidence_metadata s c = Ok found ->
  exists d k, candidate_digest c = Ok d /\ candidates s !! q_id c = Some k /\ k_digest k = d.
Proof.
  unfold settlement_evidence_metadata. intros H. inv_ok. unfold standing_authority in H.
  destruct (candidates s !! q_id c) as [k|] eqn:Ek; [|done]. cbn in H.
  destruct (reservations _ !! q_id c) as [r|]; [|done]. cbn in H. destruct (_ && _) eqn:E; [|done].
  split_bool. exists x, k. split_and!; [done..|by apply String.eqb_eq].
Qed.

Lemma check_lease_run cfg lease byd ev b first s s' u :
  check_lease cfg lease byd ev b first s = (s', Ok u) ->
  exists i, s' = with_intake i s /\
    evaluation_stack (st_arena (lease_stack lease)) s = (s, Ok (lease_stack lease)) /\
    _event_head s = (s, Ok (initial_sequence lease, previous_event_digest lease)) /\
    length (active_rows lease s') = length (lease_candidates lease).
Proof.
  unfold check_lease. intros H. inv_t.
  apply run_all_reads in Hx0 as ->; [|intros c t t' v Ht; by inv_t].
  apply queue_run in Hx1 as (i & _ & ->). apply evaluation_stack_run in Hx2 as (-> & Ha & row & Hr & Hst).
  apply head_run in Hx3 as [-> ->]. apply orb_false_iff in Hf as [He Hh].
  apply negb_false_iff, bool_decide_eq_true in He. apply negb_false_iff, bool_decide_eq_true in Hh. subst x2.
  apply tips_reads in Hx4 as ->. apply any_blocked_reads in Hx5 as ->.
  apply run_all_reads in Hx6 as ->; [|intros dc t t' v Ht; unfold same_receipt in Ht; by inv_t].
  exists i. apply orb_false_iff in Hf1 as [Hl _]. apply negb_false_iff, Nat.eqb_eq in Hl.
  split_and!; [done|apply evaluation_stack_run; eauto|apply head_run; by rewrite <- Hh|done].
Qed.

(** ** The leased candidates and their digests *)

Lemma plan_ids_distinct cs current tree n prev tips f p :
  plan_settlement cs current tree (VInt n) (VStr prev) tips f = Ok p -> NoDup (q_id <$> cs).
Proof.
  unfold plan_settlement. intros H. inv_ok. step_guard H. apply orb_false_iff in Eg as [_ Hd%negb_false_iff].
  apply distinct_spec in Hd. apply map_label_Ok in Hx2. enough ((fun r => q_reservation (primary r.2)) <$> x2 = q_id <$> cs) as <- by done.
  clear -Hx2. induction Hx2 as [|c r cs rows [_ E] _ IH]; [done|]. by rewrite !fmap_cons, IH, E.
Qed.

Lemma zip_lookup (cs : list SettlementCandidate) digests d c :
  Forall2 (fun c d => candidate_digest c = Ok d) cs digests ->
  dict_get d (zip digests cs) = Some c -> c ∈ cs /\ candidate_digest c = Ok d.
Proof.
  intros Hf Hd%dict_get_elem. induction Hf as [|c' d' cs digests H _ IH]; [by apply elem_of_nil in Hd|].
  simpl in Hd. apply elem_of_cons in Hd as [[= -> ->]|Hd]; [split; [by left|done]|].
  destruct (IH Hd). split; [by right|done].
Qed.

Lemma zip_keys (cs : list SettlementCandidate) digests :
  Forall2 (fun c d => candidate_digest c = Ok d) cs digests -> (zip digests cs).*1 = digests.
Proof. intros Hf%Forall2_length. apply fst_zip. lia. Qed.

Lemma zip_found (cs : list SettlementCandidate) digests c d :
  Forall2 (fun c d => candidate_digest c = Ok d) cs digests -> NoDup digests -> c ∈ cs -> candidate_digest c = Ok d ->
  dict_get d (zip digests cs) = Some c.
Proof.
  intros Hf Hn Hc Hd. apply elem_dict_get; [by rewrite (zip_keys _ _ Hf)|]. clear Hn.
  induction Hf as [|c' d' cs digests H _ IH]; [by apply elem_of_nil in Hc|]. simpl.
  apply elem_of_cons in Hc as [->|Hc]; [rewrite Hd in H; injection H as ->; by left|right; by apply IH].
Qed.

Lemma zip_separate (cs : list SettlementCandidate) digests :
  Forall2 (fun c d => candidate_digest c = Ok d) cs digests -> NoDup (q_id <$> cs) -> separate (zip digests cs).
Proof.
  intros Hf Hn d d' c c' [Hc Hd]%(zip_lookup _ _ _ _ Hf) [Hc' Hd']%(zip_lookup _ _ _ _ Hf) E.
  rewrite (NoDup_fmap_inj q_id cs c c' Hn Hc Hc' E) in Hd. congruence.
Qed.

(** ** The steps of a commit *)

(** The plan is the one recomputed from the lease, the lease is still current, and the plan was applied. *)
Definition transacted (compose : EvaluationStackManifest -> result string) (lease : SettlementLease) (plan : SettlementPlan)
    (receipts : list SettlementEvidence) (b : Z) (digests : list string) (expected : SettlementPlan) (i : store)
    (s s' : settlement_db) : Prop :=
  let cs := lease_candidates lease in
  Forall2 (fun c d => candidate_digest c = Ok d) cs digests /\
  plan_settlement cs (st_manifest (lease_stack lease)) (st_tree (lease_stack lease)) (VInt (initial_sequence lease))
    (VStr (previous_event_digest lease)) (lease_tips lease) (Some compose) = Ok expected /\
  plan_to_dict expected = plan_to_dict plan /\ b < lease_expires lease /\ cs <> [] /\
  evaluation_stack (st_arena (lease_stack lease)) s = (s, Ok (lease_stack lease)) /\
  _event_head s = (s, Ok (initial_sequence lease, previous_event_digest lease)) /\
  length (active_rows lease (with_intake i s)) = length cs /\
  apply_plan lease plan (zip digests cs) ((fun r => (ev_candidate r, r)) <$> receipts) b (with_intake i s) = (s', Ok tt).

Lemma bind_any {A B} (m : T A) (f : A -> T B) s s' r :
  (m ≫= f) s = (s', r) -> (exists e, m s = (s', Raise e) /\ r = Raise e) \/ exists s1 a, m s = (s1, Ok a) /\ f a s1 = (s', r).
Proof. unfold mbind, ST_bind. destruct (m s) as [s1 [a|e]]; [eauto|]. intros [= -> <-]. eauto. Qed.

(** A call that reads fails where it is, or returns where it is. *)
Ltac step_any H :=
  let Hx := fresh "Hx" in
  apply bind_any in H as [(? & H & ->)|(? & ? & Hx & H)];
    [left; unfold of_result in H; injection H as <- _; eauto|apply of_result_run in Hx as [-> Hx]].

Lemma commit_any cfg compose lease plan receipts b s s' r :
  commit_settlement cfg compose lease plan receipts b s = (s', r) ->
  (s' = s /\ exists e, r = Raise e) \/ exists digests expected i, transacted compose lease plan receipts b digests expected i s s' /\
    evaluation_stack (st_arena (lease_stack lease)) s' = (s', r).
Proof.
  unfold commit_settlement. intros H. destruct (_ || _ || _) eqn:Ef in H; [left; unfold raise in H; injection H as <- <-; eauto|].
  step_any H. apply map_result_Forall2 in Hx. destruct (negb _) eqn:Es in H; [left; unfold raise in H; injection H as <- <-; eauto|].
  step_any H. destruct (negb _) eqn:Ep in H; [left; unfold raise in H; injection H as <- <-; eauto|].
  apply negb_false_iff, bool_decide_eq_true in Ep. apply orb_false_iff in Ef as [[_ Hb%Z.leb_gt]%orb_false_iff _].
  destruct (lease_candidates lease) as [|first rest] eqn:Ecs; [left; unfold raise in H; injection H as <- <-; eauto|].
  apply bind_any in H as [(e & H & ->)|(s1 & [] & Ha & H)]; [left; apply atomic_refused in H; eauto|].
  apply atomic_run in Ha. apply bind_run in Ha as (t & [] & Hc & Ha). rewrite <- Ecs in *.
  apply check_lease_run in Hc as (i & -> & Hst & Hh & Hl).
  assert (s' = s1) as ->.
  { unfold evaluation_stack in H. apply bind_any in H as [(? & H & _)|(? & ? & Hx' & H)]; [unfold of_result in H; congruence|].
    apply of_result_run in Hx' as [-> _]. apply bind_any in H as [(? & H & _)|(? & ? & Hx' & H)]; [unfold asks in H; congruence|].
    apply asks_run in Hx' as [-> ->]. destruct (stack_rows s1 !! _); unfold raise, of_result in H; congruence. }
  right. exists x0, x1, i. split; [|exact H]. unfold transacted.
  repeat (split; [first [eassumption | by rewrite Ecs]|]). exact Ha.
Qed.

Lemma commit_steps cfg compose lease plan receipts b s s' st :
  commit_settlement cfg compose lease plan receipts b s = (s', Ok st) ->
  exists digests expected i, transacted compose lease plan receipts b digests expected i s s' /\
    evaluation_stack (st_arena (lease_stack lease)) s' = (s', Ok st).
Proof.
  intros [[_ [e He]]|H]%commit_any; [discriminate He|exact H].
Qed.

(** The two halves of applying the plan, and what they leave. *)
Lemma apply_steps lease plan byd ev b i s s' :
  let arena := st_arena (lease_stack lease) in
  apply_plan lease plan byd ev b (with_intake i s) = (s', Ok tt) ->
  exists m mid, let disposition := foldl add_verdict [] (events plan) in
    (forall k, (forall e, e ∈ events plan -> retires_target e -> k <> (arena, event_target e)) ->
       m !! k = standing s !! k) /\
    record_events b byd ev [] (events plan) (with_standing m (with_intake i s)) = (mid, Ok disposition) /\
    (list_to_set disposition.*1 : gset string) = list_to_set byd.*1 /\
    exists after, run_all (dispose byd ev) disposition mid = (after, Ok tt) /\
      match plan_transition plan with
      | None => s' = after
      | Some t => exists e d, last (events plan) = Some e /\ Settlement.event_digest e = Ok d /\
                    advance_stack (lease_stack lease) t d after = (s', Ok tt)
      end.
Proof.
  intros arena H. unfold apply_plan in H. inv_t. apply retire_run in Hx as (m & -> & Hm).
  pose proof Hx0 as Hr. apply record_events_run in Hr as (rows & _ & _ & _ & -> & _).
  apply negb_false_iff, bool_decide_eq_true in Hf. exists m. eexists. split_and!; [exact Hm|exact Hx0|exact Hf|].
  destruct x1. eexists. split; [exact Hx1|]. destruct (plan_transition plan) as [t|]; [|by inv_t].
  destruct (last (events plan)) as [e|]; [|by inv_t]. inv_t. by exists e, x0.
Qed.
