(* ===== verification/SettlementCommit.v ===== *)
(** * What a commit promises

    The verdict of every leased candidate, and how the stack and the standing
    claims move with the winner. *)

From S2P Require Import Prelude PyVal Dict Identity Strict Numbers EvidenceRef Stack StackContracts Qualification Candidate Settlement SettlementContracts Economics Effects Leases Recovery Store Queue StackState SettlementRows SettlementStore SettlementJournal SettleContracts.

Open Scope Z_scope.

(** The only lane a qualification can have. *)
Definition registered_lanes (cs : list SettlementCandidate) : Prop := Forall (fun c => lane (primary c) = "registered") cs.

Lemma digests_unique (cs : list SettlementCandidate) ds ds' :
  Forall2 (fun c d => candidate_digest c = Ok d) cs ds -> Forall2 (fun c d => candidate_digest c = Ok d) cs ds' -> ds = ds'.
Proof.
  intros H. revert ds'. induction H as [|c d cs ds Hc _ IH]; intros ds' H'; inversion H' as [|? d' ? ? Hc' Ht]; subst; [done|].
  rewrite Hc in Hc'. injection Hc' as ->. f_equal. by apply IH.
Qed.

(** A committed plan holds everybody but the winner. *)
Lemma plan_disposition cs current tree n prev tips f p digests :
  plan_settlement cs current tree (VInt n) (VStr prev) tips f = Ok p -> registered_lanes cs ->
  Forall2 (fun c d => candidate_digest c = Ok d) cs digests ->
  NoDup digests /\ (forall d, d ∈ judged_candidates (events p) <-> d ∈ digests) /\
  forall d, d ∈ digests -> dict_get d (foldl add_verdict [] (events p)) = Some (if String.eqb d (winner p) then "crowned" else "held").
Proof.
  intros Hp Hl Hd. destruct (plan_verdicts _ _ _ _ _ _ _ _ Hp Hl) as (digests' & Hd' & Hn & Hv & Hc).
  assert (digests' = digests) as -> by by eapply digests_unique. fold (judged_candidates (events p)) in Hv.
  assert (Hin : forall d, d ∈ judged_candidates (events p) <-> d ∈ digests) by (intros d; by rewrite Hv).
  split_and!; [done|done|]. intros d Hdd. assert (Hnj : NoDup (judged_candidates (events p))) by by rewrite Hv.
  assert (Hne : d <> "").
  { destruct (list_elem_of_lookup_1 _ _ Hdd) as [i Hi]. destruct (Forall2_lookup_r _ _ _ _ _ Hd Hi) as (c & _ & Hc').
    apply canonical_digest_shape in Hc'. by destruct d. }
  destruct (String.eqb_spec d (winner p)) as [E|Hw].
  - assert (Hcr : d ∈ candidate_of <$> filter (fun e => is_crown (Settlement.event_type e)) (events p)).
    { rewrite Hc, <- E. destruct d; [done|]. by left. }
    apply list_elem_of_fmap in Hcr as (e & -> & [Hk He]%list_elem_of_filter).
    apply disposition_of_event; [done..|]. unfold is_crown in Hk. by apply bool_decide_unpack in Hk as ->.
  - apply Hin in Hdd. unfold judged_candidates in Hdd. apply list_elem_of_fmap in Hdd as (e & -> & [Hk He]%list_elem_of_filter).
    apply disposition_of_event; [done..|]. unfold is_verdict in Hk. apply bool_decide_unpack in Hk as [->|Hk]; [done|].
    exfalso. apply Hw. assert (Hcr : candidate_of e ∈ candidate_of <$> filter (fun e => is_crown (Settlement.event_type e)) (events p)).
    { apply list_elem_of_fmap_2, list_elem_of_filter. split; [|done]. unfold is_crown. by rewrite Hk. }
    rewrite Hc in Hcr. destruct (truthy _); [by apply list_elem_of_singleton in Hcr|by apply elem_of_nil in Hcr].
Qed.

(** What reopens from the row that a transition writes. *)
Lemma advanced_row stack t e s s' st u :
  advance_stack stack t e s = (s', Ok u) -> evaluation_stack (st_arena stack) s' = (s', Ok st) ->
  st_generation st = st_generation stack + 1 /\ manifest_digest (st_manifest st) = manifest_digest (out_manifest t) /\
  st_tree st = arm_tree (out_after t) /\ st_transition st = e /\
  standing s' = standing s /\ forall a, a <> st_arena stack -> stack_rows s' !! a = stack_rows s !! a.
Proof.
  unfold advance_stack. intros H Hst. inv_t. destruct (stack_rows s !! st_arena stack) as [w|] eqn:Ew; inv_t.
  apply negb_false_iff in Hf. split_bool. apply Z.eqb_eq in H.
  apply evaluation_stack_run in Hst as (_ & _ & row & Hr & Hst). cbn in Hr. rewrite lookup_insert_eq in Hr. injection Hr as <-.
  unfold _evaluation_stack_state_from_row in Hst. apply bind_Ok in Hst as (m & _ & Hst).
  apply bind_Ok in Hst as (state & Hmk & Hst). apply bind_Ok in Hst as (d & Hd & Hst). step_guard Hst. injection Hst as <-.
  apply orb_false_iff in Eg as [Eg _]. apply negb_false_iff, String.eqb_eq in Eg. cbn in Eg, Hmk. subst d.
  unfold make_stack_state in Hmk. inv_ok. step_guard Hmk. injection Hmk as <-. cbn. split_and!; try done; [lia|congruence|].
  intros a Ha. by apply lookup_insert_ne.
Qed.

(** An entry of a stack that reopens is at its own target. *)
Lemma stack_entry_target arena s s' st target prior :
  evaluation_stack arena s = (s', Ok st) -> dict_get target (entries (st_manifest st)) = Some prior -> c_target prior = target.
Proof.
  intros (_ & _ & row & _ & Hs)%evaluation_stack_run Hp. unfold _evaluation_stack_state_from_row in Hs.
  apply bind_Ok in Hs as (m & Hm & Hs). apply bind_Ok in Hs as (state & Hmk & Hs). apply bind_Ok in Hs as (d & _ & Hs).
  step_guard Hs. injection Hs as <-. unfold make_stack_state in Hmk. inv_ok. step_guard Hmk. injection Hmk as <-. cbn in Hp.
  unfold reread in Hm. destruct (manifest_from_dict (w_json row)) as [m'|] eqn:E; [injection Hm as ->|done].
  apply manifest_from_dict_stored in E as [Hm _]. pose proof (remake_entries _ Hm) as (_ & _ & He).
  rewrite Forall_forall in He. by apply (He (target, prior)), dict_get_elem.
Qed.

(** The claim of a crown: the winner's contribution, hotkey and speed, and it reads back from the row. *)
Definition claim_of (w : SettlementCandidate) (row : claim_row) : Prop :=
  exists contribution claim, winning_entry w = Ok contribution /\ standing_from_dict (h_json row) = Ok claim /\
    standing_digest claim = Ok (h_digest row) /\
    Stack.contribution_digest contribution = Ok (Economics.contribution_digest claim) /\
    claim_hotkey claim = q_hotkey (primary w) /\ speedup_ppm claim = speedup_parts (candidate_speedup w) /\
    WEIGHT_PPM < speedup_ppm claim.

Lemma standing_reads_back a t sp c h u k e claim :
  make_standing a t sp c h u k e = Ok claim -> standing_from_dict (standing_to_dict claim) = Ok claim.
Proof. intros H. apply make_standing_again in H. rewrite <- H. reflexivity. Qed.

Lemma integer_value_bound a field lo z : _integer (VInt a) field lo = Ok z -> z = a /\ lo <= a.
Proof. unfold _integer. by intros ([= ->] & ? & _)%require_int_Ok. Qed.

Lemma crowned_row_claim ev d e c row : crowned_row ev d e c row -> claim_of c row /\ h_status row = "active".
Proof.
  intros (contribution & receipt & rd & claim & Hw & _ & _ & Hc & Hd & Hj & Hs & _). split; [|done].
  exists contribution, claim. unfold crown_claim in Hc. inv_ok. pose proof (standing_reads_back _ _ _ _ _ _ _ _ _ Hc) as Hb.
  unfold make_standing in Hc. inv_ok. read_values.
  repeat match goal with
  | H : Economics._digest (VStr _) _ = Ok _ |- _ => apply digest_value in H; injection H as ?; subst
  | H : _hotkey (VStr _) _ = Ok _ |- _ => apply hotkey_value in H; injection H as ?; subst
  | H : _integer (VInt _) _ _ = Ok _ |- _ => apply integer_value_bound in H as [-> ?]
  end.
  split_and!; try done; [by rewrite Hj|]. cbn in *. lia.
Qed.

Section Committed.
Context (cfg : config) (compose : EvaluationStackManifest -> result string).
Context (lease : SettlementLease) (plan : SettlementPlan) (receipts : list SettlementEvidence) (b : Z).
Context (s s' : settlement_db) (st : EvaluationStackState).
Context (Hcommit : commit_settlement cfg compose lease plan receipts b s = (s', Ok st)).

Abbreviation cs := (lease_candidates lease).
Abbreviation arena := (st_arena (lease_stack lease)).

Lemma advance_candidates stack t e t0 t1 u : advance_stack stack t e t0 = (t1, Ok u) -> candidates t1 = candidates t0.
Proof. unfold advance_stack. intros H. inv_t. destruct (stack_rows t0 !! _); inv_t. done. Qed.

(** C37: a commit gives every leased candidate its verdict and touches no other: each candidate of the lease was
    leased under it, and after the commit it is crowned if it is the plan's winner and held if not, and
    under no lease; every other candidate of the database is as it was. *)
Theorem commit_verdicts :
  keyed s -> registered_lanes cs ->
  (forall c d, c ∈ cs -> candidate_digest c = Ok d ->
     exists k k', candidates s !! q_id c = Some k /\ held_under lease k /\
       candidates s' !! q_id c = Some k' /\ k_status k' = (if String.eqb d (winner plan) then "crowned" else "held") /\
       k_lease k' = "" /\ k_digest k' = k_digest k) /\
  (forall rid, rid ∉ q_id <$> cs -> candidates s' !! rid = candidates s !! rid).
Proof.
  intros Hk Hl. destruct (commit_steps _ _ _ _ _ _ _ _ _ Hcommit) as (digests & p & i & (Hd & Hp & E & _ & _ & _ & _ & Ha & Happ) & _).
  destruct (plan_to_dict_inj _ _ E) as (Ee & Ew & _). destruct (plan_disposition _ _ _ _ _ _ _ _ _ Hp Hl Hd) as (Hn & Hj & Hv).
  pose proof (plan_ids_distinct _ _ _ _ _ _ _ _ Hp) as Hids.
  apply apply_steps in Happ as (m & mid & _ & Hr & _ & after & Hdis & Hafter).
  rewrite <- Ee in Hr, Hdis. rewrite <- Ew. apply record_events_run in Hr as (rows & _ & (_ & Hcm & _) & _ & _ & _ & _). cbn in Hcm.
  apply dispose_all_run in Hdis as (ks & -> & Hother & Hin);
    [|by apply zip_separate|by apply disposition_NoDup, NoDup_nil_2].
  assert (Hks : candidates s' = ks).
  { destruct (plan_transition plan); [|by subst]. destruct Hafter as (e & d & _ & _ & Hadv). by apply advance_candidates in Hadv. }
  rewrite Hks. split.
  - intros c d Hc Hcd. destruct (active_rows_complete lease (with_intake i s) c Hk Hids Ha Hc) as (k & Hkc & Hheld).
    pose proof (zip_found _ _ _ _ Hd Hn Hc Hcd) as Hz. assert (Hdd : d ∈ digests).
    { rewrite <- (zip_keys _ _ Hd). by apply dict_get_elem, (list_elem_of_fmap_2 fst) in Hz. }
    destruct (Hin d _ c (dict_get_elem _ _ _ (Hv d Hdd)) Hz) as (receipt & rd & _ & _ & Ek). cbn in Hkc.
    rewrite Ek, Hcm, Hkc. exists k. eexists. split_and!; try done; apply Hheld.
  - intros rid Hrid. rewrite Hother, Hcm; [done|]. intros d c _ [Hc _]%(zip_lookup _ _ _ _ Hd) ->. apply Hrid.
    by apply list_elem_of_fmap_2.
Qed.
(** What the events of the plan do to the claims, with the table the retirements leave. *)
Lemma claims_of_events byd ev m i mid disposition es pre e post c :
  es = pre ++ e :: post -> Forall (fun k => ~ is_crowning k) pre -> is_crowning e -> Forall (fun k => ~ is_crowning k) post ->
  dict_get (candidate_of e) byd = Some c ->
  record_events b byd ev [] es (with_standing m (with_intake i s)) = (mid, Ok disposition) ->
  exists row, claim_of c row /\ h_status row = "active" /\
    standing mid = <[(q_arena (primary c), q_target (primary c)) := row]> m.
Proof.
  intros -> Hpre He Hpost Hc H. apply record_events_app in H as (t1 & d1 & H1 & H2). simpl in H2. inv_t.
  apply record_events_run in H1 as (_ & _ & _ & _ & _ & _ & H1). destruct (H1 Hpre) as [E1 _].
  apply record_events_run in H2 as (_ & _ & _ & _ & _ & _ & H2). destruct (H2 Hpost) as [E2 _].
  apply record_event_run in Hx as (c' & er & Hc' & _ & _ & _ & _ & _ & Hcr & _). rewrite Hc in Hc'. injection Hc' as <-.
  destruct (Hcr He) as (row & tip & r & Hrow & Hs & _). apply crowned_row_claim in Hrow as [Hrow Hact].
  exists row. split_and!; [done..|]. by rewrite E2, Hs, E1.
Qed.

(** A lease is over candidates of the arena of its stack. *)
Lemma lease_arena l l' : make_settlement_lease l = Ok l' -> forall c, c ∈ lease_candidates l -> q_arena (primary c) = st_arena (lease_stack l).
Proof.
  unfold make_settlement_lease. intros H c Hc. inv_ok. step_guard H. inv_ok. step_guard H.
  apply orb_false_iff in Eg0 as [Eg0 _]. apply orb_false_iff in Eg0 as [_ Eg0].
  pose proof (existsb_false _ _ c Eg0 Hc) as E. by apply negb_false_iff, String.eqb_eq in E.
Qed.

(** C11: the stack and the standing claims move with the winner, and with nothing else: a plan that crowns nobody
    leaves all stacks and all claims as they were; a plan with a transition moves the stack of its arena one
    generation on, to a manifest and a tree that are the arm the plan names, and puts one active claim, which
    reads back as the winner's contribution, hotkey and speed, at the winner's target. The stacks of other
    arenas and the claims of other targets stay. *)
Theorem commit_moves_stack :
  make_settlement_lease lease = Ok lease -> registered_lanes cs ->
  match plan_transition plan with
  | None => st = lease_stack lease /\ stack_rows s' = stack_rows s /\ standing s' = standing s
  | Some _ =>
      st_generation st = st_generation (lease_stack lease) + 1 /\
      manifest_digest (st_manifest st) = Ok (arm_stack (plan_after plan)) /\ st_tree st = arm_tree (plan_after plan) /\
      (forall a, a <> arena -> stack_rows s' !! a = stack_rows s !! a) /\
      exists w row, w ∈ cs /\ candidate_digest w = Ok (winner plan) /\ claim_of w row /\ h_status row = "active" /\
        standing s' !! (arena, q_target (primary w)) = Some row /\
        forall k, k <> (arena, q_target (primary w)) -> standing s' !! k = standing s !! k
  end.
Proof.
  intros Hlease Hl.
  destruct (commit_steps _ _ _ _ _ _ _ _ _ Hcommit) as (digests & p & i & (Hd & Hp & E & _ & _ & Hst & _ & _ & Happ) & Hst').
  destruct (plan_to_dict_inj _ _ E) as (Ee & Ew & _ & Ea & Et). destruct (plan_disposition _ _ _ _ _ _ _ _ _ Hp Hl Hd) as (Hn & _).
  apply apply_steps in Happ as (m & mid & Hm & Hr & _ & after & Hdis & Hafter). rewrite <- Ee in Hr, Hdis, Hafter, Hm.
  pose proof Hr as Hr'. apply record_events_run in Hr' as (_ & _ & (_ & _ & Hsr & _) & _ & _ & _ & Hno).
  apply dispose_all_run in Hdis as (ks & -> & _);
    [|by eapply zip_separate, plan_ids_distinct|by apply disposition_NoDup, NoDup_nil_2].
  destruct (plan_transition plan) as [t'|] eqn:Ept.
  - destruct (plan_transition p) as [t|] eqn:Et'; [|done]. destruct Et as [Eo Em]. destruct Hafter as (ek & d & _ & _ & Hadv).
    destruct (advanced_row _ _ _ _ _ _ _ Hadv Hst') as (Hg & Hmd & Htree & _ & Hsd & Hoth). cbn in Hsd, Hoth.
    destruct (plan_crowns _ _ _ _ _ _ _ _ Hp _ Et') as (w & pre & e & post & Hw & Hwd & Hes & Hpre & Hek & Hce & Htgt & Hpost & Hta & Htm).
    assert (Hz : dict_get (candidate_of e) (zip digests cs) = Some w) by (rewrite Hce; by apply zip_found).
    assert (exists row, claim_of w row /\ h_status row = "active" /\
              standing mid = <[(q_arena (primary w), q_target (primary w)) := row]> m) as (row & Hrow & Hact & Hrs).
    { eapply (claims_of_events (zip digests cs)); [exact Hes|..|exact Hz|exact Hr]; [|done|].
      - apply (Forall_impl _ _ _ Hpre). intros k Hk Hc. unfold is_crowning in Hc. by rewrite Hk in Hc.
      - apply (Forall_impl _ _ _ Hpost). by intros k [? _]. }
    assert (Harena : q_arena (primary w) = arena).
    { by apply (lease_arena _ _ Hlease). }
    rewrite Harena in Hrs. split_and!; [done| |by rewrite Htree, <- Eo, Hta, Ea|intros a Ha; by rewrite Hoth, Hsr|].
    + rewrite Hmd, <- Ea, <- Htm. unfold manifest_digest. by rewrite Em.
    + exists w, row. rewrite <- Ew, Hsd. cbn. rewrite Hrs. split_and!; [done..|by rewrite lookup_insert_eq|].
      intros k Hk. rewrite lookup_insert_ne by done. apply Hm. intros k' Hk' Hret.
      assert (event_target k' = q_target (primary w)) as ->; [|done]. rewrite Hes in Hk'.
      apply elem_of_app in Hk' as [Hk'|[->|Hk']%elem_of_cons].
      * rewrite Forall_forall in Hpre. unfold retires_target in Hret. rewrite (Hpre _ Hk') in Hret. naive_solver.
      * unfold retires_target in Hret. rewrite Hek in Hret. naive_solver.
      * rewrite Forall_forall in Hpost. destruct (proj2 (Hpost _ Hk') Hret) as (prior & Hprior & ->).
        by apply (stack_entry_target _ _ _ _ _ _ Hst).
  - destruct (plan_transition p) eqn:Et'; [done|]. destruct (plan_holds _ _ _ _ _ _ _ _ Hp Et') as (_ & _ & Hall).
    subst s'. cbn. rewrite Hsr.
    assert (Hnc : Forall (fun k => ~ is_crowning k) (events p)).
    { apply (Forall_impl _ _ _ Hall). intros k Hk Hc. unfold is_crowning in Hc. by rewrite Hk in Hc. }
    destruct (Hno Hnc) as [Es _]. split_and!; [|done|].
    + apply evaluation_stack_run in Hst as (_ & _ & row & Hrow & Hs1).
      apply evaluation_stack_run in Hst' as (_ & _ & row' & Hrow' & Hs2). cbn in Hrow'. rewrite Hsr in Hrow'. cbn in Hrow'. congruence.
    + rewrite Es. cbn. apply map_eq. intros k. apply Hm. intros e He Hret.
      rewrite Forall_forall in Hall. unfold retires_target in Hret. rewrite (Hall _ He) in Hret. naive_solver.
Qed.
End Committed.
