(* ===== verification/SettlementMachine.v ===== *)
(** * The settlement store as a machine

    One step is one operation: a lease, a commit, a recovery after a restart, a
    retained qualification, a claim for qualification, the verdicts of a cohort,
    a commissioned stack, the gate of the commission, or any operation of the
    intake queue. What every reachable database satisfies, and that a settlement
    happens once. *)

From stdpp Require Import relations.
From S2P Require Import Prelude PyVal Dict Identity Strict Numbers EvidenceRef Stack StackContracts Qualification Candidate Settlement SettlementContracts Economics Effects Leases Recovery Store Queue SettlementRecords QualificationIntake StackState SettlementRows SettlementStore Baseline QualificationProgress SettlementJournal SettleContracts SettlementCommit.

Open Scope Z_scope.

(** ** Programs that keep a property, whatever they return *)

Section Preserves.
Context (P : settlement_db -> Prop).

Definition preserves {A} (m : T A) : Prop := forall s s' r, P s -> m s = (s', r) -> P s'.

Lemma preserves_ret {A} (a : A) : preserves (mret a).
Proof. by intros s s' r HP [= <- _]. Qed.

Lemma preserves_raise {A} e : preserves (raise e : T A).
Proof. by intros s s' r HP [= <- _]. Qed.

Lemma preserves_result {A} (x : result A) : preserves (of_result x).
Proof. by intros s s' r HP [= <- _]. Qed.

Lemma preserves_asks {A} (f : settlement_db -> A) : preserves (asks f).
Proof. by intros s s' r HP [= <- _]. Qed.

Lemma preserves_update f : (forall s, P s -> P (f s)) -> preserves (update f).
Proof. intros Hf s s' r HP [= <- _]. by apply Hf. Qed.

Lemma preserves_bind {A B} (m : T A) (f : A -> T B) : preserves m -> (forall a, preserves (f a)) -> preserves (m ≫= f).
Proof.
  intros Hm Hf s s' r HP [(e & H & _)|(s1 & a & H & H')]%bind_any; [by eapply Hm|]. eapply Hf; [|exact H']. by eapply Hm.
Qed.

Lemma preserves_fmap {A B} (f : A -> B) (m : T A) : preserves m -> preserves (f <$> m).
Proof.
  intros Hm s s' r HP H. unfold fmap, ST_fmap in H. destruct (m s) as [s1 x] eqn:E.
  assert (s' = s1) as -> by (destruct x; congruence). by eapply Hm.
Qed.

Lemma preserves_if {A} (b : bool) (m k : T A) : preserves m -> preserves k -> preserves (if b then m else k).
Proof. by destruct b. Qed.

Lemma preserves_atomic {A} (m : T A) : preserves m -> preserves (atomic m).
Proof.
  intros Hm s s' r HP H. unfold atomic in H. destruct (m s) as [s1 [a|e]] eqn:E; injection H as <- _; [|done]. by eapply Hm.
Qed.

Lemma preserves_all {A} (f : A -> T ()) l : (forall x, x ∈ l -> preserves (f x)) -> preserves (run_all f l).
Proof.
  intros Hf. induction l as [|x l IH]; simpl; [apply preserves_ret|].
  apply preserves_bind; [apply Hf; by left|]. intros _. apply IH. intros y Hy. apply Hf. by right.
Qed.

Lemma preserves_catch {A} (h : exn -> option (T A)) (m : T A) :
  preserves m -> (forall e k, h e = Some k -> preserves k) -> preserves (catch h m).
Proof.
  intros Hm Hh s s' r HP H. unfold catch in H. destruct (m s) as [s1 [a|e]] eqn:E; [injection H as <- _; by eapply Hm|].
  apply Hm in E; [|done]. destruct (h e) as [k|] eqn:Ek; [by eapply Hh|by injection H as <- _].
Qed.

Lemma preserves_result_bind {A B} (x : result A) (f : A -> T B) :
  (forall a, x = Ok a -> preserves (f a)) -> preserves (of_result x ≫= f).
Proof. intros Hf s s' r HP H. unfold mbind, ST_bind, of_result in H. destruct x; [by eapply Hf|by injection H as <- _]. Qed.
End Preserves.

(** Take a program apart into its statements. *)
Ltac keep :=
  repeat first
    [ apply preserves_ret | apply preserves_raise | apply preserves_result | apply preserves_asks
    | apply preserves_result_bind; intros ? ? | apply preserves_bind; [|intros ?] | apply preserves_fmap | apply preserves_if | apply preserves_atomic
    | apply preserves_all; intros ? ? | eassumption | progress cbv beta zeta
    | match goal with |- preserves _ (match ?x with _ => _ end) => destruct x end ].

(** ** Steps *)

(** The passes of a batch carry qualifications as the code constructs them. *)
Definition settled_batch (b : QualificationIntakeBatch) : Prop :=
  forall o q, o ∈ b_outcomes b -> o_settlement o = Some q -> stored_qualification q.

Inductive settle_step : settlement_db -> settlement_db -> Prop :=
| step_lease cfg b n s : settle_step s (lease_settlement_cohort cfg b n s).1
| step_commit cfg compose lease plan receipts b s : settle_step s (commit_settlement cfg compose lease plan receipts b s).1
| step_recover s : settle_step s (recover_settlements s).1
| step_retain rid lane q ref root b s : stored_qualification q -> settle_step s (atomic (retain_complete_pass rid lane q ref root b) s).1
| step_commission competition m tree s : settle_step s (atomic (_initialize_evaluation_stack_row competition m tree) s).1
| step_initialize competition m tree s : settle_step s (initialize_evaluation_stack competition m tree s).1
| step_gate competition m tree s : settle_step s (commission_boundary competition m tree s).1
| step_claim cfg rid authority manifest service s : settle_step s (mark_qualifying cfg rid authority manifest service s).1
| step_batch cfg b block root s : settled_batch b -> settle_step s (apply_qualification_batch cfg b block root s).1
| step_queue {A} (m : M A) s : settle_step s (queue m s).1.

(** ** The invariant *)

Definition known_statuses : list string := "pending" :: "leased" :: economic_statuses.

(** A row is leased exactly when it names a lease, and its candidate is of its own reservation. *)
Record good_row (k : candidate_row) : Prop := {
  row_leased : k_status k = "leased" <-> k_lease k <> "";
  row_status : k_status k ∈ known_statuses;
  row_candidate : forall c, _settlement_candidate k = Ok c -> q_id c = k_reservation k;
}.

Definition good_rows (s : settlement_db) : Prop := forall rid k, candidates s !! rid = Some k -> good_row k.

Definition stacks_keyed (s : settlement_db) : Prop := forall a w, stack_rows s !! a = Some w -> w_arena w = a.

Record settle_inv (s : settlement_db) : Prop := {
  inv_keyed : keyed s;
  inv_rows : good_rows s;
  inv_stacks : stacks_keyed s;
  inv_journal : exists n h, journal_chain (journal s) n h;
}.

(** Rows that are rewritten one by one. *)
Definition sound_row (f : candidate_row -> candidate_row) : Prop :=
  forall k, k_reservation (f k) = k_reservation k /\ (good_row k -> good_row (f k)).

Lemma settle_row_good st lid g e why ev k :
  (st = "leased" <-> lid <> "") -> st ∈ known_statuses -> good_row k -> good_row (settle_row st lid g e why ev k).
Proof. intros Hl Hst [_ _ Hc]. split; [done..|]. intros c H. by apply Hc. Qed.

Lemma settle_sound p st lid g e why ev :
  (st = "leased" <-> lid <> "") -> st ∈ known_statuses ->
  sound_row (fun k => if p k : bool then settle_row st lid (g k) (e k) why (ev k) k else k).
Proof. intros Hl Hst k. destruct (p k); split; try done. by apply settle_row_good. Qed.

Lemma map_rows_inv f s : sound_row f -> settle_inv s -> settle_inv (with_candidates (f <$> candidates s) s).
Proof.
  intros Hf [Hk Hm Hs Hj]. split; [..|done|done]; intros rid k; cbn; rewrite lookup_fmap; intros (k0 & Hk0 & ->)%fmap_Some_1.
  all: destruct (Hf k0) as [E Hl].
  - rewrite E. by apply Hk.
  - apply Hl. by eapply Hm.
Qed.

Lemma alter_row_inv (f : candidate_row -> candidate_row) rid s :
  sound_row f -> settle_inv s -> settle_inv (with_candidates (alter f rid (candidates s)) s).
Proof.
  intros Hf [Hk Hm Hs Hj]. split; [..|done|done]; intros rid' k; cbn; intros H; apply lookup_alter_Some in H as [(-> & k0 & Hk0 & ->)|[_ H]].
  all: try destruct (Hf k0) as [E Hl].
  - rewrite E. by apply Hk.
  - by apply Hk.
  - apply Hl. by eapply Hm.
  - by eapply Hm.
Qed.

(** ** Operations other than a commit

    What an operation keeps follows from a few closure conditions: on any change
    of the intake tables, on rewriting or adding candidate rows, on a retained
    qualification and on a new stack. *)

Class Stable (P : settlement_db -> Prop) : Prop := {
  stable_intake i s : P s -> P (with_intake i s);
  stable_rows f s : sound_row f -> P s -> P (with_candidates (f <$> candidates s) s);
  stable_insert rid k s :
    k_reservation k = rid -> good_row k -> P s -> P (with_candidates (<[rid := k]> (candidates s)) s);
  stable_retained rs s : P s -> P (with_retained rs s);
  stable_verdicts vs s : P s -> P (with_verdicts vs s);
  stable_stack w s : P s -> P (with_stacks (<[w_arena w := w]> (stack_rows s)) s);
}.

Section Operations.
Context (P : settlement_db -> Prop) `{!Stable P}.

Lemma preserves_queue {A} (m : M A) : preserves P (queue m).
Proof.
  intros s s' r HP H. unfold queue, zoom in H. destruct (m (intake s)) as [i x]. injection H as <- _.
  by apply stable_intake.
Qed.

Lemma preserves_rows f : sound_row f -> preserves P (update (fun s => with_candidates (f <$> candidates s) s)).
Proof. intros Hf. apply preserves_update. intros s. by apply stable_rows. Qed.

Lemma preserves_blocked cohort cs : preserves P (any_blocked cohort cs).
Proof.
  induction cs as [|c cs IH]; simpl; [apply preserves_ret|]. unfold _economic_blockers. keep; try apply preserves_queue; done.
Qed.

Lemma preserves_choose pending firsts : preserves P (choose_cohort pending firsts).
Proof.
  induction firsts as [|k firsts IH]; simpl; [apply preserves_ret|]. keep. apply preserves_blocked.
Qed.

Lemma lease_digest_nonempty a cs g i b d : lease_digest a cs g i b = Ok d -> d <> "".
Proof. unfold lease_digest. intros H. inv_ok. apply canonical_digest_shape in H. by destruct d. Qed.

Lemma preserves_lease_chosen b n chosen : preserves P (lease_chosen b n chosen).
Proof.
  unfold lease_chosen. destruct chosen as [|[k c] chosen]; [apply preserves_raise|].
  unfold evaluation_stack, _event_head, target_lineage_tips. keep; try apply preserves_queue.
  apply preserves_update. intros s. apply stable_rows, settle_sound; [split; [|done]; intros _; by eapply lease_digest_nonempty|set_solver].
Qed.

Lemma preserves_lease cfg b n : preserves P (lease_settlement_cohort cfg b n).
Proof.
  unfold lease_settlement_cohort.
  keep; [apply preserves_queue|apply preserves_update; intros s; apply stable_rows, settle_sound; [done|set_solver]..|apply preserves_choose
        |apply preserves_lease_chosen].
Qed.

Lemma preserves_recover : preserves P recover_settlements.
Proof. apply preserves_rows, settle_sound; [done|set_solver]. Qed.

(** A retained qualification reads back, so its row is of its own reservation. *)
Lemma retained_row_good q c d root :
  stored_qualification q -> make_candidate q None = Ok c ->
  good_row (mkCandidateRow (q_id c) (authority q) d (candidate_to_dict c) root "" "" "pending" "" 0 0 "" false).
Proof.
  intros Hq Hc. split; [done|set_solver|]. intros c' H. unfold _settlement_candidate in H. cbn [k_json k_digest] in H.
  apply bind_Ok in H as (c1 & H1 & H). apply bind_Ok in H as (d1 & _ & H). step_guard H. injection H as <-.
  pose proof (make_candidate_Ok _ _ _ Hc) as ->. unfold reread in H1.
  destruct (candidate_from_dict _) as [c2|] eqn:E in H1; [injection H1 as <-|discriminate].
  unfold candidate_from_dict, candidate_to_dict, str_dict in E. cbn -[qualification_to_dict qualification_from_dict make_candidate] in E.
  rewrite (qualification_reload _ Hq) in E. cbn -[make_candidate] in E. rewrite Hc in E. by injection E as <-.
Qed.

Lemma preserves_retain rid lane q ref root b : stored_qualification q -> preserves P (retain_complete_pass rid lane q ref root b).
Proof.
  intros Hq. unfold retain_complete_pass, retain_qualification, _insert_candidate. keep; try apply preserves_queue.
  - apply preserves_update. intros s. apply stable_retained.
  - apply preserves_update. intros s. apply stable_insert; [done|]. by apply retained_row_good.
Qed.

Lemma preserves_commission competition m tree : preserves P (_initialize_evaluation_stack_row competition m tree).
Proof.
  unfold _initialize_evaluation_stack_row. keep; try apply preserves_queue.
  apply preserves_update. intros s. apply (stable_stack (mkStackRow (Stack.s_arena m) _ _ _ _ _ _)).
Qed.

Lemma preserves_initialize competition m tree : preserves P (initialize_evaluation_stack competition m tree).
Proof.
  unfold initialize_evaluation_stack, evaluation_stack.
  apply preserves_bind; [apply preserves_atomic, preserves_bind; [apply preserves_commission|intros _]|intros _];
    keep; apply preserves_queue.
Qed.

Lemma preserves_gate competition m tree : preserves P (commission_boundary competition m tree).
Proof.
  unfold commission_boundary, evaluation_stack. keep; try apply preserves_queue.
  apply preserves_catch; [keep|]. intros e k. destruct (not_initialized e); [|done]. intros [= <-]. apply preserves_initialize.
Qed.

Lemma preserves_claim cfg rid authority manifest service : preserves P (mark_qualifying cfg rid authority manifest service).
Proof. unfold mark_qualifying, _unambiguous_evaluation_stack. keep; try apply preserves_queue. Qed.

Lemma preserves_pass i f b evidence ref root block o :
  (forall q, o_settlement o = Some q -> stored_qualification q) -> preserves P (retain_pass i f b evidence ref root block o).
Proof.
  intros Hq. unfold retain_pass, evaluation_stack. destruct (o_settlement o) as [q|]; [|apply preserves_ret].
  apply preserves_if; [apply preserves_raise|]. apply preserves_bind; [keep|intros _].
  destruct ref, root; [apply preserves_bind; [by apply preserves_retain, Hq|intros ?; apply preserves_ret]|apply preserves_raise..].
Qed.

Lemma preserves_outcome cfg b retry root block o :
  (forall q, o_settlement o = Some q -> stored_qualification q) -> preserves P (apply_outcome cfg b retry root block o).
Proof.
  intros Hq. unfold apply_outcome, insert_disposition.
  apply preserves_bind; [apply preserves_queue|intros row]. apply preserves_if; [apply preserves_raise|].
  destruct (Admission.i_fingerprint row) as [f|]; [|apply preserves_raise]. apply preserves_if; [apply preserves_raise|].
  apply preserves_bind; [apply preserves_asks|intros n].
  apply preserves_bind; [apply preserves_bind; [apply preserves_queue|intros _]; apply preserves_update; intros ?; apply stable_verdicts|intros _].
  apply preserves_bind; [by apply preserves_pass|intros _; apply preserves_queue].
Qed.

Lemma preserves_batch cfg b block root : settled_batch b -> preserves P (apply_qualification_batch cfg b block root).
Proof.
  intros Hb. unfold apply_qualification_batch. apply preserves_bind; [apply preserves_asks|intros c].
  do 3 (apply preserves_if; [apply preserves_raise|]). apply preserves_bind; [apply preserves_result|intros retry].
  apply preserves_bind; [|intros _; apply preserves_queue].
  apply preserves_atomic, preserves_all. intros o Ho. apply preserves_outcome. intros q. by apply Hb.
Qed.
End Operations.

#[export] Instance settle_inv_stable : Stable settle_inv.
Proof.
  split.
  - by intros i s [? ? ? ?].
  - intros f s. apply map_rows_inv.
  - intros rid k s Hr Hl [Hk Hm Hs Hj].
    split; [..|done|done]; intros rid' k'; cbn; intros [[<- <-]|[_ H]]%lookup_insert_Some; eauto.
  - by intros rs s [? ? ? ?].
  - by intros vs s [? ? ? ?].
  - intros w s [Hk Hm Hs Hj]. split; [done..| |done]. intros ar w'. cbn. intros [[<- <-]|[_ Hw]]%lookup_insert_Some; [done|by apply Hs].
Qed.

(** Nothing but a commit writes the journal. *)
#[export] Instance journal_stable rows : Stable (fun s => journal s = rows).
Proof. by split. Qed.

(** ** A commit and the invariant *)

Lemma chain_start n p es m h : chain n p es m h -> es <> [] -> n < m.
Proof. intros H Hne. apply chain_length in H. destruct es; [done|]. simpl in H. lia. Qed.

Lemma advance_journal stack t e s s' u :
  advance_stack stack t e s = (s', Ok u) -> journal s' = journal s /\ (stacks_keyed s -> stacks_keyed s').
Proof.
  unfold advance_stack. intros H. inv_t. destruct (stack_rows s !! _) as [w|] eqn:Ew; inv_t. split; [done|].
  intros Hs a w'. cbn. intros [[<- <-]|[_ H]]%lookup_insert_Some; [|by apply Hs]. cbn. by apply Hs.
Qed.

Lemma dispose_inv byd ev ds s s' u :
  ds.2 <> "leased" -> ds.2 ∈ known_statuses -> settle_inv s -> dispose byd ev ds s = (s', Ok u) -> settle_inv s' /\ journal s' = journal s.
Proof.
  intros Hne Hkn Hs H. apply dispose_run in H as (c & receipt & rd & _ & _ & _ & ->). split; [|done].
  apply alter_row_inv; [|done]. intros k. split; [done|]. apply settle_row_good; [naive_solver|done].
Qed.

Lemma disposition_values es disposition ds :
  ds ∈ foldl add_verdict disposition es -> ds ∈ disposition \/ ds.2 = "held" \/ ds.2 = "crowned".
Proof.
  revert disposition. induction es as [|e es IH]; intros disposition; simpl; [tauto|]. intros H%IH.
  destruct H as [H|H]; [|by right]. unfold add_verdict in H. destruct (verdict_text _) as [v|] eqn:Ev; [|by left].
  assert (Hv : v = "held" \/ v = "crowned") by (destruct (Settlement.event_type e); naive_solver).
  assert (ds ∈ disposition \/ ds = (candidate_of e, v)) as [?| ->]; [|by left|by right].
  clear -H. induction disposition as [|[k x] l IH]; simpl in H.
  - right. by apply list_elem_of_singleton in H.
  - destruct (String.eqb k (candidate_of e)) eqn:E.
    + apply elem_of_cons in H as [->|H]; [right; f_equal; by apply String.eqb_eq in E|left; by right].
    + apply elem_of_cons in H as [->|H]; [left; by left|]. destruct (IH H); [left; by right|by right].
Qed.

Lemma transacted_inv compose lease plan receipts b digests p i s s' :
  settle_inv s -> transacted compose lease plan receipts b digests p i s s' ->
  settle_inv s' /\ exists rows, Forall2 stores rows (events plan) /\ journal s' = journal s ++ rows /\
    journal_chain (journal s) (initial_sequence lease) (previous_event_digest lease).
Proof.
  intros Hs (_ & Hp & E & _ & _ & _ & Hh & _ & H). destruct (plan_to_dict_inj _ _ E) as (Ee & _).
  destruct Hs as [Hk Hm Hst (n & h & Hj)].
  assert (n = initial_sequence lease /\ h = previous_event_digest lease) as [-> ->].
  { rewrite (journal_chain_head _ _ _ Hj) in Hh. by injection Hh. }
  destruct (plan_settlement_Ok _ _ _ _ _ _ _ _ Hp) as (_ & _ & _ & m & h & _ & _ & _ & _ & Hc & _). rewrite Ee in Hc.
  apply apply_steps in H as (standing' & mid & _ & Hr & _ & after & Hd & Hafter).
  apply record_events_run in Hr as (rows & Hrows & (Hi & Hcm & Hsr & _) & Hjm & _). cbn in Hi, Hcm, Hsr, Hjm.
  assert (Hmid : settle_inv mid).
  { split; [unfold keyed|unfold good_rows|unfold stacks_keyed|]; rewrite ?Hcm, ?Hsr; [done..|].
    rewrite Hjm. exists m, h. by eapply journal_chain_extend. }
  assert (settle_inv after /\ journal after = journal mid) as [Ha Hja].
  { eapply (run_all_invariant (fun t => settle_inv t /\ journal t = journal mid)); [|by split|exact Hd].
    intros ds t t' v Hds [Ht E'] Hrun. assert (ds.2 <> "leased" /\ ds.2 ∈ known_statuses) as [Hne Hkn].
    { apply disposition_values in Hds as [?%elem_of_nil|[->| ->]]; [done|split; [done|set_solver]..]. }
    destruct (dispose_inv _ _ _ _ _ _ Hne Hkn Ht Hrun) as [? ->]. done. }
  assert (Hfin : journal s' = journal after /\ settle_inv s').
  { destruct (plan_transition plan) as [t|]; [|by subst]. destruct Hafter as (e & d & _ & _ & Hadv).
    pose proof (advance_candidates _ _ _ _ _ _ Hadv) as Ec. destruct (advance_journal _ _ _ _ _ _ Hadv) as [Ejj Hks].
    destruct Ha as [Hk' Hm' Hst' Hj']. split; [done|].
    split; [unfold keyed; by rewrite Ec|unfold good_rows; by rewrite Ec|by apply Hks|by rewrite Ejj]. }
  destruct Hfin as [Ejf Hfin]. split; [done|]. exists rows. by rewrite Ejf, Hja, Hjm.
Qed.

(** ** Reachable databases *)

Lemma step_preserves P `{!Stable P} s s' :
  (forall cfg compose lease plan receipts b, preserves P (commit_settlement cfg compose lease plan receipts b)) ->
  settle_step s s' -> P s -> P s'.
Proof.
  intros Hc [cfg b n t|cfg compose lease plan receipts b t|t|rid lane q ref root b t Hq|competition m tree t|competition m tree t|competition m tree t|cfg rid au mf sv t|cfg b block root t Hb|A m t] HP.
  - by eapply (preserves_lease P), surjective_pairing.
  - by eapply Hc, surjective_pairing.
  - by eapply (preserves_recover P), surjective_pairing.
  - by eapply (preserves_atomic P), surjective_pairing; [by apply preserves_retain|].
  - by eapply (preserves_atomic P), surjective_pairing; [apply preserves_commission|].
  - by eapply (preserves_initialize P), surjective_pairing.
  - by eapply (preserves_gate P), surjective_pairing.
  - by eapply (preserves_claim P), surjective_pairing.
  - by eapply (preserves_batch P), surjective_pairing.
  - by eapply (preserves_queue P m), surjective_pairing.
Qed.

Lemma commit_inv cfg compose lease plan receipts b : preserves settle_inv (commit_settlement cfg compose lease plan receipts b).
Proof.
  intros s s' r Hs [[-> _]|(digests & p & i & H & _)]%commit_any; [done|]. by apply transacted_inv in H as [? _].
Qed.

Lemma step_inv s s' : settle_step s s' -> settle_inv s -> settle_inv s'.
Proof. apply (step_preserves settle_inv). intros. apply commit_inv. Qed.

Lemma same_journal {A} (m : T A) s : preserves (fun k => journal k = journal s) m -> journal s `prefix_of` journal (m s).1.
Proof. intros H. by rewrite (H s (m s).1 (m s).2 eq_refl (surjective_pairing _)). Qed.

Lemma step_grows s s' : settle_step s s' -> settle_inv s -> journal s `prefix_of` journal s'.
Proof.
  intros [cfg b n t|cfg compose lease plan receipts b t|t|rid lane q ref root b t Hq|competition m tree t|competition m tree t|competition m tree t|cfg rid au mf sv t|cfg b block root t Hb|A m t] Hs.
  - apply same_journal, preserves_lease, _.
  - destruct (commit_settlement cfg compose lease plan receipts b t) as [t' r] eqn:E.
    apply commit_any in E as [[-> _]|(digests & p & i & H & _)]; [done|].
    apply transacted_inv in H as (_ & rows & _ & E & _); [|done]. cbn. rewrite E. by apply prefix_app_r.
  - apply same_journal, preserves_recover, _.
  - by apply same_journal, preserves_atomic, preserves_retain; [apply _|].
  - apply same_journal, preserves_atomic, preserves_commission, _.
  - apply same_journal, preserves_initialize, _.
  - apply same_journal, preserves_gate, _.
  - apply same_journal, preserves_claim, _.
  - by apply same_journal, preserves_batch; [apply _|].
  - apply same_journal, preserves_queue, _.
Qed.

Lemma reachable_inv s s' : rtc settle_step s s' -> settle_inv s -> settle_inv s' /\ journal s `prefix_of` journal s'.
Proof.
  induction 1 as [s|s t s' Hst _ IH]; intros Hs; [done|]. destruct (IH (step_inv _ _ Hst Hs)) as [? ?].
  split; [done|]. etransitivity; [by apply step_grows|done].
Qed.

(** C9: whatever is leased, committed, recovered, retained, claimed, decided, commissioned, gated or done to the intake queue, in any order and
    with any outcome, the settlement database stays sound: candidates and stacks are stored under their own
    keys, a candidate is of its own reservation, in a known state, and leased exactly when it names a lease;
    and the stored events are one hash-linked chain from number 0, which only grows at its end. *)
Theorem settlement_stays_sound (s s' : settlement_db) :
  settle_inv s -> rtc settle_step s s' ->
  keyed s' /\ good_rows s' /\ stacks_keyed s' /\ (exists n h, journal_chain (journal s') n h) /\ journal s `prefix_of` journal s'.
Proof. intros Hs H. destruct (reachable_inv _ _ H Hs) as [[? ? ? ?] ?]. by split_and!. Qed.

(** C10: a settlement happens once, and settlements are serialized: after a commit, no lease that was taken no
    later than the committed one (the committed one itself included) can be committed, at any later time and
    with any plan and receipts; the attempt is refused and leaves the database as it is. *)
Theorem settled_once (cfg cfg' : config) (compose compose' : EvaluationStackManifest -> result string)
    (lease lease' : SettlementLease) (plan plan' : SettlementPlan) (receipts receipts' : list SettlementEvidence)
    (b b' : Z) (s s1 s2 : settlement_db) (st : EvaluationStackState) :
  settle_inv s -> registered_lanes (lease_candidates lease) ->
  commit_settlement cfg compose lease plan receipts b s = (s1, Ok st) ->
  rtc settle_step s1 s2 -> initial_sequence lease' <= initial_sequence lease ->
  exists e, commit_settlement cfg' compose' lease' plan' receipts' b' s2 = (s2, Raise e).
Proof.
  intros Hs Hl Hc Hsteps Hle. apply commit_steps in Hc as (digests & p & i & Ht & _).
  pose proof Ht as (Hd & Hp & E & _ & Hne & _). destruct (plan_to_dict_inj _ _ E) as (Ee & _).
  destruct (transacted_inv _ _ _ _ _ _ _ _ _ _ Hs Ht) as (Hs1 & rows & Hrows & Ej & Hj).
  destruct (reachable_inv _ _ Hsteps Hs1) as [Hs2 [more Hpre]].
  destruct (commit_settlement cfg' compose' lease' plan' receipts' b' s2) as [s3 r] eqn:E3.
  apply commit_any in E3 as [[-> [e ->]]|(digests' & p' & i' & Ht' & _)]; [by exists e|].
  destruct (transacted_inv _ _ _ _ _ _ _ _ _ _ Hs2 Ht') as (_ & _ & _ & _ & Hj').
  exfalso. assert (Hrne : rows <> []).
  { destruct (plan_disposition _ _ _ _ _ _ _ _ _ Hp Hl Hd) as (_ & Hin & _). intros ->. apply Forall2_nil_inv_l in Hrows.
    destruct digests as [|d digests]; [by apply Forall2_nil_inv_r in Hd|].
    assert (Hdd : d ∈ judged_candidates (events p)) by (apply Hin; by left). rewrite Ee, Hrows in Hdd. by apply elem_of_nil in Hdd. }
  destruct Hj as (es & Hf & Hch), Hj' as (es' & Hf' & Hch'). apply chain_length in Hch, Hch'.
  apply Forall2_length in Hf, Hf'. rewrite Hpre, Ej, !length_app in Hf'. destruct rows; [done|]. simpl in Hf'. lia.
Qed.
