(* ===== verification/SettlementLeasing.v ===== *)
(** * Leasing a cohort: which one, and when there is one

    What [lease_settlement_cohort] leases, when it returns nothing, and that
    retained candidates do get leased; with the interleaving of authorities
    under which they do not. *)

From stdpp Require Import relations.
From S2P Require Import Prelude PyVal Dict Identity Strict Numbers EvidenceRef Stack StackContracts Qualification Candidate Settlement SettlementContracts Economics Effects Leases Recovery Store Queue SettlementRecords StackState SettlementRows SettlementStore SettlementJournal SettleContracts SettlementCommit SettlementMachine.

Open Scope Z_scope.

(** ** The database in which a cohort is chosen *)

(** Stale reservations expired, unqualified candidates held, lapsed leases released. *)
Definition prepared (cfg : config) (b : Z) (s s0 : settlement_db) : Prop :=
  exists i rows, _expire_stale_rows cfg b (intake s) = (i, Ok rows) /\
    s0 = with_candidates (release_lapsed b <$> (hold_unqualified (db i) <$> candidates s)) (with_intake i s).

Lemma lease_unchanged l l' : make_settlement_lease l = Ok l' -> l' = l.
Proof.
  unfold make_settlement_lease. intros H. inv_ok. step_guard H. inv_ok. step_guard H. by injection H.
Qed.

Lemma lease_cohort_run cfg b n s s' o :
  lease_settlement_cohort cfg b n s = (s', Ok o) ->
  0 <= b /\ 0 < n /\ exists s0 mid chosen, prepared cfg b s s0 /\ choose_cohort (pending_rows s0) (pending_rows s0) s0 = (mid, Ok chosen) /\
    match chosen with
    | None => o = None /\ s' = mid
    | Some c => exists l, lease_chosen b n c mid = (s', Ok l) /\ make_settlement_lease l = Ok l /\ o = Some l
    end.
Proof.
  unfold lease_settlement_cohort. intros H. inv_t. apply queue_run in Hx0 as (i & Hi & ->).
  apply orb_false_iff in Hf as [Hb%Z.ltb_ge Hn%Z.leb_gt]. split_and!; [done..|].
  match goal with Hc : choose_cohort _ _ _ = (?t, Ok ?r) |- _ => rename r into chosen; rename Hc into Hch; rename t into mid' end.
  eexists. exists mid', chosen. split; [by eexists i, _|]. split; [exact Hch|]. destruct chosen as [c|]; inv_t; [|done].
  match goal with
  | Hm : make_settlement_lease ?l = Ok ?l', Hl : lease_chosen _ _ _ _ = (_, Ok ?l) |- _ =>
      exists l; split; [exact Hl|]; assert (l' = l) as -> by by eapply lease_unchanged
  end. done.
Qed.

(** ** Blockers *)

Lemma blockers_exist ks cohort c rows p ps :
  blockers_among ks cohort c rows = p :: ps ->
  exists r, r ∈ rows /\ Store.r_arena r = Store.r_arena c /\ cmp_ltb (arrival_key r) (arrival_key c) = true /\
    ~ r_id r ∈ cohort /\ economically_done ks r = false.
Proof.
  induction rows as [|r rows IH]; simpl; [done|].
  destruct (String.eqb_spec (Store.r_arena r) (Store.r_arena c)) as [Ea|_]; simpl; [|intros H; destruct (IH H) as (q & ? & ?); set_solver].
  destruct (cmp_leb (arrival_key c) (arrival_key r)) eqn:Ek; [done|].
  case_bool_decide as Hin; [intros H; destruct (IH H) as (q & ? & ?); set_solver|].
  destruct (economically_done ks r) eqn:Ed; [intros H; destruct (IH H) as (q & ? & ?); set_solver|].
  intros _. exists r. split_and!; [by left|done| |done|done]. by rewrite cmp_ltb_leb, Ek.
Qed.

Lemma no_blockers ks cohort c rows :
  StronglySorted (key_le arrival_key) rows -> blockers_among ks cohort c rows = [] ->
  forall r, r ∈ rows -> Store.r_arena r = Store.r_arena c -> cmp_ltb (arrival_key r) (arrival_key c) = true ->
    r_id r ∈ cohort \/ economically_done ks r = true.
Proof.
  induction rows as [|k rows IH]; simpl; intros Hs H r Hr; [by apply elem_of_nil in Hr|].
  inversion Hs as [|?? Hs' Hall]; subst. rewrite Forall_forall in Hall. intros Ea Ek.
  destruct (cmp_leb (arrival_key c) (arrival_key k)) eqn:Eck.
  { destruct (negb _) eqn:En in H.
    - apply elem_of_cons in Hr as [->|Hr]; [apply negb_true_iff, String.eqb_neq in En; done|by apply IH].
    - exfalso. rewrite cmp_ltb_leb in Ek. apply negb_true_iff in Ek. apply elem_of_cons in Hr as [->|Hr]; [congruence|].
      rewrite (cmp_leb_trans _ _ _ Eck (Hall _ Hr)) in Ek. done. }
  apply elem_of_cons in Hr as [->|Hr].
  - rewrite Ea, String.eqb_refl in H. simpl in H. case_bool_decide; [by left|]. destruct (economically_done ks k); [by right|done].
  - destruct (negb _) in H; [by apply IH|]. case_bool_decide; [by apply IH|]. destruct (economically_done ks k); [by apply IH|done].
Qed.

Lemma any_blocked_run cohort cs s s' b :
  any_blocked cohort cs s = (s', Ok b) ->
  let blockers r := blockers_among (candidates s) cohort r (sorted_by arrival_key (all_rows (database_of s))) in
  if b then (exists c r, c ∈ cs /\ reservations (database_of s) !! q_id c = Some r /\ blockers r <> [])
  else (forall c, c ∈ cs -> exists r, reservations (database_of s) !! q_id c = Some r /\ blockers r = []).
Proof.
  revert s'. induction cs as [|c cs IH]; intros s'; simpl; intros H; inv_t; [by intros c ?%elem_of_nil|].
  unfold _economic_blockers in Hx. inv_t. destruct (blockers_among _ _ _ _) as [|p ps] eqn:Eb.
  - specialize (IH _ H). destruct b.
    + destruct IH as (c' & r & Hc & ?). exists c', r. split; [by right|done].
    + intros c' [->|Hc]%elem_of_cons; [by exists x0|by apply IH].
  - inv_t. exists c, x0. split_and!; [by left|done|]. by rewrite Eb.
Qed.

(** ** The cohort that is chosen *)

Definition cohort_of (pending : list candidate_row) (first : candidate_row) : list candidate_row :=
  filter (fun k => k_authority k = k_authority first) pending.

Definition read_as (ks : list candidate_row) (cs : list SettlementCandidate) : Prop :=
  Forall2 (fun k c => _settlement_candidate k = Ok c) ks cs.

Lemma choose_run pending firsts s s' chosen :
  choose_cohort pending firsts s = (s', Ok chosen) ->
  s' = s /\
  let blocked first := exists cs, read_as (cohort_of pending first) cs /\ any_blocked (q_id <$> cs) cs s = (s, Ok true) in
  match chosen with
  | None => forall first, first ∈ firsts -> blocked first
  | Some found => exists before first after cs, firsts = before ++ first :: after /\ (forall k, k ∈ before -> blocked k) /\
      read_as (cohort_of pending first) cs /\ any_blocked (q_id <$> cs) cs s = (s, Ok false) /\
      found = zip (cohort_of pending first) cs
  end.
Proof.
  revert s'. induction firsts as [|first firsts IH]; intros s'; simpl; intros H; inv_t; [split; [done|by intros k ?%elem_of_nil]|].
  apply map_result_Forall2 in Hx. pose proof (any_blocked_reads _ _ _ _ _ Hx0) as ->. destruct x0.
  - apply IH in H as [-> H]. split; [done|]. destruct chosen as [found|].
    + destruct H as (before & f & after & cs & -> & Hb & H). exists (first :: before), f, after, cs.
      split_and!; [done| |apply H..]. intros k [->|Hk]%elem_of_cons; [by exists x|by apply Hb].
    + intros k [->|Hk]%elem_of_cons; [by exists x|by apply H].
  - inv_t. split; [done|]. exists [], first, firsts, x. split_and!; [done|by intros k ?%elem_of_nil|done..].
Qed.

(** ** The pending rows *)

Lemma pending_elem s k :
  keyed s -> k ∈ pending_rows s <->
  exists r, candidates s !! k_reservation k = Some k /\ reservations (database_of s) !! k_reservation k = Some r /\
    k_status k = "pending" /\ r_status r = qualified /\ completed_arrival_prefix (database_of s) r = true.
Proof.
  intros Hk. unfold pending_rows. rewrite list_elem_of_fmap. setoid_rewrite sorted_by_elem. setoid_rewrite list_elem_of_filter.
  unfold is_pending. setoid_rewrite andb_true_iff. setoid_rewrite andb_true_iff. setoid_rewrite bool_decide_eq_true. split.
  - intros ([k' r] & -> & ((? & ?) & ?) & [? ?]%joined_elem); [|done]. by exists r.
  - intros (r & Hc & Hr & ? & ? & ?). exists (k, r). split_and!; [done..|]. unfold joined. apply list_elem_of_omap.
    exists k. split; [|by rewrite Hr]. apply list_elem_of_fmap. exists (k_reservation k, k). split; [done|].
    by apply elem_of_map_to_list.
Qed.

Lemma pending_NoDup s : keyed s -> NoDup (k_reservation <$> pending_rows s).
Proof.
  intros Hk. unfold pending_rows. rewrite <- list_fmap_compose. unfold compose. rewrite sorted_by_perm.
  by apply NoDup_fmap_filter, joined_ids.
Qed.

(** The first pending row arrived no later than any other. *)
Lemma pending_head s first rest k r r' :
  keyed s -> pending_rows s = first :: rest -> k ∈ pending_rows s ->
  reservations (database_of s) !! k_reservation first = Some r -> reservations (database_of s) !! k_reservation k = Some r' ->
  cmp_leb (arrival_key r) (arrival_key r') = true.
Proof.
  unfold pending_rows. intros Hk E Hin Hr Hr'.
  assert (Hs := sorted_by_sorted (fun kr => arrival_key kr.2) (filter (fun kr => is_pending (database_of s) kr = true) (joined s))).
  set (krs := sorted_by _ _) in *.
  assert (Hj : forall kr, kr ∈ krs -> reservations (database_of s) !! k_reservation kr.1 = Some kr.2).
  { intros kr Hkr. unfold krs in Hkr. rewrite sorted_by_elem, list_elem_of_filter in Hkr. destruct Hkr as [_ Hkr].
    by apply (joined_elem _ _ Hkr). }
  destruct krs as [|kr krs]; [done|]. injection E as E _.
  pose proof (Hj kr (list_elem_of_here _ _)) as Hkr. rewrite E, Hr in Hkr. injection Hkr as ->.
  change (k ∈ fst <$> kr :: krs) in Hin. apply list_elem_of_fmap in Hin as (kr' & -> & Hin). pose proof (Hj kr' Hin) as Hkr'. rewrite Hr' in Hkr'. injection Hkr' as ->.
  inversion Hs as [|?? _ Hall]; subst. apply elem_of_cons in Hin as [->|Hin]; [apply cmp_leb_refl|].
  rewrite Forall_forall in Hall. by apply Hall.
Qed.

Lemma release_sound b : sound_row (release_lapsed b).
Proof. apply settle_sound; [done|set_solver]. Qed.
Lemma hold_sound d : sound_row (hold_unqualified d).
Proof. apply settle_sound; [done|set_solver]. Qed.

Lemma prepared_inv cfg b s s0 : prepared cfg b s s0 -> settle_inv s -> settle_inv s0.
Proof.
  intros (i & rows & _ & ->) Hs.
  assert (Hi : settle_inv (with_intake i s)) by by destruct Hs.
  exact (map_rows_inv _ _ (release_sound b) (map_rows_inv _ _ (hold_sound (db i)) Hi)).
Qed.

(** The candidates of a cohort are of the reservations of its rows. *)
Lemma read_ids s ks cs :
  settle_inv s -> (forall k, k ∈ ks -> candidates s !! k_reservation k = Some k) -> read_as ks cs ->
  q_id <$> cs = k_reservation <$> ks.
Proof.
  intros Hs Hin H. induction H as [|k c ks cs Hc _ IH]; [done|]. rewrite !fmap_cons, IH by (intros k' Hk'; apply Hin; by right).
  f_equal. eapply row_candidate; [|exact Hc]. eapply (inv_rows _ Hs), Hin. by left.
Qed.

Lemma cohort_elem pending first k : k ∈ cohort_of pending first <-> k_authority k = k_authority first /\ k ∈ pending.
Proof. unfold cohort_of. by rewrite list_elem_of_filter. Qed.

(** ** The lease of a chosen cohort *)

Lemma foldr_max_le (l : list Z) m x : x = m \/ x ∈ l -> x <= foldr Z.max m l.
Proof.
  induction l as [|y l IH]; simpl; [intros [->|?%elem_of_nil]; done|].
  intros [->|[->|H]%elem_of_cons]; [etransitivity; [apply IH; by left|]|..]; try lia. etransitivity; [apply IH; by right|lia].
Qed.

Lemma lease_chosen_run b n first ks c cs s s' l :
  lease_chosen b n (zip (first :: ks) (c :: cs)) s = (s', Ok l) -> length ks = length cs ->
  lease_candidates l = c :: cs /\ lease_authority l = k_authority first /\ lease_expires l = b + n /\
  evaluation_stack (q_arena (primary c)) s = (s, Ok (lease_stack l)) /\
  (forall k, k ∈ first :: ks -> k_generation k < lease_generation l) /\
  s' = with_candidates (take_lease (q_id <$> c :: cs) (lease_id l) (lease_generation l) (b + n) <$> candidates s) s /\
  _event_head s' = (s', Ok (initial_sequence l, previous_event_digest l)).
Proof.
  intros H Hlen. unfold lease_chosen in H. cbn [zip zip_with] in H.
  assert (E1 : ((first, c) :: zip ks cs).*2 = c :: cs) by (rewrite fmap_cons, snd_zip by lia; done).
  assert (E2 : ((first, c) :: zip ks cs).*1 = first :: ks) by (rewrite fmap_cons, fst_zip by lia; done).
  fold (zip ks cs) in H. rewrite E1, E2 in H. inv_t.
  apply evaluation_stack_run in Hx as (-> & Hst). 
  match goal with Ht : target_lineage_tips _ _ = _ |- _ => apply tips_reads in Ht as -> end.
  match goal with Hh : _event_head _ = _ |- _ => apply head_run in Hh as [-> ->] end.
  cbn [lease_candidates lease_authority lease_expires lease_stack lease_generation lease_id
    initial_sequence previous_event_digest].
  split_and!; [done..|by apply evaluation_stack_run| |done|].
  - intros k Hk. apply Z.lt_succ_r, foldr_max_le. right. by apply (list_elem_of_fmap_2 k_generation).
  - apply head_run. split; [done|]. by destruct (newest_event _).
Qed.

Definition leased_row (lid : string) (g e : Z) (k : candidate_row) : candidate_row :=
  settle_row "leased" lid g e "" (k_evidence k) k.

(** Taking a lease touches the rows of the cohort and no other. *)
Lemma take_lease_rows ids lid g e (ks : list candidate_row) (m : gmap string candidate_row) :
  ids = k_reservation <$> ks -> (forall rid k, m !! rid = Some k -> k_reservation k = rid) ->
  (forall k, k ∈ ks -> m !! k_reservation k = Some k /\ k_status k = "pending") ->
  forall rid, (take_lease ids lid g e <$> m) !! rid =
    (if bool_decide (rid ∈ ids) then leased_row lid g e <$> m !! rid else m !! rid).
Proof.
  intros -> Hk Hin rid. rewrite lookup_fmap. case_bool_decide as Hr.
  - apply list_elem_of_fmap in Hr as (k & -> & Hkin). destruct (Hin k Hkin) as [-> Hs]. simpl. unfold take_lease, leasable.
    rewrite Hs. rewrite (bool_decide_eq_true_2 (k_reservation k ∈ _)) by by apply (list_elem_of_fmap_2 k_reservation). done.
  - destruct (m !! rid) as [k|] eqn:E; [|done]. simpl. unfold take_lease, leasable. rewrite (Hk _ _ E).
    by rewrite (bool_decide_eq_false_2 _ Hr), andb_false_r.
Qed.

(** ** What is leased *)

Lemma prepared_pending s0 first k :
  k ∈ cohort_of (pending_rows s0) first <-> k ∈ pending_rows s0 /\ k_authority k = k_authority first.
Proof. rewrite cohort_elem. tauto. Qed.

(** Nobody outside the cohort that arrived before one of its members is still waited for. *)
Definition unblocked (s : settlement_db) (ids : list string) : Prop :=
  forall rid r p, rid ∈ ids -> reservations (database_of s) !! rid = Some r -> p ∈ all_rows (database_of s) ->
    Store.r_arena p = Store.r_arena r -> cmp_ltb (arrival_key p) (arrival_key r) = true ->
    r_id p ∈ ids \/ economically_done (candidates s) p = true.

Lemma not_blocked_unblocked s s' cs :
  any_blocked (q_id <$> cs) cs s = (s', Ok false) -> unblocked s (q_id <$> cs).
Proof.
  intros H%any_blocked_run rid r p Hin Hr Hp Ha Hk. apply list_elem_of_fmap in Hin as (c & -> & Hc).
  destruct (H c Hc) as (r' & Hr' & Hb). rewrite Hr in Hr'. injection Hr' as <-.
  eapply no_blockers; [apply sorted_by_sorted|exact Hb|by apply sorted_by_elem|done..].
Qed.

Lemma blocked_not_unblocked s s' ks cs :
  q_id <$> cs = k_reservation <$> ks -> any_blocked (q_id <$> cs) cs s = (s', Ok true) -> ~ unblocked s (k_reservation <$> ks).
Proof.
  intros <- H Hu. apply any_blocked_run in H as (c & r & Hc & Hr & Hb).
  destruct (blockers_among _ _ _ _) as [|p ps] eqn:Eb; [done|]. apply blockers_exist in Eb as (q & Hq & Ha & Hk & Hn & Hd).
  destruct (Hu (q_id c) r q) as [?|?]; [by apply (list_elem_of_fmap_2 q_id)|done|by apply sorted_by_elem in Hq|done..|congruence].
Qed.

(** C8: a lease is the earliest cohort that need not wait. After the stale reservations, the unqualified
    candidates and the lapsed leases are swept, a lease takes the waiting candidates of one authority, all of
    them in the order they arrived, at least one and each once, and no candidate it takes waits for an earlier
    arrival outside the cohort; a waiting candidate that arrived before the first of them belongs to an
    authority that does wait for somebody. The lease lasts the asked number of blocks, is newer than any earlier
    lease of its candidates, and names the stack and the event head it will be committed against. Nothing but
    the rows of its candidates changes after the sweep. *)
Theorem lease_contract (cfg : config) (b n : Z) (s s' : settlement_db) (l : SettlementLease) :
  settle_inv s -> lease_settlement_cohort cfg b n s = (s', Ok (Some l)) ->
  exists s0 before first after, let ks := cohort_of (pending_rows s0) first in
    prepared cfg b s s0 /\ pending_rows s0 = before ++ first :: after /\
    k_authority first = lease_authority l /\ read_as ks (lease_candidates l) /\ NoDup (k_reservation <$> ks) /\
    unblocked s0 (k_reservation <$> ks) /\
    (forall k, k ∈ before -> ~ unblocked s0 (k_reservation <$> cohort_of (pending_rows s0) k)) /\
    (forall k, k ∈ ks -> k_generation k < lease_generation l) /\ lease_expires l = b + n /\
    evaluation_stack (st_arena (lease_stack l)) s' = (s', Ok (lease_stack l)) /\
    _event_head s' = (s', Ok (initial_sequence l, previous_event_digest l)) /\
    s' = with_candidates (candidates s') s0 /\
    forall rid, candidates s' !! rid =
      (if bool_decide (rid ∈ k_reservation <$> ks)
       then leased_row (lease_id l) (lease_generation l) (b + n) <$> candidates s0 !! rid else candidates s0 !! rid).
Proof.
  intros Hs (_ & _ & s0 & mid & chosen & Hp & Hc & H)%lease_cohort_run. pose proof (prepared_inv _ _ _ _ Hp Hs) as Hs0.
  pose proof (inv_keyed _ Hs0) as Hk.
  destruct chosen as [found|]; [|by destruct H]. destruct H as (l' & Hl & Hmake & [= <-]).
  apply choose_run in Hc as (-> & before & first & after & cs & Epend & Hbefore & Hr & Hb & ->).
  assert (Hrow : forall f k, k ∈ cohort_of (pending_rows s0) f -> candidates s0 !! k_reservation k = Some k /\ k_status k = "pending").
  { intros f k [Hkp _]%prepared_pending. apply (pending_elem s0 k Hk) in Hkp as (r & ? & _ & ? & _). done. }
  assert (Hids : forall f cs, read_as (cohort_of (pending_rows s0) f) cs ->
    q_id <$> cs = k_reservation <$> cohort_of (pending_rows s0) f).
  { intros f cs' Hr'. eapply read_ids; [exact Hs0| |exact Hr']. intros k Hkf. by apply (Hrow f). }
  pose proof (Hids _ _ Hr) as Eids.
  assert (HN : NoDup (k_reservation <$> cohort_of (pending_rows s0) first)) by by apply NoDup_fmap_filter, pending_NoDup.
  apply not_blocked_unblocked in Hb. rewrite Eids in Hb. exists s0, before, first, after. cbv zeta.
  assert (Hf : first ∈ cohort_of (pending_rows s0) first) by (apply prepared_pending; rewrite Epend; set_solver).
  assert (Hwait : forall k, k ∈ before -> ~ unblocked s0 (k_reservation <$> cohort_of (pending_rows s0) k)).
  { intros k Hkb. destruct (Hbefore k Hkb) as (cs' & Hr' & Hb'). by eapply blocked_not_unblocked; [apply Hids|]. }
  assert (Hauth : forall k, k ∈ cohort_of (pending_rows s0) first -> k_authority k = k_authority first)
    by by intros k [_ ?]%prepared_pending.
  specialize (Hrow first). set (ks := cohort_of (pending_rows s0) first) in *. clearbody ks.
  destruct Hr as [|k c ks cs Hkc Hr]; [by apply elem_of_nil in Hf|].
  pose proof (lease_chosen_run _ _ _ _ _ _ _ _ _ Hl (Forall2_length _ _ _ Hr)) as (Ec & Ea & Ee & Hst & Hg & Es' & Hh).
  rewrite Ec, Ea, (Hauth k (list_elem_of_here _ _)). split_and!; [done|done|done|by constructor|done..| |exact Hh|by rewrite Es'|].
  - rewrite <- (lease_arena _ _ Hmake c) by (rewrite Ec; by left). apply evaluation_stack_run in Hst as (_ & Hst).
    rewrite Es'. by apply evaluation_stack_run.
  - intros rid. rewrite Es', Eids. cbn [candidates with_candidates].
    rewrite (take_lease_rows _ _ _ _ (k :: ks)); [done|done|apply Hk|done].
Qed.
