(* ===== verification/SettlementProgress.v ===== *)
(** * Waiting candidates are leased

    When nobody contends for a cohort ([uncontended]) and everything it reads
    opens ([opens]), leasing does return: the oldest waiting candidate of the
    database gets a lease. *)

From S2P Require Import Prelude PyVal Dict Identity Strict Numbers EvidenceRef Stack StackContracts Qualification Candidate Settlement SettlementContracts Economics Effects Leases Recovery Store Queue LeaseInvariant LeaseSafety SettlementRecords StackState SettlementRows SettlementStore SettlementJournal SettleContracts SettlementCommit SettlementMachine SettlementLeasing.

Open Scope Z_scope.

(** ** Runs that must return *)

Lemma bind_returns {A B} (m : T A) (f : A -> T B) s s1 a r : m s = (s1, Ok a) -> f a s1 = r -> (m ≫= f) s = r.
Proof. intros Hm <-. unfold mbind, ST_bind. by rewrite Hm. Qed.

Lemma fmap_returns {A B} (f : A -> B) (m : T A) s s1 a : m s = (s1, Ok a) -> (f <$> m) s = (s1, Ok (f a)).
Proof. intros Hm. unfold fmap, ST_fmap. by rewrite Hm. Qed.

Lemma atomic_returns {A} (m : T A) s s1 a : m s = (s1, Ok a) -> atomic m s = (s1, Ok a).
Proof. intros Hm. unfold atomic. by rewrite Hm. Qed.

Lemma any_blocked_none s cohort cs :
  (forall c, c ∈ cs -> exists r, reservations (database_of s) !! q_id c = Some r /\
     blockers_among (candidates s) cohort r (sorted_by arrival_key (all_rows (database_of s))) = []) ->
  any_blocked cohort cs s = (s, Ok false).
Proof.
  induction cs as [|c cs IH]; intros H; simpl; [done|]. destruct (H c) as (r & Hr & Hb); [by left|].
  eapply bind_returns.
  - unfold _economic_blockers. eapply bind_returns; [by apply queue_get_run|]. unfold mbind, ST_bind, asks. by rewrite Hb.
  - cbv beta iota. apply IH. intros c' Hc'. apply H. by right.
Qed.

Lemma remove_dups_constant {A} `{EqDecision A} (x : A) l : (forall y, y ∈ l -> y = x) -> l <> [] -> length (remove_dups l) = 1%nat.
Proof.
  intros Hx Hne. assert (Hp : remove_dups l ≡ₚ [x]); [|by rewrite Hp].
  apply NoDup_Permutation; [apply NoDup_remove_dups|apply NoDup_singleton|]. intros y. rewrite elem_of_remove_dups, list_elem_of_singleton.
  split; [apply Hx|]. intros ->. destruct l as [|z l]; [done|]. rewrite <- (Hx z) by by left. by left.
Qed.

(** ** What a lease needs *)

(** What leasing reads opens: waiting candidates, the stack of their arena, the lineages of their competition. *)
Record opens (s : settlement_db) (arena_of : string -> string) : Prop := {
  open_candidate k : k ∈ pending_rows s -> exists c, _settlement_candidate k = Ok c /\
    authority (primary c) = k_authority k /\ q_arena (primary c) = arena_of (k_authority k);
  open_authority k : k ∈ pending_rows s -> is_sha256_hex (k_authority k) = true /\ 0 <= k_generation k;
  open_stack k : k ∈ pending_rows s -> exists st, evaluation_stack (arena_of (k_authority k)) s = (s, Ok st);
  open_tips k r : k ∈ pending_rows s -> reservations (database_of s) !! k_reservation k = Some r ->
    exists tips, target_lineage_tips (Store.r_arena r) s = (s, Ok tips);
}.

(** Nothing is leased, qualified reservations are retained, and the candidates of one authority arrived
    in one competition with nobody else's between them. *)
Record uncontended (s : settlement_db) : Prop := {
  none_leased rid k : candidates s !! rid = Some k -> k_status k <> "leased";
  all_retained r : r ∈ all_rows (database_of s) -> r_status r = qualified -> is_Some (candidates s !! r_id r);
  contiguous k k' p r r' rp : k ∈ pending_rows s -> k' ∈ pending_rows s -> p ∈ pending_rows s ->
    reservations (database_of s) !! k_reservation k = Some r -> reservations (database_of s) !! k_reservation k' = Some r' ->
    reservations (database_of s) !! k_reservation p = Some rp -> k_authority k = k_authority k' ->
    Store.r_arena rp = Store.r_arena r' -> cmp_leb (arrival_key r) (arrival_key rp) = true ->
    cmp_ltb (arrival_key rp) (arrival_key r') = true -> k_authority p = k_authority k;
}.

(** A completed prefix leaves only qualified rows to be waited for. *)
Lemma prefix_spec d r p :
  completed_arrival_prefix d r = true -> p ∈ all_rows d -> Store.r_arena p = Store.r_arena r ->
  cmp_ltb (arrival_key p) (arrival_key r) = true ->
  r_status p = qualified \/ r_status p ∈ [failed; expired] \/ _completed_hold p = true.
Proof.
  unfold completed_arrival_prefix. intros H%negb_true_iff Hp Ha Hk. pose proof (existsb_false _ _ p H Hp) as E. cbn beta in E.
  rewrite Ha, String.eqb_refl, Hk in E. simpl in E. unfold still_open in E. apply andb_false_iff in E as [E|E]; apply negb_false_iff in E.
  - apply bool_decide_eq_true in E. set_solver.
  - by right; right.
Qed.

Lemma prefix_earlier d r p :
  completed_arrival_prefix d r = true -> Store.r_arena p = Store.r_arena r -> cmp_ltb (arrival_key p) (arrival_key r) = true ->
  completed_arrival_prefix d p = true.
Proof.
  unfold completed_arrival_prefix. intros H%negb_true_iff Ha Hk. apply negb_true_iff.
  destruct (existsb _ _) eqn:E in |- *; [|done]. apply existsb_exists in E as (x & Hx & E). rewrite <- list_elem_of_In in Hx.
  pose proof (existsb_false _ _ x H Hx) as F. cbn beta in F. rewrite <- F. rewrite <- Ha.
  apply andb_true_iff in E as [[-> E]%andb_true_iff ->]. by rewrite (cmp_ltb_trans _ _ _ E Hk).
Qed.

Section Progress.
Context (s : settlement_db) (arena_of : string -> string) (first : candidate_row) (rest : list candidate_row).
Hypothesis Hs : settle_inv s.
Hypothesis Hl : lease_inv (database_of s).
Hypothesis Hpending : pending_rows s = first :: rest.
Hypothesis Hopens : opens s arena_of.
Hypothesis Hun : uncontended s.

Let group : list candidate_row := cohort_of (pending_rows s) first.

Lemma first_pending : first ∈ pending_rows s.
Proof. rewrite Hpending. by left. Qed.

Lemma group_pending k : k ∈ group -> k ∈ pending_rows s /\ k_authority k = k_authority first.
Proof. apply prepared_pending. Qed.

(** Whoever arrived before a member of the first cohort is in it, or done. *)
Lemma first_unblocked k r p :
  k ∈ group -> reservations (database_of s) !! k_reservation k = Some r -> p ∈ all_rows (database_of s) ->
  Store.r_arena p = Store.r_arena r -> cmp_ltb (arrival_key p) (arrival_key r) = true ->
  r_id p ∈ k_reservation <$> group \/ economically_done (candidates s) p = true.
Proof.
  intros [Hk Ha]%group_pending Hr Hp Harena Hkey. pose proof (inv_keyed _ Hs) as Hkeyed.
  pose proof Hk as (r0 & _ & Hr0 & _ & _ & Hprefix)%(pending_elem _ _ Hkeyed). rewrite Hr in Hr0. injection Hr0 as <-.
  unfold economically_done. destruct (prefix_spec _ _ _ Hprefix Hp Harena Hkey) as [Hq|[Hd| ->]];
    [|right; by rewrite (bool_decide_eq_true_2 _ Hd)|right; by rewrite orb_true_r].
  destruct (all_retained _ Hun p Hp Hq) as [k' Hk']. rewrite Hk', Hq. simpl.
  assert (Eid : k_reservation k' = r_id p) by by apply Hkeyed.
  destruct (decide (k_status k' ∈ economic_statuses)) as [Hec|Hec]; [right; by rewrite bool_decide_eq_true_2, orb_true_r|].
  assert (Hpend : k' ∈ pending_rows s).
  { apply (pending_elem _ _ Hkeyed). exists p. rewrite Eid. split_and!; [done|by apply all_rows_elem| |done|by eapply prefix_earlier].
    pose proof (row_status _ (inv_rows _ Hs _ _ Hk')) as Hst. pose proof (none_leased _ Hun _ _ Hk').
    unfold known_statuses in Hst. apply elem_of_cons in Hst as [?|[?|?]%elem_of_cons]; done. }
  left. rewrite <- Eid. apply list_elem_of_fmap. exists k'. split; [done|]. apply prepared_pending. split; [done|].
  pose proof first_pending as Hf. pose proof Hf as (rf & _ & Hrf & _)%(pending_elem _ _ Hkeyed).
  assert (Hrp : reservations (database_of s) !! k_reservation k' = Some p) by (rewrite Eid; by apply all_rows_elem).
  eapply (contiguous _ Hun first k k' rf r p); eauto. by eapply (pending_head s first rest k').
Qed.

Lemma group_rows k : k ∈ group -> candidates s !! k_reservation k = Some k /\ k_status k = "pending".
Proof. by intros [(r & ? & _ & ? & _)%(pending_elem _ _ (inv_keyed _ Hs)) _]%group_pending. Qed.

Lemma group_reads : exists cs, read_as group cs /\ cs <> [] /\ q_id <$> cs = k_reservation <$> group /\
  forall c, c ∈ cs -> authority (primary c) = k_authority first /\ q_arena (primary c) = arena_of (k_authority first).
Proof.
  assert (Hr : exists cs, read_as group cs /\ forall c, c ∈ cs ->
    authority (primary c) = k_authority first /\ q_arena (primary c) = arena_of (k_authority first)).
  { assert (Hg : forall k, k ∈ group -> k ∈ group) by done. revert Hg. generalize group at 1 3. intros ks.
    induction ks as [|k ks IH]; intros Hin; [exists []; split; [constructor|by intros c ?%elem_of_nil]|].
    destruct IH as (cs & Hcs & Ha); [intros k' Hk'; apply Hin; by right|].
    destruct (group_pending k) as [Hk Eka]; [apply Hin; by left|].
    destruct (open_candidate _ _ Hopens k Hk) as (c & Hc & Hca & Haa). exists (c :: cs). split; [by constructor|].
    rewrite Eka in Hca, Haa. by intros c' [->|Hc']%elem_of_cons; [|apply Ha]. }
  destruct Hr as (cs & Hr & Ha). exists cs. split_and!; [done| |eapply read_ids; [done|apply group_rows|done]|done].
  intros ->. assert (Hf : first ∈ group) by (apply prepared_pending; split; [apply first_pending|done]).
  apply Forall2_nil_inv_r in Hr. rewrite Hr in Hf. by apply elem_of_nil in Hf.
Qed.

Lemma group_chosen cs : read_as group cs -> cs <> [] -> q_id <$> cs = k_reservation <$> group ->
  (forall c, c ∈ cs -> q_arena (primary c) = arena_of (k_authority first)) ->
  choose_cohort (pending_rows s) (pending_rows s) s = (s, Ok (Some (zip group cs))).
Proof.
  intros Hr Hne Eids Ha. rewrite Hpending at 2. cbn [choose_cohort].
  change (filter (fun k => k_authority k = k_authority first) (pending_rows s)) with group.
  eapply bind_returns; [apply of_result_run; split; [done|]; by apply map_result_Forall2|].
  rewrite (remove_dups_constant (arena_of (k_authority first))).
  - cbn [Nat.eqb negb]. eapply (bind_returns _ _ _ s false); [|done]. apply any_blocked_none. intros c Hc.
    assert (Hid : q_id c ∈ k_reservation <$> group) by (rewrite <- Eids; by apply list_elem_of_fmap_2).
    apply list_elem_of_fmap in Hid as (k & Ek & Hk).
    pose proof Hk as [(r & _ & Hrr & _)%(pending_elem _ _ (inv_keyed _ Hs)) _]%group_pending. exists r. rewrite Ek. split; [done|].
    destruct (blockers_among _ _ _ _) as [|x xs] eqn:E; [done|]. apply blockers_exist in E as (p & Hp & Hpa & Hpk & Hnin & Hnd).
    rewrite sorted_by_elem in Hp. rewrite Eids in Hnin. destruct (first_unblocked _ _ _ Hk Hrr Hp Hpa Hpk); [done|congruence].
  - intros y (c & -> & Hc)%list_elem_of_fmap. by apply Ha.
  - by destruct cs.
Qed.
End Progress.

(** ** The records of a lease *)

Lemma strings_json l : to_json (VList (VStr <$> l)) = Ok (JArr (JStr <$> l)).
Proof.
  change (to_json (VList (VStr <$> l))) with (JArr <$> (fix go l := match l with
    | [] => Ok [] | v :: l => j ← to_json v; js ← go l; Ok (j :: js) end) (VStr <$> l)).
  assert (E : (fix go l := match l with [] => Ok [] | v :: l => j ← to_json v; js ← go l; Ok (j :: js) end) (VStr <$> l)
              = Ok (JStr <$> l)); [|by rewrite E].
  induction l as [|x l IH]; [done|]. rewrite !fmap_cons. cbn [mbind result_bind]. simpl. refold_fmap. by rewrite IH.
Qed.

Lemma read_candidate_digest k c : _settlement_candidate k = Ok c -> exists d, candidate_digest c = Ok d /\ is_sha256_hex d = true.
Proof.
  unfold _settlement_candidate. intros (c' & _ & H)%bind_Ok. apply bind_Ok in H as (d & Hd & H). step_guard H. injection H as ->.
  exists d. split; [done|]. by eapply canonical_digest_shape.
Qed.

Lemma lease_digest_returns ks cs a g i b :
  read_as ks cs -> is_sha256_hex a = true -> exists h, lease_digest a cs g i b = Ok h /\ is_sha256_hex h = true.
Proof.
  intros Hr Ha. assert (exists ds, map_result candidate_digest cs = Ok ds /\ forallb (all_chars is_ascii) ds = true) as (ds & Hds & Hasc).
  { induction Hr as [|k c ks cs Hkc _ (ds & Hds & Hasc)]; [by exists []|].
    destruct (read_candidate_digest _ _ Hkc) as (d & Hd & Hsha). exists (d :: ds). simpl. rewrite Hd, Hds. simpl.
    by rewrite (sha256_ascii _ Hsha), Hasc. }
  unfold lease_digest. rewrite Hds. cbn [mbind result_bind].
  destruct (canonical_digest_total "cacheon.chain.settlement-lease"
    (str_dict [("authority_digest", VStr a); ("candidates", VList (VStr <$> ds)); ("generation", VInt g);
               ("incumbent_generation", VInt i); ("lease_block", VInt b)]) 1
    (JObj [("authority_digest", JStr a); ("candidates", JArr (JStr <$> ds)); ("generation", JInt g);
               ("incumbent_generation", JInt i); ("lease_block", JInt b)])) as (h & Hh); [done|done|..].
  - rewrite native_str_dict. cbn [forallb snd native]. rewrite !andb_true_r, andb_true_l. clear. induction ds as [|x ds IH]; [done|]. rewrite fmap_cons. exact IH.
  - rewrite to_json_str_dict. unfold map_result, member_json. cbn [fst snd]. rewrite strings_json. reflexivity.
  - simpl. rewrite (sha256_ascii _ Ha). simpl. rewrite !andb_true_r. revert Hasc. clear. by induction ds as [|x ds IH]; simpl; [|intros [-> ?]%andb_true_iff; apply IH].
  - exists h. split; [done|]. by eapply canonical_digest_shape.
Qed.

Lemma stack_state_arena arena s s' st : stacks_keyed s -> evaluation_stack arena s = (s', Ok st) -> st_arena st = arena.
Proof.
  intros Hk (_ & _ & row & Hr & Hst)%evaluation_stack_run. rewrite <- (Hk _ _ Hr). unfold _evaluation_stack_state_from_row in Hst.
  apply bind_Ok in Hst as (m & _ & Hst). apply bind_Ok in Hst as (st' & Hm & Hst). apply bind_Ok in Hst as (d & _ & Hst).
  step_guard Hst. injection Hst as ->. unfold make_stack_state in Hm. inv_ok. step_guard Hm. by injection Hm as <-.
Qed.

Lemma event_head_shape s n h : settle_inv s -> _event_head s = (s, Ok (n, h)) -> 0 <= n /\ (h = "" \/ is_sha256_hex h = true).
Proof.
  intros [_ _ _ (n' & h' & Hj)] H. rewrite (journal_chain_head _ _ _ Hj) in H. injection H as -> ->.
  destruct Hj as (es & _ & Hc). pose proof (chain_length _ _ _ _ _ Hc) as Hlen. split; [lia|].
  apply event_chain_last in Hc. destruct (last es); [right|by left; apply Hc]. destruct Hc as [_ Hd]. by eapply canonical_digest_shape.
Qed.

(** The rows that the lease takes are those of the cohort. *)
Lemma count_cohort s ks :
  keyed s -> NoDup (k_reservation <$> ks) -> (forall k, k ∈ ks -> candidates s !! k_reservation k = Some k /\ k_status k = "pending") ->
  count_rows (leasable (k_reservation <$> ks)) (candidates s) = length ks.
Proof.
  intros Hk Hd Hin. unfold count_rows. apply Permutation_length, NoDup_Permutation.
  - apply NoDup_filter, (NoDup_fmap_1 k_reservation). rewrite (keyed_rows s Hk). apply NoDup_fst_map_to_list.
  - by apply NoDup_fmap_1 in Hd.
  - intros k. rewrite list_elem_of_filter. unfold leasable. rewrite andb_true_iff, !bool_decide_eq_true. split.
    + intros [[_ (k' & Ek & Hk')%list_elem_of_fmap] ([rid k0] & -> & Hm)%list_elem_of_fmap]. simpl in *.
      apply elem_of_map_to_list in Hm. pose proof (Hk _ _ Hm) as E. destruct (Hin k' Hk') as [E' _].
      rewrite <- Ek, E, Hm in E'. by injection E' as ->.
    + intros Hki. destruct (Hin k Hki) as [Hc Hp]. split_and!; [done|by apply list_elem_of_fmap_2|].
      apply list_elem_of_fmap. exists (k_reservation k, k). split; [done|]. by apply elem_of_map_to_list.
Qed.

Lemma tips_run scope s s' l :
  target_lineage_tips scope s = (s', Ok l) <-> s' = s /\
  reread ("IntakeError" :: value_errors) "target lineage tips require a successful backfill: "
    (map_result (lineage_of (lineage_nodes s) scope) (tips_of scope (lineage_tips s))) = Ok l.
Proof.
  unfold target_lineage_tips. split; [intros H; by inv_t|]. intros [-> H]. unfold mbind, ST_bind, asks, of_result. by rewrite H.
Qed.

Lemma make_lease_returns l arena :
  is_sha256_hex (lease_id l) = true -> is_sha256_hex (lease_authority l) = true -> 0 < lease_generation l -> 0 < lease_expires l ->
  0 <= initial_sequence l -> (previous_event_digest l = "" \/ is_sha256_hex (previous_event_digest l) = true) ->
  lease_candidates l <> [] -> st_arena (lease_stack l) = arena ->
  (forall c, c ∈ lease_candidates l -> authority (primary c) = lease_authority l /\ q_arena (primary c) = arena) ->
  make_settlement_lease l = Ok l.
Proof.
  intros Hid Ha Hg He Hi Hp Hne Hst Hc. unfold make_settlement_lease, require_sha256_hex. rewrite Hid, Ha. cbn [mbind result_bind].
  rewrite (proj2 (Z.leb_gt (lease_generation l) 0) Hg), (proj2 (Z.leb_gt (lease_expires l) 0) He), (proj2 (Z.ltb_ge (initial_sequence l) 0) Hi).
  cbn [orb]. assert (E : forall (p : SettlementCandidate -> bool), (forall c, c ∈ lease_candidates l -> p c = false) -> existsb p (lease_candidates l) = false).
  { intros p Hpc. destruct (existsb p _) eqn:E; [|done]. apply existsb_exists in E as (c & Hcin & E). rewrite Hpc in E; [done|].
    by apply list_elem_of_In. }
  rewrite (bool_decide_eq_false_2 _ Hne), !E.
  - destruct Hp as [-> | Hp]; [done|]. rewrite Hp. by destruct (truthy _).
  - intros c Hcin. destruct (Hc c Hcin) as [-> _]. by rewrite String.eqb_refl.
  - intros c Hcin. destruct (Hc c Hcin) as [_ ->]. by rewrite Hst, String.eqb_refl.
Qed.

Lemma lease_chosen_returns s b n first ks c cs arena st r tips :
  settle_inv s -> 0 <= b -> 0 < n -> read_as (first :: ks) (c :: cs) -> q_id <$> c :: cs = k_reservation <$> first :: ks ->
  NoDup (k_reservation <$> first :: ks) ->
  (forall k, k ∈ first :: ks -> candidates s !! k_reservation k = Some k /\ k_status k = "pending") ->
  (forall c', c' ∈ c :: cs -> authority (primary c') = k_authority first /\ q_arena (primary c') = arena) ->
  is_sha256_hex (k_authority first) = true -> 0 <= k_generation first -> evaluation_stack arena s = (s, Ok st) ->
  reservations (database_of s) !! k_reservation first = Some r -> target_lineage_tips (Store.r_arena r) s = (s, Ok tips) ->
  exists s' l, lease_chosen b n (zip (first :: ks) (c :: cs)) s = (s', Ok l) /\ make_settlement_lease l = Ok l.
Proof.
  intros Hs Hb Hn Hr Eids Hd Hrows Hca Ha Hg Hst Hres Htips.
  pose proof (Forall2_length _ _ _ Hr) as Hlen. injection Hlen as Hlen.
  assert (E1 : ((first, c) :: zip ks cs).*2 = c :: cs) by (rewrite fmap_cons, snd_zip by lia; done).
  assert (E2 : ((first, c) :: zip ks cs).*1 = first :: ks) by (rewrite fmap_cons, fst_zip by lia; done).
  set (g := foldr Z.max (k_generation first) (k_generation <$> first :: ks) + 1).
  destruct (lease_digest_returns _ _ (k_authority first) g (st_generation st) b Hr Ha) as (lid & Hlid & Hsha).
  set (s1 := with_candidates (take_lease (q_id <$> c :: cs) lid g (b + n) <$> candidates s) s).
  assert (Hs1 : settle_inv s1).
  { apply map_rows_inv; [|done]. apply settle_sound; [split; [|done]; intros _ ->; done|set_solver]. }
  destruct (_event_head s1) as [s2 [[seq prev]|e]] eqn:Eh; [|by unfold _event_head in Eh].
  assert (s2 = s1) as -> by by apply head_run in Eh as [-> _]. destruct (event_head_shape _ _ _ Hs1 Eh) as [Hseq Hprev].
  exists s1, (mkSettlementLease lid (k_authority first) g (b + n) st (c :: cs) seq prev tips). split.
  - unfold lease_chosen. cbn [zip zip_with]. fold (zip ks cs). rewrite E1, E2.
    eapply bind_returns; [rewrite (proj2 (Hca c (list_elem_of_here _ _))); exact Hst|].
    eapply bind_returns; [by apply of_result_run|]. eapply bind_returns; [done|]. eapply bind_returns; [done|].
    rewrite Eids, (count_cohort s (first :: ks)) by (try apply Hs; done). rewrite length_fmap, Nat.eqb_refl. cbn [negb].
    rewrite <- Eids. change (update _ s) with (s1, Ok tt).
    eapply bind_returns; [exact Eh|]. eapply bind_returns; [apply queue_get_run; split; [done|]|].
    { rewrite fmap_cons in Eids. injection Eids as -> _. exact Hres. }
    eapply bind_returns; [apply tips_run; apply tips_run in Htips as [_ Htips]; split; [done|exact Htips]|done].
  - apply (make_lease_returns _ arena); cbn; try done; try lia; [|by eapply stack_state_arena; [apply Hs|exact Hst]].
    pose proof (foldr_max_le (k_generation <$> first :: ks) (k_generation first) _ (or_introl eq_refl)). unfold g. lia.
Qed.

(** C12: a waiting candidate is leased when the queue is uncontended. Whenever, after the sweep, somebody waits
    in a completed arrival prefix, no candidate is under a settlement lease, every qualified reservation is
    retained as a candidate, no other authority's waiting candidate falls between two of one authority in their
    competition, and what leasing reads opens (the waiting rows, their stack, the lineages of their competition),
    then [lease_settlement_cohort] returns a lease, and it is over the candidate that arrived first. The third
    condition is needed: when candidates 1 and 3 are of one authority and 2 is of another, each cohort waits for
    an earlier arrival of the other and neither is leased. *)
Theorem oldest_candidate_is_leased (cfg : config) (b n : Z) (s s0 : settlement_db) (arena_of : string -> string)
    (first : candidate_row) (rest : list candidate_row) :
  settle_inv s -> 0 <= b -> 0 < n -> prepared cfg b s s0 -> lease_inv (database_of s0) ->
  pending_rows s0 = first :: rest -> opens s0 arena_of -> uncontended s0 ->
  exists s' l c, lease_settlement_cohort cfg b n s = (s', Ok (Some l)) /\
    _settlement_candidate first = Ok c /\ c ∈ lease_candidates l.
Proof.
  intros Hs Hb Hn Hprep Hl Hpend Hopen Hun. pose proof (prepared_inv _ _ _ _ Hprep Hs) as Hs0.
  pose proof (first_pending s0 first rest Hpend) as Hf.
  destruct (group_reads s0 arena_of first rest Hs0 Hpend Hopen) as (cs & Hr & Hne & Eids & Ha).
  pose proof (group_chosen s0 arena_of first rest Hs0 Hl Hpend Hun cs Hr Hne Eids (fun c Hc => proj2 (Ha c Hc))) as Hch.
  destruct (open_stack _ _ Hopen _ Hf) as (st & Hst). destruct (open_authority _ _ Hopen _ Hf) as [Hauth Hgen].
  pose proof Hf as (r & Hfr & Hres & Hfp & _)%(pending_elem _ _ (inv_keyed _ Hs0)).
  destruct (open_tips _ _ Hopen _ _ Hf Hres) as (tips & Htips).
  assert (Hg : exists ks, cohort_of (pending_rows s0) first = first :: ks).
  { rewrite Hpend. unfold cohort_of. rewrite filter_cons_True by done. by eexists. }
  destruct Hg as [ks Hg]. pose proof (group_rows s0 first Hs0) as Hrows.
  pose proof (pending_NoDup s0 (inv_keyed _ Hs0)) as Hd.
  assert (Hd' : NoDup (k_reservation <$> cohort_of (pending_rows s0) first)) by by apply NoDup_fmap_filter.
  rewrite Hg in *. destruct cs as [|c cs]; [done|].
  destruct (lease_chosen_returns s0 b n first ks c cs (arena_of (k_authority first)) st r tips) as (s' & l & Hlease & Hmake); try done.
  exists s', l, c. inversion Hr; subst. split_and!; [|done|].
  - destruct Hprep as (i & rows & Hi & ->). unfold lease_settlement_cohort.
    rewrite (proj2 (Z.ltb_ge b 0)), (proj2 (Z.leb_gt n 0)) by done. cbn [orb].
    eapply bind_returns; [apply atomic_returns|].
    + eapply bind_returns; [apply queue_run; by exists i|]. eapply bind_returns; [done|]. eapply bind_returns; [done|].
      eapply bind_returns; [done|]. eapply bind_returns; [exact Hch|]. eapply fmap_returns, Hlease.
    + eapply bind_returns; [by apply of_result_run|done].
  - pose proof (lease_chosen_run _ _ _ _ _ _ _ _ _ Hlease) as (-> & _); [by eapply Forall2_length|by left].
Qed.
