(* ===== verification/SettlementRun.v ===== *)
(** * A settlement store, run

    One retained candidate on a store with one stack: it is leased, its evidence
    is reopened, and its plan is committed. The theorems about the settlement
    store are applied to this run. *)

From stdpp Require Import relations.
From S2P Require Import Prelude PyVal Dict Identity Strict Numbers EvidenceRef Stack StackContracts Qualification Candidate Settlement SettlementContracts Economics Effects Leases Recovery Store Queue LeaseInvariant LeaseMachine SettlementRecords SettlementExample StackState SettlementRows SettlementStore SettlementJournal SettleContracts SettlementCommit SettlementMachine SettlementLeasing SettlementProgress.

Open Scope Z_scope.

(** ** The database *)

Definition competition : string := "competition".
Definition stack_arena : string := Eval vm_compute in q_arena (primary fast).

Definition winner_reservation : reservation :=
  mkReservation (q_id fast) 1 0 0 "5Miner" (digest_of 99) qualified 1 "root" "" "" "" "" 0 "PASS" "" competition no_columns.

Definition winner_row : candidate_row := Eval vm_compute in
  mkCandidateRow (q_id fast) (authority first_run) (the "" (candidate_digest fast)) (candidate_to_dict fast) "evidence" "" ""
    "pending" "" 0 0 "" false.

Definition base_row : stack_row := Eval vm_compute in
  mkStackRow stack_arena 0 (the "" (manifest_digest current_stack)) current_tree (manifest_to_dict current_stack)
    (digest_of 48) competition.

Definition mlp_tip : lineage_row := mkLineageRow (digest_of 97) "" "1.3" stack_arena (digest_of 48) (digest_of 101) 1.

Definition kept_run : retained_row := Eval vm_compute in
  mkRetainedRow (the "" (qualification_digest first_run)) (qualification_to_dict first_run) (ref_to_dict (sample_ref 97)) "evidence".

Definition passed : verdict_row := Eval vm_compute in
  mkVerdictRow (q_id fast) (attempt first_run) (authority first_run) (report first_run) "PASS".

Definition start : settlement_db :=
  mkSettlementDb (mkStore (rows_db [winner_reservation]) ∅ ∅) {[q_id fast := winner_row]} [] {[stack_arena := base_row]} ∅
    {[(competition, "mlp", digest_of 97) := mlp_tip]} {[(competition, "mlp") := mlp_tip]} ∅ {[(q_id fast, 0) := kept_run]} [passed].

Definition no_lease : SettlementLease := mkSettlementLease "" "" 0 0 (mkStackState "" 0 no_manifest "" "") [] 0 "" [].

(** ** The lease *)

Definition leased : settlement_db * result (option SettlementLease) := lease_settlement_cohort (example_config false) 11 30 start.

Definition the_lease : SettlementLease := Eval vm_compute in
  default no_lease (the None leased.2).

Lemma lease_ran : lease_settlement_cohort (example_config false) 11 30 start = (leased.1, Ok (Some the_lease)).
Proof. vm_compute. reflexivity. Qed.

(** ** The commit *)

Definition receipt : SettlementEvidence := Eval vm_compute in
  the (evidence_of "" fast (sample_ref 97) None) (found ← settlement_evidence_metadata start fast; Ok found.2).

Definition composed (m : EvaluationStackManifest) : result string := Ok (digest_of 57).

Definition the_plan : SettlementPlan := Eval vm_compute in
  the no_plan (plan_settlement (lease_candidates the_lease) (st_manifest (lease_stack the_lease)) (st_tree (lease_stack the_lease))
    (VInt (initial_sequence the_lease)) (VStr (previous_event_digest the_lease)) (lease_tips the_lease) (Some composed)).

Definition committed : settlement_db * result EvaluationStackState :=
  commit_settlement (example_config false) composed the_lease the_plan [receipt] 12 leased.1.

Definition the_stack : EvaluationStackState := Eval vm_compute in
  the (lease_stack no_lease) committed.2.

Lemma commit_ran :
  commit_settlement (example_config false) composed the_lease the_plan [receipt] 12 leased.1 = (committed.1, Ok the_stack).
Proof. vm_compute. reflexivity. Qed.

(** ** The invariant at the start *)

Lemma winner_reads : _settlement_candidate winner_row = Ok fast.
Proof. vm_compute. reflexivity. Qed.

Lemma lookup_singleton_inv {A} (i j : string) (x y : A) : ({[i := x]} : gmap string A) !! j = Some y -> j = i /\ y = x.
Proof. by intros [-> ->]%lookup_singleton_Some. Qed.

Lemma start_inv : settle_inv start.
Proof.
  split.
  - intros rid k. cbn [candidates start]. by intros [-> ->]%lookup_singleton_inv.
  - intros rid k. cbn [candidates start]. intros [-> ->]%lookup_singleton_inv. split; [done|set_solver|].
    intros c. rewrite winner_reads. by intros [= <-].
  - intros a w. cbn [stack_rows start]. by intros [-> ->]%lookup_singleton_inv.
  - exists 0, "", []. by split; constructor.
Qed.

Lemma one_lane : registered_lanes (lease_candidates the_lease).
Proof. by repeat constructor. Qed.

Lemma lease_step : settle_step start leased.1.
Proof. exact (step_lease (example_config false) 11 30 start). Qed.

Lemma leased_inv : settle_inv leased.1.
Proof. exact (step_inv _ _ lease_step start_inv). Qed.

Lemma commit_step : settle_step leased.1 committed.1.
Proof. exact (step_commit (example_config false) composed the_lease the_plan [receipt] 12 leased.1). Qed.

(** ** The theorems on this run *)

Lemma settlement_stays_sound_witness :
  settle_inv start /\ rtc settle_step start committed.1 /\ keyed committed.1 /\ good_rows committed.1 /\
  exists n h, journal_chain (journal committed.1) n h.
Proof.
  assert (H : rtc settle_step start committed.1) by (eapply rtc_l; [exact lease_step|apply rtc_once; exact commit_step]).
  destruct (settlement_stays_sound start committed.1 start_inv H) as (Hk & Hr & _ & Hj & _).
  exact (conj start_inv (conj H (conj Hk (conj Hr Hj)))).
Defined.

Lemma settled_once_witness :
  commit_settlement (example_config false) composed the_lease the_plan [receipt] 12 leased.1 = (committed.1, Ok the_stack) /\
  exists e, commit_settlement (example_config false) composed the_lease the_plan [receipt] 13 committed.1 = (committed.1, Raise e).
Proof.
  split; [exact commit_ran|].
  exact (settled_once (example_config false) (example_config false) composed composed the_lease the_lease the_plan the_plan [receipt]
    [receipt] 12 13 leased.1 committed.1 committed.1 the_stack leased_inv one_lane commit_ran (rtc_refl _ _) (Z.le_refl _)).
Defined.

Lemma commit_verdicts_witness :
  exists k', candidates committed.1 !! q_id fast = Some k' /\ k_status k' = "crowned" /\ k_lease k' = "".
Proof.
  assert (Hd : candidate_digest fast = Ok (winner the_plan)) by (vm_compute; reflexivity).
  destruct (commit_verdicts _ _ _ _ _ _ _ _ _ commit_ran (inv_keyed _ leased_inv) one_lane) as [H _].
  destruct (H fast _ (list_elem_of_here _ _) Hd) as (k & k' & _ & _ & Hk' & Hst & Hl & _). exists k'.
  rewrite String.eqb_refl in Hst. exact (conj Hk' (conj Hst Hl)).
Defined.

Lemma the_lease_made : make_settlement_lease the_lease = Ok the_lease.
Proof. vm_compute. reflexivity. Qed.

Lemma a_stack_transition : exists t, plan_transition the_plan = Some t.
Proof. by eexists. Qed.

Lemma commit_moves_stack_witness :
  st_generation the_stack = 1 /\ manifest_digest (st_manifest the_stack) = Ok (arm_stack (plan_after the_plan)) /\
  exists w row, w ∈ lease_candidates the_lease /\ standing committed.1 !! (stack_arena, q_target (primary w)) = Some row.
Proof.
  pose proof (commit_moves_stack _ _ _ _ _ _ _ _ _ commit_ran the_lease_made one_lane) as H.
  destruct a_stack_transition as [t E]. rewrite E in H. destruct H as (Hg & Hm & _ & _ & w & row & Hw & _ & _ & _ & Hs & _).
  split; [exact Hg|split; [exact Hm|]]. exists w, row. exact (conj Hw Hs).
Defined.

Lemma lease_contract_witness :
  exists s0 first, prepared (example_config false) 11 start s0 /\ k_authority first = lease_authority the_lease /\
    read_as (cohort_of (pending_rows s0) first) [fast] /\ unblocked s0 (k_reservation <$> cohort_of (pending_rows s0) first).
Proof.
  destruct (lease_contract (example_config false) 11 30 start leased.1 the_lease start_inv lease_ran)
    as (s0 & before & first & after & Hp & _ & Ha & Hr & _ & Hu & _).
  exists s0, first. exact (conj Hp (conj Ha (conj Hr Hu))).
Defined.

(** ** The candidate is leased *)

Lemma start_prepared : prepared (example_config false) 11 start start.
Proof.
  exists (intake start), []. split; [reflexivity|]. unfold start, with_candidates, with_intake.
  cbn [candidates intake journal stack_rows standing lineage_nodes lineage_tips pretransition retained verdicts]. f_equal.
Qed.

Lemma start_pending : pending_rows start = [winner_row].
Proof. vm_compute. reflexivity. Qed.

Lemma start_rows rid r : reservations (database_of start) !! rid = Some r -> rid = q_id fast /\ r = winner_reservation.
Proof.
  change (reservations (database_of start)) with (<[q_id fast := winner_reservation]> ∅ : gmap string reservation).
  intros [[<- <-]|[_ []%lookup_empty_Some]]%lookup_insert_Some. done.
Qed.

Lemma start_lease_inv : lease_inv (database_of start).
Proof.
  split; cbn [database_of start intake db rows_db leases lease_members]; try (by intros ? ? ?%lookup_empty_Some);
    try (by intros ? ?%elem_of_nil); try (by intros ? ? ? ? ?%lookup_empty_Some); [|constructor].
  intros rid r. intros [-> ->]%start_rows. reflexivity.
Qed.

Lemma start_stack : evaluation_stack stack_arena start = (start, Ok (lease_stack the_lease)).
Proof. apply evaluation_stack_run. split; [done|]. split; [done|]. exists base_row. split; vm_compute; reflexivity. Qed.

Lemma start_opens : opens start (fun _ => stack_arena).
Proof.
  split; rewrite start_pending.
  - intros k ->%list_elem_of_singleton. exists fast. split; [exact winner_reads|]. split; reflexivity.
  - intros k ->%list_elem_of_singleton. split; [reflexivity|done].
  - intros k ->%list_elem_of_singleton. eexists. exact start_stack.
  - intros k r ->%list_elem_of_singleton [_ ->]%start_rows. exists [("mlp", mkLineage [mkNode (digest_of 97) "" "1.3" (digest_of 101)])].
    apply tips_run. split; [done|]. vm_compute. reflexivity.
Qed.

Lemma start_uncontended : uncontended start.
Proof.
  split; rewrite ?start_pending.
  - intros rid k. cbn [candidates start]. by intros [-> ->]%lookup_singleton_inv.
  - intros r ([rid r'] & -> & H)%list_elem_of_fmap _. apply elem_of_map_to_list, start_rows in H as [-> ->].
    exists winner_row. apply lookup_singleton_eq.
  - intros k k' p r r' rp ->%list_elem_of_singleton _ ->%list_elem_of_singleton. done.
Qed.

Lemma oldest_candidate_is_leased_witness :
  exists s' l c, lease_settlement_cohort (example_config false) 11 30 start = (s', Ok (Some l)) /\
    _settlement_candidate winner_row = Ok c /\ c ∈ lease_candidates l.
Proof.
  exact (oldest_candidate_is_leased (example_config false) 11 30 start start (fun _ => stack_arena) winner_row []
    start_inv ltac:(lia) ltac:(lia) start_prepared start_lease_inv start_pending start_opens start_uncontended).
Defined.
