(* ===== verification/BaselineRun.v ===== *)
(** * The commission gate, run

    A queue of a single row and of a retry group whose two rows an older screen
    bound to a crown, at the gate of the commission: the row is bound to the
    commissioned stack, and the group stays behind the crown. *)

From S2P Require Import Prelude PyVal Dict Identity Strict EvidenceRef Stack Qualification Candidate Settlement Economics Effects Leases Recovery Store Queue LeaseInvariant SettlementExample StackState SettlementRows SettlementStore SettlementJournal SettlementRun Baseline BaselineContracts.

Open Scope Z_scope.

Definition queued_row (n : N) (block : Z) (group : string) (position : Z) : reservation :=
  mkReservation (digest_of n) block 0 0 "5Miner" (digest_of 99) published 1 "root" "" "" "" group position "" "" competition no_columns.

Definition group : string := digest_of 52.

Definition crown_segment : segment := Eval vm_compute in
  match segment_of the_stack with Ok g => g | _ => mkSegment "" 0 "" "" VNone "" end.

Definition queue_rows : list reservation :=
  [queued_row 49 5 "" 0; queued_row 50 3 group 0; queued_row 51 4 group 1].

Definition gate_db : settlement_db :=
  mkSettlementDb
    (mkStore (with_segments {[digest_of 50 := crown_segment; digest_of 51 := crown_segment]} (rows_db queue_rows)) ∅ ∅)
    ∅ [] {[stack_arena := base_row]} ∅ ∅ ∅ ∅ ∅ [].

Definition gated : settlement_db * result (option (string * string * string)) :=
  commission_boundary competition current_stack current_tree gate_db.

Definition boundary : option (string * string * string) := Eval vm_compute in the None gated.2.

Lemma gate_ran : commission_boundary competition current_stack current_tree gate_db = (gated.1, Ok boundary).
Proof. vm_compute. reflexivity. Qed.

Lemma gate_rows rid r : reservations (database_of gate_db) !! rid = Some r -> r_id r = rid /\ r_status r = published.
Proof.
  cbn [database_of gate_db intake db rows_db with_segments reservations queue_rows fmap list_fmap list_to_map r_id queued_row foldr uncurry].
  rewrite !lookup_insert_Some, lookup_empty. intros [[<- <-]|[_ [[<- <-]|[_ [[<- <-]|[_ ?]]]]]]; done.
Qed.

Lemma gate_lease_inv : lease_inv (database_of gate_db).
Proof.
  split; cbn [database_of gate_db intake db rows_db with_segments leases lease_members]; try (by intros ? ? ?%lookup_empty_Some);
    try (by intros ? ? %elem_of_nil); try (by intros ? ? ? ? ?%lookup_empty_Some); [|constructor].
  intros rid r Hr. by apply gate_rows in Hr as [-> _].
Qed.

Lemma gate_stack : evaluation_stack (Stack.s_arena current_stack) gate_db = (gate_db, Ok (lease_stack the_lease)).
Proof. apply evaluation_stack_run. split; [done|]. split; [done|]. exists base_row. split; vm_compute; reflexivity. Qed.

Definition commissioned_digest : string := Eval vm_compute in the "" (manifest_digest current_stack).

Lemma commissioned_digest_ok : manifest_digest current_stack = Ok commissioned_digest.
Proof. vm_compute. reflexivity. Qed.

Lemma commission_binds_unmeasured_witness :
  is_unmeasured competition (database_of gate_db) (queued_row 49 5 "" 0) = true /\
  bound_at commissioned_digest current_tree (digest_of 49) (database_of gated.1).
Proof.
  assert (E : is_unmeasured competition (database_of gate_db) (queued_row 49 5 "" 0) = true) by (vm_compute; reflexivity).
  split; [exact E|].
  destruct (commission_binds_unmeasured competition current_stack current_tree gate_db gated.1 boundary commissioned_digest
    gate_lease_inv commissioned_digest_ok gate_ran) as (_ & H & _).
  specialize (H (digest_of 49) (queued_row 49 5 "" 0) ltac:(vm_compute; reflexivity) eq_refl). rewrite E in H. exact H.
Defined.

Lemma crown_bound : group_bound group crown_segment (database_of gate_db).
Proof.
  intros k (r & Hr & _ & Hg). revert Hr Hg.
  cbn [database_of gate_db intake db rows_db with_segments reservations queue_rows fmap list_fmap list_to_map r_id queued_row foldr uncurry].
  intros Hr. rewrite !lookup_insert_Some, lookup_empty in Hr. revert Hr.
  intros [[<- <-]|[_ [[<- <-]|[_ [[<- <-]|[_ ?]]]]]] Hg; [discriminate Hg|vm_compute; reflexivity..|done].
Qed.

(** The group stays on the crown, and the gate answers with a boundary. *)
Lemma gate_keeps_groups_witness :
  boundary = Some (commissioned_digest, s_stack_digest crown_segment, s_tree_digest crown_segment) /\
  group_bound group crown_segment (database_of gated.1).
Proof.
  split; [vm_compute; reflexivity|].
  exact (gate_keeps_groups competition current_stack current_tree gate_db gated.1 (lease_stack the_lease) boundary group crown_segment
    (digest_of 50) (digest_of 51) gate_lease_inv gate_stack ltac:(done) ltac:(done)
    (ex_intro _ (queued_row 50 3 group 0) (conj eq_refl (conj eq_refl eq_refl)))
    (ex_intro _ (queued_row 51 4 group 1) (conj eq_refl (conj eq_refl eq_refl))) ltac:(reflexivity) crown_bound gate_ran).
Defined.
