(* ===== verification/CohortRun.v ===== *)
(** * A cohort, run

    Two published submissions are claimed under one authority, their run fails,
    and the batch of the undecided cohort is stored: each of them goes back to
    the queue in a group of its own. *)

From S2P Require Import Prelude PyVal Dict Identity Strict EvidenceRef Fingerprint Stack Qualification Candidate Settlement SettlementRecords SettlementExample Economics Effects Leases Recovery Store Queue LeaseInvariant Admission AdmissionContracts Copies CopyContracts QualificationIntake CohortRecords StackState SettlementRows SettlementStore QualificationProgress CohortContracts.

Open Scope Z_scope.

Definition other_delta : SubmittedDeltaFingerprint :=
  mkFingerprint "component" "mlp" (hex 100) ["model.layers.0.mlp"] (hex 100) (hex 101) (hex 102) [] [].

Definition other_bob : reservation := Eval vm_compute in
  publish_row published "" other_delta (hex 100) "/bundles" "" (fetched_row (example_arrival "bob" 1 7)).

Definition entry_of (f : SubmittedDeltaFingerprint) (order : Z) (r : reservation) : QualificationReservation :=
  mkEntry (r_id r) (r_content_hash r) (f_target f) (f_selected f) order (r_hotkey r) (r_block r) (r_event_index r)
    (r_event_subindex r) (f_members f).

Definition cohort_authority : QualificationAuthorityManifest := Eval vm_compute in
  mkAuthority "registered" (hex 97) (hex 98) (hex 99) (hex 100) [f_selected example_delta; f_selected other_delta]
    [entry_of example_delta 0 alice; entry_of other_delta 1 other_bob].

Definition cohort_digest : string := Eval vm_compute in the "" (authority_digest cohort_authority).

Definition engine_stopped : exn := Exn "RuntimeError" "engine stopped".

Definition cohort_failure : string := Eval vm_compute in the "" (_failure_digest cohort_authority engine_stopped).

Lemma cohort_digest_ok : authority_digest cohort_authority = Ok cohort_digest.
Proof. vm_compute. reflexivity. Qed.

Lemma cohort_failure_ok : _failure_digest cohort_authority engine_stopped = Ok cohort_failure.
Proof. vm_compute. reflexivity. Qed.

Lemma cohort_accepted : accepted_authority cohort_authority.
Proof.
  split.
  - apply Forall_cons. split; [|apply Forall_cons; split; [|constructor]].
    + exists (entry_rows (entry_of example_delta 0 alice)), (VStr <$> f_members example_delta). vm_compute. reflexivity.
    + exists (entry_rows (entry_of other_delta 1 other_bob)), (VStr <$> f_members other_delta). vm_compute. reflexivity.
  - exists (authority_rows cohort_authority), (VStr <$> am_deltas cohort_authority). vm_compute. reflexivity.
Qed.

Lemma authority_reload_witness : authority_from_dict (authority_to_dict cohort_authority) = Ok cohort_authority.
Proof. exact (proj1 (authority_reload cohort_authority cohort_accepted)). Defined.

Lemma no_decision_batch_total_witness :
  exists b, _no_decision_batch cohort_authority engine_stopped "qualification_failed" = Ok b /\ length (b_outcomes b) = 2%nat.
Proof.
  destruct (no_decision_batch_total cohort_authority engine_stopped "qualification_failed" cohort_digest cohort_failure cohort_accepted
    eq_refl cohort_digest_ok ltac:(vm_compute; discriminate) cohort_failure_ok ltac:(vm_compute; discriminate))
    as (b & p & Hb & _ & _ & Ho & _).
  exists b. split; [exact Hb|]. rewrite Ho. reflexivity.
Defined.

(** ** Storing the batch *)

Definition no_batch : QualificationIntakeBatch := mkBatch "" [] None None.

Definition cohort_batch : QualificationIntakeBatch := Eval vm_compute in
  the no_batch (_no_decision_batch cohort_authority engine_stopped "qualification_failed").

Definition claimed (r : reservation) : reservation :=
  qualifying_row "primary" cohort_digest (hex 101) (authority_to_dict cohort_authority) r.

Definition cohort_db : settlement_db :=
  mkSettlementDb (mkStore (rows_db [claimed alice; claimed other_bob]) ∅ ∅) ∅ [] ∅ ∅ ∅ ∅ ∅ ∅ [].

Definition stored : settlement_db * result (list IntakeReservation) :=
  apply_qualification_batch (example_config false) cohort_batch 9 None cohort_db.

Definition returned : list IntakeReservation := Eval vm_compute in the [] stored.2.

Lemma cohort_stored : apply_qualification_batch (example_config false) cohort_batch 9 None cohort_db = (stored.1, Ok returned).
Proof. vm_compute. reflexivity. Qed.

(** Both are queued again, behind different groups. *)
Lemma batch_contract_witness :
  ((fun i => r_status (i_row i)) <$> returned = [published; published] /\
   NoDup ((fun i => r_retry_group (i_row i)) <$> returned)) /\
  dispositions (database_of stored.1) = [r_id alice; r_id other_bob].
Proof.
  split; [split; [reflexivity|apply (bool_decide_unpack _); vm_compute; exact I]|].
  destruct (batch_contract (example_config false) cohort_batch 9 None cohort_db stored.1 returned
    ltac:(vm_compute; reflexivity) cohort_stored) as (_ & _ & H & _). exact H.
Defined.

(** ** A completed run

    One report fails its member, the other decides nothing. *)

Definition too_slow : CandidateReport := mkReport (f_selected example_delta) FAIL "too_slow" false (hex 102) None.
Definition undecided_report : CandidateReport := mkReport (f_selected other_delta) NO_DECISION "noise" true (hex 49) None.

Definition cohort_attempt : CohortAttempt := mkAttempt (hex 97) (hex 98) [too_slow; undecided_report].

Definition run_batch : QualificationIntakeBatch := Eval vm_compute in
  the no_batch (attempt_batch cohort_authority (sample_ref 97) cohort_attempt).

Lemma run_batch_ok : attempt_batch cohort_authority (sample_ref 97) cohort_attempt = Ok run_batch.
Proof. vm_compute. reflexivity. Qed.

Definition decided : settlement_db * result (list IntakeReservation) :=
  apply_qualification_batch (example_config false) run_batch 9 None cohort_db.

Definition decided_rows : list IntakeReservation := Eval vm_compute in the [] decided.2.

Lemma run_stored : apply_qualification_batch (example_config false) run_batch 9 None cohort_db = (decided.1, Ok decided_rows).
Proof. vm_compute. reflexivity. Qed.

Lemma reports_decide_witness :
  exists r, reservations (database_of decided.1) !! r_id other_bob = Some r /\ r_status r = held.
Proof.
  destruct (reports_decide (example_config false) cohort_authority (sample_ref 97) cohort_attempt run_batch 9 None cohort_db decided.1
    decided_rows 1%nat (entry_of other_delta 1 other_bob) undecided_report run_batch_ok run_stored eq_refl eq_refl) as (r & Hr & _ & Hst & _).
  exists r. split; [exact Hr|exact Hst].
Defined.
